(** * Megatron distributed optimizer: index mapping and checkpoint resharding

    A shallow embedding of [megatron/core/optimizer/distrib_optimizer.py].
    Python integers are [Z]; Python dicts, whose iteration order is their
    insertion order, are association lists; exceptions are the [Raise]
    branch of a small error monad. *)

From stdpp Require Import functions sorting base numbers list strings pretty.

Local Open Scope Z_scope.

(** ** Exceptions and the error monad *)

Inductive exn : Type :=
  | AssertionError (msg : string)
  | TypeError (msg : string)
  | ValueError (msg : string)
  | RuntimeError (msg : string)
  | UnboundLocalError (name : string)
  | KeyError
  | IndexError
  | ZeroDivisionError.

Inductive result (A : Type) : Type :=
  | Ok (a : A)
  | Raise (e : exn).
Arguments Ok {A} a.
Arguments Raise {A} e.

#[global] Instance result_ret : MRet result := fun A a => Ok a.
#[global] Instance result_bind : MBind result := fun A B k m =>
  match m with
  | Ok a => k a
  | Raise e => Raise e
  end.

#[global] Instance result_fmap : FMap result := fun A B f m =>
  match m with
  | Ok a => Ok (f a)
  | Raise e => Raise e
  end.

(** [assert cond, msg] *)
Definition py_assert (cond : bool) (msg : string) : result unit :=
  if cond then Ok tt else Raise (AssertionError msg).

(** [d[k]] on a missing key, [l[i]] out of range *)
Definition or_raise {A} (e : exn) (o : option A) : result A :=
  match o with
  | Some a => Ok a
  | None => Raise e
  end.

(** [for x in xs: body] threading an accumulator through a fallible body. *)
Fixpoint foldM {A S} (body : S -> A -> result S) (xs : list A) (s : S) : result S :=
  match xs with
  | [] => Ok s
  | x :: xs' => s' ← body s x; foldM body xs' s'
  end.

(** [range(n)]: empty when [n <= 0]. *)
Definition py_range (n : Z) : list Z := Z.of_nat <$> seq 0 (Z.to_nat n).

(** ** Python dicts: insertion-ordered association lists *)

Module Dict.
Section dict.
Context {K V : Type} `{EqDecision K}.

Definition t := list (K * V).

Fixpoint get (d : list (K * V)) (k : K) : option V :=
  match d with
  | [] => None
  | (k', v) :: d' => if decide (k' = k) then Some v else get d' k
  end.

(** [d[k] = v]: an existing key keeps its position, a new key goes last. *)
Fixpoint set (d : list (K * V)) (k : K) (v : V) : list (K * V) :=
  match d with
  | [] => [(k, v)]
  | (k', v') :: d' =>
      if decide (k' = k) then (k', v) :: d' else (k', v') :: set d' k v
  end.

Definition keys (d : list (K * V)) : list K := fst <$> d.

Definition mem (d : list (K * V)) (k : K) : bool :=
  match get d k with Some _ => true | None => false end.

(** [del d[k]], the dict that [d.pop(k)] leaves. *)
Definition remove (d : list (K * V)) (k : K) : list (K * V) :=
  filter (fun kv => kv.1 <> k) d.
End dict.
End Dict.

(** ** Range (lines 59-88) *)

Record Range : Type := mkRange_ { start : Z; end_ : Z; size : Z }.

(** [Range.__init__]: [size] is computed once, at construction. *)
Definition mkRange (s e : Z) : Range :=
  {| start := s; end_ := e; size := e - s |}.

Definition normalize (r : Range) (s : Z) : Range := mkRange s (s + size r).

(** [x] lies in the half-open interval of [r]. *)
Definition in_range (x : Z) (r : Range) : Prop := start r <= x < end_ r.

Definition disjoint_ranges (a b : Range) : Prop :=
  forall x, ~ (in_range x a /\ in_range x b).

(** ** BufferPartitioner: the shard ranges of [_build_model_gbuf_range]
    (lines 171-191) *)

Definition divisible_msg (W : Z) : string :=
  "Each bucket's buffer size should be divisible by " +:+ pretty W.

Definition gbuf_world_all_ranges (gbuf_size W bucket_offset : Z)
  : result (list Range) :=
  if decide (W = 0) then Raise ZeroDivisionError else
  py_assert (bool_decide (gbuf_size `mod` W = 0)) (divisible_msg W);;
  let max_gbuf_range_size := gbuf_size `div` W in
  Ok ((fun r =>
         let gbuf_world_start := r * max_gbuf_range_size in
         let gbuf_world_end :=
           Z.min gbuf_size (gbuf_world_start + max_gbuf_range_size) in
         mkRange (gbuf_world_start + bucket_offset)
                 (gbuf_world_end + bucket_offset)) <$> py_range W).

(** ** ParamRangeMapper: [_build_model_gbuf_param_range_map] (lines 98-157) *)

(** A [torch.nn.Parameter] is hashed by identity; a dict keyed by parameters
    is keyed by that identity. *)
Definition param_id := nat.

(** The four coordinate frames recorded for an owned parameter. *)
Record ParamRanges : Type := {
  gbuf_world : Range;
  gbuf_world_in_bucket : Range;
  gbuf_local : Range;
  param : Range
}.

(** The values of [param_index_map]: [(start, end, bucket_id)]. *)
Definition world_indexes : Type := Z * Z * Z.

Definition _build_model_gbuf_param_range_map
    (param_world_index_map : list (param_id * world_indexes))
    (gbuf_world_range : Range) (bucket_offset : Z)
  : list (param_id * ParamRanges) :=
  foldl (fun param_range_map '(p, (param_world_start, param_world_end, _)) =>
    let param_local_start :=
      Z.max 0 (param_world_start - start gbuf_world_range) in
    let param_local_end :=
      Z.min (size gbuf_world_range)
            (param_world_end - start gbuf_world_range) in
    if decide (param_local_end > param_local_start) then
      let param_local_range := mkRange param_local_start param_local_end in
      let param_world_range :=
        normalize param_local_range
                  (param_local_start + start gbuf_world_range) in
      let param_world_range_in_bucket :=
        mkRange (start param_world_range - bucket_offset)
                (end_ param_world_range - bucket_offset) in
      let sub_param_start :=
        Z.max 0 (start gbuf_world_range - param_world_start) in
      let sub_param_range := normalize param_local_range sub_param_start in
      Dict.set param_range_map p
        {| gbuf_world := param_world_range;
           gbuf_world_in_bucket := param_world_range_in_bucket;
           gbuf_local := param_local_range;
           param := sub_param_range |}
    else param_range_map)
  [] param_world_index_map.

(** ** [_build_model_gbuf_range] and [_build_gbuf_range_map] (lines 159-224) *)

Inductive torch_dtype : Type :=
  | float32 | float16 | bfloat16 | float64 | uint8.

#[global] Instance torch_dtype_eq_dec : EqDecision torch_dtype.
Proof. solve_decision. Defined.

(** The key of a grad buffer: [(param_dtype, grad_dtype)]. *)
Definition dtype_pair : Type := torch_dtype * torch_dtype.

(** What this file reads of a bucket of [_ParamAndGradBuffer]. *)
Record Bucket : Type := {
  offset : Z;              (* bucket.offset *)
  grad_data_numel : Z;     (* bucket.grad_data.numel() *)
  numel_unpadded : Z       (* bucket.numel_unpadded *)
}.

(** What the range builders read of a [_ParamAndGradBuffer]. *)
Record ParamAndGradBuffer : Type := {
  data_parallel_rank : nat;          (* get_rank(data_parallel_group) *)
  data_parallel_world_size : Z;      (* data_parallel_group.size() *)
  param_dtype : torch_dtype;
  grad_dtype : torch_dtype;
  buckets : list Bucket;
  param_index_map : list (param_id * world_indexes);
  buffer_numel_unpadded : Z;         (* buffer.numel_unpadded *)
  buffer_params : list param_id;     (* buffer.params *)
  param_indices : list Z             (* buffer.param_indices *)
}.

(** The per-bucket result, the dict [{"param_map": ...}]. *)
Record GbufRange : Type := {
  param_map : list (param_id * ParamRanges)
}.

Definition _build_model_gbuf_range
    (param_and_grad_buffer : ParamAndGradBuffer) (bucket_index : nat)
  : result GbufRange :=
  bucket ← or_raise IndexError (buckets param_and_grad_buffer !! bucket_index);
  gbuf_world_all_ranges ←
    gbuf_world_all_ranges (grad_data_numel bucket)
      (data_parallel_world_size param_and_grad_buffer) (offset bucket);
  gbuf_world_range ←
    or_raise IndexError
      (gbuf_world_all_ranges !! data_parallel_rank param_and_grad_buffer);
  let param_range_map :=
    _build_model_gbuf_param_range_map
      (param_index_map param_and_grad_buffer) gbuf_world_range (offset bucket) in
  Ok {| param_map := param_range_map |}.

(** [[f(i) for i in range(n)]] with a fallible [f]. *)
Fixpoint mapM {A B} (f : A -> result B) (xs : list A) : result (list B) :=
  match xs with
  | [] => Ok []
  | x :: xs' => y ← f x; ys ← mapM f xs'; Ok (y :: ys)
  end.

(** One grad buffer's ranges: a dict with the single key
    [(param_dtype, grad_dtype)]. *)
Definition gbuf_range_map_t : Type := list (dtype_pair * list GbufRange).

Definition _build_gbuf_range_map (param_and_grad_buffer : ParamAndGradBuffer)
  : result gbuf_range_map_t :=
  ranges ← mapM (_build_model_gbuf_range param_and_grad_buffer)
                (seq 0 (length (buckets param_and_grad_buffer)));
  Ok [((param_dtype param_and_grad_buffer, grad_dtype param_and_grad_buffer),
       ranges)].

(** ** Scenarios of the specification's testable properties *)

(** A bucket of size 100 split over 4 ranks, holding one parameter whose
    world range [[90,110)] runs past the bucket; seen from rank [rank]. *)
Definition straddling_buffer (rank : nat) : ParamAndGradBuffer :=
  {| data_parallel_rank := rank;
     data_parallel_world_size := 4;
     param_dtype := float32;
     grad_dtype := float32;
     buckets := [{| offset := 0; grad_data_numel := 100; numel_unpadded := 100 |}];
     param_index_map := [(0%nat, (90, 110, 0))];
     buffer_numel_unpadded := 100;
     buffer_params := [0%nat];
     param_indices := [0] |}.

(** ** GroupAssembler: [_build_optimizer_group_ranges] (lines 245-290) *)

(** [enumerate(xs)] *)
Definition enumerate {A} (xs : list A) : list (nat * A) := imap pair xs.

(** An optimizer parameter group: the dict with the key ["params"] beside the
    group's hyper-parameters, which this file never reads. *)
Module ParamGroup.
Record t (P : Type) : Type := mk { params : list P; hyper : list (string * Z) }.
Arguments mk {P} params hyper.
Arguments params {P} _.
Arguments hyper {P} _.
End ParamGroup.

(** A group range: the dict [{"params": [...]}], to which the last loop adds
    ["orig_group"] and ["orig_group_idx"]. Both are references to the
    [group_index]-th dict of [param_groups], held here as that index. *)
Module GroupRange.
Record t : Type := mk {
  params : list param_id;
  orig_group : option nat;
  orig_group_idx : option nat
}.
End GroupRange.

(** The gbuf ranges of an optimizer: per grad buffer, the dict from dtype pair
    to the per-bucket ranges. *)
Definition gbuf_ranges_t : Type := list gbuf_range_map_t.

(** The parameters the nest
    [for gbuf_range_map in gbuf_ranges: for dtype, buckets in ....items():
     for gbuf_range_map in buckets: for param in gbuf_range_map["param_map"]]
    visits, in order. *)
Definition owned_params (gbuf_ranges : gbuf_ranges_t) : list param_id :=
  gbuf_range_map ← gbuf_ranges;
  '(_, gbuf_range_map_for_all_buckets) ← gbuf_range_map;
  gbuf_range_map ← gbuf_range_map_for_all_buckets;
  Dict.keys (param_map gbuf_range_map).

Definition _build_optimizer_group_ranges
    (requires_grad : param_id -> bool)
    (param_groups : list (ParamGroup.t param_id))
    (gbuf_ranges : gbuf_ranges_t)
  : result (list (param_id * (nat * nat)) * list GroupRange.t) :=
  world_param_group_map ←
    foldM (fun world_param_group_map '(group_index, group) =>
      foldM (fun (world_param_group_map : list (param_id * nat)) param =>
        py_assert (requires_grad param) EmptyString;;
        Ok (Dict.set world_param_group_map param group_index))
      (ParamGroup.params group) world_param_group_map)
    (enumerate param_groups) [];
  let group_ranges :=
    (fun _ => GroupRange.mk [] None None) <$> param_groups in
  '(local_param_group_map, group_ranges) ←
    foldM (fun st gbuf_range_map =>
      foldM (fun st '(_, gbuf_range_map_for_all_buckets) =>
        foldM (fun st gbuf_range_map =>
          foldM (fun '(local_param_group_map, group_ranges) param =>
            group_index ←
              or_raise KeyError (Dict.get world_param_group_map param);
            group_range ←
              or_raise IndexError (group_ranges !! group_index);
            let group_range :=
              GroupRange.mk (GroupRange.params group_range ++ [param])
                            (GroupRange.orig_group group_range)
                            (GroupRange.orig_group_idx group_range) in
            Ok (Dict.set local_param_group_map param
                  (group_index,
                   (length (GroupRange.params group_range) - 1)%nat),
                <[group_index := group_range]> group_ranges))
          (Dict.keys (param_map gbuf_range_map)) st)
        gbuf_range_map_for_all_buckets st)
      (gbuf_range_map : gbuf_range_map_t) st)
    gbuf_ranges ([], group_ranges);
  let group_ranges :=
    imap (fun group_index group_range =>
            GroupRange.mk (GroupRange.params group_range)
                          (Some group_index) (Some group_index))
         group_ranges in
  Ok (local_param_group_map, group_ranges).

(** Two optimizer groups, of which this rank owns a shard of parameter 1
    only: the second group stays empty. *)
Definition assembler_groups : list (ParamGroup.t param_id) :=
  [ParamGroup.mk [0%nat; 1%nat] []; ParamGroup.mk [2%nat] []].

Definition assembler_gbuf_ranges : gbuf_ranges_t :=
  [[((float32, float32),
     [{| param_map :=
           [(1%nat, {| gbuf_world := mkRange 30 50;
                       gbuf_world_in_bucket := mkRange 30 50;
                       gbuf_local := mkRange 5 25;
                       param := mkRange 0 20 |})] |}])]].

(** ** [_build_model_param_gbuf_map] (lines 226-243) *)

Definition single_bucket_msg : string :=
  "Param should not be in param_gbuf_map; each param only belongs to a single bucket.".

Definition _build_model_param_gbuf_map (gbuf_ranges : gbuf_ranges_t)
  : result (list (param_id * (nat * dtype_pair * nat))) :=
  foldM (fun param_gbuf_map '(gbuf_index, gbuf_range_map) =>
    foldM (fun param_gbuf_map '(dtype, gbuf_range_map_for_all_buckets) =>
      foldM (fun param_gbuf_map '(bucket_index, gbuf_range_map) =>
        foldM (fun (param_gbuf_map : list (param_id * (nat * dtype_pair * nat)))
                   '(param, _) =>
          py_assert (negb (Dict.mem param_gbuf_map param)) single_bucket_msg;;
          Ok (Dict.set param_gbuf_map param (gbuf_index, dtype, bucket_index)))
        (param_map gbuf_range_map) param_gbuf_map)
      (enumerate gbuf_range_map_for_all_buckets) param_gbuf_map)
    (gbuf_range_map : gbuf_range_map_t) param_gbuf_map)
  (enumerate gbuf_ranges) [].

(** ** ShardMaterializer: [_build_model_and_main_param_groups]
    (lines 292-418) *)

(** The value of a tensor element. Elements are only moved and cast between
    float types here, never computed on, so a number stands for each. *)
Definition scalar : Type := Z.

(** [x[i:j]] on a flat tensor or list, with Python's clamping and its
    negative indexes counted from the end. *)
Definition slice_index (n i : Z) : Z :=
  if decide (i < 0) then Z.max 0 (i + n) else Z.min i n.

Definition py_slice {A} (l : list A) (i j : Z) : list A :=
  let n := Z.of_nat (length l) in
  let i' := slice_index n i in
  let j' := slice_index n j in
  take (Z.to_nat (j' - i')) (drop (Z.to_nat i') l).

(** What the materializer reads of a model parameter. [attrs] stands for the
    tensor-parallel attributes that
    [tensor_parallel.copy_tensor_model_parallel_attributes] copies, and
    [high_precision_init_val] is [Some] while the parameter has the method
    [get_high_precision_init_val]. *)
Record ModelParam : Type := {
  requires_grad : bool;
  type_ : string;                              (* model_param.type() *)
  param_torch_dtype : torch_dtype;             (* model_param.dtype *)
  flat : list scalar;                          (* model_param.view(-1) *)
  float8 : bool;                               (* is_float8tensor(model_param) *)
  high_precision_init_val : option (list scalar);
  attrs : option (bool * Z * Z);
  shared : option bool
}.

(** A shard produced for the optimizer: a view into the model parameter's
    storage ([is_view]) or a float32 clone of it. *)
Record Shard : Type := {
  shard_of : param_id;
  is_view : bool;
  shard_values : list scalar;
  shard_attrs : option (bool * Z * Z);
  shard_shared : option bool
}.

(** The objects a parameter group's ["params"] may hold: the model parameters
    it starts with, or the shards the materializer puts in their place. *)
Inductive group_entry : Type :=
  | ModelRef (p : param_id)
  | ShardRef (s : Shard).

(** The five lists of groups the materializer returns. *)
Record MainParamGroups : Type := {
  model_float16_groups : list (list param_id);
  model_fp32_groups : list (list param_id);
  shard_float16_groups : list (list Shard);
  shard_fp32_groups : list (list Shard);
  shard_fp32_from_float16_groups : list (list Shard)
}.

Definition unsupported_type_msg (ty : string) : string :=
  "Wrapped parameters must be one of torch.cuda.FloatTensor,  torch.cuda.HalfTensor, or torch.cuda.BFloat16Tensor. Received " +:+ ty.

(** The state of the loop over one group's parameters: the model parameters
    (one of which may lose its high-precision initial value) and the five
    [..._this_group] lists. *)
Record GroupLists : Type := {
  model_float16_params_this_group : list param_id;
  model_fp32_params_this_group : list param_id;
  shard_float16_params_this_group : list Shard;
  shard_fp32_params_this_group : list Shard;
  shard_fp32_from_float16_params_this_group : list Shard
}.

(** The body of [for model_param in group_range["params"]] (lines 337-404). *)
Definition materialize_param
    (gbuf_ranges : gbuf_ranges_t)
    (param_gbuf_map : list (param_id * (nat * dtype_pair * nat)))
    (st : (param_id -> ModelParam) * GroupLists) (model_param : param_id)
  : result ((param_id -> ModelParam) * GroupLists) :=
  let '(heap, this_group) := st in
  let mp := heap model_param in
  py_assert (requires_grad mp) EmptyString;;
  '(gbuf_index, dtype, bucket_index) ←
    or_raise KeyError (Dict.get param_gbuf_map model_param);
  gbuf_range_map ← or_raise IndexError (gbuf_ranges !! gbuf_index);
  gbuf_range_map_for_all_buckets ←
    or_raise KeyError (Dict.get (gbuf_range_map : gbuf_range_map_t) dtype);
  gbuf_range ←
    or_raise IndexError (gbuf_range_map_for_all_buckets !! bucket_index);
  ranges ← or_raise KeyError (Dict.get (param_map gbuf_range) model_param);
  let param_range := param ranges in
  if bool_decide (type_ mp ∈ ["torch.cuda.HalfTensor";
                               "torch.cuda.BFloat16Tensor"]) then
    let shard_model_param :=
      {| shard_of := model_param; is_view := true;
         shard_values := py_slice (flat mp) (start param_range) (end_ param_range);
         shard_attrs := attrs mp; shard_shared := shared mp |} in
    let '(main_values, heap) :=
      match float8 mp, high_precision_init_val mp with
      | true, Some init =>
          (py_slice init (start param_range) (end_ param_range),
           <[model_param :=
               {| requires_grad := requires_grad mp; type_ := type_ mp;
                  param_torch_dtype := param_torch_dtype mp;
                  flat := flat mp; float8 := float8 mp;
                  high_precision_init_val := None;
                  attrs := attrs mp; shared := shared mp |}]> heap)
      | _, _ => (shard_values shard_model_param, heap)
      end in
    let shard_main_param :=
      {| shard_of := model_param; is_view := false;
         shard_values := main_values;
         shard_attrs := attrs mp; shard_shared := shared mp |} in
    Ok (heap,
        {| model_float16_params_this_group :=
             model_float16_params_this_group this_group ++ [model_param];
           model_fp32_params_this_group :=
             model_fp32_params_this_group this_group;
           shard_float16_params_this_group :=
             shard_float16_params_this_group this_group ++ [shard_model_param];
           shard_fp32_params_this_group :=
             shard_fp32_params_this_group this_group;
           shard_fp32_from_float16_params_this_group :=
             shard_fp32_from_float16_params_this_group this_group
               ++ [shard_main_param] |})
  else if bool_decide (type_ mp = "torch.cuda.FloatTensor") then
    let shard_model_param :=
      {| shard_of := model_param; is_view := true;
         shard_values := py_slice (flat mp) (start param_range) (end_ param_range);
         shard_attrs := attrs mp; shard_shared := shared mp |} in
    Ok (heap,
        {| model_float16_params_this_group :=
             model_float16_params_this_group this_group;
           model_fp32_params_this_group :=
             model_fp32_params_this_group this_group ++ [model_param];
           shard_float16_params_this_group :=
             shard_float16_params_this_group this_group;
           shard_fp32_params_this_group :=
             shard_fp32_params_this_group this_group ++ [shard_model_param];
           shard_fp32_from_float16_params_this_group :=
             shard_fp32_from_float16_params_this_group this_group |})
  else Raise (TypeError (unsupported_type_msg (type_ mp))).
Arguments materialize_param : simpl never.

Definition no_params_this_group : GroupLists :=
  {| model_float16_params_this_group := [];
     model_fp32_params_this_group := [];
     shard_float16_params_this_group := [];
     shard_fp32_params_this_group := [];
     shard_fp32_from_float16_params_this_group := [] |}.

(** [param_groups] holds the dicts that the group ranges' ["orig_group"]
    refer to; the assignment [group_range["orig_group"]["params"] = [...]]
    updates the dict referred to. The [..._this_group] lists are appended to
    the five results when the group's loop is over: they are only observable
    once the function has returned. *)
Definition _build_model_and_main_param_groups
    (heap : param_id -> ModelParam)
    (param_groups : list (ParamGroup.t group_entry))
    (gbuf_ranges : gbuf_ranges_t)
    (param_gbuf_map : list (param_id * (nat * dtype_pair * nat)))
    (opt_group_ranges : list GroupRange.t)
  : result ((param_id -> ModelParam) * list (ParamGroup.t group_entry)
            * MainParamGroups) :=
  foldM (fun '(heap, param_groups, groups) group_range =>
    '(heap, this_group) ←
      foldM (materialize_param gbuf_ranges param_gbuf_map)
            (GroupRange.params group_range) (heap, no_params_this_group);
    orig_group ← or_raise KeyError (GroupRange.orig_group group_range);
    group ← or_raise IndexError (param_groups !! orig_group);
    let param_groups :=
      <[orig_group :=
          ParamGroup.mk
            (ShardRef <$> (shard_fp32_params_this_group this_group
                           ++ shard_fp32_from_float16_params_this_group this_group))
            (ParamGroup.hyper group)]> param_groups in
    Ok (heap, param_groups,
        {| model_float16_groups :=
             model_float16_groups groups
               ++ [model_float16_params_this_group this_group];
           model_fp32_groups :=
             model_fp32_groups groups
               ++ [model_fp32_params_this_group this_group];
           shard_float16_groups :=
             shard_float16_groups groups
               ++ [shard_float16_params_this_group this_group];
           shard_fp32_groups :=
             shard_fp32_groups groups
               ++ [shard_fp32_params_this_group this_group];
           shard_fp32_from_float16_groups :=
             shard_fp32_from_float16_groups groups
               ++ [shard_fp32_from_float16_params_this_group this_group] |}))
  opt_group_ranges
  (heap, param_groups,
   {| model_float16_groups := []; model_fp32_groups := [];
      shard_float16_groups := []; shard_fp32_groups := [];
      shard_fp32_from_float16_groups := [] |}).

(** The closed set of storage types the materializer accepts. *)
Definition supported_type (ty : string) : Prop :=
  ty ∈ ["torch.cuda.HalfTensor"; "torch.cuda.BFloat16Tensor";
        "torch.cuda.FloatTensor"].

(** The lookups of lines 341-343 find the parameter's ranges. *)
Definition locatable (gbuf_ranges : gbuf_ranges_t)
    (param_gbuf_map : list (param_id * (nat * dtype_pair * nat)))
    (p : param_id) : Prop :=
  exists gbuf_index dtype bucket_index
         (gbuf_range_map : gbuf_range_map_t) all_buckets gbuf_range ranges,
    Dict.get param_gbuf_map p = Some (gbuf_index, dtype, bucket_index)
    /\ gbuf_ranges !! gbuf_index = Some gbuf_range_map
    /\ Dict.get gbuf_range_map dtype = Some all_buckets
    /\ all_buckets !! bucket_index = Some gbuf_range
    /\ Dict.get (param_map gbuf_range) p = Some ranges.

(** Materializing a parameter may drop its high-precision initial value, and
    changes nothing else of the model parameters. *)
Definition same_tags (h h' : param_id -> ModelParam) : Prop :=
  forall q, type_ (h' q) = type_ (h q)
            /\ requires_grad (h' q) = requires_grad (h q).

#[global] Instance supported_type_dec ty : Decision (supported_type ty).
Proof. unfold supported_type. apply _. Defined.

(** A float64 parameter, which the materializer does not accept, owned in
    part by this rank. *)
Definition double_param_heap (p : param_id) : ModelParam :=
  {| requires_grad := true;
     type_ := "torch.cuda.DoubleTensor";
     param_torch_dtype := float64;
     flat := [1; 2; 3];
     float8 := false;
     high_precision_init_val := None;
     attrs := None;
     shared := None |}.

(** ** Tensors, the optimizer and checkpoint metadata *)

(** A tensor object is known by its identity; the store maps the identity to
    the tensor's dtype and flat contents, and hands out fresh identities to
    the tensors that [torch.empty] and [torch.empty_like] create. Model
    parameters are tensors too: [param_id] and [tensor_id] are one space. *)
Definition tensor_id := nat.

Record Tensor : Type := { dtype : torch_dtype; values : list scalar }.

Record Store : Type := { tensor_of : tensor_id -> Tensor; next_id : tensor_id }.

(** [torch.empty(n, dtype=...)]: the contents are unspecified; zeros stand
    for them. *)
Definition torch_empty (store : Store) (n : Z) (dt : torch_dtype)
  : tensor_id * Store :=
  (next_id store,
   {| tensor_of :=
        <[next_id store := {| dtype := dt; values := replicate (Z.to_nat n) 0 |}]>
          (tensor_of store);
      next_id := S (next_id store) |}).

(** [torch.empty_like(t)] *)
Definition torch_empty_like (store : Store) (t : tensor_id) : tensor_id * Store :=
  torch_empty store (Z.of_nat (length (values (tensor_of store t))))
              (dtype (tensor_of store t)).

(** [{**d, **items}]: later keys override, new keys go last. *)
Definition dict_update {K V} `{EqDecision K} (d items : list (K * V))
  : list (K * V) :=
  foldl (fun d '(k, v) => Dict.set d k v) d items.

(** The inner optimizer, as far as this file reads it: the ["params"] of its
    parameter groups and its per-parameter state, a [defaultdict(dict)] keyed
    by the main parameter. *)
Module Optimizer.
Record t : Type := mk {
  param_groups : list (list tensor_id);
  state : list (tensor_id * list (string * tensor_id));
  is_adam : bool                       (* isinstance(optimizer, Adam) *)
}.
End Optimizer.

(** [optimizer.state[main_param]] on the [defaultdict]: a missing key is
    created with an empty dict. *)
Definition optimizer_state_get (optimizer : Optimizer.t) (main_param : tensor_id)
  : list (string * tensor_id) * Optimizer.t :=
  match Dict.get (Optimizer.state optimizer) main_param with
  | Some optim_state => (optim_state, optimizer)
  | None =>
      ([], Optimizer.mk (Optimizer.param_groups optimizer)
                        (Dict.set (Optimizer.state optimizer) main_param [])
                        (Optimizer.is_adam optimizer))
  end.

(** A replica id is an int or a tuple of ints. *)
Inductive ReplicaId : Type :=
  | ReplicaInt (r : Z)
  | ReplicaTuple (r : list Z).

(** A [ShardedTensor] or a [ShardedTensorFactory] of
    [dist_checkpointing.mapping], as the dataclass it is there. A factory has
    no [dtype] field. *)
Record ShardedBase : Type := {
  is_factory : bool;
  key : string;
  data : tensor_id;
  sh_dtype : option torch_dtype;
  local_shape : list Z;
  global_shape : list Z;
  global_offset : list Z;
  axis_fragmentations : option (list Z);
  replica_id : ReplicaId;
  allow_shape_mismatch : bool;
  flattened_range : option (Z * Z)
}.

(** ** CheckpointCodec (c): [sharded_param_state_fs_model_space]
    (lines 1113-1212) *)

Definition state_prefix : string := "optimizer.state".

Definition missing_metadata_msg : string :=
  "Model param not in model_sharded_state_dict".

Definition replica_format_msg : string :=
  "Expected replica_id format (PP, TP, DP)".

Definition int_has_no_len_msg : string :=
  "object of type 'int' has no len()".

(** [_get_param_state_sharded_tensors] (lines 1135-1173).
    [validate_metadata_integrity] is the method of the sharded objects, which
    lives in [dist_checkpointing]; the two error messages that print an
    object keep their fixed part only. *)
Definition _get_param_state_sharded_tensors
    (with_megatron_fsdp_code_path is_loading : bool)
    (validate_metadata_integrity : ShardedBase -> result unit)
    (param_to_sharded_metadata : list (tensor_id * ShardedBase))
    (st : Store * Optimizer.t)
    (model_param main_param : tensor_id) (item_slice : Z * Z)
  : result (Store * Optimizer.t * list (string * ShardedBase)) :=
  let '(store, optimizer) := st in
  let '(optim_state, optimizer) := optimizer_state_get optimizer main_param in
  '(store, optimizer, optim_state) ←
    (if with_megatron_fsdp_code_path && is_loading then
       py_assert (Optimizer.is_adam optimizer) EmptyString;;
       let '(exp_avg, store) := torch_empty_like store main_param in
       let optim_state := Dict.set optim_state "exp_avg" exp_avg in
       let '(exp_avg_sq, store) := torch_empty_like store main_param in
       let optim_state := Dict.set optim_state "exp_avg_sq" exp_avg_sq in
       Ok (store,
           Optimizer.mk (Optimizer.param_groups optimizer)
             (Dict.set (Optimizer.state optimizer) main_param optim_state)
             (Optimizer.is_adam optimizer),
           optim_state)
     else Ok (store, optimizer, optim_state));
  let tensors := dict_update [("fp32_param", main_param)] optim_state in
  sharded_metadata ←
    or_raise (ValueError missing_metadata_msg)
             (Dict.get param_to_sharded_metadata model_param);
  rid ←
    match replica_id sharded_metadata with
    | ReplicaInt _ => Raise (TypeError int_has_no_len_msg)
    | ReplicaTuple rid => Ok rid
    end;
  py_assert (bool_decide (length rid = 3%nat)) replica_format_msg;;
  let replica_id := ReplicaTuple (py_slice rid 0 2 ++ [0]) in
  tensors ←
    mapM (fun '(state_key, state_ten) =>
      let replaced :=
        {| is_factory := is_factory sharded_metadata;
           key := state_prefix +:+ "." +:+ state_key +:+ "."
                    +:+ key sharded_metadata;
           data := state_ten;
           sh_dtype :=
             if is_factory sharded_metadata then sh_dtype sharded_metadata
             else Some (dtype (tensor_of store state_ten));
           local_shape := local_shape sharded_metadata;
           global_shape := global_shape sharded_metadata;
           global_offset := global_offset sharded_metadata;
           axis_fragmentations := axis_fragmentations sharded_metadata;
           replica_id := replica_id;
           allow_shape_mismatch := allow_shape_mismatch sharded_metadata;
           flattened_range := Some item_slice |} in
      validate_metadata_integrity replaced;;
      Ok (state_key, replaced))
    tensors;
  Ok (store, optimizer, tensors).
Arguments _get_param_state_sharded_tensors : simpl never.

(** What the Megatron-FSDP path reads of its buffers (classes that live
    outside this file): per parameter group, the parameters of
    [main_grad_buffer], its [param_idx], its method
    [_get_item_slice_in_shard] and [model_weight_buffer.is_data_distributed];
    per buffer, [param_to_name], [optimizer_named_parameters] and each
    parameter's [fully_shard_param_local_shard]. *)
Record FsdpParameterGroup : Type := {
  gbuf_params : list tensor_id;
  gbuf_param_idx : list (tensor_id * Z);
  _get_item_slice_in_shard : Z -> Z * Z;
  is_data_distributed : bool
}.

Record FsdpBuffer : Type := {
  parameter_groups : list FsdpParameterGroup;
  param_to_name : list (tensor_id * string);
  optimizer_named_parameters : list (string * tensor_id);
  fully_shard_param_local_shard : tensor_id -> tensor_id
}.

(** The distributed optimizer object, [self]. *)
Module DistOpt.
Record t : Type := mk {
  buffers : list ParamAndGradBuffer;
  gbuf_ranges : gbuf_ranges_t;
  per_bucket_numel : list (list (dtype_pair * list Z));
  per_bucket_numel_unpadded : list (list (dtype_pair * list Z));
  model_param_group_index_map : list (param_id * (nat * nat));
  optimizer : Optimizer.t;
  model_params : param_id -> ModelParam;
  data_parallel_rank : nat;            (* get_rank(self.data_parallel_group) *)
  data_parallel_world_size : Z;        (* get_world_size(self.data_parallel_group) *)
  data_parallel_group_idx : Z;
  with_megatron_fsdp_code_path : bool; (* self.ddp_config... *)
  fsdp_buffers : list FsdpBuffer       (* self.buffers on the FSDP path *)
}.
End DistOpt.

(** [main_param = self.optimizer.param_groups[group_index]["params"][group_order]]
    for the [(group_index, group_order)] recorded for [model_param]. *)
Definition main_param_of (self : DistOpt.t) (model_param : param_id)
  : result tensor_id :=
  '(group_index, group_order) ←
    or_raise KeyError
      (Dict.get (DistOpt.model_param_group_index_map self) model_param);
  group ←
    or_raise IndexError
      (Optimizer.param_groups (DistOpt.optimizer self) !! group_index);
  or_raise IndexError (group !! group_order).

(** The keys of the returned [state]: parameter names on the FSDP path,
    running indexes otherwise. *)
Inductive state_key_t : Type :=
  | NameKey (name : string)
  | IndexKey (param_idx : Z).

#[global] Instance state_key_eq_dec : EqDecision state_key_t.
Proof. solve_decision. Defined.

(** [model_sharded_state_dict] is given by the sharded tensors and factories
    that [extract_sharded_tensors_and_factories] keeps of it, in the order
    [nested_values] yields them. *)
Definition sharded_param_state_fs_model_space
    (validate_metadata_integrity : ShardedBase -> result unit)
    (self : DistOpt.t) (store : Store)
    (model_sharded_state_dict : list ShardedBase) (is_loading : bool)
  : result (Store * Optimizer.t
            * list (state_key_t * list (string * ShardedBase))) :=
  let param_to_sharded_metadata :=
    foldl (fun param_to_sharded_metadata sh_base =>
             Dict.set param_to_sharded_metadata (data sh_base) sh_base)
          [] model_sharded_state_dict in
  let helper :=
    _get_param_state_sharded_tensors
      (DistOpt.with_megatron_fsdp_code_path self) is_loading
      validate_metadata_integrity param_to_sharded_metadata in
  if DistOpt.with_megatron_fsdp_code_path self then
    foldM (fun st pg_buffer =>
      foldM (fun st pg =>
        foldM (fun '(store, optimizer, state) model_param =>
          item_id ← or_raise KeyError (Dict.get (gbuf_param_idx pg) model_param);
          param_name ←
            or_raise KeyError (Dict.get (param_to_name pg_buffer) model_param);
          main_param ←
            or_raise KeyError
              (Dict.get (dict_update [] (optimizer_named_parameters pg_buffer))
                        param_name);
          let item_slice := _get_item_slice_in_shard pg item_id in
          if decide (item_slice.1 = item_slice.2) then
            Ok (store, optimizer, state)
          else
            '(store, optimizer, tensors) ←
              helper (store, optimizer)
                (if is_data_distributed pg
                 then fully_shard_param_local_shard pg_buffer model_param
                 else model_param)
                main_param item_slice;
            Ok (store, optimizer, Dict.set state (NameKey param_name) tensors))
        (gbuf_params pg) st)
      (parameter_groups pg_buffer) st)
    (DistOpt.fsdp_buffers self) (store, DistOpt.optimizer self, [])
  else
    '(store, optimizer, state, _) ←
      foldM (fun st gbuf_range_maps =>
        foldM (fun st '(_, gbuf_range_map_for_all_buckets) =>
          foldM (fun st gbuf_range_map =>
            foldM (fun '(store, optimizer, state, param_idx)
                       '(model_param, param_range_map) =>
              main_param ← main_param_of self model_param;
              let param_range := param param_range_map in
              let item_slice := (start param_range, end_ param_range) in
              '(store, optimizer, tensors) ←
                helper (store, optimizer) model_param main_param item_slice;
              Ok (store, optimizer,
                  Dict.set state (IndexKey param_idx) tensors,
                  param_idx + 1))
            (param_map gbuf_range_map) st)
          gbuf_range_map_for_all_buckets st)
        (gbuf_range_maps : gbuf_range_map_t) st)
      (DistOpt.gbuf_ranges self) (store, DistOpt.optimizer self, [], 0);
    Ok (store, optimizer, state).

(** The [(model_param, param_range_map)] items that the loops over
    [gbuf_range_map["param_map"].items()] visit, in order. *)
Definition owned_entries (gbuf_ranges : gbuf_ranges_t)
  : list (param_id * ParamRanges) :=
  gbuf_range_map ← gbuf_ranges;
  '(_, gbuf_range_map_for_all_buckets) ← gbuf_range_map;
  gbuf_range_map ← gbuf_range_map_for_all_buckets;
  param_map gbuf_range_map.

(** [param_to_sharded_metadata] of [sharded_param_state_fs_model_space]. *)
Definition param_to_sharded_metadata_of
    (model_sharded_state_dict : list ShardedBase)
  : list (tensor_id * ShardedBase) :=
  foldl (fun param_to_sharded_metadata sh_base =>
           Dict.set param_to_sharded_metadata (data sh_base) sh_base)
        [] model_sharded_state_dict.

(** The replica id that the model-space encoding gives the state tensors of
    a parameter whose model metadata is [meta]: the metadata's
    [(pipeline, tensor, data)] with the data coordinate zeroed. *)
Definition zeroed_dp_replica (meta : ShardedBase) (rid : ReplicaId) : Prop :=
  exists pp tp dp,
    replica_id meta = ReplicaTuple [pp; tp; dp]
    /\ rid = ReplicaTuple [pp; tp; 0].

(** Every state tensor in [state] carries the zeroed replica id of some
    entry of the model's sharded state dict. *)
Definition replicas_zeroed (msd : list ShardedBase)
    (state : list (state_key_t * list (string * ShardedBase))) : Prop :=
  forall k tensors sk sh,
    (k, tensors) ∈ state -> (sk, sh) ∈ tensors ->
    exists meta, meta ∈ msd /\ zeroed_dp_replica meta (replica_id sh).

(** A rank that owns a shard of parameter 1, whose main parameter is tensor
    10 with Adam state in tensors 11 and 12, and the model's sharded tensor
    for it, replicated at (pipeline 2, tensor 3, data 5). *)
Definition model_space_self : DistOpt.t :=
  DistOpt.mk [] assembler_gbuf_ranges [] [] [(1%nat, (0%nat, 0%nat))]
    (Optimizer.mk [[10%nat]]
       [(10%nat, [("exp_avg", 11%nat); ("exp_avg_sq", 12%nat)])] true)
    double_param_heap 0 1 0 false [].

Definition model_space_store : Store :=
  {| tensor_of := fun _ => {| dtype := float32; values := replicate 20 0 |};
     next_id := 13%nat |}.

Definition model_space_metadata : list ShardedBase :=
  [{| is_factory := false; key := "decoder.weight"; data := 1%nat;
      sh_dtype := Some bfloat16; local_shape := [70]; global_shape := [70];
      global_offset := [0]; axis_fragmentations := None;
      replica_id := ReplicaTuple [2; 3; 5];
      allow_shape_mismatch := false; flattened_range := None |}].

(** ** CheckpointCodec (b): bucket space (lines 743-781, 998-1111, 1214-1257) *)

(** The values a per-parameter dict of the bucket-space state holds: tensors,
    the two range bounds, the padding flag, and what the encoder wraps them
    into. *)
Inductive pyval : Type :=
  | VTensor (t : tensor_id)
  | VInt (z : Z)
  | VBool (b : bool)
  | VLocalNonpersistent (v : pyval)     (* LocalNonpersistentObject(v) *)
  | VSharded (sh : ShardedBase).        (* a ShardedTensor *)

(** [ShardedObject(key, data, (1,), (0,), replica_id=...)] around the
    per-bucket element counts. *)
Record ShardedObject : Type := {
  so_key : string;
  so_data : list (list (dtype_pair * list Z));
  so_replica_id : Z
}.

(** The bucket-space state: the two per-bucket tables and, per grad buffer
    index, the dict from dtype pair to the list of buckets, each a list of
    per-parameter dicts. [M] is what holds the tables: the plain lists in
    [get_parameter_state_fs_bucket_space], a [ShardedObject] after
    [sharded_param_state_fs_bucket_space]. *)
Record BucketSpaceState (M : Type) : Type := {
  bs_per_bucket_numel : M;
  bs_per_bucket_numel_unpadded : M;
  bs_gbufs : list (nat * list (dtype_pair * list (list (list (string * pyval)))))
}.
Arguments bs_per_bucket_numel {M} _.
Arguments bs_per_bucket_numel_unpadded {M} _.
Arguments bs_gbufs {M} _.

Definition single_dtype_msg : string := "single dtype supported, for now.".

(** [self.optimizer.state[main_param]], read only: the empty dict that the
    [defaultdict] would create for a missing key is returned and not
    stored. *)
Definition optim_state_of (self : DistOpt.t) (main_param : tensor_id)
  : list (string * tensor_id) :=
  default [] (Dict.get (Optimizer.state (DistOpt.optimizer self)) main_param).

(** [get_parameter_state_fs_bucket_space] (lines 743-781). Each list is built
    by appending in loop order, and [dtype_state] gets one entry per key of
    the dict it is built from. *)
Definition get_parameter_state_fs_bucket_space (self : DistOpt.t)
  : result (BucketSpaceState (list (list (dtype_pair * list Z)))) :=
  gbufs ←
    mapM (fun '(gbuf_idx, gbuf_range_maps) =>
      py_assert (bool_decide (length (gbuf_range_maps : gbuf_range_map_t) = 1%nat))
                single_dtype_msg;;
      dtype_state ←
        mapM (fun '(dtype, gbuf_range_map_for_all_buckets) =>
          buckets_state ←
            mapM (fun gbuf_range_map =>
              mapM (fun '(model_param, param_range_map) =>
                main_param ← main_param_of self model_param;
                let optim_state := optim_state_of self main_param in
                Ok (dict_update
                      [("param", VTensor main_param)]
                      ((prod_map id VTensor <$> optim_state)
                       ++ [("gbuf_local_start",
                            VInt (start (gbuf_local param_range_map)));
                           ("gbuf_local_end",
                            VInt (end_ (gbuf_local param_range_map)))])))
              (param_map gbuf_range_map))
            gbuf_range_map_for_all_buckets;
          Ok (dtype, buckets_state))
        gbuf_range_maps;
      Ok (gbuf_idx, dtype_state))
    (enumerate (DistOpt.gbuf_ranges self));
  Ok {| bs_per_bucket_numel := DistOpt.per_bucket_numel self;
        bs_per_bucket_numel_unpadded := DistOpt.per_bucket_numel_unpadded self;
        bs_gbufs := gbufs |}.

(** A loop that maps over a list while threading a state (here the store the
    padding tensors are allocated in). *)
Fixpoint mapM_st {A B S} (f : S -> A -> result (B * S)) (xs : list A) (s : S)
  : result (list B * S) :=
  match xs with
  | [] => Ok ([], s)
  | x :: xs' =>
      '(y, s) ← f s x;
      '(ys, s) ← mapM_st f xs' s;
      Ok (y :: ys, s)
  end.

Definition not_an_int_msg : string := "an integer is required".
Definition not_a_tensor_msg : string := "object has no attribute 'shape'".
Definition negative_dimension_msg : string :=
  "Trying to create tensor with negative dimension".
Definition empty_bucket_msg : string := "empty bucket encountered".

(** [d[k]] where the code goes on to use the value as an int. *)
Definition get_int (d : list (string * pyval)) (k : string) : result Z :=
  v ← or_raise KeyError (Dict.get d k);
  match v with
  | VInt z => Ok z
  | _ => Raise (TypeError not_an_int_msg)
  end.

(** [{k: torch.empty(n, dtype=v.dtype, device=v.device)
      for k, v in src.items() if isinstance(v, torch.Tensor)}] *)
Definition pad_tensors (store : Store) (src : list (string * pyval)) (n : Z)
  : result (list (string * pyval) * Store) :=
  foldM (fun '(pad, store) '(k, v) =>
    match v with
    | VTensor t =>
        if decide (n < 0) then Raise (RuntimeError negative_dimension_msg)
        else
          let '(t', store) := torch_empty store n (dtype (tensor_of store t)) in
          Ok (Dict.set pad k (VTensor t'), store)
    | _ => Ok (pad, store)
    end)
  src ([], store).

(** [{**pad_tensors, 'gbuf_local_start': s, 'gbuf_local_end': e,
      'padding': True}] *)
Definition padding_record (pad : list (string * pyval)) (s e : Z)
  : list (string * pyval) :=
  dict_update pad [("gbuf_local_start", VInt s); ("gbuf_local_end", VInt e);
                   ("padding", VBool true)].

(** [l.insert(i, x)] *)
Definition list_insert_at {A} (i : nat) (x : A) (l : list A) : list A :=
  take i l ++ x :: drop i l.

(** The padding-fill pass over one bucket (lines 1037-1079). *)
Definition fill_padding (store : Store)
    (bucket_state : list (list (string * pyval))) (gbuf_local_numel : Z)
  : result (list (list (string * pyval)) * Store) :=
  '(all_pad_tensors, store) ←
    foldM (fun '(all_pad_tensors, store) i =>
      next ← or_raise IndexError (bucket_state !! (i + 1)%nat);
      next_param_start ← get_int next "gbuf_local_start";
      cur ← or_raise IndexError (bucket_state !! i);
      cur_param_end ← get_int cur "gbuf_local_end";
      if decide (next_param_start <> cur_param_end) then
        '(pad, store) ←
          pad_tensors store cur (next_param_start - cur_param_end);
        Ok (Dict.set (all_pad_tensors : list (nat * list (string * pyval)))
                     (i + 1)%nat
                     (padding_record pad cur_param_end next_param_start),
            store)
      else Ok (all_pad_tensors, store))
    (seq 0 (length bucket_state - 1)) ([], store);
  let indices_to_insert := merge_sort Nat.le (Dict.keys all_pad_tensors) in
  bucket_state ←
    foldM (fun bucket_state index_to_insert =>
      pad ← or_raise KeyError (Dict.get all_pad_tensors index_to_insert);
      Ok (list_insert_at index_to_insert pad bucket_state))
    (reverse indices_to_insert) bucket_state;
  last_record ← or_raise IndexError (last bucket_state);
  last_end ← get_int last_record "gbuf_local_end";
  if decide (last_end <> gbuf_local_numel) then
    '(pad, store) ←
      pad_tensors store last_record (gbuf_local_numel - last_end);
    Ok (bucket_state ++ [padding_record pad last_end gbuf_local_numel], store)
  else Ok (bucket_state, store).

Definition dtype_repr (dt : torch_dtype) : string :=
  match dt with
  | float32 => "torch.float32"
  | float16 => "torch.float16"
  | bfloat16 => "torch.bfloat16"
  | float64 => "torch.float64"
  | uint8 => "torch.uint8"
  end.

Definition dtype_pair_repr (dt : dtype_pair) : string :=
  "(" +:+ dtype_repr dt.1 +:+ ", " +:+ dtype_repr dt.2 +:+ ")".

(** The last loop over a bucket (lines 1083-1110): each dict loses its two
    bounds, gets its padding flag, and has its tensors wrapped. *)
Definition wrap_record (self : DistOpt.t) (store : Store)
    (sharded_bucket_key : string) (gbuf_local_numel : Z)
    (tensors : list (string * pyval))
  : result (list (string * pyval)) :=
  gbuf_local_start ← get_int tensors "gbuf_local_start";
  let tensors := Dict.remove tensors "gbuf_local_start" in
  gbuf_local_end ← get_int tensors "gbuf_local_end";
  let tensors := Dict.remove tensors "gbuf_local_end" in
  let tensors :=
    if Dict.mem tensors "padding" then tensors
    else Dict.set tensors "padding" (VBool false) in
  mapM (fun '(key, v) =>
    if decide (key = "padding") then Ok (key, VLocalNonpersistent v)
    else
      match v with
      | VTensor t =>
          py_assert
            (bool_decide (Z.of_nat (length (values (tensor_of store t)))
                          = gbuf_local_end - gbuf_local_start))
            EmptyString;;
          Ok (key,
              VSharded
                {| is_factory := false;
                   key := sharded_bucket_key +:+ "." +:+ key;
                   data := t;
                   sh_dtype := Some (dtype (tensor_of store t));
                   local_shape := [gbuf_local_numel];
                   global_shape :=
                     [DistOpt.data_parallel_world_size self * gbuf_local_numel];
                   global_offset :=
                     [Z.of_nat (DistOpt.data_parallel_rank self)
                      * gbuf_local_numel];
                   axis_fragmentations :=
                     Some [DistOpt.data_parallel_world_size self];
                   replica_id := ReplicaInt 0;
                   allow_shape_mismatch := true;
                   flattened_range := Some (gbuf_local_start, gbuf_local_end) |})
      | _ => Raise (TypeError not_a_tensor_msg)
      end)
  tensors.

Definition dp_group_prefix (self : DistOpt.t) : string :=
  "optimizer.distributed.dp_group_idx_"
    +:+ pretty (DistOpt.data_parallel_group_idx self).

(** [sharded_param_state_fs_bucket_space] (lines 998-1111). The lists of
    [state] are updated in place by the source; here each bucket's list is
    rebuilt and put back where it was. *)
Definition sharded_param_state_fs_bucket_space (self : DistOpt.t) (store : Store)
  : result (BucketSpaceState ShardedObject * Store) :=
  let data_parallel_rank := DistOpt.data_parallel_rank self in
  let data_parallel_world_size := DistOpt.data_parallel_world_size self in
  state ← get_parameter_state_fs_bucket_space self;
  let per_bucket_numel :=
    {| so_key := dp_group_prefix self +:+ ".per_bucket_numel";
       so_data := bs_per_bucket_numel state;
       so_replica_id := Z.of_nat data_parallel_rank |} in
  let per_bucket_numel_unpadded :=
    {| so_key := dp_group_prefix self +:+ ".per_bucket_numel_unpadded";
       so_data := bs_per_bucket_numel_unpadded state;
       so_replica_id := Z.of_nat data_parallel_rank |} in
  '(gbufs, store) ←
    foldM (fun '(gbufs, store) '(gbuf_idx, _) =>
      dtype_state ← or_raise KeyError (Dict.get gbufs gbuf_idx);
      '(dtype_state, store) ←
        mapM_st (fun store '(dtype, gbuf_range_map_for_all_buckets) =>
          '(buckets_state, store) ←
            mapM_st (fun store '(bucket_idx, bucket_state) =>
              buffer ← or_raise IndexError (DistOpt.buffers self !! gbuf_idx);
              bucket ← or_raise IndexError (buckets buffer !! bucket_idx);
              let gbuf_world_numel := grad_data_numel bucket in
              (if decide (data_parallel_world_size = 0)
               then Raise ZeroDivisionError else Ok tt);;
              py_assert
                (bool_decide (gbuf_world_numel `mod` data_parallel_world_size = 0))
                EmptyString;;
              let gbuf_local_numel :=
                gbuf_world_numel `div` data_parallel_world_size in
              let sharded_bucket_key :=
                dp_group_prefix self
                  +:+ ".gbuf_idx_" +:+ pretty (Z.of_nat gbuf_idx)
                  +:+ ".dtype_" +:+ dtype_pair_repr dtype
                  +:+ ".bucket_idx_" +:+ pretty (Z.of_nat bucket_idx) in
              py_assert (negb (bool_decide (bucket_state = [])))
                        empty_bucket_msg;;
              '(bucket_state, store) ←
                fill_padding store bucket_state gbuf_local_numel;
              bucket_state ←
                mapM (wrap_record self store sharded_bucket_key gbuf_local_numel)
                     bucket_state;
              Ok (bucket_state, store))
            (enumerate gbuf_range_map_for_all_buckets) store;
          Ok ((dtype : dtype_pair, buckets_state), store))
        dtype_state store;
      Ok (Dict.set gbufs gbuf_idx dtype_state, store))
    (enumerate (DistOpt.gbuf_ranges self)) (bs_gbufs state, store);
  Ok ({| bs_per_bucket_numel := per_bucket_numel;
         bs_per_bucket_numel_unpadded := per_bucket_numel_unpadded;
         bs_gbufs := gbufs |}, store).

(** Rank 1 of 2 over one bucket of 128 elements whose only parameter fills
    [[0,10)]: the rank's shard [[64,128)] holds padding only. *)
Definition padding_only_buffer : ParamAndGradBuffer :=
  {| data_parallel_rank := 1%nat;
     data_parallel_world_size := 2;
     param_dtype := float32;
     grad_dtype := float32;
     buckets := [{| offset := 0; grad_data_numel := 128; numel_unpadded := 10 |}];
     param_index_map := [(0%nat, (0, 10, 0))];
     buffer_numel_unpadded := 10;
     buffer_params := [0%nat];
     param_indices := [0] |}.

Definition padding_only_self : DistOpt.t :=
  DistOpt.mk [padding_only_buffer]
    [[((float32, float32),
       [{| param_map :=
             _build_model_gbuf_param_range_map [(0%nat, (0, 10, 0))]
               (mkRange 64 128) 0 |}])]]
    [[((float32, float32), [128])]] [[((float32, float32), [10])]]
    [] (Optimizer.mk [[]] [] true) double_param_heap 1 2 0 false [].

(** The [[localStart, localEnd)] slice and the padding flag of an emitted
    block. *)
Definition block_of (record : list (string * pyval)) : option (Z * Z * bool) :=
  match Dict.get record "param", Dict.get record "padding" with
  | Some (VSharded sh), Some (VLocalNonpersistent (VBool b)) =>
      (fun r : Z * Z => (r.1, r.2, b)) <$> flattened_range sh
  | _, _ => None
  end.

(** The blocks tile [[lo, hi)]: each starts where the one before it ends. *)
Fixpoint tiles (lo hi : Z) (blocks : list (Z * Z * bool)) : Prop :=
  match blocks with
  | [] => lo = hi
  | (s, e, _) :: blocks => s = lo /\ tiles e hi blocks
  end.

(** The blocks of every bucket of an encoded state, bucket by bucket. *)
Definition emitted_blocks {M} (state : BucketSpaceState M)
  : list (list (option (Z * Z * bool))) :=
  gbuf ← bs_gbufs state;
  dtype_buckets ← (gbuf.2 : list (dtype_pair * list (list (list (string * pyval)))));
  (fun bucket_state : list (list (string * pyval)) => block_of <$> bucket_state)
    <$> dtype_buckets.2.

(** Rank 21 of 128 over one bucket of 384 elements, laid out as the grad
    buffer lays parameters out: parameter 0 (10 elements) at [[0,10)],
    parameter 1 (236 elements) at the next multiple of 64, [[64,300)], and the
    bucket padded to a multiple of 128. The shard size is 3; the rank's shard
    [[63,66)] starts in the alignment padding before parameter 1, of which it
    owns [[64,66)], at [[1,3)] of the shard, in main parameter 10 with Adam
    state in tensors 11 and 12. *)
Definition leading_gap_buffer : ParamAndGradBuffer :=
  {| data_parallel_rank := 21%nat;
     data_parallel_world_size := 128;
     param_dtype := float32;
     grad_dtype := float32;
     buckets := [{| offset := 0; grad_data_numel := 384; numel_unpadded := 300 |}];
     param_index_map := [(0%nat, (0, 10, 0)); (1%nat, (64, 300, 0))];
     buffer_numel_unpadded := 300;
     buffer_params := [1%nat; 0%nat];
     param_indices := [0; 1] |}.

Definition leading_gap_self : DistOpt.t :=
  DistOpt.mk [leading_gap_buffer]
    (match _build_gbuf_range_map leading_gap_buffer with
     | Ok gbuf_range_map => [gbuf_range_map]
     | Raise _ => []
     end)
    [[((float32, float32), [384])]] [[((float32, float32), [300])]]
    [(1%nat, (0%nat, 0%nat))]
    (Optimizer.mk [[10%nat]]
       [(10%nat, [("exp_avg", 11%nat); ("exp_avg_sq", 12%nat)])] true)
    double_param_heap 21 128 0 false [].

Definition leading_gap_store : Store :=
  {| tensor_of := fun _ => {| dtype := float32; values := [7; 8] |};
     next_id := 13%nat |}.

(** ** Resharder: [split_state_dict_if_needed] (lines 1540-1671) *)

(** The state dict of the gather/scatter encoding, as [torch.load] returns
    it: ["buckets_coalesced"] and, per grad buffer index, a dict from dtype
    pair to the world tensors ["param"], ["exp_avg"], ["exp_avg_sq"] and the
    int ["numel_unpadded"]. Its tensors are host tensors of the checkpoint,
    held by value. *)
Inductive wval : Type :=
  | WTensor (t : Tensor)
  | WInt (z : Z).

Inductive sd_key : Type :=
  | KBucketsCoalesced
  | KGbuf (gbuf_idx : nat).

#[global] Instance sd_key_eq_dec : EqDecision sd_key.
Proof. solve_decision. Defined.

Inductive sd_val : Type :=
  | SBool (b : bool)
  | SGbuf (d : list (dtype_pair * list (string * wval))).

Definition state_dict_t : Type := list (sd_key * sd_val).

Definition not_a_dict_msg : string := "object is not subscriptable".
Definition empty_min_msg : string := "min() arg is an empty sequence".
Definition shape_mismatch_msg : string :=
  "The size of tensor a must match the size of tensor b".

(** [state_dict[gbuf_idx]], used as a dict. *)
Definition sd_gbuf (state_dict : state_dict_t) (gbuf_idx : nat)
  : result (list (dtype_pair * list (string * wval))) :=
  v ← or_raise KeyError (Dict.get state_dict (KGbuf gbuf_idx));
  match v with
  | SGbuf d => Ok d
  | SBool _ => Raise (TypeError not_a_dict_msg)
  end.

(** [l[i]] with Python's negative indexes. *)
Definition py_index {A} (l : list A) (i : Z) : result A :=
  let i := if decide (i < 0) then i + Z.of_nat (length l) else i in
  if decide (i < 0) then Raise IndexError
  else or_raise IndexError (l !! Z.to_nat i).

(** [is_float8tensor(self.buffers[gbuf_idx].params[0])] *)
Definition buffer_is_fp8 (self : DistOpt.t) (gbuf_idx : nat) : result bool :=
  buffer ← or_raise IndexError (DistOpt.buffers self !! gbuf_idx);
  p0 ← or_raise IndexError (buffer_params buffer !! 0%nat);
  Ok (float8 (DistOpt.model_params self p0)).

(** The [(gbuf_idx, dtype)] pairs that
    [for gbuf_idx, gbuf_range_maps in enumerate(self.gbuf_ranges):
       for dtype, _ in gbuf_range_maps.items()] visits. *)
Definition gbuf_dtypes (self : DistOpt.t) : list (nat * dtype_pair) :=
  '(gbuf_idx, gbuf_range_maps) ← enumerate (DistOpt.gbuf_ranges self);
  (fun kv : dtype_pair * list GbufRange => (gbuf_idx, kv.1))
    <$> (gbuf_range_maps : gbuf_range_map_t).

(** [dst[a:b].copy_(src)]: the slice must have the source's length, or the
    source one element, which is then broadcast. *)
Definition slice_copy (dst : list scalar) (a b : Z) (src : list scalar)
  : result (list scalar) :=
  let n := Z.of_nat (length dst) in
  let a' := Z.to_nat (slice_index n a) in
  let b' := Z.to_nat (Z.max (slice_index n a) (slice_index n b)) in
  if decide (length src = (b' - a')%nat) then
    Ok (take a' dst ++ src ++ drop b' dst)
  else
    match src with
    | [x] => Ok (take a' dst ++ replicate (b' - a') x ++ drop b' dst)
    | _ => Raise (RuntimeError shape_mismatch_msg)
    end.

(** Lines 1619-1635: the offsets of the segments in the coalesced tensor and
    in each destination, walking the flags in reverse. *)
Definition split_offsets (nelement : param_id -> Z)
    (fp8_params non_fp8_params : list param_id) (fp8_flags : list bool)
  : result (list Z * list Z * list Z) :=
  '(_, _, offsets, fp8_offsets, non_fp8_offsets) ←
    foldM (fun '(fp8_idx, non_fp8_idx, offsets, fp8_offsets, non_fp8_offsets)
               (fp8_flag : bool) =>
      if fp8_flag then
        p ← py_index fp8_params fp8_idx;
        let numel := nelement p in
        Ok (fp8_idx - 1, non_fp8_idx,
            offsets ++ [default 0 (last offsets) + numel],
            fp8_offsets ++ [default 0 (last fp8_offsets) + numel],
            non_fp8_offsets)
      else
        p ← py_index non_fp8_params non_fp8_idx;
        let numel := nelement p in
        Ok (fp8_idx, non_fp8_idx - 1,
            offsets ++ [default 0 (last offsets) + numel],
            fp8_offsets,
            non_fp8_offsets ++ [default 0 (last non_fp8_offsets) + numel]))
    (reverse fp8_flags)
    (Z.of_nat (length fp8_params) - 1, Z.of_nat (length non_fp8_params) - 1,
     [0], [0], [0]);
  Ok (offsets, fp8_offsets, non_fp8_offsets).

(** Lines 1641-1655: one coalesced tensor routed, segment by segment, into
    the two destinations. *)
Definition split_tensor (offsets fp8_offsets non_fp8_offsets : list Z)
    (fp8_flags : list bool) (tensor : Tensor) : result (Tensor * Tensor) :=
  let fp8_tensor := replicate (Z.to_nat (default 0 (last fp8_offsets))) 0 in
  let non_fp8_tensor :=
    replicate (Z.to_nat (default 0 (last non_fp8_offsets))) 0 in
  '(_, _, fp8_tensor, non_fp8_tensor) ←
    foldM (fun '(fp8_idx, non_fp8_idx, fp8_tensor, non_fp8_tensor) i =>
      flag ← py_index fp8_flags (- (i + 1));
      lo ← py_index offsets i;
      hi ← py_index offsets (i + 1);
      let segment := py_slice (values tensor) lo hi in
      if (flag : bool) then
        a ← py_index fp8_offsets fp8_idx;
        b ← py_index fp8_offsets (fp8_idx + 1);
        fp8_tensor ← slice_copy fp8_tensor a b segment;
        Ok (fp8_idx + 1, non_fp8_idx, fp8_tensor, non_fp8_tensor)
      else
        a ← py_index non_fp8_offsets non_fp8_idx;
        b ← py_index non_fp8_offsets (non_fp8_idx + 1);
        non_fp8_tensor ← slice_copy non_fp8_tensor a b segment;
        Ok (fp8_idx, non_fp8_idx + 1, fp8_tensor, non_fp8_tensor))
    (py_range (Z.of_nat (length offsets) - 1))
    (0, 0, fp8_tensor, non_fp8_tensor);
  Ok ({| dtype := dtype tensor; values := fp8_tensor |},
      {| dtype := dtype tensor; values := non_fp8_tensor |}).

(** [min(l)] and [max(l)]: a [ValueError] on the empty list. *)
Definition py_min (l : list Z) : result Z :=
  match l with
  | [] => Raise (ValueError empty_min_msg)
  | x :: l => Ok (foldl Z.min x l)
  end.

Definition py_max (l : list Z) : result Z :=
  match l with
  | [] => Raise (ValueError empty_min_msg)
  | x :: l => Ok (foldl Z.max x l)
  end.

(** The body of [for fp8_gbuf_idx in fp8_gbuf_indices] (lines 1581-1666).
    Line 1614 reads the local variable [fp8_flag], which is bound only by the
    [for] statement of line 1625: the read raises [UnboundLocalError] before
    the argument of [append] is evaluated, and [fp8_flags] is never
    extended. What follows the loop of lines 1613-1614 is embedded on values:
    the source's sharing of [new_state_dict[...]] with [state_dict[...]] is
    not tracked there. *)
Definition split_one_fp8_buffer (self : DistOpt.t) (state_dict : state_dict_t)
    (new_state_dict : state_dict_t) (fp8_gbuf_idx : nat)
  : result state_dict_t :=
  fp8_buffer ← or_raise IndexError (DistOpt.buffers self !! fp8_gbuf_idx);
  p0 ← or_raise IndexError (buffer_params fp8_buffer !! 0%nat);
  let non_fp8_param_and_grad_dtype :=
    (param_torch_dtype (DistOpt.model_params self p0), grad_dtype fp8_buffer) in
  let non_fp8_gbuf_idx :=
    foldl (fun (non_fp8_gbuf_idx : option nat) '(gbuf_idx, dtype) =>
             if decide (dtype = non_fp8_param_and_grad_dtype)
             then Some gbuf_idx else non_fp8_gbuf_idx)
          None (gbuf_dtypes self) in
  non_fp8_gbuf_idx ←
    match non_fp8_gbuf_idx with
    | Some i => Ok i
    | None => Raise (AssertionError EmptyString)
    end;
  non_fp8_buffer ← or_raise IndexError (DistOpt.buffers self !! non_fp8_gbuf_idx);
  index_to_fp8_map ←
    foldM (fun (index_to_fp8_map : list (Z * bool)) index =>
      py_assert (negb (Dict.mem index_to_fp8_map index)) EmptyString;;
      Ok (Dict.set index_to_fp8_map index true))
    (param_indices fp8_buffer) [];
  index_to_fp8_map ←
    foldM (fun (index_to_fp8_map : list (Z * bool)) index =>
      py_assert (negb (Dict.mem index_to_fp8_map index)) EmptyString;;
      Ok (Dict.set index_to_fp8_map index false))
    (param_indices non_fp8_buffer) index_to_fp8_map;
  let param_indices :=
    param_indices fp8_buffer ++ param_indices non_fp8_buffer in
  lowest ← py_min param_indices;
  py_assert (bool_decide (lowest = 0)) EmptyString;;
  highest ← py_max param_indices;
  py_assert (bool_decide (highest = Z.of_nat (length param_indices) - 1))
            EmptyString;;
  fp8_flags ←
    foldM (fun (fp8_flags : list bool) i =>
      fp8_flag ← (Raise (UnboundLocalError "fp8_flag") : result (list bool));
      flag ← or_raise KeyError (Dict.get index_to_fp8_map i);
      let _ := fp8_flag ++ [flag] in
      Ok fp8_flags)
    (py_range (Z.of_nat (length param_indices))) [];
  let nelement p := Z.of_nat (length (flat (DistOpt.model_params self p))) in
  '(offsets, fp8_offsets, non_fp8_offsets) ←
    split_offsets nelement (buffer_params fp8_buffer)
                  (buffer_params non_fp8_buffer) fp8_flags;
  source ← sd_gbuf state_dict non_fp8_gbuf_idx;
  source ← or_raise KeyError (Dict.get source non_fp8_param_and_grad_dtype);
  '(fp8_state_dict, non_fp8_state_dict) ←
    foldM (fun '(fp8_state_dict, non_fp8_state_dict) key =>
      v ← or_raise KeyError (Dict.get source key);
      tensor ←
        match v with
        | WTensor t => Ok t
        | WInt _ => Raise (TypeError not_a_tensor_msg)
        end;
      '(fp8_tensor, non_fp8_tensor) ←
        split_tensor offsets fp8_offsets non_fp8_offsets fp8_flags tensor;
      Ok (Dict.set fp8_state_dict key (WTensor fp8_tensor),
          Dict.set non_fp8_state_dict key (WTensor non_fp8_tensor)))
    ["param"; "exp_avg"; "exp_avg_sq"] ([], []);
  let fp8_state_dict :=
    Dict.set fp8_state_dict "numel_unpadded"
             (WInt (default 0 (last fp8_offsets))) in
  let non_fp8_state_dict :=
    Dict.set non_fp8_state_dict "numel_unpadded"
             (WInt (default 0 (last non_fp8_offsets))) in
  let new_state_dict :=
    Dict.set new_state_dict (KGbuf fp8_gbuf_idx)
      (SGbuf [((uint8, grad_dtype fp8_buffer), fp8_state_dict)]) in
  target ← sd_gbuf new_state_dict non_fp8_gbuf_idx;
  Ok (Dict.set new_state_dict (KGbuf non_fp8_gbuf_idx)
        (SGbuf (Dict.set target non_fp8_param_and_grad_dtype
                         non_fp8_state_dict))).

(** [split_state_dict_if_needed]. The source updates [state_dict] in place
    and returns nothing; here the updated dict is returned, and the two
    early [return]s give [state_dict] back as it was. In the loop that fills
    [dtype_to_gbuf_idx], [None] is the state after the [return] of line
    1570. *)
Definition split_state_dict_if_needed (self : DistOpt.t)
    (state_dict : state_dict_t) : result state_dict_t :=
  fp8_gbuf_indices ←
    foldM (fun fp8_gbuf_indices '(gbuf_idx, _) =>
      is_fp8 ← buffer_is_fp8 self gbuf_idx;
      Ok (if (is_fp8 : bool) then fp8_gbuf_indices ++ [gbuf_idx]
          else fp8_gbuf_indices))
    (gbuf_dtypes self) [];
  if decide (length fp8_gbuf_indices = 0%nat) then Ok state_dict else
  dtype_to_gbuf_idx ←
    foldM (fun (dtype_to_gbuf_idx : option (list (dtype_pair * sd_key)))
               '(key, v) =>
      if decide (key = KBucketsCoalesced) then Ok dtype_to_gbuf_idx else
      d ← match v with
          | SGbuf d => Ok d
          | SBool _ => Raise (TypeError not_a_dict_msg)
          end;
      foldM (fun (dtype_to_gbuf_idx : option (list (dtype_pair * sd_key)))
                 (dtype : dtype_pair) =>
        match dtype_to_gbuf_idx with
        | None => Ok None
        | Some m =>
            py_assert (negb (Dict.mem m dtype)) EmptyString;;
            if decide (dtype.1 = uint8) then Ok None
            else Ok (Some (Dict.set m dtype key))
        end)
      (Dict.keys d) dtype_to_gbuf_idx)
    state_dict (Some []);
  match dtype_to_gbuf_idx with
  | None => Ok state_dict
  | Some dtype_to_gbuf_idx =>
      buckets_coalesced ←
        or_raise KeyError (Dict.get state_dict KBucketsCoalesced);
      new_state_dict ←
        foldM (fun new_state_dict '(gbuf_idx, dtype) =>
          is_fp8 ← buffer_is_fp8 self gbuf_idx;
          if (is_fp8 : bool) then Ok new_state_dict
          else
            key ← or_raise KeyError (Dict.get dtype_to_gbuf_idx dtype);
            v ← or_raise KeyError (Dict.get state_dict key);
            Ok (Dict.set new_state_dict (KGbuf gbuf_idx) v))
        (gbuf_dtypes self) [(KBucketsCoalesced, buckets_coalesced)];
      foldM (split_one_fp8_buffer self state_dict)
            fp8_gbuf_indices new_state_dict
  end.

(** A layer with an fp8 weight (parameter 0, four elements, whose [dtype] is
    the dummy bfloat16 of [Float8Tensor]) and a bfloat16 bias (parameter 1,
    two elements), built with fp8 parameter gather: the weight is in buffer 0,
    keyed [(uint8, float32)], the bias in buffer 1, keyed
    [(bfloat16, float32)]. One data-parallel rank. *)
Definition fp8_split_weights : ParamAndGradBuffer :=
  {| data_parallel_rank := 0%nat;
     data_parallel_world_size := 1;
     param_dtype := uint8;
     grad_dtype := float32;
     buckets := [{| offset := 0; grad_data_numel := 4; numel_unpadded := 4 |}];
     param_index_map := [(0%nat, (0, 4, 0))];
     buffer_numel_unpadded := 4;
     buffer_params := [0%nat];
     param_indices := [0] |}.

Definition fp8_split_biases : ParamAndGradBuffer :=
  {| data_parallel_rank := 0%nat;
     data_parallel_world_size := 1;
     param_dtype := bfloat16;
     grad_dtype := float32;
     buckets := [{| offset := 0; grad_data_numel := 2; numel_unpadded := 2 |}];
     param_index_map := [(1%nat, (0, 2, 0))];
     buffer_numel_unpadded := 2;
     buffer_params := [1%nat];
     param_indices := [1] |}.

Definition fp8_split_heap (p : param_id) : ModelParam :=
  {| requires_grad := true;
     type_ := "torch.cuda.BFloat16Tensor";
     param_torch_dtype := bfloat16;
     flat := if decide (p = 0%nat) then [1; 2; 3; 4] else [5; 6];
     float8 := bool_decide (p = 0%nat);
     high_precision_init_val := None;
     attrs := None;
     shared := None |}.

Definition fp8_split_self : DistOpt.t :=
  DistOpt.mk [fp8_split_weights; fp8_split_biases]
    (match _build_gbuf_range_map fp8_split_weights,
           _build_gbuf_range_map fp8_split_biases with
     | Ok weights, Ok biases => [weights; biases]
     | _, _ => []
     end)
    [[((uint8, float32), [4])]; [((bfloat16, float32), [2])]]
    [[((uint8, float32), [4])]; [((bfloat16, float32), [2])]]
    [(0%nat, (0%nat, 0%nat)); (1%nat, (0%nat, 1%nat))]
    (Optimizer.mk [[10%nat; 20%nat]]
       [(10%nat, [("exp_avg", 11%nat); ("exp_avg_sq", 12%nat)]);
        (20%nat, [("exp_avg", 21%nat); ("exp_avg_sq", 22%nat)])] true)
    fp8_split_heap 0 1 0 false [].

(** The checkpoint of the same layer saved without fp8 parameter gather: one
    buffer keyed [(bfloat16, float32)] whose world tensors hold the bias
    followed by the weight, six elements in all. *)
Definition fp8_split_checkpoint : state_dict_t :=
  [(KBucketsCoalesced, SBool true);
   (KGbuf 0,
    SGbuf [((bfloat16, float32),
            [("param", WTensor {| dtype := float32;
                                  values := [5; 6; 1; 2; 3; 4] |});
             ("exp_avg", WTensor {| dtype := float32;
                                    values := [50; 60; 10; 20; 30; 40] |});
             ("exp_avg_sq", WTensor {| dtype := float32;
                                       values := [25; 36; 1; 4; 9; 16] |});
             ("numel_unpadded", WInt 6)])])].

(** ** Gather/scatter restore: [load_parameter_state_from_dp_zero]
    (lines 1430-1538) *)

Definition range_step_msg : string := "range() arg 3 must not be zero".
Definition negative_dim_msg : string :=
  "Trying to create tensor with negative dimension".
Definition scatter_list_msg : string :=
  "scatter_list must hold one tensor of the output's size per rank".
Definition scatter_unmatched_msg : string :=
  "scatter: no matching call on the source rank".

Definition numel_unpadded_msg (buffer_numel_unpadded checkpoint_numel_unpadded : Z)
  : string :=
  "Number of unpadded elements must be same in current run ("
    +:+ pretty buffer_numel_unpadded +:+ ") and checkpoint ("
    +:+ pretty checkpoint_numel_unpadded +:+ ")".

(** [list(range(start, stop, step))] *)
Definition py_range3 (start stop step : Z) : result (list Z) :=
  if decide (step = 0) then Raise (ValueError range_step_msg) else
  let n := if decide (0 < step) then (stop - start + step - 1) `div` step
           else (start - stop - step - 1) `div` (- step) in
  Ok ((fun i => start + i * step) <$> py_range n).

(** [torch.zeros((n,), dtype=torch.float32, device="cpu")] *)
Definition torch_zeros (n : Z) : result (list scalar) :=
  if decide (n < 0) then Raise (RuntimeError negative_dim_msg)
  else Ok (replicate (Z.to_nat n) 0).

(** [torch.nn.functional.pad(t, (0, k))]: [k] zeros appended, or, for a
    negative [k], that many elements cropped. *)
Definition torch_pad_right (t : list scalar) (k : Z) : list scalar :=
  if decide (0 <= k) then t ++ replicate (Z.to_nat k) 0
  else take (length t - Z.to_nat (- k)) t.

(** [dst.data.copy_(src)] on one-dimensional tensors: [src] has the length of
    [dst], or one element, which is broadcast. The tensor keeps its dtype. *)
Definition copy_ (store : Store) (dst : tensor_id) (src : list scalar)
  : result Store :=
  let t := tensor_of store dst in
  let put vs :=
    {| tensor_of := <[dst := {| dtype := dtype t; values := vs |}]> (tensor_of store);
       next_id := next_id store |} in
  if decide (length src = length (values t)) then Ok (put src)
  else
    match src with
    | [x] => Ok (put (replicate (length (values t)) x))
    | _ => Raise (RuntimeError shape_mismatch_msg)
    end.

(** The gloo group as one rank sees it through [torch.distributed.scatter]
    with source rank 0. A call on the source appends the list it scatters to
    [sent]; a call on another rank takes the next list of [pending], the lists
    the source has scattered and this rank has not yet received. *)
Record Comm : Type := {
  sent : list (list (list scalar));
  pending : list (list (list scalar))
}.

(** [torch.distributed.scatter(recv_tensor, scatter_list, src, group)]: the
    rank receives the tensor of [scatter_list] at its own index. The list is
    given on the source and is [None] elsewhere; it holds one tensor per rank
    of the group, each of the size of [recv_tensor]. *)
Definition scatter (rank : nat) (world_size : Z) (recv_tensor : list scalar)
    (scatter_list : option (list (list scalar))) (comm : Comm)
  : result (list scalar * Comm) :=
  match scatter_list with
  | Some tensors =>
      if bool_decide (Z.of_nat (length tensors) = world_size
                      /\ Forall (fun t => length t = length recv_tensor) tensors)
      then
        mine ← or_raise (RuntimeError scatter_list_msg) (tensors !! rank);
        Ok (mine, {| sent := sent comm ++ [tensors]; pending := pending comm |})
      else Raise (RuntimeError scatter_list_msg)
  | None =>
      match pending comm with
      | [] => Raise (RuntimeError scatter_unmatched_msg)
      | tensors :: pending' =>
          mine ← or_raise (RuntimeError scatter_list_msg) (tensors !! rank);
          if decide (length mine = length recv_tensor)
          then Ok (mine, {| sent := sent comm; pending := pending' |})
          else Raise (RuntimeError scatter_list_msg)
      end
  end.

(** Lines 1523-1531: the tensor a key of a model parameter is restored into.
    [self.optimizer.state] is a [defaultdict]: a main parameter without state
    gets an empty dict, in which the key is then missing. *)
Definition tensor_to_copy_into (self : DistOpt.t) (key : string)
    (model_param : param_id) : result tensor_id :=
  main_param ← main_param_of self model_param;
  if decide (key = "param") then Ok main_param
  else
    let optim_state :=
      (optimizer_state_get (DistOpt.optimizer self) main_param).1 in
    or_raise KeyError (Dict.get optim_state key).

(** [state_dict[gbuf_idx][dtype][key]] *)
Definition sd_entry (state_dict : state_dict_t) (gbuf_idx : nat)
    (dtype : dtype_pair) (key : string) : result wval :=
  by_dtype ← sd_gbuf state_dict gbuf_idx;
  entry ← or_raise KeyError (Dict.get by_dtype dtype);
  or_raise KeyError (Dict.get entry key).

(** Lines 1462-1468, on rank 0. *)
Definition check_numel_unpadded (self : DistOpt.t) (state_dict : state_dict_t)
    (gbuf_idx : nat) (dtype : dtype_pair) : result unit :=
  buffer ← or_raise IndexError (DistOpt.buffers self !! gbuf_idx);
  let buffer_numel_unpadded := buffer_numel_unpadded buffer in
  v ← sd_entry state_dict gbuf_idx dtype "numel_unpadded";
  match v with
  | WInt checkpoint_numel_unpadded =>
      py_assert (bool_decide (buffer_numel_unpadded = checkpoint_numel_unpadded))
        (numel_unpadded_msg buffer_numel_unpadded checkpoint_numel_unpadded)
  | WTensor _ => Raise (TypeError not_an_int_msg)
  end.

(** Lines 1489-1509: what rank 0 scatters for a bucket, and the offset of
    the next bucket in the world tensor. *)
Definition send_tensors_of (state_dict : state_dict_t) (gbuf_idx : nat)
    (dtype : dtype_pair) (key : string) (offset_in_world_tensors : Z)
    (gbuf_world_numel gbuf_local_numel gbuf_world_numel_unpadded : Z)
  : result (list (list scalar) * Z) :=
  v ← sd_entry state_dict gbuf_idx dtype key;
  world_tensors ←
    match v with
    | WTensor t => Ok (values t)
    | WInt _ => Raise (TypeError not_a_tensor_msg)
    end;
  let start := offset_in_world_tensors in
  let end_ := offset_in_world_tensors + gbuf_world_numel_unpadded in
  py_assert (bool_decide (0 <= start /\ start < end_
                          /\ end_ <= Z.of_nat (length world_tensors)))
            EmptyString;;
  let world_tensor := py_slice world_tensors start end_ in
  let offset_in_world_tensors :=
    offset_in_world_tensors + gbuf_world_numel_unpadded in
  let world_tensor :=
    torch_pad_right world_tensor (gbuf_world_numel - gbuf_world_numel_unpadded) in
  py_assert (bool_decide (Z.of_nat (length world_tensor) = gbuf_world_numel))
            EmptyString;;
  gbuf_start_idxs ← py_range3 0 gbuf_world_numel gbuf_local_numel;
  let send_tensors :=
    (fun i => py_slice world_tensor i (i + gbuf_local_numel))
      <$> (gbuf_start_idxs : list Z) in
  Ok (send_tensors, offset_in_world_tensors).

(** Lines 1520-1538: the received shard copied into the tensors of the
    parameters of the bucket's [param_map]. *)
Definition copy_local_shards (self : DistOpt.t) (key : string)
    (recv_tensor : list scalar) (gbuf_range_map : GbufRange) (store : Store)
  : result Store :=
  foldM (fun store '(model_param, param_range_map) =>
    tensor_to_copy_into ← tensor_to_copy_into self key model_param;
    let gbuf_local_start := start (gbuf_local param_range_map) in
    let gbuf_local_end := end_ (gbuf_local param_range_map) in
    copy_ store tensor_to_copy_into
          (py_slice recv_tensor gbuf_local_start gbuf_local_end))
  (param_map gbuf_range_map) store.

(** The body of [for bucket_idx, gbuf_range_map in enumerate(...)] (lines
    1471-1538); the accumulator holds [offset_in_world_tensors]. *)
Definition load_bucket (self : DistOpt.t) (state_dict : state_dict_t)
    (gbuf_idx : nat) (dtype : dtype_pair) (key : string)
    (acc : Z * (Store * Comm)) (item : nat * GbufRange)
  : result (Z * (Store * Comm)) :=
  let data_parallel_world_size := DistOpt.data_parallel_world_size self in
  let data_parallel_rank := DistOpt.data_parallel_rank self in
  let '(offset_in_world_tensors, (store, comm)) := acc in
  let '(bucket_idx, gbuf_range_map) := item in
  buffer ← or_raise IndexError (DistOpt.buffers self !! gbuf_idx);
  bucket ← or_raise IndexError (buckets buffer !! bucket_idx);
  let gbuf_world_numel := grad_data_numel bucket in
  (if decide (data_parallel_world_size = 0) then Raise ZeroDivisionError
   else Ok tt);;
  py_assert (bool_decide (gbuf_world_numel `mod` data_parallel_world_size = 0))
            EmptyString;;
  let gbuf_local_numel := gbuf_world_numel `div` data_parallel_world_size in
  let gbuf_world_numel_unpadded := numel_unpadded bucket in
  py_assert (bool_decide (gbuf_world_numel_unpadded <= gbuf_world_numel))
            EmptyString;;
  recv_tensor ← torch_zeros gbuf_local_numel;
  '(send_tensors, offset_in_world_tensors) ←
    (if decide (data_parallel_rank = 0%nat) then
       '(send_tensors, offset_in_world_tensors) ←
         send_tensors_of state_dict gbuf_idx dtype key offset_in_world_tensors
           gbuf_world_numel gbuf_local_numel gbuf_world_numel_unpadded;
       Ok (Some send_tensors, offset_in_world_tensors)
     else Ok (None, offset_in_world_tensors));
  '(recv_tensor, comm) ←
    scatter data_parallel_rank data_parallel_world_size recv_tensor
            send_tensors comm;
  store ← copy_local_shards self key recv_tensor gbuf_range_map store;
  Ok (offset_in_world_tensors, (store, comm)).

(** The body of [for key in ("param", "exp_avg", "exp_avg_sq")]. *)
Definition load_key (self : DistOpt.t) (state_dict : state_dict_t)
    (gbuf_idx : nat) (dtype : dtype_pair)
    (gbuf_range_map_for_all_buckets : list GbufRange)
    (st : Store * Comm) (key : string) : result (Store * Comm) :=
  '(_, st) ←
    foldM (load_bucket self state_dict gbuf_idx dtype key)
          (enumerate gbuf_range_map_for_all_buckets) (0, st);
  Ok st.

(** The body of [for dtype, gbuf_range_map_for_all_buckets in ....items()]. *)
Definition load_dtype (self : DistOpt.t) (state_dict : state_dict_t)
    (gbuf_idx : nat) (st : Store * Comm)
    (item : dtype_pair * list GbufRange) : result (Store * Comm) :=
  let '(dtype, gbuf_range_map_for_all_buckets) := item in
  (if decide (DistOpt.data_parallel_rank self = 0%nat)
   then check_numel_unpadded self state_dict gbuf_idx dtype
   else Ok tt);;
  foldM (load_key self state_dict gbuf_idx dtype gbuf_range_map_for_all_buckets)
        ["param"; "exp_avg"; "exp_avg_sq"] st.

(** [load_parameter_state_from_dp_zero(state_dict)], with
    [update_legacy_format=False], as one rank runs it. Only rank 0 reads
    [state_dict]; the other ranks are handed [None], for which any dict
    stands here. The tensors restored are those of [store]. *)
Definition load_parameter_state_from_dp_zero (self : DistOpt.t)
    (state_dict : state_dict_t) (st : Store * Comm) : result (Store * Comm) :=
  state_dict ←
    (if decide (DistOpt.data_parallel_rank self = 0%nat)
     then split_state_dict_if_needed self state_dict
     else Ok state_dict);
  foldM (fun st '(gbuf_idx, gbuf_range_maps) =>
    foldM (load_dtype self state_dict gbuf_idx)
          (gbuf_range_maps : gbuf_range_map_t) st)
  (enumerate (DistOpt.gbuf_ranges self)) st.

(** The data-parallel group running the restore. Rank 0, the head of
    [ranks], holds the checkpoint; what it scatters is what the other ranks
    have pending, and a rank returns having received every scattered list. *)
Definition load_parameter_state (ranks : list (DistOpt.t * Store))
    (state_dict : state_dict_t) : result (list Store) :=
  match ranks with
  | [] => Ok []
  | (root, store) :: others =>
      '(store, comm) ←
        load_parameter_state_from_dp_zero root state_dict
          (store, {| sent := []; pending := [] |});
      stores ←
        mapM (fun '(self, store) =>
          '(store, comm') ←
            load_parameter_state_from_dp_zero self []
              (store, {| sent := []; pending := sent comm |});
          (if decide (pending comm' = []) then Ok tt
           else Raise (RuntimeError scatter_unmatched_msg));;
          Ok store)
        others;
      Ok (store :: stores)
  end.

(** Two data-parallel ranks over one float32 buffer of two buckets of four
    elements each: parameter 0 fills [[0,3)] and parameter 2 [[3,4)] of
    bucket 0, parameter 1 fills [[4,7)] of bucket 1, whose last element is
    padding. Every rank keeps the main shard of parameter [p] in tensor
    [10 * p + 10], its [exp_avg] and [exp_avg_sq] in the two tensors after
    it. *)
Definition dp_zero_buffer (rank : nat) : ParamAndGradBuffer :=
  {| data_parallel_rank := rank;
     data_parallel_world_size := 2;
     param_dtype := float32;
     grad_dtype := float32;
     buckets := [{| offset := 0; grad_data_numel := 4; numel_unpadded := 4 |};
                 {| offset := 4; grad_data_numel := 4; numel_unpadded := 3 |}];
     param_index_map :=
       [(0%nat, (0, 3, 0)); (2%nat, (3, 4, 0)); (1%nat, (4, 7, 1))];
     buffer_numel_unpadded := 7;
     buffer_params := [1%nat; 2%nat; 0%nat];
     param_indices := [0; 1; 2] |}.

Definition dp_zero_self (rank : nat) : DistOpt.t :=
  DistOpt.mk [dp_zero_buffer rank]
    (match _build_gbuf_range_map (dp_zero_buffer rank) with
     | Ok gbuf_range_map => [gbuf_range_map]
     | Raise _ => []
     end)
    [[((float32, float32), [4; 4])]] [[((float32, float32), [4; 3])]]
    [(0%nat, (0%nat, 0%nat)); (1%nat, (0%nat, 1%nat)); (2%nat, (0%nat, 2%nat))]
    (Optimizer.mk [[10%nat; 20%nat; 30%nat]]
       [(10%nat, [("exp_avg", 11%nat); ("exp_avg_sq", 12%nat)]);
        (20%nat, [("exp_avg", 21%nat); ("exp_avg_sq", 22%nat)]);
        (30%nat, [("exp_avg", 31%nat); ("exp_avg_sq", 32%nat)])] true)
    double_param_heap rank 2 0 false [].

(** The shards of rank 0 have two elements, those of rank 1 one. *)
Definition dp_zero_store (rank : nat) : Store :=
  {| tensor_of := fun _ =>
       {| dtype := float32; values := replicate (2 - rank) 0 |};
     next_id := 40%nat |}.

Definition dp_zero_ranks : list (DistOpt.t * Store) :=
  [(dp_zero_self 0, dp_zero_store 0); (dp_zero_self 1, dp_zero_store 1)].

Definition dp_zero_checkpoint (numel_unpadded : Z) : state_dict_t :=
  [(KBucketsCoalesced, SBool true);
   (KGbuf 0,
    SGbuf [((float32, float32),
            [("param", WTensor {| dtype := float32;
                                  values := [1; 2; 3; 4; 5; 6; 7] |});
             ("exp_avg", WTensor {| dtype := float32;
                                    values := [11; 12; 13; 14; 15; 16; 17] |});
             ("exp_avg_sq", WTensor {| dtype := float32;
                                       values := [21; 22; 23; 24; 25; 26; 27] |});
             ("numel_unpadded", WInt numel_unpadded)])])].

(** *** What a restore is to leave in the shards *)

(** A scatter call of the restore: buffer, dtype pair, key, bucket and the
    bucket's range map on the calling rank. *)
Definition load_job : Type := nat * dtype_pair * string * nat * GbufRange.

Definition bucket_jobs (gbuf_idx : nat) (dtype : dtype_pair) (key : string)
    (gbuf_range_map_for_all_buckets : list GbufRange) : list load_job :=
  (fun item : nat * GbufRange => (gbuf_idx, dtype, key, item.1, item.2))
    <$> enumerate gbuf_range_map_for_all_buckets.

Definition key_jobs (gbuf_idx : nat) (item : dtype_pair * list GbufRange)
  : list load_job :=
  key ← ["param"; "exp_avg"; "exp_avg_sq"];
  bucket_jobs gbuf_idx item.1 key item.2.

Definition dtype_jobs (item : nat * gbuf_range_map_t) : list load_job :=
  item.2 ≫= key_jobs item.1.

(** The scatter calls of a rank, in the order of the loop nest. *)
Definition load_jobs (self : DistOpt.t) : list load_job :=
  enumerate (DistOpt.gbuf_ranges self) ≫= dtype_jobs.

(** Where a call reads the checkpoint and the buffers, without the range
    map, which is the rank's own. *)
Definition job_call (job : load_job) : nat * dtype_pair * string * nat :=
  let '(gbuf_idx, dtype, key, bucket_idx, _) := job in
  (gbuf_idx, dtype, key, bucket_idx).

(** The buckets of the buffers of a rank. *)
Definition bucket_layout (self : DistOpt.t) : list (list Bucket) :=
  buckets <$> DistOpt.buffers self.

(** The offset of a bucket in a world tensor: the unpadded sizes of the
    buckets before it. *)
Definition offset_of_bucket (bucket_list : list Bucket) (bucket_idx : nat) : Z :=
  foldr (fun bucket o => numel_unpadded bucket + o) 0
        (take bucket_idx bucket_list).

(** The bucket's part of a world tensor, padded with zeros at its tail to
    the size of the bucket. *)
Definition padded_bucket (bucket_list : list Bucket) (world_tensors : list scalar)
    (bucket_idx : nat) : list scalar :=
  match bucket_list !! bucket_idx with
  | Some bucket =>
      let o := offset_of_bucket bucket_list bucket_idx in
      py_slice world_tensors o (o + numel_unpadded bucket)
        ++ replicate (Z.to_nat (grad_data_numel bucket - numel_unpadded bucket)) 0
  | None => []
  end.

(** The chunk of rank [r] when a tensor is cut into [W] equal chunks. *)
Definition shard_of_rank (W : Z) (r : nat) (t : list scalar) : list scalar :=
  let n := Z.of_nat (length t) `div` W in
  py_slice t (Z.of_nat r * n) (Z.of_nat r * n + n).

Definition scattered (W : Z) (t : list scalar) : list (list scalar) :=
  (fun r => shard_of_rank W r t) <$> seq 0 (Z.to_nat W).

(** [state_dict[gbuf_idx][dtype][key]] as a flat tensor. *)
Definition world_tensor_of (state_dict : state_dict_t) (gbuf_idx : nat)
    (dtype : dtype_pair) (key : string) : list scalar :=
  match sd_entry state_dict gbuf_idx dtype key with
  | Ok (WTensor t) => values t
  | _ => []
  end.

(** The padded bucket tensor a call is about. *)
Definition job_tensor (state_dict : state_dict_t) (layout : list (list Bucket))
    (call : nat * dtype_pair * string * nat) : list scalar :=
  let '(gbuf_idx, dtype, key, bucket_idx) := call in
  padded_bucket (default [] (layout !! gbuf_idx))
                (world_tensor_of state_dict gbuf_idx dtype key) bucket_idx.

(** The tensor a key of a parameter is restored into, where there is one. *)
Definition target_id (self : DistOpt.t) (key : string) (model_param : param_id)
  : tensor_id :=
  match tensor_to_copy_into self key model_param with
  | Ok t => t
  | Raise _ => 0%nat
  end.

(** The tensors a call writes on a rank, each with what the claim says it
    is to hold: the slice [[gbuf_local.start, gbuf_local.end)] of the rank's
    chunk. *)
Definition job_writes (state_dict : state_dict_t) (layout : list (list Bucket))
    (W : Z) (self : DistOpt.t) (job : load_job)
  : list (tensor_id * list scalar) :=
  let '(_, _, key, _, gbuf_range_map) := job in
  (fun item : param_id * ParamRanges =>
     (target_id self key item.1,
      py_slice (shard_of_rank W (DistOpt.data_parallel_rank self)
                              (job_tensor state_dict layout (job_call job)))
               (start (gbuf_local item.2)) (end_ (gbuf_local item.2))))
    <$> param_map gbuf_range_map.

(** The group and the checkpoint fit together: [W] ranks numbered in order
    with the same buckets and the same calls; bucket sizes that [W] divides,
    with a non-empty unpadded part; world tensors that cover the buckets; on
    rank 0 a checkpoint that needs no dtype split and has the buffers'
    unpadded sizes; on every rank, for every owned parameter and key, a shard
    tensor of the length of its [gbuf_local] range, which lies within the
    chunk, no tensor standing for two of them. *)
Record dp_zero_wf (W : Z) (layout : list (list Bucket))
    (calls : list (nat * dtype_pair * string * nat))
    (ranks : list (DistOpt.t * Store)) (state_dict : state_dict_t) : Prop := {
  wf_world_size : 0 < W /\ Z.of_nat (length ranks) = W;
  wf_rank : forall r self store, ranks !! r = Some (self, store) ->
    DistOpt.data_parallel_rank self = r
    /\ DistOpt.data_parallel_world_size self = W
    /\ bucket_layout self = layout
    /\ job_call <$> load_jobs self = calls;
  wf_buckets : forall bucket_list bucket,
    bucket_list ∈ layout -> bucket ∈ bucket_list ->
    grad_data_numel bucket `mod` W = 0
    /\ 0 < numel_unpadded bucket <= grad_data_numel bucket;
  wf_calls : forall gbuf_idx dtype key bucket_idx,
    (gbuf_idx, dtype, key, bucket_idx) ∈ calls ->
    exists bucket_list world_tensors,
      layout !! gbuf_idx = Some bucket_list
      /\ (bucket_idx < length bucket_list)%nat
      /\ sd_entry state_dict gbuf_idx dtype key = Ok (WTensor world_tensors)
      /\ offset_of_bucket bucket_list (length bucket_list)
         <= Z.of_nat (length (values world_tensors));
  wf_split : forall root store, ranks !! 0%nat = Some (root, store) ->
    split_state_dict_if_needed root state_dict = Ok state_dict;
  wf_numel_unpadded : forall root store gbuf_idx dtype,
    ranks !! 0%nat = Some (root, store) ->
    (gbuf_idx, dtype) ∈ gbuf_dtypes root ->
    exists buffer,
      DistOpt.buffers root !! gbuf_idx = Some buffer
      /\ sd_entry state_dict gbuf_idx dtype "numel_unpadded"
         = Ok (WInt (buffer_numel_unpadded buffer));
  wf_shards : forall r self store gbuf_idx dtype key bucket_idx gbuf_range_map
                     model_param param_range_map,
    ranks !! r = Some (self, store) ->
    (gbuf_idx, dtype, key, bucket_idx, gbuf_range_map) ∈ load_jobs self ->
    (model_param, param_range_map) ∈ param_map gbuf_range_map ->
    exists t bucket_list bucket,
      tensor_to_copy_into self key model_param = Ok t
      /\ layout !! gbuf_idx = Some bucket_list
      /\ bucket_list !! bucket_idx = Some bucket
      /\ 0 <= start (gbuf_local param_range_map)
      /\ end_ (gbuf_local param_range_map) <= grad_data_numel bucket `div` W
      /\ Z.of_nat (length (values (tensor_of store t)))
         = end_ (gbuf_local param_range_map) - start (gbuf_local param_range_map);
  wf_distinct : forall r self store, ranks !! r = Some (self, store) ->
    NoDup ((load_jobs self ≫= job_writes state_dict layout W self).*1)
}.

(** What rank 0 scatters at a call. *)
Definition job_payload (state_dict : state_dict_t) (layout : list (list Bucket))
    (W : Z) (job : load_job) : list (list scalar) :=
  scattered W (job_tensor state_dict layout (job_call job)).

(** The tensors of [ws] have the lengths of what they are to receive. *)
Definition fits (ws : list (tensor_id * list scalar)) (store : Store) : Prop :=
  forall t v, (t, v) ∈ ws -> length (values (tensor_of store t)) = length v.

(** From [store] to [store'], the tensors of [ws] have received their
    values and no other tensor has changed. *)
Definition written (ws : list (tensor_id * list scalar)) (store store' : Store)
  : Prop :=
  (forall t v, (t, v) ∈ ws -> values (tensor_of store' t) = v)
  /\ (forall t, t ∉ ws.*1 -> tensor_of store' t = tensor_of store t).

(** A piece of the restore, on rank [r], makes the scatter calls with the
    payloads [ps] and the writes [ws]: rank 0 sends [ps], another rank that
    has [ps] pending receives them; either way the tensors of [ws], if they
    fit, are written. *)
Definition runs (r : nat) (f : Store * Comm -> result (Store * Comm))
    (ps : list (list (list scalar))) (ws : list (tensor_id * list scalar))
  : Prop :=
  forall store comm rest,
    (r <> 0%nat -> pending comm = ps ++ rest) ->
    fits ws store ->
    exists store' comm',
      f (store, comm) = Ok (store', comm')
      /\ sent comm' = (if decide (r = 0%nat) then sent comm ++ ps else sent comm)
      /\ pending comm' = (if decide (r = 0%nat) then pending comm else rest)
      /\ written ws store store'.

(** A call the rank can carry out: its bucket exists, the world tensor of
    its key covers the buckets of the buffer, and each parameter of the
    bucket has a tensor to be restored into. *)
Definition job_feasible (state_dict : state_dict_t) (layout : list (list Bucket))
    (self : DistOpt.t) (job : load_job) : Prop :=
  let '(gbuf_idx, dtype, key, bucket_idx, gbuf_range_map) := job in
  (exists bucket_list world_tensors,
     layout !! gbuf_idx = Some bucket_list
     /\ (bucket_idx < length bucket_list)%nat
     /\ sd_entry state_dict gbuf_idx dtype key = Ok (WTensor world_tensors)
     /\ offset_of_bucket bucket_list (length bucket_list)
        <= Z.of_nat (length (values world_tensors)))
  /\ forall item, item ∈ param_map gbuf_range_map ->
       exists t, tensor_to_copy_into self key item.1 = Ok t.

(** ** [_get_model_param_range_map] (lines 566-574) *)

(** [self._get_model_param_range_map(param)], reading
    [self.model_param_gbuf_map] and [self.gbuf_ranges]. *)
Definition _get_model_param_range_map
    (model_param_gbuf_map : list (param_id * (nat * dtype_pair * nat)))
    (gbuf_ranges : gbuf_ranges_t) (param : param_id) : result ParamRanges :=
  '(gbuf_index, dtype, bucket_index) ←
    or_raise KeyError (Dict.get model_param_gbuf_map param);
  by_dtype ← or_raise IndexError (gbuf_ranges !! gbuf_index);
  gbuf_range_map_for_all_buckets ←
    or_raise KeyError (Dict.get (by_dtype : gbuf_range_map_t) dtype);
  gbuf_range_map ←
    or_raise IndexError (gbuf_range_map_for_all_buckets !! bucket_index);
  or_raise KeyError (Dict.get (param_map gbuf_range_map) param).

(** The parameters of the range maps with the place of each: grad buffer,
    dtype pair and bucket, in the order of the loop nest of
    [_build_model_param_gbuf_map]. *)
Definition param_locations (gbuf_ranges : gbuf_ranges_t)
  : list (param_id * (nat * dtype_pair * nat)) :=
  '(gbuf_index, gbuf_range_map) ← enumerate gbuf_ranges;
  '(dtype, gbuf_range_map_for_all_buckets) ← (gbuf_range_map : gbuf_range_map_t);
  '(bucket_index, gbuf_range_map) ← enumerate gbuf_range_map_for_all_buckets;
  (fun item : param_id * ParamRanges => (item.1, (gbuf_index, dtype, bucket_index)))
    <$> param_map gbuf_range_map.

(** ** [_update_legacy_world_tensors] (lines 1298-1315) *)

Definition cat_empty_msg : string :=
  "torch.cat(): expected a non-empty list of Tensors".

(** [sum(l)] *)
Definition py_sum (l : list Z) : Z := foldl Z.add 0 l.

(** The buckets of a legacy checkpoint, each a flat tensor, recut to the
    sizes [new_numels]. *)
Definition _update_legacy_world_tensors (old_tensors : list (list scalar))
    (new_numels : list Z) : result (list (list scalar)) :=
  let old_total := py_sum ((fun t => Z.of_nat (length t)) <$> old_tensors) in
  let new_total := py_sum new_numels in
  py_assert (bool_decide (old_total = new_total)) EmptyString;;
  unified_tensor ←
    (if decide (old_tensors = []) then Raise (RuntimeError cat_empty_msg)
     else Ok (concat old_tensors));
  let '(new_tensors, _) :=
    foldl (fun '(new_tensors, start_idx) new_numel =>
             (new_tensors
                ++ [py_slice unified_tensor start_idx (start_idx + new_numel)],
              start_idx + new_numel))
          ([], 0) new_numels in
  Ok new_tensors.

(** *** The spans of a bucket's records *)

(** The span [[gbuf_local_start, gbuf_local_end)] of a record of a bucket's
    state, and whether the record has the key ["padding"]. *)
Definition span_of (record : list (string * pyval)) : option (Z * Z * bool) :=
  match get_int record "gbuf_local_start", get_int record "gbuf_local_end" with
  | Ok s, Ok e => Some (s, e, Dict.mem record "padding")
  | _, _ => None
  end.

(** The records [bs], counted from [i], with the record that [pads] has for
    an index put before the record at that index. *)
Fixpoint weave {R} (pads : list (nat * R)) (i : nat) (bs : list R) : list R :=
  match bs with
  | [] => []
  | r :: bs' =>
      match Dict.get pads i with
      | Some p => p :: r :: weave pads (S i) bs'
      | None => r :: weave pads (S i) bs'
      end
  end.

(** ** Restoring the bucket-space state:
    [load_parameter_state_from_fs_bucket_space] (lines 1214-1257) *)

Definition per_bucket_numel_msg : string :=
  "Number of unpadded elements in each bucket need to be the same in current run and checkpoint".
Definition copy_arg_msg : string := "copy_(): argument 'other' must be Tensor".
Definition inplace_view_msg : string :=
  "a view of a leaf Variable that requires grad is being used in an in-place operation.".
Definition none_not_subscriptable_msg : string :=
  "'NoneType' object is not subscriptable".
Definition tensor_bool_msg : string :=
  "Boolean value of Tensor with more than one value is ambiguous".
Definition tensor_bool_empty_msg : string :=
  "Boolean value of Tensor with no values is ambiguous".

Definition len_pair_msg (a b : nat) : string :=
  "(" +:+ pretty (Z.of_nat a) +:+ ", " +:+ pretty (Z.of_nat b) +:+ ")".

(** [d1 == d2] on dicts: the same keys with the same values, in any order. *)
Definition dict_eqb {K V} `{EqDecision K, EqDecision V} (d1 d2 : list (K * V))
  : bool :=
  bool_decide (length d1 = length d2
               /\ Forall (fun k => Dict.get d1 k = Dict.get d2 k) (Dict.keys d1)).

(** [l1 == l2] on lists of dicts. *)
Definition tables_eqb (l1 l2 : list (list (dtype_pair * list Z))) : bool :=
  bool_decide (length l1 = length l2)
  && forallb (fun ds => dict_eqb ds.1 ds.2) (zip l1 l2).

(** [bool(v)]: a tensor has a truth value when it has one element. *)
Definition py_bool (store : Store) (v : pyval) : result bool :=
  match v with
  | VBool b => Ok b
  | VInt z => Ok (negb (bool_decide (z = 0)))
  | VTensor t =>
      match values (tensor_of store t) with
      | [] => Raise (RuntimeError tensor_bool_empty_msg)
      | [x] => Ok (negb (bool_decide (x = 0)))
      | _ => Raise (RuntimeError tensor_bool_msg)
      end
  | VLocalNonpersistent _ | VSharded _ => Ok true
  end.

(** [[x for x in xs if keep(x)]] *)
Fixpoint filterM {A} (keep : A -> result bool) (xs : list A) : result (list A) :=
  match xs with
  | [] => Ok []
  | x :: xs' =>
      b ← keep x;
      ys ← filterM keep xs';
      Ok (if b : bool then x :: ys else ys)
  end.

(** The number of ["torch.cuda.FloatTensor"] model parameters that this rank
    owns in the optimizer group [group_index]: the length of
    [shard_fp32_params_this_group] (line 390). *)
Definition fp32_params_in_group (self : DistOpt.t) (group_index : nat) : nat :=
  length (filter (fun item : param_id * (nat * nat) =>
                    item.2.1 = group_index
                    /\ type_ (DistOpt.model_params self item.1)
                       = "torch.cuda.FloatTensor")
                 (DistOpt.model_param_group_index_map self)).

(** A tensor of the optimizer that is a view of a leaf that requires grad.
    Line 407 makes the parameters of every optimizer group the shards of the
    group's float32 model parameters followed by the main parameters of its
    half and bfloat16 ones. The former are [model_param.view(-1)[...]]
    (line 388) of parameters that line 339 asserts to require grad; the
    latter are clones of detached views (lines 349-369), and the state
    tensors of the optimizer are no views of parameters. *)
Definition is_grad_view (self : DistOpt.t) (t : tensor_id) : bool :=
  existsb (fun '(group_index, group) =>
             bool_decide (t ∈ take (fp32_params_in_group self group_index)
                                   (group : list tensor_id)))
          (enumerate (Optimizer.param_groups (DistOpt.optimizer self))).

(** [for key in dst_tensors: dst_tensors[key].copy_(src_tensors[key])]
    (lines 1256-1257). The call is [copy_] on the tensor itself, not on its
    [.data]: with grad mode on, autograd refuses it on a view of a leaf that
    requires grad, before anything is copied. The source is a tensor, read
    when it is copied, or a Python number, which fills the destination. *)
Definition copy_state_tensors (grad_enabled : bool) (self : DistOpt.t)
    (dst_tensors : list (string * tensor_id))
    (src_tensors : list (string * pyval)) (store : Store) : result Store :=
  foldM (fun store '(key, dst) =>
    src ← or_raise KeyError (Dict.get src_tensors key);
    src ←
      match src with
      | VTensor t => Ok (values (tensor_of store t))
      | VInt z => Ok [z]
      | VBool b => Ok [Z.b2z b]
      | VLocalNonpersistent _ | VSharded _ => Raise (TypeError copy_arg_msg)
      end;
    if grad_enabled && is_grad_view self dst
    then Raise (RuntimeError inplace_view_msg)
    else copy_ store dst src)
  dst_tensors store.

(** [{"param": main_param, **optim_state}] for the main parameter of
    [model_param] (lines 1251-1255). *)
Definition dst_tensors_of (self : DistOpt.t) (model_param : param_id)
  : result (list (string * tensor_id)) :=
  main_param ← main_param_of self model_param;
  let optim_state := optim_state_of self main_param in
  Ok (dict_update [("param", main_param)] optim_state).

(** The body of the loop over the buckets (lines 1236-1257). *)
Definition load_bucket_state (grad_enabled : bool) (self : DistOpt.t)
    (bucket_state : list (list (string * pyval))) (gbuf_range_map : GbufRange)
    (store : Store) : result Store :=
  bucket_state ←
    filterM (fun bucket_state_elem =>
               padding ← or_raise KeyError (Dict.get bucket_state_elem "padding");
               negb <$> py_bool store padding)
            bucket_state;
  py_assert (bool_decide (length bucket_state
                          = length (param_map gbuf_range_map)))
            (len_pair_msg (length bucket_state)
                          (length (param_map gbuf_range_map)));;
  foldM (fun store '(src_tensors, (model_param, _)) =>
           dst_tensors ← dst_tensors_of self model_param;
           copy_state_tensors grad_enabled self dst_tensors src_tensors store)
        (zip bucket_state (param_map gbuf_range_map)) store.

(** [state_dict] is [None] or the bucket-space state, with or without its two
    tables. [grad_enabled] is [torch.is_grad_enabled()] at the call: the
    method does not run under [torch.no_grad()], and neither does
    [load_state_dict], which calls it. *)
Definition load_parameter_state_from_fs_bucket_space (grad_enabled : bool)
    (self : DistOpt.t)
    (state_dict
       : option (BucketSpaceState (option (list (list (dtype_pair * list Z))))))
    (store : Store) : result Store :=
  match state_dict with
  | Some sd =>
      match bs_per_bucket_numel_unpadded sd with
      | Some per_bucket_numel_unpadded_in_checkpoint =>
          py_assert (tables_eqb (DistOpt.per_bucket_numel_unpadded self)
                                per_bucket_numel_unpadded_in_checkpoint)
                    per_bucket_numel_msg
      | None => Ok tt
      end
  | None => Ok tt
  end;;
  foldM (fun store '(gbuf_idx, gbuf_range_maps) =>
    py_assert (bool_decide (length (gbuf_range_maps : gbuf_range_map_t) = 1%nat))
              single_dtype_msg;;
    foldM (fun store '(dtype, gbuf_range_map_for_all_buckets) =>
      foldM (fun store '(bucket_idx, gbuf_range_map) =>
        sd ← or_raise (TypeError none_not_subscriptable_msg) state_dict;
        by_dtype ← or_raise KeyError (Dict.get (bs_gbufs sd) gbuf_idx);
        buckets_state ←
          or_raise KeyError
                   (Dict.get (by_dtype : list (dtype_pair * _)) dtype);
        bucket_state ← or_raise IndexError (buckets_state !! bucket_idx);
        load_bucket_state grad_enabled self bucket_state gbuf_range_map store)
      (enumerate gbuf_range_map_for_all_buckets) store)
    gbuf_range_maps store)
  (enumerate (DistOpt.gbuf_ranges self)) store.

(** *** What a restore copies *)

(** A restore makes the copies [cs], each a destination with its source: no
    tensor is the destination of two copies, a source is its own destination
    or no destination at all, and a destination has the length of its
    source. *)
Definition copies_ok (cs : list (tensor_id * tensor_id)) (store : Store) : Prop :=
  NoDup cs.*1
  /\ forall d s, (d, s) ∈ cs ->
       (s = d \/ s ∉ cs.*1)
       /\ length (values (tensor_of store d)) = length (values (tensor_of store s)).

(** From [store] to [store'], every destination has received the values its
    source had in [store], and no other tensor has changed. *)
Definition copied (cs : list (tensor_id * tensor_id)) (store store' : Store)
  : Prop :=
  (forall d s, (d, s) ∈ cs ->
     values (tensor_of store' d) = values (tensor_of store s))
  /\ (forall t, t ∉ cs.*1 -> tensor_of store' t = tensor_of store t).

Definition performs (f : Store -> result Store)
    (cs : list (tensor_id * tensor_id)) : Prop :=
  forall store, copies_ok cs store ->
    exists store', f store = Ok store' /\ copied cs store store'.

(** The buckets of the range maps with their indexes, in the order of the
    loops over them. *)
Definition bucket_places (gbuf_ranges : gbuf_ranges_t)
  : list (nat * dtype_pair * nat * GbufRange) :=
  '(gbuf_idx, gbuf_range_maps) ← enumerate gbuf_ranges;
  '(dtype, gbuf_range_map_for_all_buckets) ← (gbuf_range_maps : gbuf_range_map_t);
  '(bucket_idx, gbuf_range_map) ← enumerate gbuf_range_map_for_all_buckets;
  [(gbuf_idx, dtype, bucket_idx, gbuf_range_map)].

(** A record whose ["padding"] is [False]. *)
Definition is_param_record (record : list (string * pyval)) : bool :=
  match Dict.get record "padding" with
  | Some (VBool false) => true
  | _ => false
  end.

(** [state_dict[gbuf_idx][dtype][bucket_idx]], where there is one. *)
Definition bucket_state_of
    (sd : BucketSpaceState (option (list (list (dtype_pair * list Z)))))
    (gbuf_idx : nat) (dtype : dtype_pair) (bucket_idx : nat)
  : option (list (list (string * pyval))) :=
  by_dtype ← Dict.get (bs_gbufs sd) gbuf_idx;
  buckets_state ← Dict.get (by_dtype : list (dtype_pair * _)) dtype;
  buckets_state !! bucket_idx.

(** The tensors the restore writes: the main parameter and the optimizer
    state tensors of every parameter of the range maps. *)
Definition restore_targets (self : DistOpt.t) : list tensor_id :=
  '(_, _, _, gbuf_range_map) ← bucket_places (DistOpt.gbuf_ranges self);
  '(model_param, _) ← param_map gbuf_range_map;
  match dst_tensors_of self model_param with
  | Ok dst_tensors => dst_tensors.*2
  | Raise _ => []
  end.

(** The checkpoint fits the optimizer: the table of unpadded sizes, if there
    is one, is the optimizer's; every grad buffer has one dtype pair; every
    bucket has its list of records, each with a boolean ["padding"], as many
    of them not padding as the bucket has parameters; the record of a
    parameter has, for the main parameter and every optimizer state key, a
    tensor of the destination's length, which is that destination or no
    destination at all; and no tensor is a destination twice. *)
Record bucket_space_wf (self : DistOpt.t)
    (sd : BucketSpaceState (option (list (list (dtype_pair * list Z)))))
    (store : Store) : Prop := {
  bwf_tables : forall per_bucket_numel_unpadded_in_checkpoint,
    bs_per_bucket_numel_unpadded sd = Some per_bucket_numel_unpadded_in_checkpoint ->
    tables_eqb (DistOpt.per_bucket_numel_unpadded self)
               per_bucket_numel_unpadded_in_checkpoint = true;
  bwf_dtype : forall gbuf_range_maps,
    gbuf_range_maps ∈ DistOpt.gbuf_ranges self ->
    length (gbuf_range_maps : gbuf_range_map_t) = 1%nat;
  bwf_bucket : forall gbuf_idx dtype bucket_idx gbuf_range_map,
    (gbuf_idx, dtype, bucket_idx, gbuf_range_map)
      ∈ bucket_places (DistOpt.gbuf_ranges self) ->
    exists bucket_state,
      bucket_state_of sd gbuf_idx dtype bucket_idx = Some bucket_state
      /\ (forall record, record ∈ bucket_state ->
            exists flag, Dict.get record "padding" = Some (VBool flag))
      /\ length (filter (fun r => is_param_record r = true) bucket_state)
         = length (param_map gbuf_range_map);
  bwf_records : forall gbuf_idx dtype bucket_idx gbuf_range_map bucket_state
                       i src_tensors model_param param_range_map,
    (gbuf_idx, dtype, bucket_idx, gbuf_range_map)
      ∈ bucket_places (DistOpt.gbuf_ranges self) ->
    bucket_state_of sd gbuf_idx dtype bucket_idx = Some bucket_state ->
    filter (fun r => is_param_record r = true) bucket_state !! i
      = Some src_tensors ->
    param_map gbuf_range_map !! i = Some (model_param, param_range_map) ->
    exists dst_tensors,
      dst_tensors_of self model_param = Ok dst_tensors
      /\ forall key dst, (key, dst) ∈ dst_tensors ->
           exists src,
             Dict.get src_tensors key = Some (VTensor src)
             /\ length (values (tensor_of store dst))
                = length (values (tensor_of store src))
             /\ (src = dst \/ src ∉ restore_targets self);
  bwf_distinct : NoDup (restore_targets self)
}.

(** The copies of one record: each destination with the record's tensor for
    its key. *)
Definition record_copies (dst_tensors : list (string * tensor_id))
    (src_tensors : list (string * pyval)) : list (tensor_id * tensor_id) :=
  item ← dst_tensors;
  match Dict.get src_tensors item.1 with
  | Some (VTensor src) => [(item.2, src)]
  | _ => []
  end.

(** The copies of one bucket, whose records that are not padding are
    [records]. *)
Definition bucket_copies (self : DistOpt.t)
    (records : list (list (string * pyval))) (gbuf_range_map : GbufRange)
  : list (tensor_id * tensor_id) :=
  item ← zip records (param_map gbuf_range_map);
  match dst_tensors_of self item.2.1 with
  | Ok dst_tensors => record_copies dst_tensors item.1
  | Raise _ => []
  end.

Definition bucket_space_copies (self : DistOpt.t)
    (sd : BucketSpaceState (option (list (list (dtype_pair * list Z)))))
  : list (tensor_id * tensor_id) :=
  place ← bucket_places (DistOpt.gbuf_ranges self);
  bucket_copies self
    (filter (fun r => is_param_record r = true)
            (default [] (bucket_state_of sd place.1.1.1 place.1.1.2 place.1.2)))
    place.2.

(** A copy under the grad mode of the call. *)
Definition copy_step (grad_enabled : bool) (self : DistOpt.t) (store : Store)
    (c : tensor_id * tensor_id) : result Store :=
  if grad_enabled && is_grad_view self c.1
  then Raise (RuntimeError inplace_view_msg)
  else copy_ store c.1 (values (tensor_of store c.2)).

(** Rank 21 of 128 as in [leading_gap_self], over a model whose parameters
    have the storage type [ty] and the dtype [dt]: the shard of parameter 1
    is main parameter 10, with Adam state in tensors 11 and 12. *)
Definition typed_param_heap (ty : string) (dt : torch_dtype) (p : param_id)
  : ModelParam :=
  {| requires_grad := true;
     type_ := ty;
     param_torch_dtype := dt;
     flat := replicate 236 0;
     float8 := false;
     high_precision_init_val := None;
     attrs := None;
     shared := None |}.

Definition restore_buffer (dt : torch_dtype) : ParamAndGradBuffer :=
  {| data_parallel_rank := 21%nat;
     data_parallel_world_size := 128;
     param_dtype := dt;
     grad_dtype := float32;
     buckets := [{| offset := 0; grad_data_numel := 384; numel_unpadded := 300 |}];
     param_index_map := [(0%nat, (0, 10, 0)); (1%nat, (64, 300, 0))];
     buffer_numel_unpadded := 300;
     buffer_params := [1%nat; 0%nat];
     param_indices := [0; 1] |}.

Definition restore_self (ty : string) (dt : torch_dtype) : DistOpt.t :=
  DistOpt.mk [restore_buffer dt]
    (match _build_gbuf_range_map (restore_buffer dt) with
     | Ok gbuf_range_map => [gbuf_range_map]
     | Raise _ => []
     end)
    [[((dt, float32), [384])]] [[((dt, float32), [300])]]
    [(1%nat, (0%nat, 0%nat))]
    (Optimizer.mk [[10%nat]]
       [(10%nat, [("exp_avg", 11%nat); ("exp_avg_sq", 12%nat)])] true)
    (typed_param_heap ty dt) 21 128 0 false [].

(** A checkpoint for [restore_self]: the bucket's records are a padding
    record for [[0,1)] of the shard and the record of parameter 1, whose
    tensors 20, 21 and 22 are not the optimizer's. *)
Definition bucket_space_checkpoint (dt : torch_dtype)
  : BucketSpaceState (option (list (list (dtype_pair * list Z)))) :=
  {| bs_per_bucket_numel := Some [[((dt, float32), [384])]];
     bs_per_bucket_numel_unpadded := Some [[((dt, float32), [300])]];
     bs_gbufs :=
       [(0%nat,
         [((dt, float32),
           [[[("param", VTensor 30%nat); ("exp_avg", VTensor 31%nat);
              ("exp_avg_sq", VTensor 32%nat); ("padding", VBool true)];
             [("param", VTensor 20%nat); ("exp_avg", VTensor 21%nat);
              ("exp_avg_sq", VTensor 22%nat); ("padding", VBool false)]]])])] |}.

Definition bucket_space_store : Store :=
  {| tensor_of := fun t =>
       {| dtype := float32;
          values := if decide (t = 20%nat) then [1; 2]
                    else if decide (t = 21%nat) then [3; 4]
                    else if decide (t = 22%nat) then [5; 6]
                    else if decide (t = 30%nat) then [9]
                    else [0; 0] |};
     next_id := 40%nat |}.

(** ** Restoring the model-space state:
    [load_parameter_state_from_fs_model_space] (lines 1259-1295) *)

(** The body of the innermost loop on the bucket path (lines 1286-1295):
    the entry [state_dict[param_idx]] is copied into the main parameter and
    the optimizer state tensors of [model_param]. *)
Definition load_model_space_entry (self : DistOpt.t)
    (state_dict : list (state_key_t * list (string * tensor_id)))
    (st : Store * Optimizer.t * Z) (item : param_id * ParamRanges)
  : result (Store * Optimizer.t * Z) :=
  let '(store, optimizer, param_idx) := st in
  let '(model_param, _) := item in
  main_param ← main_param_of self model_param;
  let '(optim_state, optimizer) := optimizer_state_get optimizer main_param in
  src_tensors ← or_raise KeyError (Dict.get state_dict (IndexKey param_idx));
  let dst_tensors := dict_update [("fp32_param", main_param)] optim_state in
  store ←
    foldM (fun store '(key, dst) =>
             src ← or_raise KeyError (Dict.get src_tensors key);
             copy_ store dst (values (tensor_of store src)))
          dst_tensors store;
  Ok (store, optimizer, param_idx + 1).

(** The body of the loop over [pg_buffer.params] on the Megatron-FSDP path
    (lines 1267-1279): the main parameter receives ["fp32_param"], and every
    other tensor of the entry is put into the optimizer state as it is. A
    parameter whose name the state dict does not have is passed over, after
    [self.optimizer.state[main_param]] has been read. *)
Definition load_fsdp_entry
    (state_dict : list (state_key_t * list (string * tensor_id)))
    (pg_buffer : FsdpBuffer) (st : Store * Optimizer.t) (model_param : tensor_id)
  : result (Store * Optimizer.t) :=
  let '(store, optimizer) := st in
  param_name ←
    or_raise KeyError (Dict.get (param_to_name pg_buffer) model_param);
  main_param ←
    or_raise KeyError
      (Dict.get (dict_update [] (optimizer_named_parameters pg_buffer))
                param_name);
  let '(optim_state, optimizer) := optimizer_state_get optimizer main_param in
  match Dict.get state_dict (NameKey param_name) with
  | None => Ok (store, optimizer)
  | Some src_tensors =>
      fp32_param ← or_raise KeyError (Dict.get src_tensors "fp32_param");
      store ← copy_ store main_param (values (tensor_of store fp32_param));
      optim_state ←
        foldM (fun optim_state key =>
                 if decide (key <> "fp32_param") then
                   src ← or_raise KeyError (Dict.get src_tensors key);
                   Ok (Dict.set optim_state key src)
                 else Ok optim_state)
              (Dict.keys src_tensors) optim_state;
      Ok (store,
          Optimizer.mk (Optimizer.param_groups optimizer)
            (Dict.set (Optimizer.state optimizer) main_param optim_state)
            (Optimizer.is_adam optimizer))
  end.

(** [state_dict] maps a parameter name (Megatron-FSDP path) or a running
    index (bucket path) to the dict of the parameter's tensors.
    [pg_buffer_params] gives [pg_buffer.params] of a Megatron-FSDP buffer. *)
Definition load_parameter_state_from_fs_model_space
    (pg_buffer_params : FsdpBuffer -> list tensor_id)
    (self : DistOpt.t)
    (state_dict : list (state_key_t * list (string * tensor_id)))
    (store : Store) : result (Store * Optimizer.t) :=
  if DistOpt.with_megatron_fsdp_code_path self then
    foldM (fun st pg_buffer =>
             foldM (load_fsdp_entry state_dict pg_buffer)
                   (pg_buffer_params pg_buffer) st)
          (DistOpt.fsdp_buffers self) (store, DistOpt.optimizer self)
  else
    '(store, optimizer, _) ←
      foldM (fun st gbuf_range_maps =>
        foldM (fun st '(_, gbuf_range_map_for_all_buckets) =>
          foldM (fun st gbuf_range_map =>
            foldM (load_model_space_entry self state_dict)
                  (param_map gbuf_range_map) st)
          gbuf_range_map_for_all_buckets st)
        (gbuf_range_maps : gbuf_range_map_t) st)
      (DistOpt.gbuf_ranges self) (store, DistOpt.optimizer self, 0);
    Ok (store, optimizer).

(** [{"fp32_param": main_param, **optim_state}] for the main parameter of
    [model_param] (lines 1286-1291). *)
Definition model_space_dst_tensors (self : DistOpt.t) (model_param : param_id)
  : result (list (string * tensor_id)) :=
  main_param ← main_param_of self model_param;
  Ok (dict_update [("fp32_param", main_param)] (optim_state_of self main_param)).

(** The tensors the restore writes on the bucket path. *)
Definition model_space_targets (self : DistOpt.t) : list tensor_id :=
  '(model_param, _) ← owned_entries (DistOpt.gbuf_ranges self);
  match model_space_dst_tensors self model_param with
  | Ok dst_tensors => dst_tensors.*2
  | Raise _ => []
  end.

(** The state dict fits the optimizer: the entry of index [i] has, for the
    main parameter and every optimizer state key of the i-th parameter of the
    range maps, a tensor of the destination's length, which is that
    destination or no destination at all; and no tensor is a destination
    twice. *)
Record model_space_wf (self : DistOpt.t)
    (state_dict : list (state_key_t * list (string * tensor_id)))
    (store : Store) : Prop := {
  mwf_entries : forall (i : nat) model_param param_range_map,
    owned_entries (DistOpt.gbuf_ranges self) !! i
      = Some (model_param, param_range_map) ->
    exists dst_tensors src_tensors,
      model_space_dst_tensors self model_param = Ok dst_tensors
      /\ Dict.get state_dict (IndexKey (Z.of_nat i)) = Some src_tensors
      /\ forall key dst, (key, dst) ∈ dst_tensors ->
           exists src,
             Dict.get src_tensors key = Some src
             /\ length (values (tensor_of store dst))
                = length (values (tensor_of store src))
             /\ (src = dst \/ src ∉ model_space_targets self);
  mwf_distinct : NoDup (model_space_targets self)
}.

(** The copies of the entry of index [i]. *)
Definition entry_copies (self : DistOpt.t)
    (state_dict : list (state_key_t * list (string * tensor_id)))
    (item : nat * (param_id * ParamRanges)) : list (tensor_id * tensor_id) :=
  match model_space_dst_tensors self item.2.1,
        Dict.get state_dict (IndexKey (Z.of_nat item.1)) with
  | Ok dst_tensors, Some src_tensors =>
      dst ← dst_tensors;
      match Dict.get src_tensors dst.1 with
      | Some src => [(dst.2, src)]
      | None => []
      end
  | _, _ => []
  end.

(** The entry of index [i] restored into the store alone. *)
Definition restore_entry (self : DistOpt.t)
    (state_dict : list (state_key_t * list (string * tensor_id)))
    (store : Store) (item : nat * (param_id * ParamRanges)) : result Store :=
  dst_tensors ← model_space_dst_tensors self item.2.1;
  src_tensors ← or_raise KeyError (Dict.get state_dict (IndexKey (Z.of_nat item.1)));
  foldM (fun store '(key, dst) =>
           src ← or_raise KeyError (Dict.get src_tensors key);
           copy_ store dst (values (tensor_of store src)))
        dst_tensors store.

(** A model-space state dict for [leading_gap_self]: the entry of its one
    parameter has tensors 20 and 21 of the checkpoint and, for
    ["exp_avg_sq"], the optimizer's own tensor 12. *)
Definition model_space_checkpoint
  : list (state_key_t * list (string * tensor_id)) :=
  [(IndexKey 0,
    [("fp32_param", 20%nat); ("exp_avg", 21%nat); ("exp_avg_sq", 12%nat)])].

(** *** The Megatron-FSDP path *)

(** The parameters the Megatron-FSDP path visits, each with its buffer. *)
Definition fsdp_entries (pg_buffer_params : FsdpBuffer -> list tensor_id)
    (self : DistOpt.t) : list (FsdpBuffer * tensor_id) :=
  pg_buffer ← DistOpt.fsdp_buffers self;
  pair pg_buffer <$> pg_buffer_params pg_buffer.

(** The name and the main parameter of a model parameter of a buffer
    (lines 1268-1269), where the two lookups succeed. *)
Definition fsdp_main_param (entry : FsdpBuffer * tensor_id)
  : option (string * tensor_id) :=
  param_name ← Dict.get (param_to_name entry.1) entry.2;
  main_param ←
    Dict.get (dict_update [] (optimizer_named_parameters entry.1)) param_name;
  Some (param_name, main_param).

Definition fsdp_main_params (pg_buffer_params : FsdpBuffer -> list tensor_id)
    (self : DistOpt.t) : list tensor_id :=
  omap (fun entry => snd <$> fsdp_main_param entry)
       (fsdp_entries pg_buffer_params self).

(** What [load_fsdp_entry] does to the store, *)
Definition fsdp_store_step
    (state_dict : list (state_key_t * list (string * tensor_id)))
    (store : Store) (entry : FsdpBuffer * tensor_id) : result Store :=
  '(param_name, main_param) ← or_raise KeyError (fsdp_main_param entry);
  match Dict.get state_dict (NameKey param_name) with
  | None => Ok store
  | Some src_tensors =>
      fp32_param ← or_raise KeyError (Dict.get src_tensors "fp32_param");
      copy_ store main_param (values (tensor_of store fp32_param))
  end.

(** and to the optimizer. *)
Definition fsdp_optimizer_step
    (state_dict : list (state_key_t * list (string * tensor_id)))
    (optimizer : Optimizer.t) (entry : FsdpBuffer * tensor_id)
  : result Optimizer.t :=
  '(param_name, main_param) ← or_raise KeyError (fsdp_main_param entry);
  let '(optim_state, optimizer) := optimizer_state_get optimizer main_param in
  match Dict.get state_dict (NameKey param_name) with
  | None => Ok optimizer
  | Some src_tensors =>
      or_raise KeyError (Dict.get src_tensors "fp32_param");;
      optim_state ←
        foldM (fun optim_state key =>
                 if decide (key <> "fp32_param") then
                   src ← or_raise KeyError (Dict.get src_tensors key);
                   Ok (Dict.set optim_state key src)
                 else Ok optim_state)
              (Dict.keys src_tensors) optim_state;
      Ok (Optimizer.mk (Optimizer.param_groups optimizer)
            (Dict.set (Optimizer.state optimizer) main_param optim_state)
            (Optimizer.is_adam optimizer))
  end.

(** The copy of an entry: its main parameter from the entry's
    ["fp32_param"]. *)
Definition fsdp_copies
    (state_dict : list (state_key_t * list (string * tensor_id)))
    (entry : FsdpBuffer * tensor_id) : list (tensor_id * tensor_id) :=
  match fsdp_main_param entry with
  | Some (param_name, main_param) =>
      match Dict.get state_dict (NameKey param_name) with
      | Some src_tensors =>
          match Dict.get src_tensors "fp32_param" with
          | Some fp32_param => [(main_param, fp32_param)]
          | None => []
          end
      | None => []
      end
  | None => []
  end.

(** The optimizer state [restored] of a main parameter after the restore,
    where it was [old] before: with no entry for [param_name] in the state
    dict it is [old]; with one, each key of the entry but ["fp32_param"] has
    the entry's tensor, and every other key has what it had. *)
Definition restored_optim_state
    (state_dict : list (state_key_t * list (string * tensor_id)))
    (param_name : string) (old restored : list (string * tensor_id)) : Prop :=
  match Dict.get state_dict (NameKey param_name) with
  | None => restored = old
  | Some src_tensors =>
      forall key,
        Dict.get restored key
        = match Dict.get src_tensors key with
          | Some src =>
              if decide (key = "fp32_param") then Dict.get old key else Some src
          | None => Dict.get old key
          end
  end.

(** The state dict fits the Megatron-FSDP buffers: every parameter has its
    name and its main parameter; an entry of the state dict has an
    ["fp32_param"] of the main parameter's length, which is that main
    parameter or no main parameter at all; and no tensor is the main
    parameter of two parameters. *)
Record fsdp_wf (pg_buffer_params : FsdpBuffer -> list tensor_id)
    (self : DistOpt.t)
    (state_dict : list (state_key_t * list (string * tensor_id)))
    (store : Store) : Prop := {
  fwf_names : forall entry, entry ∈ fsdp_entries pg_buffer_params self ->
    exists param_name main_param,
      fsdp_main_param entry = Some (param_name, main_param);
  fwf_source : forall entry param_name main_param src_tensors,
    entry ∈ fsdp_entries pg_buffer_params self ->
    fsdp_main_param entry = Some (param_name, main_param) ->
    Dict.get state_dict (NameKey param_name) = Some src_tensors ->
    exists fp32_param,
      Dict.get src_tensors "fp32_param" = Some fp32_param
      /\ length (values (tensor_of store main_param))
         = length (values (tensor_of store fp32_param))
      /\ (fp32_param = main_param
          \/ fp32_param ∉ fsdp_main_params pg_buffer_params self);
  fwf_distinct : NoDup (fsdp_main_params pg_buffer_params self)
}.

(** A Megatron-FSDP optimizer with one buffer of two parameters: parameter 1,
    ["decoder.weight"], whose main parameter 10 has Adam state in tensors 11
    and 12, and parameter 2, ["decoder.bias"], whose main parameter 13 has no
    optimizer state yet. The state dict has an entry for the first only. *)
Definition fsdp_restore_buffer : FsdpBuffer :=
  {| parameter_groups := [];
     param_to_name := [(1%nat, "decoder.weight"); (2%nat, "decoder.bias")];
     optimizer_named_parameters :=
       [("decoder.weight", 10%nat); ("decoder.bias", 13%nat)];
     fully_shard_param_local_shard := id |}.

Definition fsdp_restore_self : DistOpt.t :=
  DistOpt.mk [] [] [] [] []
    (Optimizer.mk [[10%nat; 13%nat]]
       [(10%nat, [("exp_avg", 11%nat); ("exp_avg_sq", 12%nat)])] true)
    double_param_heap 0 1 0 true [fsdp_restore_buffer].

Definition fsdp_restore_checkpoint
  : list (state_key_t * list (string * tensor_id)) :=
  [(NameKey "decoder.weight",
    [("fp32_param", 20%nat); ("exp_avg", 21%nat); ("exp_avg_sq", 22%nat)])].

(** *** The Megatron-FSDP path of the model-space encoder *)

(** The parameters that the loops of lines 1176-1180 visit, each with its
    buffer and its parameter group. *)
Definition fsdp_visits (self : DistOpt.t)
  : list (FsdpBuffer * FsdpParameterGroup * tensor_id) :=
  pg_buffer ← DistOpt.fsdp_buffers self;
  pg ← parameter_groups pg_buffer;
  (fun model_param => (pg_buffer, pg, model_param)) <$> gbuf_params pg.

(** What lines 1181-1196 read for a visited parameter, where the three
    lookups succeed: its name, its main parameter, the tensor whose metadata
    is looked up (the parameter, or its local shard when the weight buffer is
    distributed) and its slice of the shard. *)
Definition fsdp_visit_info (visit : FsdpBuffer * FsdpParameterGroup * tensor_id)
  : option (string * tensor_id * tensor_id * (Z * Z)) :=
  let '(pg_buffer, pg, model_param) := visit in
  item_id ← Dict.get (gbuf_param_idx pg) model_param;
  param_name ← Dict.get (param_to_name pg_buffer) model_param;
  main_param ←
    Dict.get (dict_update [] (optimizer_named_parameters pg_buffer)) param_name;
  Some (param_name, main_param,
        if is_data_distributed pg
        then fully_shard_param_local_shard pg_buffer model_param
        else model_param,
        _get_item_slice_in_shard pg item_id).

(** A visited parameter has an entry emitted when it has a part in this
    rank's shard (line 1186). *)
Definition fsdp_emission (visit : FsdpBuffer * FsdpParameterGroup * tensor_id)
  : option (string * tensor_id * tensor_id * (Z * Z)) :=
  info ← fsdp_visit_info visit;
  if decide (info.2.1 = info.2.2) then None else Some info.

(** The parameters an entry is emitted for, in the order of the visits. *)
Definition fsdp_emitted (self : DistOpt.t)
  : list (string * tensor_id * tensor_id * (Z * Z)) :=
  omap fsdp_emission (fsdp_visits self).

(** The Megatron-FSDP buffers fit the model's sharded state dict: the
    metadata validates; the optimizer is Adam when loading; every visited
    parameter has its index, name and main parameter; every parameter with a
    part in the shard has metadata with a [(PP, TP, DP)] replica id; and no
    two of these share a name or a main parameter. *)
Record fsdp_encode_wf (validate_metadata_integrity : ShardedBase -> result unit)
    (self : DistOpt.t) (msd : list ShardedBase) (is_loading : bool) : Prop := {
  ewf_validate : forall sh, validate_metadata_integrity sh = Ok tt;
  ewf_adam : is_loading = true ->
    Optimizer.is_adam (DistOpt.optimizer self) = true;
  ewf_visits : forall visit, visit ∈ fsdp_visits self ->
    exists info, fsdp_visit_info visit = Some info;
  ewf_metadata : forall param_name main_param metadata_param item_slice,
    (param_name, main_param, metadata_param, item_slice) ∈ fsdp_emitted self ->
    exists meta rid,
      Dict.get (param_to_sharded_metadata_of msd) metadata_param = Some meta
      /\ replica_id meta = ReplicaTuple rid /\ length rid = 3%nat;
  ewf_names : NoDup ((fun info => info.1.1.1) <$> fsdp_emitted self);
  ewf_main_params : NoDup ((fun info => info.1.1.2) <$> fsdp_emitted self)
}.

(** A Megatron-FSDP optimizer with one buffer and one group of two
    parameters: parameter 1, ["decoder.weight"], has [[0,20)] of the shard
    and main parameter 10 with Adam state in tensors 11 and 12; parameter 2,
    ["decoder.bias"], has no part in the shard. *)
Definition fsdp_encode_buffer : FsdpBuffer :=
  {| parameter_groups :=
       [{| gbuf_params := [1%nat; 2%nat];
           gbuf_param_idx := [(1%nat, 0); (2%nat, 1)];
           _get_item_slice_in_shard :=
             fun item_id => if decide (item_id = 0) then (0, 20) else (0, 0);
           is_data_distributed := false |}];
     param_to_name := [(1%nat, "decoder.weight"); (2%nat, "decoder.bias")];
     optimizer_named_parameters :=
       [("decoder.weight", 10%nat); ("decoder.bias", 9%nat)];
     fully_shard_param_local_shard := id |}.

Definition fsdp_encode_self : DistOpt.t :=
  DistOpt.mk [] [] [] [] []
    (Optimizer.mk [[10%nat; 9%nat]]
       [(10%nat, [("exp_avg", 11%nat); ("exp_avg_sq", 12%nat)])] true)
    double_param_heap 0 1 0 true [fsdp_encode_buffer].

(** * Correctness *)

(** Closed decidable facts about concrete inputs, settled by evaluation. *)
Ltac by_decide :=
  match goal with
  | |- ?P => apply (bool_decide_unpack P); vm_compute; exact I
  end.

(** ** Generic lemmas *)

Lemma py_range_length n : length (py_range n) = Z.to_nat n.
Proof. unfold py_range. by rewrite length_fmap, length_seq. Qed.

Lemma py_range_lookup n (i : nat) :
  (i < Z.to_nat n)%nat -> py_range n !! i = Some (Z.of_nat i).
Proof.
  intros Hi. unfold py_range.
  rewrite list_lookup_fmap, lookup_seq_lt by done. done.
Qed.

Lemma py_range_lookup_Some n (i : nat) r :
  py_range n !! i = Some r -> r = Z.of_nat i /\ (i < Z.to_nat n)%nat.
Proof.
  unfold py_range. rewrite list_lookup_fmap. intros H.
  destruct (seq 0 (Z.to_nat n) !! i) as [k|] eqn:E; simplify_eq/=.
  apply lookup_seq in E as [-> ?]. done.
Qed.

(** ** BufferPartitioner *)

Section partitioner.
Variables S W O : Z.
Hypothesis HS : 0 <= S.
Hypothesis HW : 0 < W.
Hypothesis Hdiv : S `mod` W = 0.

Let m := S `div` W.

Lemma shard_size_exact : S = W * m.
Proof. unfold m. apply Z.div_exact; lia. Qed.

Lemma shard_size_nonneg : 0 <= m.
Proof. unfold m. apply Z.div_pos; lia. Qed.

Lemma gbuf_world_all_ranges_ok :
  gbuf_world_all_ranges S W O =
    Ok ((fun r => mkRange (r * m + O) (Z.min S (r * m + m) + O)) <$> py_range W).
Proof.
  unfold gbuf_world_all_ranges.
  destruct (decide (W = 0)); [lia|].
  rewrite bool_decide_eq_true_2 by done. done.
Qed.

Lemma shard_range_lookup (i : nat) ri :
  ((fun r => mkRange (r * m + O) (Z.min S (r * m + m) + O)) <$> py_range W) !! i
    = Some ri ->
  (i < Z.to_nat W)%nat /\
  ri = mkRange (O + Z.of_nat i * m) (O + (Z.of_nat i + 1) * m).
Proof.
  rewrite list_lookup_fmap. intros H.
  destruct (py_range W !! i) as [r|] eqn:E; simplify_eq/=.
  apply py_range_lookup_Some in E as [-> Hi]. split; [done|].
  pose proof shard_size_exact. pose proof shard_size_nonneg.
  unfold mkRange. f_equal; nia.
Qed.
End partitioner.

(** C1. For a bucket of size [S] divisible by the world size [W], at offset
    [O], the partitioner produces [W] ranges, rank [r] owning
    [[O + r*(S/W), O + min(S, (r+1)*(S/W)))]; the ranges are pairwise
    disjoint and their union is exactly [[O, O+S)]. When [S] is not divisible
    by [W] the construction fails on its divisibility assertion. *)
Theorem C1_partition_cover (S W O : Z) :
  0 <= S -> 0 < W ->
  (S `mod` W = 0 ->
     exists rs,
       gbuf_world_all_ranges S W O = Ok rs
       /\ length rs = Z.to_nat W
       /\ (forall r, 0 <= r < W ->
             rs !! Z.to_nat r =
               Some (mkRange (O + r * (S `div` W))
                             (O + Z.min S ((r + 1) * (S `div` W)))))
       /\ (forall (i j : nat) ri rj, i <> j ->
             rs !! i = Some ri -> rs !! j = Some rj -> disjoint_ranges ri rj)
       /\ (forall x, O <= x < O + S <-> exists r, r ∈ rs /\ in_range x r))
  /\ (S `mod` W <> 0 ->
     gbuf_world_all_ranges S W O = Raise (AssertionError (divisible_msg W))).
Proof.
  intros HS HW. split.
  - intros Hdiv.
    pose proof (shard_size_exact S W HW Hdiv) as Hex.
    pose proof (shard_size_nonneg S W HS HW) as Hm.
    set (m := S `div` W) in *.
    eexists. split; [by apply gbuf_world_all_ranges_ok|].
    fold m. split; [by rewrite length_fmap, py_range_length|].
    split; [|split].
    + intros r Hr. rewrite list_lookup_fmap, py_range_lookup by lia.
      simpl. rewrite Z2Nat.id by lia. f_equal.
      unfold mkRange. f_equal; nia.
    + intros i j ri rj Hij Hi Hj x [Hxi Hxj].
      apply (shard_range_lookup S W O HS HW Hdiv) in Hi as [Hi ->].
      apply (shard_range_lookup S W O HS HW Hdiv) in Hj as [Hj ->].
      unfold in_range in *. simpl in *. fold m in Hxi, Hxj. nia.
    + intros x. split.
      * intros Hx.
        assert (0 < m) as Hmpos by nia.
        set (r := (x - O) `div` m).
        assert (0 <= r < W) as Hr.
        { unfold r. split; [apply Z.div_pos; lia|].
          apply Z.div_lt_upper_bound; lia. }
        exists (mkRange (O + r * m) (O + (r + 1) * m)). split.
        -- apply list_elem_of_lookup. exists (Z.to_nat r).
           rewrite list_lookup_fmap, py_range_lookup by lia.
           simpl. rewrite Z2Nat.id by lia. f_equal.
           unfold mkRange. f_equal; nia.
        -- unfold in_range. simpl.
           pose proof (Z.div_mod (x - O) m ltac:(lia)) as Hdm.
           pose proof (Z.mod_pos_bound (x - O) m Hmpos) as Hb.
           fold r in Hdm. nia.
      * intros (r & Hin & Hx).
        apply list_elem_of_lookup in Hin as [i Hi].
        apply (shard_range_lookup S W O HS HW Hdiv) in Hi as [Hi ->].
        unfold in_range in Hx. simpl in Hx. fold m in Hx. nia.
  - intros Hndiv. unfold gbuf_world_all_ranges.
    destruct (decide (W = 0)); [lia|].
    by rewrite bool_decide_eq_false_2.
Qed.

Lemma C1_partition_cover_witness :
  exists rs,
    gbuf_world_all_ranges 100 4 7 = Ok rs
    /\ length rs = 4%nat
    /\ rs !! 3%nat = Some (mkRange 82 107)
    /\ (forall x, 7 <= x < 107 <-> exists r, r ∈ rs /\ in_range x r).
Proof.
  destruct (C1_partition_cover 100 4 7 ltac:(lia) ltac:(lia)) as [H _].
  destruct (H eq_refl) as (rs & Hrs & Hlen & Hnth & _ & Hcov).
  exists rs. split; [exact Hrs|]. split; [exact Hlen|].
  split; [exact (Hnth 3 ltac:(lia))|exact Hcov].
Defined.

(** ** Dicts *)

Section dict_facts.
Context {K V : Type} `{EqDecision K}.
Implicit Types (d : list (K * V)) (k : K) (v : V).

Lemma dict_get_set_eq d k v : Dict.get (Dict.set d k v) k = Some v.
Proof.
  induction d as [|[k' v'] d IH]; simpl.
  - by rewrite decide_True.
  - destruct (decide (k' = k)) as [->|Hne]; simpl.
    + by rewrite decide_True.
    + by rewrite decide_False.
Qed.

Lemma dict_get_set_ne d k k' v :
  k <> k' -> Dict.get (Dict.set d k v) k' = Dict.get d k'.
Proof.
  intros Hne. induction d as [|[k0 v0] d IH]; simpl.
  - by rewrite decide_False.
  - destruct (decide (k0 = k)) as [->|Hne0]; simpl.
    + by rewrite !decide_False.
    + destruct (decide (k0 = k')); done.
Qed.

Lemma dict_get_None d k : k ∉ Dict.keys d -> Dict.get d k = None.
Proof.
  induction d as [|[k' v'] d IH]; simpl; [done|].
  rewrite not_elem_of_cons. intros [Hne Hnin].
  rewrite decide_False by done. auto.
Qed.

Lemma dict_get_Some_elem d k v : Dict.get d k = Some v -> (k, v) ∈ d.
Proof.
  induction d as [|[k' v'] d IH]; simpl; [done|].
  destruct (decide (k' = k)) as [->|Hne].
  - intros [= ->]. apply list_elem_of_here.
  - intros H'. apply list_elem_of_further. auto.
Qed.

Lemma dict_get_elem d k v :
  NoDup (Dict.keys d) -> (k, v) ∈ d -> Dict.get d k = Some v.
Proof.
  induction d as [|[k' v'] d IH]; simpl; [by rewrite elem_of_nil|].
  intros Hnd Hin. apply NoDup_cons in Hnd as [Hnin Hnd].
  apply elem_of_cons in Hin as [Heq|Hin].
  - simplify_eq. by rewrite decide_True.
  - destruct (decide (k' = k)) as [->|Hne]; [|auto].
    exfalso. apply Hnin. unfold Dict.keys.
    apply list_elem_of_fmap. by exists (k, v).
Qed.

Lemma dict_keys_set_new d k v :
  k ∉ Dict.keys d -> Dict.set d k v = d ++ [(k, v)].
Proof.
  induction d as [|[k' v'] d IH]; simpl; [done|].
  rewrite not_elem_of_cons. intros [Hne Hnin].
  rewrite decide_False by done. by rewrite IH.
Qed.
End dict_facts.

(** ** ParamRangeMapper *)

Section mapper.
Variables (gbuf_world_range : Range) (bucket_offset : Z).

(** The loop body of [_build_model_gbuf_param_range_map], as the fold sees it. *)
Lemma mapper_fold_get (m : list (param_id * world_indexes))
    (acc : list (param_id * ParamRanges)) (step : _) (p : param_id) :
  step = (fun (param_range_map : list (param_id * ParamRanges))
              '((q, (ws, we, _)) : param_id * world_indexes) =>
    let param_local_start := Z.max 0 (ws - start gbuf_world_range) in
    let param_local_end :=
      Z.min (size gbuf_world_range) (we - start gbuf_world_range) in
    if decide (param_local_end > param_local_start) then
      let param_local_range := mkRange param_local_start param_local_end in
      let param_world_range :=
        normalize param_local_range
                  (param_local_start + start gbuf_world_range) in
      Dict.set param_range_map q
        {| gbuf_world := param_world_range;
           gbuf_world_in_bucket :=
             mkRange (start param_world_range - bucket_offset)
                     (end_ param_world_range - bucket_offset);
           gbuf_local := param_local_range;
           param := normalize param_local_range
                      (Z.max 0 (start gbuf_world_range - ws)) |}
    else param_range_map) ->
  NoDup (Dict.keys m) ->
  Dict.get (foldl step acc m) p =
    match Dict.get m p with
    | Some idx =>
        match Dict.get (step [] (p, idx)) p with
        | Some e => Some e
        | None => Dict.get acc p
        end
    | None => Dict.get acc p
    end.
Proof.
  intros -> . revert acc.
  induction m as [|[q [[ws we] b]] m IH]; intros acc Hnd; simpl; [done|].
  apply NoDup_cons in Hnd as [Hq Hnd]. rewrite IH by done.
  destruct (decide (q = p)) as [->|Hne].
  - rewrite (dict_get_None m p) by done.
    destruct (decide (_ > _)); simpl.
    + by rewrite decide_True, dict_get_set_eq.
    + done.
  - destruct (decide (_ > _)); [rewrite dict_get_set_ne by done|]; done.
Qed.
End mapper.

(** C2. A parameter with world range [[ws,we)] whose intersection
    [[ls,le)] with the owned shard [[gs,ge)] is non-empty gets an entry of
    four ranges of the one size [le - ls]: [gbuf_world = [ls,le)],
    [gbuf_world_in_bucket] the same shifted by [-bucket_offset], [gbuf_local]
    the same shifted by [-gs], and [param] starting at [max(0, gs - ws)]. A
    parameter whose intersection with the shard is empty has no entry. *)
Theorem C2_param_range_entries
    (m : list (param_id * world_indexes)) (gs ge bucket_offset : Z)
    (p : param_id) (ws we b : Z) :
  NoDup (Dict.keys m) ->
  (p, (ws, we, b)) ∈ m ->
  let ls := Z.max ws gs in
  let le := Z.min we ge in
  let param_range_map :=
    _build_model_gbuf_param_range_map m (mkRange gs ge) bucket_offset in
  (ls < le ->
     exists e,
       Dict.get param_range_map p = Some e
       /\ gbuf_world e = mkRange ls le
       /\ gbuf_world_in_bucket e = mkRange (ls - bucket_offset) (le - bucket_offset)
       /\ gbuf_local e = mkRange (ls - gs) (le - gs)
       /\ param e = mkRange (Z.max 0 (gs - ws)) (Z.max 0 (gs - ws) + (le - ls))
       /\ size (gbuf_world e) = le - ls
       /\ size (gbuf_world_in_bucket e) = le - ls
       /\ size (gbuf_local e) = le - ls
       /\ size (param e) = le - ls)
  /\ (~ ls < le -> Dict.get param_range_map p = None).
Proof.
  intros Hnd Hin ls le param_range_map.
  assert (Hget : Dict.get m p = Some (ws, we, b)) by by apply dict_get_elem.
  pose proof (mapper_fold_get (mkRange gs ge) bucket_offset m [] _ p
                eq_refl Hnd) as Hfold.
  change (foldl _ [] m) with param_range_map in Hfold.
  rewrite Hfold, Hget. clear Hfold. simpl. split.
  - intros Hlt. rewrite decide_True by (subst ls le; lia).
    simpl. rewrite decide_True by done. eexists. split; [done|]. simpl.
    unfold normalize, mkRange; simpl.
    repeat split; try (f_equal; subst ls le; lia); subst ls le; lia.
  - intros Hge. rewrite decide_False by (subst ls le; lia). done.
Qed.

Lemma C2_param_range_entries_witness :
  exists e,
    Dict.get (_build_model_gbuf_param_range_map
                [(0%nat, (0, 30, 0)); (1%nat, (30, 70, 0))] (mkRange 25 50) 0)
             1%nat = Some e
    /\ gbuf_local e = mkRange 5 25 /\ param e = mkRange 0 20.
Proof.
  destruct (C2_param_range_entries
              [(0%nat, (0, 30, 0)); (1%nat, (30, 70, 0))] 25 50 0 1%nat 30 70 0)
    as [H _].
  - by_decide.
  - by_decide.
  - destruct (H ltac:(lia)) as (e & He & _ & _ & Hl & Hp & _).
    exists e. split; [exact He|]. split; [exact Hl|exact Hp].
Defined.

(** C6, as stated, does not hold: for the bucket of size 100 over 4 ranks and
    the parameter at [[90,110)], rank 3 does not record the sub-range
    [[15,25)] of the parameter. *)
Lemma C6_within_param_counterexample :
  ~ (exists gr e,
       _build_model_gbuf_range (straddling_buffer 3) 0 = Ok gr
       /\ Dict.get (param_map gr) 0%nat = Some e
       /\ param e = mkRange 15 25
       /\ gbuf_local e = mkRange 15 25).
Proof.
  intros (gr & e & Hgr & He & Hp & _).
  vm_compute in Hgr. injection Hgr as <-.
  vm_compute in He. injection He as <-.
  vm_compute in Hp. discriminate Hp.
Qed.

(** C6, amended. For the bucket of size 100 over 4 ranks (shard size 25) and
    the parameter at [[90,110)], only [[90,100)] is mapped: rank 3, whose
    shard is [[75,100)], records [gbuf_local = [15,25)] and the sub-range
    [param = [0,10)] of the parameter, both of length 10; ranks 0, 1 and 2
    record no entry. *)
Theorem C6_straddling_param :
  _build_model_gbuf_range (straddling_buffer 3) 0 =
    Ok {| param_map :=
            [(0%nat, {| gbuf_world := mkRange 90 100;
                        gbuf_world_in_bucket := mkRange 90 100;
                        gbuf_local := mkRange 15 25;
                        param := mkRange 0 10 |})] |}
  /\ gbuf_world_all_ranges 100 4 0 =
       Ok [mkRange 0 25; mkRange 25 50; mkRange 50 75; mkRange 75 100]
  /\ size (mkRange 0 10) = 10 /\ size (mkRange 15 25) = 10
  /\ _build_model_gbuf_range (straddling_buffer 0) 0 = Ok {| param_map := [] |}
  /\ _build_model_gbuf_range (straddling_buffer 1) 0 = Ok {| param_map := [] |}
  /\ _build_model_gbuf_range (straddling_buffer 2) 0 = Ok {| param_map := [] |}.
Proof. repeat split; vm_compute; reflexivity. Qed.

(** ** Loops in the error monad *)

Section foldM_facts.
Context {A S : Type}.
Implicit Types (f : S -> A -> result S) (xs : list A) (s : S).

Lemma foldM_app f xs ys s :
  foldM f (xs ++ ys) s = (s' ← foldM f xs s; foldM f ys s').
Proof.
  revert s. induction xs as [|x xs IH]; intros s; simpl; [done|].
  destruct (f s x) as [s'|e]; simpl; [apply IH|done].
Qed.

Lemma foldM_ext f g xs s :
  (forall s x, x ∈ xs -> f s x = g s x) -> foldM f xs s = foldM g xs s.
Proof.
  revert s. induction xs as [|x xs IH]; intros s Hfg; simpl; [done|].
  rewrite Hfg by apply list_elem_of_here.
  destruct (g s x) as [s'|e]; simpl; [|done].
  apply IH. intros s0 y Hy. apply Hfg. by apply list_elem_of_further.
Qed.

(** A loop whose body keeps an invariant of the visited prefix runs to its
    end, and the invariant holds of the whole list. *)
Lemma foldM_invariant f (I : list A -> S -> Prop) xs s :
  I [] s ->
  (forall pre x s, I pre s -> x ∈ xs ->
     exists s', f s x = Ok s' /\ I (pre ++ [x]) s') ->
  exists s', foldM f xs s = Ok s' /\ I xs s'.
Proof.
  intros H0 Hstep.
  cut (forall pre s, I pre s -> (forall x, x ∈ xs -> x ∈ xs) ->
         exists s', foldM f xs s = Ok s' /\ I (pre ++ xs) s').
  { intros Hc. apply (Hc [] s H0). auto. }
  clear H0 s. revert Hstep.
  generalize xs at 1 3 as all.
  intros all Hstep. induction xs as [|x xs IH] in all, Hstep |- *.
  - intros pre s HI _. exists s. by rewrite app_nil_r.
  - intros pre s HI Hsub. simpl.
    destruct (Hstep pre x s HI (Hsub x (list_elem_of_here _ _)))
      as (s' & -> & HI'). simpl.
    destruct (IH all Hstep (pre ++ [x]) s' HI') as (s'' & Hs'' & HI'').
    + intros y Hy. apply Hsub. by apply list_elem_of_further.
    + exists s''. split; [done|]. by rewrite <- app_assoc in HI''.
Qed.
End foldM_facts.

(** Nested loops visit the concatenation of the inner lists. *)
Lemma foldM_bind {A B S} (f : S -> B -> result S) (g : A -> list B)
    (xs : list A) (s : S) :
  foldM (fun s x => foldM f (g x) s) xs s = foldM f (xs ≫= g) s.
Proof.
  revert s. induction xs as [|x xs IH]; intros s; simpl; [done|].
  rewrite foldM_app. destruct (foldM f (g x) s) as [s'|e]; simpl; [apply IH|done].
Qed.

(** ** GroupAssembler *)

(** The four nested loops of the assembler visit [owned_params]. *)
Lemma owned_params_loop {S} (body : S -> param_id -> result S)
    (gbuf_ranges : gbuf_ranges_t) (st : S) :
  foldM (fun st gbuf_range_map =>
    foldM (fun st '(_, gbuf_range_map_for_all_buckets) =>
      foldM (fun st gbuf_range_map =>
        foldM body (Dict.keys (param_map gbuf_range_map)) st)
      gbuf_range_map_for_all_buckets st)
    (gbuf_range_map : gbuf_range_map_t) st)
  gbuf_ranges st
  = foldM body (owned_params gbuf_ranges) st.
Proof.
  unfold owned_params. rewrite <- foldM_bind.
  apply foldM_ext. intros s m _.
  rewrite <- foldM_bind. apply foldM_ext. intros s' [dt bs] _.
  by rewrite <- foldM_bind.
Qed.

Lemma elem_of_enumerate {A} (xs : list A) (i : nat) (x : A) :
  (i, x) ∈ enumerate xs <-> xs !! i = Some x.
Proof.
  unfold enumerate. rewrite elem_of_lookup_imap. split.
  - intros (j & y & [= -> ->] & Hj). done.
  - intros Hi. by exists i, x.
Qed.

(** The first pass: every parameter of a group is mapped to the index of a
    group that holds it. *)
Lemma world_param_group_map_spec (requires_grad : param_id -> bool)
    (param_groups : list (ParamGroup.t param_id)) :
  (forall g p, g ∈ param_groups -> p ∈ ParamGroup.params g ->
     requires_grad p = true) ->
  exists wm : list (param_id * nat),
    foldM (fun world_param_group_map '(group_index, group) =>
      foldM (fun (world_param_group_map : list (param_id * nat)) param =>
        py_assert (requires_grad param) EmptyString;;
        Ok (Dict.set world_param_group_map param group_index))
      (ParamGroup.params group) world_param_group_map)
    (enumerate param_groups) [] = Ok wm
    /\ (forall p gi, Dict.get wm p = Some gi ->
          exists g, param_groups !! gi = Some g /\ p ∈ ParamGroup.params g)
    /\ (forall g p, g ∈ param_groups -> p ∈ ParamGroup.params g ->
          is_Some (Dict.get wm p)).
Proof.
  intros Hrg.
  pose (J := fun (pre : list (nat * ParamGroup.t param_id))
                 (wm : list (param_id * nat)) =>
    (forall p gi, Dict.get wm p = Some gi ->
       exists g, (gi, g) ∈ pre /\ p ∈ ParamGroup.params g)
    /\ (forall gi g p, (gi, g) ∈ pre -> p ∈ ParamGroup.params g ->
          is_Some (Dict.get wm p))).
  edestruct (foldM_invariant
               (fun world_param_group_map '(group_index, group) =>
                  foldM (fun (world_param_group_map : list (param_id * nat)) param =>
                    py_assert (requires_grad param) EmptyString;;
                    Ok (Dict.set world_param_group_map param group_index))
                  (ParamGroup.params group) world_param_group_map)
               J (enumerate param_groups) []) as (wm & Hwm & HJ1 & HJ2).
  - split; [intros p gi [=]|]. intros gi g p Hin. by apply elem_of_nil in Hin.
  - intros pre [gi g] wm [HJ1 HJ2] Hin.
    apply elem_of_enumerate in Hin.
    pose (K := fun (ipre : list param_id) (wm : list (param_id * nat)) =>
      (forall p gi', Dict.get wm p = Some gi' ->
         (exists g', (gi', g') ∈ pre /\ p ∈ ParamGroup.params g')
         \/ (gi' = gi /\ p ∈ ipre))
      /\ (forall gi' g' p, (gi', g') ∈ pre -> p ∈ ParamGroup.params g' ->
            is_Some (Dict.get wm p))
      /\ (forall p, p ∈ ipre -> is_Some (Dict.get wm p))).
    edestruct (foldM_invariant
                 (fun (world_param_group_map : list (param_id * nat)) param =>
                    py_assert (requires_grad param) EmptyString;;
                    Ok (Dict.set world_param_group_map param gi))
                 K (ParamGroup.params g) wm) as (wm' & Hwm' & HK1 & HK2 & HK3).
    + split; [|split]; [by left; apply HJ1|done|].
      intros p Hp. by apply elem_of_nil in Hp.
    + intros ipre p wm0 (HK1 & HK2 & HK3) Hp.
      rewrite (Hrg g p) by (try done; by eapply list_elem_of_lookup_2).
      simpl. eexists. split; [done|]. split; [|split].
      * intros q gi'. destruct (decide (p = q)) as [->|Hne].
        -- rewrite dict_get_set_eq. intros [= <-]. right.
           split; [done|]. apply elem_of_app. right. apply list_elem_of_here.
        -- rewrite dict_get_set_ne by done. intros Hq.
           destruct (HK1 q gi' Hq) as [?|[-> ?]]; [by left|right].
           split; [done|]. apply elem_of_app. by left.
      * intros gi' g' q Hg' Hq. destruct (decide (p = q)) as [->|Hne].
        -- rewrite dict_get_set_eq. by eexists.
        -- rewrite dict_get_set_ne by done. eauto.
      * intros q Hq. destruct (decide (p = q)) as [->|Hne].
        -- rewrite dict_get_set_eq. by eexists.
        -- rewrite dict_get_set_ne by done. apply HK3.
           apply elem_of_app in Hq as [Hq|Hq]; [done|].
           apply list_elem_of_singleton in Hq. congruence.
    + exists wm'. split; [done|]. split.
      * intros p gi' Hp. destruct (HK1 p gi' Hp) as [(g' & Hg' & Hpg)|[-> Hpg]].
        -- exists g'. split; [|done]. apply elem_of_app. by left.
        -- exists g. split; [|done]. apply elem_of_app. right.
           apply list_elem_of_here.
      * intros gi' g' p Hg' Hp. apply elem_of_app in Hg' as [Hg'|Hg'].
        -- eauto.
        -- apply list_elem_of_singleton in Hg'. simplify_eq. by apply HK3.
  - exists wm. split; [done|]. split.
    + intros p gi Hp. destruct (HJ1 p gi Hp) as (g & Hg & Hpg).
      exists g. split; [|done]. by apply elem_of_enumerate.
    + intros g p Hg Hp. apply list_elem_of_lookup in Hg as [gi Hgi].
      apply (HJ2 gi g p); [|done]. by apply elem_of_enumerate.
Qed.

(** C9. The assembler returns one group range per optimizer group, at the
    same index and referring to that group; a group none of whose parameters
    is owned locally is kept, with an empty parameter list; and every owned
    parameter's recorded [(group_index, order)] locates that parameter in the
    returned group ranges. *)
Theorem C9_group_ranges (requires_grad : param_id -> bool)
    (param_groups : list (ParamGroup.t param_id))
    (gbuf_ranges : gbuf_ranges_t) :
  (forall g p, g ∈ param_groups -> p ∈ ParamGroup.params g ->
     requires_grad p = true) ->
  (forall p, p ∈ owned_params gbuf_ranges ->
     exists g, g ∈ param_groups /\ p ∈ ParamGroup.params g) ->
  exists local_param_group_map group_ranges,
    _build_optimizer_group_ranges requires_grad param_groups gbuf_ranges
      = Ok (local_param_group_map, group_ranges)
    /\ length group_ranges = length param_groups
    /\ (forall i, (i < length param_groups)%nat ->
          exists gr, group_ranges !! i = Some gr
                     /\ GroupRange.orig_group gr = Some i)
    /\ (forall i g gr,
          param_groups !! i = Some g -> group_ranges !! i = Some gr ->
          (forall p, p ∈ owned_params gbuf_ranges -> p ∉ ParamGroup.params g) ->
          GroupRange.params gr = [])
    /\ (forall p, p ∈ owned_params gbuf_ranges ->
          exists gi go gr,
            Dict.get local_param_group_map p = Some (gi, go)
            /\ group_ranges !! gi = Some gr
            /\ GroupRange.params gr !! go = Some p).
Proof.
  intros Hrg Hown.
  destruct (world_param_group_map_spec requires_grad param_groups Hrg)
    as (wm & Hwm & Hwm1 & Hwm2).
  unfold _build_optimizer_group_ranges. rewrite Hwm. simpl.
  rewrite owned_params_loop.
  set (n := length param_groups).
  pose (I := fun (pre : list param_id)
                 (st : list (param_id * (nat * nat)) * list GroupRange.t) =>
    length st.2 = n
    /\ (forall p gi go, Dict.get st.1 p = Some (gi, go) ->
          exists gr, st.2 !! gi = Some gr /\ GroupRange.params gr !! go = Some p)
    /\ (forall p, p ∈ pre -> is_Some (Dict.get st.1 p))
    /\ (forall i gr q, st.2 !! i = Some gr -> q ∈ GroupRange.params gr ->
          q ∈ pre /\ Dict.get wm q = Some i)).
  match goal with
  | |- context [foldM ?body (owned_params gbuf_ranges) ?st0] =>
      destruct (foldM_invariant body I (owned_params gbuf_ranges) st0)
        as ([lmap granges] & Hrun & Hlen & Hloc & Hall & Hmem)
  end.
  - unfold I. cbn [fst snd].
    split; [by rewrite length_fmap|]. split; [intros p gi go [=]|].
    split; [intros p Hp; by apply elem_of_nil in Hp|].
    intros i gr q Hi Hq. rewrite list_lookup_fmap in Hi.
    destruct (param_groups !! i); simplify_eq/=. by apply elem_of_nil in Hq.
  - intros pre x [lmap granges] (Hlen & Hloc & Hall & Hmem) Hx. simpl in *.
    destruct (Hown x Hx) as (g & Hg & Hxg).
    destruct (Hwm2 g x Hg Hxg) as [gi Hgi]. rewrite Hgi. simpl.
    destruct (Hwm1 x gi Hgi) as (g' & Hg' & _).
    apply lookup_lt_Some in Hg'. fold n in Hg'.
    destruct (lookup_lt_is_Some_2 granges gi ltac:(lia)) as [gr Hgr].
    rewrite Hgr. simpl. eexists. split; [done|].
    unfold I. cbn [fst snd]. rewrite length_app. simpl.
    replace (length (GroupRange.params gr) + 1 - 1)%nat
      with (length (GroupRange.params gr)) by lia.
    split; [by rewrite length_insert|]. split; [|split].
    + intros p gi' go. destruct (decide (x = p)) as [->|Hne].
      * rewrite dict_get_set_eq. intros [= <- <-]. eexists. split.
        -- apply list_lookup_insert_eq. lia.
        -- simpl. by rewrite list_lookup_middle.
      * rewrite dict_get_set_ne by done. intros Hp.
        destruct (Hloc p gi' go Hp) as (gr0 & Hgr0 & Hgo).
        destruct (decide (gi = gi')) as [<-|Hgne].
        -- simplify_eq. eexists. split.
           ++ apply list_lookup_insert_eq. lia.
           ++ simpl. by apply lookup_app_l_Some.
        -- exists gr0. split; [|done]. by rewrite list_lookup_insert_ne.
    + intros p Hp. destruct (decide (x = p)) as [->|Hne].
      * rewrite dict_get_set_eq. by eexists.
      * rewrite dict_get_set_ne by done. apply Hall.
        apply elem_of_app in Hp as [Hp|Hp]; [done|].
        apply list_elem_of_singleton in Hp. congruence.
    + intros i gr0 q Hi Hq. destruct (decide (gi = i)) as [<-|Hine].
      * rewrite list_lookup_insert_eq in Hi by lia. simplify_eq/=.
        apply elem_of_app in Hq as [Hq|Hq].
        -- destruct (Hmem gi gr q Hgr Hq) as [Hpre Hwq].
           split; [|done]. apply elem_of_app. by left.
        -- apply list_elem_of_singleton in Hq as ->.
           split; [|done]. apply elem_of_app. right. apply list_elem_of_here.
      * rewrite list_lookup_insert_ne in Hi by done.
        destruct (Hmem i gr0 q Hi Hq) as [Hpre Hwq].
        split; [|done]. apply elem_of_app. by left.
  - simpl in *. rewrite Hrun. simpl. eexists _, _. split; [done|].
    split; [by rewrite length_imap|]. split; [|split].
    + intros i Hi. rewrite list_lookup_imap.
      destruct (lookup_lt_is_Some_2 granges i ltac:(lia)) as [gr Hgr].
      rewrite Hgr. simpl. eexists. split; [reflexivity|done].
    + intros i g gr Hg Hi Hnone. rewrite list_lookup_imap in Hi.
      destruct (granges !! i) as [gr0|] eqn:Hgr0; simplify_eq/=.
      destruct (GroupRange.params gr0) as [|q qs] eqn:Hps; [done|].
      exfalso.
      destruct (Hmem i gr0 q Hgr0) as [Hq Hwq].
      { rewrite Hps. apply list_elem_of_here. }
      destruct (Hwm1 q i Hwq) as (g' & Hg' & Hqg). simplify_eq.
      by apply (Hnone q).
    + intros p Hp. destruct (Hall p Hp) as [[gi go] Hget].
      destruct (Hloc p gi go Hget) as (gr & Hgr & Hgo).
      exists gi, go. eexists. split; [done|].
      split; [rewrite list_lookup_imap, Hgr; reflexivity|done].
Qed.

Lemma C9_group_ranges_witness :
  exists local_param_group_map group_ranges,
    _build_optimizer_group_ranges (fun _ => true)
        assembler_groups assembler_gbuf_ranges
      = Ok (local_param_group_map, group_ranges)
    /\ length group_ranges = 2%nat.
Proof.
  destruct (C9_group_ranges (fun _ => true)
              assembler_groups assembler_gbuf_ranges)
    as (lm & gr & Hrun & Hlen & _).
  - reflexivity.
  - intros p Hp. exists (ParamGroup.mk [0%nat; 1%nat] []).
    split; [apply list_elem_of_here|].
    vm_compute in Hp. apply list_elem_of_singleton in Hp as ->.
    by_decide.
  - exists lm, gr. split; [exact Hrun|exact Hlen].
Defined.

(** ** ShardMaterializer *)

Lemma same_tags_refl h : same_tags h h.
Proof. by intros q. Qed.

Lemma same_tags_trans h1 h2 h3 :
  same_tags h1 h2 -> same_tags h2 h3 -> same_tags h1 h3.
Proof.
  intros H12 H23 q. destruct (H12 q) as [<- <-]. apply H23.
Qed.

Lemma supported_type_cases ty :
  supported_type ty <->
  ty ∈ ["torch.cuda.HalfTensor"; "torch.cuda.BFloat16Tensor"]
  \/ ty = "torch.cuda.FloatTensor".
Proof.
  unfold supported_type. rewrite !elem_of_cons, elem_of_nil. tauto.
Qed.

Section materializer.
Variables (gbuf_ranges : gbuf_ranges_t)
          (param_gbuf_map : list (param_id * (nat * dtype_pair * nat))).

Lemma materialize_param_supported h tg p :
  requires_grad (h p) = true ->
  locatable gbuf_ranges param_gbuf_map p ->
  supported_type (type_ (h p)) ->
  exists h' tg',
    materialize_param gbuf_ranges param_gbuf_map (h, tg) p = Ok (h', tg')
    /\ same_tags h h'.
Proof.
  intros Hrg (gi & dt & bi & m & bs & gr & e & H1 & H2 & H3 & H4 & H5) Hty.
  unfold materialize_param. rewrite Hrg, H1. simpl.
  rewrite H2. simpl. rewrite H3. simpl. rewrite H4. simpl.
  rewrite H5. simpl.
  apply supported_type_cases in Hty as [Hty|Hty].
  - rewrite bool_decide_eq_true_2 by done.
    destruct (float8 (h p)), (high_precision_init_val (h p));
      eexists _, _; (split; [reflexivity|]); try apply same_tags_refl.
    intros q. destruct (decide (p = q)) as [->|Hne].
    + by rewrite fn_lookup_insert.
    + by rewrite fn_lookup_insert_ne.
  - destruct (bool_decide (type_ (h p) ∈ _)).
    + destruct (float8 (h p)), (high_precision_init_val (h p));
        eexists _, _; (split; [reflexivity|]); try apply same_tags_refl.
      intros q. destruct (decide (p = q)) as [->|Hne].
      * by rewrite fn_lookup_insert.
      * by rewrite fn_lookup_insert_ne.
    + rewrite bool_decide_eq_true_2 by done.
      eexists _, _. split; [reflexivity|apply same_tags_refl].
Qed.

Lemma materialize_param_unsupported h tg p :
  requires_grad (h p) = true ->
  locatable gbuf_ranges param_gbuf_map p ->
  ~ supported_type (type_ (h p)) ->
  materialize_param gbuf_ranges param_gbuf_map (h, tg) p
    = Raise (TypeError (unsupported_type_msg (type_ (h p)))).
Proof.
  intros Hrg (gi & dt & bi & m & bs & gr & e & H1 & H2 & H3 & H4 & H5) Hty.
  unfold materialize_param. rewrite Hrg, H1. simpl.
  rewrite H2. simpl. rewrite H3. simpl. rewrite H4. simpl.
  rewrite H5. simpl.
  rewrite supported_type_cases in Hty.
  rewrite bool_decide_eq_false_2 by tauto.
  rewrite bool_decide_eq_false_2 by tauto. done.
Qed.
End materializer.

Section materializer_loops.
Variables (gbuf_ranges : gbuf_ranges_t)
          (param_gbuf_map : list (param_id * (nat * dtype_pair * nat))).

(** A parameter the loop body can process up to its type dispatch. *)
Let reachable (h : param_id -> ModelParam) (p : param_id) : Prop :=
  requires_grad (h p) = true /\ locatable gbuf_ranges param_gbuf_map p.

Lemma group_loop_supported h tg ps :
  (forall p, p ∈ ps -> reachable h p /\ supported_type (type_ (h p))) ->
  exists h' tg',
    foldM (materialize_param gbuf_ranges param_gbuf_map) ps (h, tg)
      = Ok (h', tg')
    /\ same_tags h h'.
Proof.
  intros Hps.
  destruct (foldM_invariant (materialize_param gbuf_ranges param_gbuf_map)
              (fun _ st => same_tags h st.1) ps (h, tg))
    as ([h' tg'] & Hrun & Hsame).
  - apply same_tags_refl.
  - intros _ p [h1 tg1] Hsame Hp. simpl in Hsame.
    destruct (Hps p Hp) as [[Hrg Hloc] Hty].
    destruct (Hsame p) as [Hty1 Hrg1].
    destruct (materialize_param_supported gbuf_ranges param_gbuf_map
                h1 tg1 p) as (h2 & tg2 & Hrun & Hsame2);
      [congruence|done|by rewrite Hty1|].
    exists (h2, tg2). split; [done|]. simpl. by eapply same_tags_trans.
  - by exists h', tg'.
Qed.

Lemma groups_loop_supported h pgs groups gs :
  (forall gr p, gr ∈ gs -> p ∈ GroupRange.params gr ->
     reachable h p /\ supported_type (type_ (h p))) ->
  (forall gr, gr ∈ gs ->
     exists i, GroupRange.orig_group gr = Some i /\ (i < length pgs)%nat) ->
  exists h' pgs' groups',
    foldM (fun '(heap, param_groups, groups) group_range =>
      '(heap, this_group) ←
        foldM (materialize_param gbuf_ranges param_gbuf_map)
              (GroupRange.params group_range) (heap, no_params_this_group);
      orig_group ← or_raise KeyError (GroupRange.orig_group group_range);
      group ← or_raise IndexError (param_groups !! orig_group);
      let param_groups :=
        <[orig_group :=
            ParamGroup.mk
              (ShardRef <$> (shard_fp32_params_this_group this_group
                             ++ shard_fp32_from_float16_params_this_group this_group))
              (ParamGroup.hyper group)]> param_groups in
      Ok (heap, param_groups,
          {| model_float16_groups :=
               model_float16_groups groups
                 ++ [model_float16_params_this_group this_group];
             model_fp32_groups :=
               model_fp32_groups groups
                 ++ [model_fp32_params_this_group this_group];
             shard_float16_groups :=
               shard_float16_groups groups
                 ++ [shard_float16_params_this_group this_group];
             shard_fp32_groups :=
               shard_fp32_groups groups
                 ++ [shard_fp32_params_this_group this_group];
             shard_fp32_from_float16_groups :=
               shard_fp32_from_float16_groups groups
                 ++ [shard_fp32_from_float16_params_this_group this_group] |}))
    gs (h, pgs, groups) = Ok (h', pgs', groups')
    /\ same_tags h h' /\ length pgs' = length pgs.
Proof.
  intros Hps Horig.
  match goal with
  | |- context [foldM ?body gs ?st0] =>
      destruct (foldM_invariant body
                  (fun _ st => same_tags h st.1.1
                               /\ length st.1.2 = length pgs) gs st0)
        as ([[h' pgs'] groups'] & Hrun & Hsame & Hlen)
  end.
  - split; [apply same_tags_refl|done].
  - intros _ gr [[h1 pgs1] groups1] [Hsame Hlen] Hgr. simpl in Hsame, Hlen.
    destruct (group_loop_supported h1 no_params_this_group
                (GroupRange.params gr)) as (h2 & tg2 & Hrun & Hsame2).
    { intros p Hp. destruct (Hps gr p Hgr Hp) as [[Hrg Hloc] Hty].
      destruct (Hsame p) as [Ht Hr]. unfold reachable. by rewrite Ht, Hr. }
    rewrite Hrun. simpl.
    destruct (Horig gr Hgr) as (i & -> & Hi). simpl.
    destruct (lookup_lt_is_Some_2 pgs1 i ltac:(lia)) as [g ->]. simpl.
    eexists. split; [reflexivity|]. simpl.
    split; [by eapply same_tags_trans|by rewrite length_insert].
  - by exists h', pgs', groups'.
Qed.
End materializer_loops.

(** A list either satisfies a decidable property throughout, or has a first
    element that fails it. *)
Lemma first_failure {A} (P : A -> Prop) `{!forall x, Decision (P x)}
    (l : list A) :
  Forall P l
  \/ exists l1 x l2, l = l1 ++ x :: l2 /\ Forall P l1 /\ ~ P x.
Proof.
  induction l as [|x l IH]; [by left|].
  destruct (decide (P x)) as [Hx|Hx].
  - destruct IH as [Hall|(l1 & y & l2 & -> & Hl1 & Hy)].
    + left. by constructor.
    + right. exists (x :: l1), y, l2. split; [done|]. split; [|done].
      by constructor.
  - right. exists [], x, l. split; [done|]. split; [constructor|done].
Qed.

(** The materializer either accepts every parameter and returns, or stops at
    the first parameter of an unsupported type with a [TypeError] naming that
    type. *)
Lemma materializer_outcome heap pgs gbuf_ranges param_gbuf_map ogr :
  (forall gr p, gr ∈ ogr -> p ∈ GroupRange.params gr ->
     requires_grad (heap p) = true
     /\ locatable gbuf_ranges param_gbuf_map p) ->
  (forall gr, gr ∈ ogr ->
     exists i, GroupRange.orig_group gr = Some i /\ (i < length pgs)%nat) ->
  ((forall gr p, gr ∈ ogr -> p ∈ GroupRange.params gr ->
      supported_type (type_ (heap p)))
   /\ exists out,
        _build_model_and_main_param_groups heap pgs gbuf_ranges
          param_gbuf_map ogr = Ok out)
  \/ (exists gr p,
        gr ∈ ogr /\ p ∈ GroupRange.params gr
        /\ ~ supported_type (type_ (heap p))
        /\ _build_model_and_main_param_groups heap pgs gbuf_ranges
             param_gbuf_map ogr
           = Raise (TypeError (unsupported_type_msg (type_ (heap p))))).
Proof.
  intros Hwf Horig.
  destruct (first_failure
              (fun gr => Forall (fun p => supported_type (type_ (heap p)))
                                (GroupRange.params gr)) ogr)
    as [Hall|(gs1 & g & gs2 & -> & Hgs1 & Hg)].
  - left. rewrite Forall_forall in Hall.
    assert (forall gr p, gr ∈ ogr -> p ∈ GroupRange.params gr ->
              supported_type (type_ (heap p))) as Hsup.
    { intros gr p Hgr Hp. specialize (Hall gr Hgr).
      rewrite Forall_forall in Hall. auto. }
    split; [done|].
    destruct (groups_loop_supported gbuf_ranges param_gbuf_map heap pgs
                {| model_float16_groups := []; model_fp32_groups := [];
                   shard_float16_groups := []; shard_fp32_groups := [];
                   shard_fp32_from_float16_groups := [] |} ogr)
      as (h' & pgs' & groups' & Hrun & _).
    { intros gr p Hgr Hp. split; [by apply (Hwf gr)|by apply (Hsup gr)]. }
    { done. }
    eexists. exact Hrun.
  - right.
    destruct (first_failure (fun p => supported_type (type_ (heap p)))
                (GroupRange.params g))
      as [Hall|(ps1 & p & ps2 & Hps & Hps1 & Hp)]; [done|].
    exists g, p.
    assert (g ∈ gs1 ++ g :: gs2) as Hgin.
    { apply elem_of_app. right. apply list_elem_of_here. }
    assert (p ∈ GroupRange.params g) as Hpin.
    { rewrite Hps. apply elem_of_app. right. apply list_elem_of_here. }
    split; [done|]. split; [done|]. split; [done|].
    unfold _build_model_and_main_param_groups. rewrite foldM_app.
    destruct (groups_loop_supported gbuf_ranges param_gbuf_map heap pgs
                {| model_float16_groups := []; model_fp32_groups := [];
                   shard_float16_groups := []; shard_fp32_groups := [];
                   shard_fp32_from_float16_groups := [] |} gs1)
      as (h1 & pgs1 & groups1 & Hrun1 & Hsame1 & _).
    { intros gr q Hgr Hq. split.
      - apply (Hwf gr q); [|done]. apply elem_of_app. by left.
      - rewrite Forall_forall in Hgs1. specialize (Hgs1 gr Hgr).
        rewrite Forall_forall in Hgs1. auto. }
    { intros gr Hgr. apply Horig. apply elem_of_app. by left. }
    match goal with
    | |- context [foldM ?b gs1 ?s] =>
        replace (foldM b gs1 s) with (Ok (A:=_) (h1, pgs1, groups1))
          by (symmetry; exact Hrun1)
    end.
    simpl. rewrite Hps, foldM_app.
    destruct (group_loop_supported gbuf_ranges param_gbuf_map h1
                no_params_this_group ps1) as (h2 & tg2 & Hrun2 & Hsame2).
    { intros q Hq. destruct (Hsame1 q) as [-> ->]. split.
      - apply (Hwf g q); [done|]. rewrite Hps. apply elem_of_app. by left.
      - rewrite Forall_forall in Hps1. auto. }
    rewrite Hrun2. simpl.
    pose proof (same_tags_trans _ _ _ Hsame1 Hsame2 p) as [Hty Hrg].
    destruct (Hwf g p Hgin Hpin) as [Hrgp Hloc].
    rewrite (materialize_param_unsupported gbuf_ranges param_gbuf_map
               h2 tg2 p) by (try done; congruence).
    simpl. by rewrite Hty.
Qed.

(** C8. Shard materialization raises the unsupported-type error exactly when
    some parameter's storage type is outside the closed set of
    [torch.cuda.HalfTensor], [torch.cuda.BFloat16Tensor] and
    [torch.cuda.FloatTensor]; the error names the type of such a parameter;
    and when every parameter's type is in the set the call returns. *)
Theorem C8_unsupported_type heap pgs gbuf_ranges param_gbuf_map ogr :
  (forall gr p, gr ∈ ogr -> p ∈ GroupRange.params gr ->
     requires_grad (heap p) = true
     /\ locatable gbuf_ranges param_gbuf_map p) ->
  (forall gr, gr ∈ ogr ->
     exists i, GroupRange.orig_group gr = Some i /\ (i < length pgs)%nat) ->
  let r := _build_model_and_main_param_groups heap pgs gbuf_ranges
             param_gbuf_map ogr in
  ((exists msg, r = Raise (TypeError msg)) <->
   (exists gr p, gr ∈ ogr /\ p ∈ GroupRange.params gr
                 /\ ~ supported_type (type_ (heap p))))
  /\ (forall msg, r = Raise (TypeError msg) ->
        exists gr p, gr ∈ ogr /\ p ∈ GroupRange.params gr
                     /\ ~ supported_type (type_ (heap p))
                     /\ msg = unsupported_type_msg (type_ (heap p)))
  /\ ((forall gr p, gr ∈ ogr -> p ∈ GroupRange.params gr ->
         supported_type (type_ (heap p))) ->
      exists out, r = Ok out).
Proof.
  intros Hwf Horig r.
  destruct (materializer_outcome heap pgs gbuf_ranges param_gbuf_map ogr
              Hwf Horig)
    as [[Hsup [out Hout]]|(gr & p & Hgr & Hp & Hbad & Hraise)];
    fold r in Hout || fold r in Hraise.
  - split; [split|split].
    + intros [msg Hmsg]. congruence.
    + intros (gr & p & Hgr & Hp & Hbad). destruct Hbad. eauto.
    + intros msg Hmsg. congruence.
    + intros _. by exists out.
  - split; [split|split].
    + intros _. by exists gr, p.
    + intros _. eexists. exact Hraise.
    + intros msg Hmsg. exists gr, p. repeat (split; [done|]). congruence.
    + intros Hsup. destruct Hbad. eauto.
Qed.

Lemma C8_unsupported_type_witness :
  exists msg,
    _build_model_and_main_param_groups double_param_heap
      [ParamGroup.mk [ModelRef 1%nat] []] assembler_gbuf_ranges
      [(1%nat, (0%nat, (float32, float32), 0%nat))]
      [GroupRange.mk [1%nat] (Some 0%nat) (Some 0%nat)]
    = Raise (TypeError msg).
Proof.
  destruct (C8_unsupported_type double_param_heap
              [ParamGroup.mk [ModelRef 1%nat] []] assembler_gbuf_ranges
              [(1%nat, (0%nat, (float32, float32), 0%nat))]
              [GroupRange.mk [1%nat] (Some 0%nat) (Some 0%nat)])
    as [[_ H] _].
  - intros gr p Hgr Hp.
    apply list_elem_of_singleton in Hgr as ->.
    apply list_elem_of_singleton in Hp as ->.
    split; [reflexivity|]. unfold locatable.
    eexists _, _, _, _, _, _, _.
    repeat split; vm_compute; reflexivity.
  - intros gr Hgr. apply list_elem_of_singleton in Hgr as ->.
    exists 0%nat. split; [reflexivity|]. simpl. lia.
  - apply H. exists (GroupRange.mk [1%nat] (Some 0%nat) (Some 0%nat)), 1%nat.
    split; [apply list_elem_of_here|]. split; [apply list_elem_of_here|].
    intros Hs. revert Hs. by_decide.
Defined.

(** ** More on loops and dicts *)

Lemma foldM_preserves {A S} (f : S -> A -> result S) (I : S -> Prop)
    (xs : list A) (s s' : S) :
  (forall s x s', x ∈ xs -> I s -> f s x = Ok s' -> I s') ->
  I s -> foldM f xs s = Ok s' -> I s'.
Proof.
  revert s. induction xs as [|x xs IH]; intros s Hstep HI; simpl.
  - by intros [= <-].
  - destruct (f s x) as [s1|e] eqn:Hf; simpl; [|done].
    apply IH.
    + intros s0 y s0' Hy. apply Hstep. by apply list_elem_of_further.
    + eapply Hstep; [apply list_elem_of_here|done|done].
Qed.

Lemma mapM_Ok_Forall2 {A B} (f : A -> result B) (xs : list A) (ys : list B) :
  mapM f xs = Ok ys -> Forall2 (fun x y => f x = Ok y) xs ys.
Proof.
  revert ys. induction xs as [|x xs IH]; intros ys; simpl.
  - intros [= <-]. constructor.
  - destruct (f x) as [y|e] eqn:Hf; simpl; [|done].
    destruct (mapM f xs) as [ys'|e]; simpl; [|done].
    intros [= <-]. constructor; auto.
Qed.

Lemma mapM_total {A B} (f : A -> result B) (xs : list A) :
  (forall x, x ∈ xs -> exists y, f x = Ok y) ->
  exists ys, mapM f xs = Ok ys.
Proof.
  induction xs as [|x xs IH]; intros Hf; simpl; [by eexists|].
  destruct (Hf x) as [y ->]; [apply list_elem_of_here|]. simpl.
  destruct IH as [ys ->].
  - intros z Hz. apply Hf. by apply list_elem_of_further.
  - simpl. by eexists.
Qed.

Lemma dict_set_elem {K V} `{EqDecision K} (d : list (K * V)) k v x :
  x ∈ Dict.set d k v -> x ∈ d \/ x = (k, v).
Proof.
  induction d as [|[k' v'] d IH]; simpl.
  - intros Hx. apply list_elem_of_singleton in Hx. by right.
  - destruct (decide (k' = k)) as [->|Hne]; intros Hx;
      apply elem_of_cons in Hx as [->|Hx].
    + by right.
    + left. by apply list_elem_of_further.
    + left. apply list_elem_of_here.
    + destruct (IH Hx) as [?|?]; [left|by right].
      by apply list_elem_of_further.
Qed.

Lemma owned_entries_loop {S} (body : S -> param_id * ParamRanges -> result S)
    (gbuf_ranges : gbuf_ranges_t) (st : S) :
  foldM (fun st gbuf_range_maps =>
    foldM (fun st '(_, gbuf_range_map_for_all_buckets) =>
      foldM (fun st gbuf_range_map =>
        foldM body (param_map gbuf_range_map) st)
      gbuf_range_map_for_all_buckets st)
    (gbuf_range_maps : gbuf_range_map_t) st)
  gbuf_ranges st
  = foldM body (owned_entries gbuf_ranges) st.
Proof.
  unfold owned_entries. rewrite <- foldM_bind.
  apply foldM_ext. intros s m _.
  rewrite <- foldM_bind. apply foldM_ext. intros s' [dt bs] _.
  by rewrite <- foldM_bind.
Qed.

(** ** CheckpointCodec (c): model space *)

Lemma param_to_sharded_metadata_elem msd mp meta :
  Dict.get (param_to_sharded_metadata_of msd) mp = Some meta ->
  meta ∈ msd /\ data meta = mp.
Proof.
  unfold param_to_sharded_metadata_of.
  cut (forall l acc,
         (forall sh, sh ∈ l -> sh ∈ msd) ->
         (forall q m, Dict.get acc q = Some m -> m ∈ msd /\ data m = q) ->
         forall q m,
           Dict.get (foldl (fun d sh => Dict.set d (data sh) sh) acc l) q
             = Some m ->
           m ∈ msd /\ data m = q).
  { intros Hc. apply (Hc msd []); [done|]. intros q m [=]. }
  induction l as [|sh l IH]; intros acc Hl Hacc q m; simpl; [by apply Hacc|].
  apply IH.
  - intros sh' Hsh'. apply Hl. by apply list_elem_of_further.
  - intros q' m'. destruct (decide (data sh = q')) as [<-|Hne].
    + rewrite dict_get_set_eq. intros [= <-].
      split; [|done]. apply Hl, list_elem_of_here.
    + rewrite dict_get_set_ne by done. apply Hacc.
Qed.

Lemma replica_slice_zeroed (rid : list Z) :
  length rid = 3%nat ->
  exists pp tp dp, rid = [pp; tp; dp] /\ py_slice rid 0 2 ++ [0] = [pp; tp; 0].
Proof.
  destruct rid as [|pp [|tp [|dp [|? ?]]]]; try done.
  intros _. by exists pp, tp, dp.
Qed.

Lemma dict_set_keys_mono {K V} `{EqDecision K} (d : list (K * V)) k k' v :
  k ∈ Dict.keys d -> k ∈ Dict.keys (Dict.set d k' v).
Proof.
  unfold Dict.keys. induction d as [|[k0 v0] d IH]; simpl.
  - intros Hk. by apply elem_of_nil in Hk.
  - intros Hk. destruct (decide (k0 = k')) as [->|Hne]; simpl.
    + done.
    + apply elem_of_cons in Hk as [->|Hk]; [apply list_elem_of_here|].
      apply list_elem_of_further. auto.
Qed.

Lemma dict_update_keys_mono {K V} `{EqDecision K} (d items : list (K * V)) k :
  k ∈ Dict.keys d -> k ∈ Dict.keys (dict_update d items).
Proof.
  unfold dict_update. revert d.
  induction items as [|[k' v'] items IH]; intros d Hk; simpl; [done|].
  apply IH. by apply dict_set_keys_mono.
Qed.

Section model_space_helper.
Variables (fsdp is_loading : bool)
          (validate_metadata_integrity : ShardedBase -> result unit)
          (p2m : list (tensor_id * ShardedBase)).

Lemma helper_replica st model_param main_param item_slice store' opt' tensors :
  _get_param_state_sharded_tensors fsdp is_loading
      validate_metadata_integrity p2m st model_param main_param item_slice
    = Ok (store', opt', tensors) ->
  exists meta,
    Dict.get p2m model_param = Some meta
    /\ "fp32_param" ∈ Dict.keys tensors
    /\ forall sk sh, (sk, sh) ∈ tensors ->
         zeroed_dp_replica meta (replica_id sh)
         /\ flattened_range sh = Some item_slice
         /\ key sh = state_prefix +:+ "." +:+ sk +:+ "." +:+ key meta.
Proof.
  unfold _get_param_state_sharded_tensors. destruct st as [store optimizer].
  destruct (optimizer_state_get optimizer main_param) as [optim_state optimizer1].
  set (pre := if fsdp && is_loading then _ else _).
  destruct pre as [[[store1 optimizer2] optim_state1]|e] eqn:Hpre; simpl; [|done].
  clear Hpre pre.
  destruct (Dict.get p2m model_param) as [meta|]; simpl; [|done].
  destruct (replica_id meta) as [r|rid] eqn:Hrid; simpl; [done|].
  destruct (decide (length rid = 3%nat)) as [Hlen|Hlen];
    [rewrite bool_decide_eq_true_2 by done
    |rewrite bool_decide_eq_false_2 by done]; simpl; [|done].
  match goal with
  | |- context [mapM ?f ?xs] =>
      destruct (mapM f xs) as [ys|e] eqn:Hmap; simpl; [|done];
      pose proof (mapM_Ok_Forall2 f xs ys Hmap) as Hall
  end.
  intros [= <- <- <-]. exists meta. split; [done|].
  destruct (replica_slice_zeroed rid Hlen) as (pp & tp & dp & -> & Hsl).
  split.
  - assert (Dict.keys ys
            = Dict.keys (dict_update [("fp32_param", main_param)] optim_state1))
      as ->.
    { unfold Dict.keys. clear Hmap.
      induction Hall as [|[sk t] [sk' sh] xs ys' Hxy Hall IH]; [done|].
      simpl. f_equal; [|done].
      destruct (validate_metadata_integrity _); simplify_eq/=. done. }
    apply dict_update_keys_mono. apply list_elem_of_here.
  - intros sk sh Hin.
    apply list_elem_of_lookup in Hin as [i Hi].
    destruct (Forall2_lookup_r _ _ _ _ _ Hall Hi) as ([sk0 t0] & _ & Hf).
    simpl in Hf.
    destruct (validate_metadata_integrity _); simplify_eq/=.
    split; [|done]. exists pp, tp, dp. split; [done|reflexivity].
Qed.
End model_space_helper.

Lemma bind_Ok_inv {A B} (m : result A) (k : A -> result B) (b : B) :
  m ≫= k = Ok b -> exists a, m = Ok a /\ k a = Ok b.
Proof. destruct m as [a|e]; simpl; [by exists a|done]. Qed.

Lemma replicas_zeroed_set msd state k tensors meta :
  replicas_zeroed msd state ->
  meta ∈ msd ->
  (forall sk sh, (sk, sh) ∈ tensors -> zeroed_dp_replica meta (replica_id sh)) ->
  replicas_zeroed msd (Dict.set state k tensors).
Proof.
  intros Hst Hmeta Hts k' tensors' sk sh Hk Hsh.
  apply dict_set_elem in Hk as [Hk|[= -> ->]].
  - by eapply Hst.
  - exists meta. split; [done|]. by eapply Hts.
Qed.

Lemma model_space_safe validate_metadata_integrity self store msd is_loading
    store' opt' state :
  sharded_param_state_fs_model_space validate_metadata_integrity self store
    msd is_loading = Ok (store', opt', state) ->
  replicas_zeroed msd state.
Proof.
  unfold sharded_param_state_fs_model_space.
  fold (param_to_sharded_metadata_of msd).
  destruct (DistOpt.with_megatron_fsdp_code_path self).
  - apply (foldM_preserves _ (fun st => replicas_zeroed msd st.2)).
    + intros st pg_buffer st' _.
      apply (foldM_preserves _ (fun st => replicas_zeroed msd st.2)).
      intros st1 pg st1' _.
      apply (foldM_preserves _ (fun st => replicas_zeroed msd st.2)).
      intros [[store1 opt1] state1] model_param st2 _ HI. simpl in HI.
      destruct (Dict.get (gbuf_param_idx pg) model_param); simpl; [|done].
      destruct (Dict.get (param_to_name pg_buffer) model_param) as [name|];
        simpl; [|done].
      destruct (Dict.get _ name) as [main_param|]; simpl; [|done].
      destruct (decide (_ = _)); [by intros [= <-]|].
      match goal with
      | |- context [_get_param_state_sharded_tensors ?a ?b ?c ?d ?e ?f ?g ?h] =>
          destruct (_get_param_state_sharded_tensors a b c d e f g h)
            as [[[store2 opt2] tensors]|e0] eqn:Hh
      end; simpl; [|done].
      intros [= <-]. simpl.
      apply helper_replica in Hh as (meta & Hmeta & _ & Hts).
      apply param_to_sharded_metadata_elem in Hmeta as [Hmeta _].
      apply (replicas_zeroed_set _ _ _ _ meta); [done|done|].
      intros sk sh Hsh. by destruct (Hts sk sh Hsh).
    + intros k tensors sk sh Hk. by apply elem_of_nil in Hk.
  - rewrite owned_entries_loop.
    intros Hrun.
    apply bind_Ok_inv in Hrun as ([[[store1 opt1] state1] idx] & Hrun & Hret).
    simpl in Hret. injection Hret as <- <- <-.
    revert Hrun.
    apply (foldM_preserves _ (fun st => replicas_zeroed msd st.1.2)).
    + intros [[[store2 opt2] state2] idx2] [model_param ranges] st' _ HI.
      simpl in HI.
      destruct (main_param_of self model_param) as [main_param|]; simpl; [|done].
      match goal with
      | |- context [_get_param_state_sharded_tensors ?a ?b ?c ?d ?e ?f ?g ?h] =>
          destruct (_get_param_state_sharded_tensors a b c d e f g h)
            as [[[store3 opt3] tensors]|e0] eqn:Hh
      end; simpl; [|done].
      intros [= <-]. simpl.
      apply helper_replica in Hh as (meta & Hmeta & _ & Hts).
      apply param_to_sharded_metadata_elem in Hmeta as [Hmeta _].
      apply (replicas_zeroed_set _ _ _ _ meta); [done|done|].
      intros sk sh Hsh. by destruct (Hts sk sh Hsh).
    + intros k tensors sk sh Hk. by apply elem_of_nil in Hk.
Qed.

Lemma bind_Ok_intro {A B} (m : result A) (k : A -> result B) a r :
  m = Ok a -> k a = r -> m ≫= k = r.
Proof. by intros -> <-. Qed.

(** A loop whose body keeps an invariant of the visited prefix, where the
    body may rely on what is still to be visited. *)
Lemma foldM_prefix_invariant {A S} (f : S -> A -> result S)
    (I : list A -> S -> Prop) (xs : list A) (s : S) :
  I [] s ->
  (forall pre x post s, xs = pre ++ x :: post -> I pre s ->
     exists s', f s x = Ok s' /\ I (pre ++ [x]) s') ->
  exists s', foldM f xs s = Ok s' /\ I xs s'.
Proof.
  intros H0 Hstep.
  cut (forall post pre s, xs = pre ++ post -> I pre s ->
         exists s', foldM f post s = Ok s' /\ I xs s').
  { intros Hc. by apply (Hc xs [] s). }
  clear s H0. induction post as [|x post IH]; intros pre s Hxs HI.
  - exists s. split; [done|]. by rewrite Hxs, app_nil_r.
  - destruct (Hstep pre x post s Hxs HI) as (s' & Hs' & HI').
    cbn [foldM]. rewrite Hs'. simpl.
    apply (IH (pre ++ [x])); [|done]. by rewrite <- app_assoc.
Qed.

Lemma dict_update_keys_congr {K V W} `{EqDecision K}
    (d : list (K * V)) (d' : list (K * W)) (items : list (K * V))
    (items' : list (K * W)) :
  Dict.keys d = Dict.keys d' -> Dict.keys items = Dict.keys items' ->
  Dict.keys (dict_update d items) = Dict.keys (dict_update d' items').
Proof.
  unfold dict_update. revert d d' items'.
  induction items as [|[k v] items IH]; intros d d' [|[k' w] items'] Hd Hi;
    try done.
  simpl in Hi. injection Hi as <- Hi. simpl. apply IH; [|done].
  clear -Hd. revert d' Hd. unfold Dict.keys.
  induction d as [|[k0 v0] d IH]; intros [|[k1 w1] d'] Hd; try done.
  simpl in Hd. injection Hd as <- Hd. simpl.
  destruct (decide (k0 = k)); simpl; f_equal; [done|by apply IH].
Qed.

Lemma mapM_keys {V W} (f : string * V -> result (string * W))
    (xs : list (string * V)) (ys : list (string * W)) :
  (forall x y, f x = Ok y -> y.1 = x.1) ->
  mapM f xs = Ok ys -> Dict.keys ys = Dict.keys xs.
Proof.
  intros Hf Hmap. apply mapM_Ok_Forall2 in Hmap. unfold Dict.keys.
  induction Hmap as [|x y xs ys Hxy _ IH]; [done|].
  rewrite !fmap_cons. f_equal; [by apply Hf|exact IH].
Qed.

(** The helper emits one tensor per key of
    [{"fp32_param": main_param, **optim_state}], where [optim_state] is
    what the optimizer has for the main parameter when the helper returns,
    and touches the optimizer state of no other main parameter. *)
Lemma helper_keys fsdp is_loading validate_metadata_integrity p2m store
    optimizer model_param main_param item_slice store' optimizer' tensors :
  _get_param_state_sharded_tensors fsdp is_loading
      validate_metadata_integrity p2m (store, optimizer) model_param
      main_param item_slice
    = Ok (store', optimizer', tensors) ->
  Dict.keys tensors
  = Dict.keys (dict_update
                 [("fp32_param", main_param)]
                 (default [] (Dict.get (Optimizer.state optimizer') main_param)))
  /\ (forall t, t <> main_param ->
        default [] (Dict.get (Optimizer.state optimizer') t)
        = default [] (Dict.get (Optimizer.state optimizer) t))
  /\ (fsdp && is_loading = false ->
        default [] (Dict.get (Optimizer.state optimizer') main_param)
        = default [] (Dict.get (Optimizer.state optimizer) main_param))
  /\ Optimizer.is_adam optimizer' = Optimizer.is_adam optimizer.
Proof.
  unfold _get_param_state_sharded_tensors.
  assert (Hget : exists optimizer1,
            optimizer_state_get optimizer main_param
            = (default [] (Dict.get (Optimizer.state optimizer) main_param),
               optimizer1)
            /\ Dict.get (Optimizer.state optimizer1) main_param
               = Some (default [] (Dict.get (Optimizer.state optimizer)
                                           main_param))
            /\ (forall t, t <> main_param ->
                  Dict.get (Optimizer.state optimizer1) t
                  = Dict.get (Optimizer.state optimizer) t)
            /\ Optimizer.is_adam optimizer1 = Optimizer.is_adam optimizer).
  { unfold optimizer_state_get.
    destruct (Dict.get (Optimizer.state optimizer) main_param) as [st|] eqn:Hst.
    - exists optimizer. by split_and!.
    - eexists. split; [done|]. simpl. split; [by rewrite dict_get_set_eq|].
      split; [|done]. intros t Ht. by rewrite dict_get_set_ne. }
  destruct Hget as (optimizer1 & -> & Hself & Hother & Hadam).
  set (optim_state := default [] (Dict.get (Optimizer.state optimizer) main_param))
    in *.
  destruct (fsdp && is_loading) eqn:Hmode.
  - destruct (Optimizer.is_adam optimizer1) eqn:Hadam1; simpl; [|done].
    destruct (torch_empty_like store main_param) as [exp_avg store1].
    destruct (torch_empty_like store1 main_param) as [exp_avg_sq store2].
    simpl.
    destruct (Dict.get p2m model_param) as [meta|]; simpl; [|done].
    destruct (replica_id meta) as [r|rid]; simpl; [done|].
    destruct (bool_decide (length rid = 3%nat)); simpl; [|done].
    match goal with
    | |- context [mapM ?f ?xs] =>
        destruct (mapM f xs) as [ys|e] eqn:Hmap; simpl; [|done];
        pose proof (mapM_keys f xs ys) as Hkeys
    end.
    intros [= <- <- <-]. simpl. rewrite dict_get_set_eq. simpl.
    split_and!.
    + apply Hkeys; [|done]. intros [sk t] y.
      destruct (validate_metadata_integrity _); simpl; [|done].
      by intros [= <-].
    + intros t Ht. rewrite dict_get_set_ne by done. by rewrite Hother.
    + done.
    + congruence.
  - simpl.
    destruct (Dict.get p2m model_param) as [meta|]; simpl; [|done].
    destruct (replica_id meta) as [r|rid]; simpl; [done|].
    destruct (bool_decide (length rid = 3%nat)); simpl; [|done].
    match goal with
    | |- context [mapM ?f ?xs] =>
        destruct (mapM f xs) as [ys|e] eqn:Hmap; simpl; [|done];
        pose proof (mapM_keys f xs ys) as Hkeys
    end.
    intros [= <- <- <-]. rewrite Hself. simpl.
    split_and!.
    + apply Hkeys; [|done]. intros [sk t] y.
      destruct (validate_metadata_integrity _); simpl; [|done].
      by intros [= <-].
    + intros t Ht. by rewrite Hother.
    + done.
    + done.
Qed.

Lemma helper_returns fsdp is_loading validate_metadata_integrity p2m store
    optimizer model_param main_param item_slice meta rid :
  (forall sh, validate_metadata_integrity sh = Ok tt) ->
  (fsdp && is_loading = true -> Optimizer.is_adam optimizer = true) ->
  Dict.get p2m model_param = Some meta ->
  replica_id meta = ReplicaTuple rid ->
  length rid = 3%nat ->
  exists out,
    _get_param_state_sharded_tensors fsdp is_loading
      validate_metadata_integrity p2m (store, optimizer) model_param
      main_param item_slice
    = Ok out.
Proof.
  intros Hval Hadam Hmeta Hrid Hlen.
  unfold _get_param_state_sharded_tensors.
  assert (Hadam1 : fsdp && is_loading = true ->
            Optimizer.is_adam (optimizer_state_get optimizer main_param).2 = true).
  { intros Hmode. unfold optimizer_state_get.
    destruct (Dict.get (Optimizer.state optimizer) main_param); simpl; auto. }
  destruct (optimizer_state_get optimizer main_param) as [optim_state optimizer1].
  simpl in Hadam1.
  destruct (fsdp && is_loading) eqn:Hmode.
  - rewrite Hadam1 by done. simpl.
    destruct (torch_empty_like store main_param) as [exp_avg store1].
    destruct (torch_empty_like store1 main_param) as [exp_avg_sq store2].
    simpl. rewrite Hmeta. simpl. rewrite Hrid. simpl.
    rewrite bool_decide_eq_true_2 by done. simpl.
    match goal with
    | |- context [mapM ?f ?xs] => destruct (mapM_total f xs) as [ys ->]
    end.
    + intros [sk t] _. rewrite Hval. simpl. by eexists.
    + simpl. by eexists.
  - simpl. rewrite Hmeta. simpl. rewrite Hrid. simpl.
    rewrite bool_decide_eq_true_2 by done. simpl.
    match goal with
    | |- context [mapM ?f ?xs] => destruct (mapM_total f xs) as [ys ->]
    end.
    + intros [sk t] _. rewrite Hval. simpl. by eexists.
    + simpl. by eexists.
Qed.

Lemma dict_set_keys_self {K V} `{EqDecision K} (d : list (K * V)) k v :
  k ∈ Dict.keys (Dict.set d k v).
Proof.
  unfold Dict.keys. induction d as [|[k' v'] d IH]; simpl.
  - apply list_elem_of_here.
  - destruct (decide (k' = k)) as [->|_]; simpl.
    + apply list_elem_of_here.
    + by apply list_elem_of_further.
Qed.

Lemma dict_update_keys_items {K V} `{EqDecision K} (d items : list (K * V)) k :
  k ∈ Dict.keys items -> k ∈ Dict.keys (dict_update d items).
Proof.
  unfold dict_update. revert d.
  induction items as [|[k' v'] items IH]; intros d Hk; simpl.
  - by apply elem_of_nil in Hk.
  - unfold Dict.keys in Hk. simpl in Hk.
    apply elem_of_cons in Hk as [->|Hk]; [|by apply IH].
    apply (dict_update_keys_mono _ items). apply dict_set_keys_self.
Qed.

(** On the Megatron-FSDP path a loading call leaves the two Adam moments in
    the optimizer state of the main parameter. *)
Lemma helper_loading_keys validate_metadata_integrity p2m store optimizer
    model_param main_param item_slice store' optimizer' tensors :
  _get_param_state_sharded_tensors true true
      validate_metadata_integrity p2m (store, optimizer) model_param
      main_param item_slice
    = Ok (store', optimizer', tensors) ->
  "exp_avg" ∈ Dict.keys (default [] (Dict.get (Optimizer.state optimizer')
                                              main_param))
  /\ "exp_avg_sq" ∈ Dict.keys (default [] (Dict.get (Optimizer.state optimizer')
                                                    main_param)).
Proof.
  unfold _get_param_state_sharded_tensors.
  destruct (optimizer_state_get optimizer main_param) as [optim_state optimizer1].
  simpl.
  destruct (Optimizer.is_adam optimizer1); simpl; [|done].
  destruct (torch_empty_like store main_param) as [exp_avg store1].
  destruct (torch_empty_like store1 main_param) as [exp_avg_sq store2].
  simpl.
  destruct (Dict.get p2m model_param) as [meta|]; simpl; [|done].
  destruct (replica_id meta) as [r|rid]; simpl; [done|].
  destruct (bool_decide (length rid = 3%nat)); simpl; [|done].
  match goal with
  | |- context [mapM ?f ?xs] => destruct (mapM f xs) as [ys|e]; simpl; [|done]
  end.
  intros [= <- <- <-]. simpl. rewrite dict_get_set_eq. simpl. split.
  - apply dict_set_keys_mono, dict_set_keys_self.
  - apply dict_set_keys_self.
Qed.

Lemma model_space_bucket_path validate_metadata_integrity self store msd
    is_loading :
  DistOpt.with_megatron_fsdp_code_path self = false ->
  (forall sh, validate_metadata_integrity sh = Ok tt) ->
  (forall p r, (p, r) ∈ owned_entries (DistOpt.gbuf_ranges self) ->
     (exists m, main_param_of self p = Ok m)
     /\ exists meta rid,
          Dict.get (param_to_sharded_metadata_of msd) p = Some meta
          /\ replica_id meta = ReplicaTuple rid /\ length rid = 3%nat) ->
  exists store' opt' state,
    sharded_param_state_fs_model_space validate_metadata_integrity self store
      msd is_loading = Ok (store', opt', state)
    /\ forall (i : nat) p r,
         owned_entries (DistOpt.gbuf_ranges self) !! i = Some (p, r) ->
         exists tensors meta,
           Dict.get state (IndexKey (Z.of_nat i)) = Some tensors
           /\ Dict.get (param_to_sharded_metadata_of msd) p = Some meta
           /\ "fp32_param" ∈ Dict.keys tensors
           /\ (forall sk sh, (sk, sh) ∈ tensors ->
                 zeroed_dp_replica meta (replica_id sh)
                 /\ flattened_range sh = Some (start (param r), end_ (param r)))
           /\ exists main_param,
                main_param_of self p = Ok main_param
                /\ Dict.keys tensors
                   = Dict.keys (dict_update [("fp32_param", main_param)]
                                            (optim_state_of self main_param)).
Proof.
  intros Hfsdp Hval Hwf.
  unfold sharded_param_state_fs_model_space.
  fold (param_to_sharded_metadata_of msd). rewrite Hfsdp.
  rewrite owned_entries_loop.
  set (entries := owned_entries (DistOpt.gbuf_ranges self)) in *.
  pose (I := fun (pre : list (param_id * ParamRanges))
                 (st : Store * Optimizer.t
                       * list (state_key_t * list (string * ShardedBase)) * Z) =>
    st.2 = Z.of_nat (length pre)
    /\ (forall t, default [] (Dict.get (Optimizer.state st.1.1.2) t)
                  = optim_state_of self t)
    /\ forall (i : nat) p r, pre !! i = Some (p, r) ->
         exists tensors meta,
           Dict.get st.1.2 (IndexKey (Z.of_nat i)) = Some tensors
           /\ Dict.get (param_to_sharded_metadata_of msd) p = Some meta
           /\ "fp32_param" ∈ Dict.keys tensors
           /\ (forall sk sh, (sk, sh) ∈ tensors ->
                 zeroed_dp_replica meta (replica_id sh)
                 /\ flattened_range sh = Some (start (param r), end_ (param r)))
           /\ exists main_param,
                main_param_of self p = Ok main_param
                /\ Dict.keys tensors
                   = Dict.keys (dict_update [("fp32_param", main_param)]
                                            (optim_state_of self main_param))).
  match goal with
  | |- context [foldM ?body entries ?s0] =>
      destruct (foldM_invariant body I entries s0)
        as ([[[store1 opt1] state1] idx] & Hrun & Hidx & _ & Hall)
  end.
  - split; [done|]. split; [done|]. intros i p r [=].
  - intros pre [p r] [[[store1 opt1] state1] idx] (Hidx & Hstate & Hall) Hin.
    simpl in Hidx, Hstate, Hall.
    destruct (Hwf p r Hin) as [[m Hm] (meta & rid & Hmeta & Hrid & Hlen)].
    rewrite Hm. simpl.
    destruct (helper_returns false is_loading validate_metadata_integrity
                (param_to_sharded_metadata_of msd) store1 opt1 p m
                (start (param r), end_ (param r)) meta rid)
      as [[[store2 opt2] tensors] Hh]; [done..|].
    rewrite Hh. simpl. eexists. split; [reflexivity|].
    pose proof (helper_keys _ _ _ _ _ _ _ _ _ _ _ _ Hh)
      as (Hkeys & Hother & Hsame & _).
    apply helper_replica in Hh as (meta' & Hmeta' & Hfp & Hts).
    rewrite Hmeta in Hmeta'. injection Hmeta' as <-.
    unfold I. cbn [fst snd]. split; [|split].
    + rewrite length_app, Nat2Z.inj_add. by rewrite Hidx.
    + intros t. destruct (decide (t = m)) as [->|Hne].
      * rewrite Hsame by done. apply Hstate.
      * rewrite Hother by done. apply Hstate.
    + intros i q rq Hi. rewrite Hidx.
      destruct (decide (i = length pre)) as [->|Hne].
      * rewrite list_lookup_middle in Hi by done. injection Hi as <- <-.
        exists tensors, meta. rewrite dict_get_set_eq.
        split; [done|]. split; [done|]. split; [done|]. split.
        -- intros sk sh Hsh. destruct (Hts sk sh Hsh) as (? & ? & _). done.
        -- exists m. split; [done|]. rewrite Hkeys, Hsame by done.
           by rewrite Hstate.
      * assert (i < length pre)%nat as Hlt.
        { apply lookup_lt_Some in Hi. rewrite length_app in Hi. simpl in Hi.
          lia. }
        rewrite lookup_app_l in Hi by done.
        rewrite dict_get_set_ne
          by (intros [= Heq]; apply Nat2Z.inj in Heq; apply Hne; symmetry;
              exact Heq).
        by apply Hall.
  - exists store1, opt1, state1. split; [|exact Hall].
    eapply bind_Ok_intro; [exact Hrun|reflexivity].
Qed.

Lemma fsdp_visits_loop {S}
    (body : FsdpBuffer -> FsdpParameterGroup -> S -> tensor_id -> result S)
    (self : DistOpt.t) (st : S) :
  foldM (fun st pg_buffer =>
           foldM (fun st pg => foldM (body pg_buffer pg) (gbuf_params pg) st)
                 (parameter_groups pg_buffer) st)
        (DistOpt.fsdp_buffers self) st
  = foldM (fun st visit => body visit.1.1 visit.1.2 st visit.2)
          (fsdp_visits self) st.
Proof.
  unfold fsdp_visits. rewrite <- foldM_bind.
  apply foldM_ext. intros s b _. rewrite <- foldM_bind.
  apply foldM_ext. intros s' pg _.
  generalize (gbuf_params pg) as ps. clear. intros ps. revert s'.
  induction ps as [|p ps IH]; intros s'; simpl; [done|].
  destruct (body b pg s' p); simpl; [apply IH|done].
Qed.

Lemma omap_snoc {A B} (f : A -> option B) (xs : list A) (x : A) :
  omap f (xs ++ [x]) = omap f xs ++ default [] ((fun y => [y]) <$> f x).
Proof.
  rewrite omap_app. simpl. by destruct (f x).
Qed.

Lemma dict_set_keys_fresh {K V} `{EqDecision K} (d : list (K * V)) k v :
  k ∉ Dict.keys d -> Dict.keys (Dict.set d k v) = Dict.keys d ++ [k].
Proof.
  unfold Dict.keys. induction d as [|[k' v'] d IH]; intros Hk; simpl; [done|].
  simpl in Hk. apply not_elem_of_cons in Hk as [Hne Hk].
  destruct (decide (k' = k)) as [->|_]; [done|]. simpl. f_equal. by apply IH.
Qed.

Lemma model_space_fsdp_path validate_metadata_integrity self store msd
    is_loading :
  DistOpt.with_megatron_fsdp_code_path self = true ->
  fsdp_encode_wf validate_metadata_integrity self msd is_loading ->
  exists store' opt' state,
    sharded_param_state_fs_model_space validate_metadata_integrity self store
      msd is_loading = Ok (store', opt', state)
    /\ Dict.keys state = (fun info => NameKey info.1.1.1) <$> fsdp_emitted self
    /\ (is_loading = false ->
        forall t, default [] (Dict.get (Optimizer.state opt') t)
                  = optim_state_of self t)
    /\ forall param_name main_param metadata_param item_slice,
         (param_name, main_param, metadata_param, item_slice)
           ∈ fsdp_emitted self ->
         exists tensors meta,
           Dict.get state (NameKey param_name) = Some tensors
           /\ Dict.get (param_to_sharded_metadata_of msd) metadata_param
              = Some meta
           /\ "fp32_param" ∈ Dict.keys tensors
           /\ Dict.keys tensors
              = Dict.keys (dict_update [("fp32_param", main_param)]
                             (default [] (Dict.get (Optimizer.state opt')
                                                   main_param)))
           /\ (is_loading = true ->
               "exp_avg" ∈ Dict.keys tensors
               /\ "exp_avg_sq" ∈ Dict.keys tensors)
           /\ forall sk sh, (sk, sh) ∈ tensors ->
                zeroed_dp_replica meta (replica_id sh)
                /\ flattened_range sh = Some item_slice.
Proof.
  intros Hfsdp [Hval Hadam Hvisits Hmeta Hnames Hmains].
  unfold sharded_param_state_fs_model_space.
  fold (param_to_sharded_metadata_of msd). rewrite Hfsdp.
  rewrite fsdp_visits_loop.
  unfold fsdp_emitted in *.
  set (visits := fsdp_visits self) in *.
  pose (I := fun (pre : list (FsdpBuffer * FsdpParameterGroup * tensor_id))
                 (st : Store * Optimizer.t
                       * list (state_key_t * list (string * ShardedBase))) =>
    Optimizer.is_adam st.1.2 = Optimizer.is_adam (DistOpt.optimizer self)
    /\ Dict.keys st.2
       = (fun info => NameKey info.1.1.1) <$> omap fsdp_emission pre
    /\ (is_loading = false ->
        forall t, default [] (Dict.get (Optimizer.state st.1.2) t)
                  = optim_state_of self t)
    /\ forall param_name main_param metadata_param item_slice,
         (param_name, main_param, metadata_param, item_slice)
           ∈ omap fsdp_emission pre ->
         exists tensors meta,
           Dict.get st.2 (NameKey param_name) = Some tensors
           /\ Dict.get (param_to_sharded_metadata_of msd) metadata_param
              = Some meta
           /\ "fp32_param" ∈ Dict.keys tensors
           /\ Dict.keys tensors
              = Dict.keys (dict_update [("fp32_param", main_param)]
                             (default [] (Dict.get (Optimizer.state st.1.2)
                                                   main_param)))
           /\ (is_loading = true ->
               "exp_avg" ∈ Dict.keys tensors
               /\ "exp_avg_sq" ∈ Dict.keys tensors)
           /\ forall sk sh, (sk, sh) ∈ tensors ->
                zeroed_dp_replica meta (replica_id sh)
                /\ flattened_range sh = Some item_slice).
  match goal with
  | |- context [foldM ?body visits ?s0] =>
      destruct (foldM_prefix_invariant body I visits s0)
        as ([[store1 opt1] state1] & Hrun & _ & Hkeys & Hsave & Hall)
  end.
  - split; [done|]. split; [done|]. split; [done|]. intros ???? Hin. simpl in Hin.
    by apply elem_of_nil in Hin.
  - intros pre [[pg_buffer pg] model_param] post [[store1 opt1] state1]
      Hsplit (Hadam1 & Hkeys1 & Hsave1 & Hall1).
    simpl in Hadam1, Hkeys1, Hsave1, Hall1. cbn [fst snd].
    assert ((pg_buffer, pg, model_param) ∈ visits) as Hin.
    { rewrite Hsplit. apply elem_of_app. right. apply list_elem_of_here. }
    destruct (Hvisits _ Hin) as ([[[name main] mp] slice] & Hinfo).
    pose proof Hinfo as Hinfo'.
    unfold fsdp_visit_info in Hinfo'.
    destruct (Dict.get (gbuf_param_idx pg) model_param) as [item_id|] eqn:Hid;
      simpl in Hinfo'; [|done].
    destruct (Dict.get (param_to_name pg_buffer) model_param) as [name'|]
      eqn:Hname; simpl in Hinfo'; [|done].
    destruct (Dict.get (dict_update [] (optimizer_named_parameters pg_buffer))
                       name') as [main'|] eqn:Hmain; simpl in Hinfo'; [|done].
    injection Hinfo' as -> -> Hmp Hslice.
    rewrite ?Hid, ?Hname. simpl. rewrite ?Hmain. simpl.
    assert (omap fsdp_emission (pre ++ [(pg_buffer, pg, model_param)])
            = omap fsdp_emission pre
              ++ default [] ((fun y => [y])
                               <$> fsdp_emission (pg_buffer, pg, model_param)))
      as Homap by apply omap_snoc.
    unfold fsdp_emission at 3 in Homap. rewrite Hinfo in Homap.
    simpl in Homap. rewrite Hslice.
    destruct (decide (slice.1 = slice.2)) as [Hempty|Hnonempty].
    { eexists. split; [reflexivity|]. unfold I. cbn [fst snd].
      rewrite Homap. simpl. rewrite app_nil_r. done. }
    simpl in Homap.
    assert (omap fsdp_emission visits
            = omap fsdp_emission pre
              ++ (name, main, mp, slice) :: omap fsdp_emission post)
      as Hdecomp.
    { rewrite Hsplit, omap_app. simpl. unfold fsdp_emission at 2.
      rewrite Hinfo. simpl. by rewrite decide_False by done. }
    assert ((name, main, mp, slice) ∈ omap fsdp_emission visits) as Hemit.
    { rewrite Hdecomp. apply elem_of_app. right. apply list_elem_of_here. }
    destruct (Hmeta _ _ _ _ Hemit) as (meta & rid & Hm & Hrid & Hlen).
    rewrite Hmp.
    destruct (helper_returns true is_loading validate_metadata_integrity
                (param_to_sharded_metadata_of msd) store1 opt1 mp main
                slice meta rid)
      as [[[store2 opt2] tensors] Hh]; [done| |done..|].
    { intros His. rewrite Hadam1. apply Hadam. by destruct is_loading. }
    rewrite Hh. simpl. eexists. split; [reflexivity|].
    pose proof (helper_keys _ _ _ _ _ _ _ _ _ _ _ _ Hh)
      as (Hk & Hother & Hsame & Hadam2).
    assert (is_loading = true ->
            "exp_avg" ∈ Dict.keys tensors /\ "exp_avg_sq" ∈ Dict.keys tensors)
      as Hmoments.
    { intros ->. destruct (helper_loading_keys _ _ _ _ _ _ _ _ _ _ Hh).
      rewrite Hk. by split; apply dict_update_keys_items. }
    apply helper_replica in Hh as (meta' & Hmeta' & Hfp & Hts).
    rewrite Hm in Hmeta'. injection Hmeta' as <-.
    rewrite Hdecomp, fmap_app, fmap_cons in Hnames.
    rewrite Hdecomp, fmap_app, fmap_cons in Hmains.
    apply NoDup_app in Hnames as (_ & Hnames & _).
    apply NoDup_app in Hmains as (_ & Hmains & _).
    assert (forall n m q sl, (n, m, q, sl) ∈ omap fsdp_emission pre ->
              n <> name /\ m <> main) as Hfresh.
    { intros n m q sl He. split; intros ->.
      - eapply Hnames; [|apply list_elem_of_here].
        apply (list_elem_of_fmap_2 (fun info => info.1.1.1) _ _ He).
      - eapply Hmains; [|apply list_elem_of_here].
        apply (list_elem_of_fmap_2 (fun info => info.1.1.2) _ _ He). }
    unfold I. cbn [fst snd]. rewrite Homap. split; [|split; [|split]].
    + congruence.
    + rewrite fmap_app. simpl. rewrite <- Hkeys1.
      apply dict_set_keys_fresh. rewrite Hkeys1.
      intros Hbad. apply list_elem_of_fmap in Hbad as ([[[n m] q] sl] & Heq & He).
      simpl in Heq. injection Heq as <-.
      by destruct (Hfresh _ _ _ _ He).
    + intros -> t. destruct (decide (t = main)) as [->|Hne].
      * rewrite Hsame by done. by apply Hsave1.
      * rewrite Hother by done. by apply Hsave1.
    + intros n m q sl He. apply elem_of_app in He as [He|He].
      * destruct (Hfresh _ _ _ _ He) as [Hn Hmn].
        destruct (Hall1 _ _ _ _ He) as (ts & mt & H1 & H2 & H3 & H4 & H5).
        exists ts, mt. rewrite dict_get_set_ne by congruence.
        split; [done|]. split; [done|]. split; [done|]. split; [|done].
        by rewrite Hother.
      * apply list_elem_of_singleton in He. injection He as -> -> -> ->.
        exists tensors, meta. rewrite dict_get_set_eq.
        split; [done|]. split; [done|]. split; [done|]. split; [done|].
        split; [done|].
        intros sk sh Hsh. destruct (Hts sk sh Hsh) as (? & ? & _). done.
  - exists store1, opt1, state1. done.
Qed.


Lemma fsdp_encode_self_wf :
  fsdp_encode_wf (fun _ => Ok tt) fsdp_encode_self model_space_metadata true.
Proof.
  split.
  - done.
  - done.
  - intros visit Hin. vm_compute in Hin.
    apply elem_of_cons in Hin as [->|Hin]; [by eexists|].
    apply list_elem_of_singleton in Hin as ->. by eexists.
  - intros name main mp slice Hin. vm_compute in Hin.
    apply list_elem_of_singleton in Hin. injection Hin as -> -> -> ->.
    eexists _, _. repeat split.
  - by_decide.
  - by_decide.
Qed.


(** ** CheckpointCodec (b): bucket space *)

Lemma mapM_cons_inv {A B} (f : A -> result B) x xs ys :
  mapM f (x :: xs) = Ok ys ->
  exists y ys', f x = Ok y /\ mapM f xs = Ok ys' /\ ys = y :: ys'.
Proof.
  simpl. intros H. apply bind_Ok_inv in H as (y & Hy & H).
  apply bind_Ok_inv in H as (ys' & Hys & [= <-]). by exists y, ys'.
Qed.

(** A shard that meets no parameter's range gets an empty [param_map]. *)
Lemma mapper_no_intersection pim gs ge bucket_offset :
  (forall p ws we b, (p, (ws, we, b)) ∈ pim -> ~ Z.max ws gs < Z.min we ge) ->
  _build_model_gbuf_param_range_map pim (mkRange gs ge) bucket_offset = [].
Proof.
  unfold _build_model_gbuf_param_range_map.
  intros Hno.
  match goal with
  | |- foldl ?f [] pim = [] =>
      cut (forall acc, foldl f acc pim = acc); [by intros Hc; apply Hc|]
  end.
  induction pim as [|[p [[ws we] b]] pim IH]; intros acc; simpl; [done|].
  rewrite decide_False.
  - apply IH. intros q ws' we' b' Hq. apply (Hno q ws' we' b').
    by apply list_elem_of_further.
  - specialize (Hno p ws we b (list_elem_of_here _ _)). lia.
Qed.

(** C10. The bucket-space encoder requires every bucket to hold a locally
    owned parameter: when the shard of the first bucket meets no parameter's
    range, the state is collected and the bucket's size divides evenly, yet
    the encoder stops on its [empty bucket encountered] assertion instead of
    emitting a bucket of padding. *)
Theorem C10_empty_bucket (self : DistOpt.t) (store : Store)
    dt rest more pim gs ge bucket_offset buffer bucket :
  DistOpt.gbuf_ranges self
    = [(dt, {| param_map :=
                 _build_model_gbuf_param_range_map pim (mkRange gs ge)
                   bucket_offset |} :: rest)] :: more ->
  (forall p ws we b, (p, (ws, we, b)) ∈ pim -> ~ Z.max ws gs < Z.min we ge) ->
  (exists state, get_parameter_state_fs_bucket_space self = Ok state) ->
  DistOpt.buffers self !! 0%nat = Some buffer ->
  buckets buffer !! 0%nat = Some bucket ->
  DistOpt.data_parallel_world_size self <> 0 ->
  grad_data_numel bucket `mod` DistOpt.data_parallel_world_size self = 0 ->
  sharded_param_state_fs_bucket_space self store
    = Raise (AssertionError empty_bucket_msg).
Proof.
  intros Hranges Hno [state Hstate] Hbuf Hbucket HW Hmod.
  rewrite mapper_no_intersection in Hranges by done.
  unfold sharded_param_state_fs_bucket_space.
  rewrite Hstate. simpl.
  unfold get_parameter_state_fs_bucket_space in Hstate.
  apply bind_Ok_inv in Hstate as (gbufs & Hg & [= <-]).
  rewrite Hranges in Hg |- *. unfold enumerate in Hg |- *.
  rewrite imap_cons in Hg |- *.
  apply mapM_cons_inv in Hg as (y & ys & Hy & _ & ->).
  simpl in Hy.
  apply bind_Ok_inv in Hy as (dtype_state & Hy & [= <-]).
  apply bind_Ok_inv in Hy as (y1 & Hy & [= <-]).
  apply bind_Ok_inv in Hy as (buckets_state & Hy & [= <-]).
  apply bind_Ok_inv in Hy as (bs & _ & [= <-]).
  simpl. rewrite Hbuf. simpl. rewrite Hbucket. simpl.
  rewrite decide_False by done. simpl.
  rewrite bool_decide_eq_true_2 by done. simpl. done.
Qed.

Lemma C10_empty_bucket_witness :
  _build_gbuf_range_map padding_only_buffer
    = Ok [((float32, float32), [{| param_map := [] |}])]
  /\ sharded_param_state_fs_bucket_space padding_only_self model_space_store
     = Raise (AssertionError empty_bucket_msg).
Proof.
  split; [reflexivity|].
  apply (C10_empty_bucket padding_only_self model_space_store
           (float32, float32) [] [] [(0%nat, (0, 10, 0))] 64 128 0
           padding_only_buffer
           {| offset := 0; grad_data_numel := 128; numel_unpadded := 10 |}).
  - reflexivity.
  - intros p ws we b Hp. apply list_elem_of_singleton in Hp.
    injection Hp as -> -> -> ->. lia.
  - eexists. reflexivity.
  - reflexivity.
  - reflexivity.
  - simpl. lia.
  - reflexivity.
Defined.

(** C3 at a shard whose first owned parameter starts after the shard's
    start: the rank owns [[1,3)] of its shard of length 3, the encoder emits
    that one block and no padding before it, and the emitted blocks do not
    tile [[0,3)]. *)
Theorem C3_leading_gap_uncovered :
  DistOpt.gbuf_ranges leading_gap_self
    = [[((float32, float32),
         [{| param_map :=
               [(1%nat, {| gbuf_world := mkRange 64 66;
                           gbuf_world_in_bucket := mkRange 64 66;
                           gbuf_local := mkRange 1 3;
                           param := mkRange 0 2 |})] |}])]]
  /\ (fun r => emitted_blocks r.1)
       <$> sharded_param_state_fs_bucket_space leading_gap_self leading_gap_store
     = Ok [[Some (1, 3, false)]]
  /\ ~ tiles 0 3 [(1, 3, false)].
Proof.
  split; [vm_compute; reflexivity|]. split; [vm_compute; reflexivity|].
  simpl. intros [H _]. discriminate H.
Qed.

(** ** The resharder *)

Lemma foldM_cons_raise {A B} (f : B -> A -> result B) (x : A) (xs : list A)
    (s : B) (e : exn) :
  f s x = Raise e -> foldM f (x :: xs) s = Raise e.
Proof. intros H. simpl. by rewrite H. Qed.

Lemma py_min_Ok_cons (l : list Z) (m : Z) :
  py_min l = Ok m -> exists x l', l = x :: l'.
Proof. destruct l as [|x l']; [done|]. intros _. by exists x, l'. Qed.

Lemma py_range_pos_cons (n : Z) :
  0 < n -> exists l, py_range n = 0 :: l.
Proof.
  intros Hn. unfold py_range.
  destruct (Z.to_nat n) as [|k] eqn:Hk; [lia|].
  exists (Z.of_nat <$> seq 1 k). reflexivity.
Qed.

(** The body of the loop over the fp8 buffers never completes: whenever the
    two buffers have a parameter index between them, the first pass of the
    loop of lines 1613-1614 reads the unbound [fp8_flag]; with none,
    [min(param_indices)] has already raised. *)
Lemma split_one_fp8_buffer_raises self state_dict new_state_dict fp8_gbuf_idx :
  exists e,
    split_one_fp8_buffer self state_dict new_state_dict fp8_gbuf_idx = Raise e.
Proof.
  destruct (split_one_fp8_buffer self state_dict new_state_dict fp8_gbuf_idx)
    as [r|e] eqn:Hrun; [exfalso|by exists e].
  unfold split_one_fp8_buffer in Hrun.
  repeat (apply bind_Ok_inv in Hrun as (? & ? & Hrun)).
  match goal with H : py_min ?l = Ok _ |- _ =>
    destruct (py_min_Ok_cons _ _ H) as (i0 & l' & Hl) end.
  match goal with H : foldM _ (py_range ?n) [] = Ok _ |- _ =>
    destruct (py_range_pos_cons n) as (l & Hr);
      [rewrite Hl; simpl length; lia|rewrite Hr in H; simpl in H; done] end.
Qed.

(** The resharder never hands back a split state dict: when it returns, it
    is through one of the two early [return]s, with the state dict as it
    was. *)
Lemma split_returns_unchanged self state_dict r
    (Hrun : split_state_dict_if_needed self state_dict = Ok r) :
  r = state_dict.
Proof.
  unfold split_state_dict_if_needed in Hrun.
  apply bind_Ok_inv in Hrun as (fp8_gbuf_indices & _ & Hrun).
  destruct (decide (length fp8_gbuf_indices = 0%nat)) as [|Hne];
    [by injection Hrun|].
  apply bind_Ok_inv in Hrun as ([dtype_to_gbuf_idx|] & _ & Hrun);
    [|by injection Hrun].
  apply bind_Ok_inv in Hrun as (buckets_coalesced & _ & Hrun).
  apply bind_Ok_inv in Hrun as (new_state_dict & _ & Hrun).
  destruct fp8_gbuf_indices as [|fp8_gbuf_idx rest]; [done|].
  destruct (split_one_fp8_buffer_raises self state_dict new_state_dict
              fp8_gbuf_idx) as (e & He).
  by rewrite (foldM_cons_raise _ _ _ _ _ He) in Hrun.
Qed.

Lemma split_returns_unchanged_witness :
  split_state_dict_if_needed padding_only_self fp8_split_checkpoint
    = Ok fp8_split_checkpoint
  /\ fp8_split_checkpoint = fp8_split_checkpoint.
Proof.
  split; [reflexivity|].
  apply (split_returns_unchanged padding_only_self fp8_split_checkpoint).
  reflexivity.
Defined.

(** C5 (dtype-split round trip): on the checkpoint of a layer saved without
    fp8 parameter gather, loaded by an optimizer that keeps the fp8 weight and
    the bfloat16 bias in separate buffers, [split_state_dict_if_needed] does
    not split anything: it raises the [UnboundLocalError] of line 1614, where
    [fp8_flag] is read for [fp8_flags]. Neither destination is produced, so
    there is nothing to merge back and no unpadded sizes to add up. *)
Theorem C5_split_raises_unbound_local :
  split_state_dict_if_needed fp8_split_self fp8_split_checkpoint
    = Raise (UnboundLocalError "fp8_flag").
Proof. vm_compute. reflexivity. Qed.

(** ** Gather/scatter restore *)

Lemma py_slice_length {A} (l : list A) (i j : Z) :
  0 <= i <= j -> j <= Z.of_nat (length l) ->
  length (py_slice l i j) = Z.to_nat (j - i).
Proof.
  intros Hij Hj. unfold py_slice, slice_index.
  repeat destruct (decide _); try lia.
  rewrite length_take, length_drop. lia.
Qed.

Lemma shard_of_rank_length (W : Z) (r : nat) (t : list scalar) (n : Z) :
  0 < W -> Z.of_nat (length t) = W * n -> Z.of_nat r < W ->
  length (shard_of_rank W r t) = Z.to_nat n.
Proof.
  intros HW Ht Hr. unfold shard_of_rank.
  replace (Z.of_nat (length t) `div` W) with n by (rewrite Ht, Z.mul_comm, Z.div_mul; lia).
  assert (0 <= n) by nia.
  rewrite py_slice_length; [f_equal; lia|nia|nia].
Qed.

Lemma scattered_lookup (W : Z) (t : list scalar) (r : nat) :
  Z.of_nat r < W -> scattered W t !! r = Some (shard_of_rank W r t).
Proof.
  intros Hr. unfold scattered. rewrite list_lookup_fmap.
  rewrite lookup_seq_lt by lia. reflexivity.
Qed.

Lemma scattered_length (W : Z) (t : list scalar) :
  length (scattered W t) = Z.to_nat W.
Proof. unfold scattered. by rewrite length_fmap, length_seq. Qed.

Lemma offset_of_bucket_S (bucket_list : list Bucket) (bucket_idx : nat) bucket :
  bucket_list !! bucket_idx = Some bucket ->
  offset_of_bucket bucket_list (S bucket_idx)
  = offset_of_bucket bucket_list bucket_idx + numel_unpadded bucket.
Proof.
  intros Hb. unfold offset_of_bucket. rewrite (take_S_r _ _ _ Hb).
  generalize (take bucket_idx bucket_list) as l.
  induction l as [|b l IH]; simpl; [lia|]. rewrite IH. lia.
Qed.

Lemma offset_of_bucket_bounds (bucket_list : list Bucket) (bucket_idx : nat) :
  (forall bucket, bucket ∈ bucket_list -> 0 <= numel_unpadded bucket) ->
  0 <= offset_of_bucket bucket_list bucket_idx
    <= offset_of_bucket bucket_list (length bucket_list).
Proof.
  unfold offset_of_bucket. rewrite firstn_all.
  revert bucket_idx. induction bucket_list as [|b l IH]; intros i Hpos.
  - destruct i; simpl; lia.
  - destruct i as [|i]; simpl.
    + assert (0 <= foldr (fun bucket o => numel_unpadded bucket + o) 0 l).
      { specialize (IH 0%nat). simpl in IH. apply IH.
        intros b' Hb'. apply Hpos. by apply list_elem_of_further. }
      pose proof (Hpos b (list_elem_of_here _ _)). lia.
    + assert (Hl : forall b', b' ∈ l -> 0 <= numel_unpadded b').
      { intros b' Hb'. apply Hpos. by apply list_elem_of_further. }
      specialize (IH i Hl). pose proof (Hpos b (list_elem_of_here _ _)).
      simpl in *. lia.
Qed.

Lemma padded_bucket_length bucket_list world_tensors bucket_idx bucket :
  bucket_list !! bucket_idx = Some bucket ->
  0 <= offset_of_bucket bucket_list bucket_idx ->
  0 <= numel_unpadded bucket <= grad_data_numel bucket ->
  offset_of_bucket bucket_list bucket_idx + numel_unpadded bucket
    <= Z.of_nat (length world_tensors) ->
  Z.of_nat (length (padded_bucket bucket_list world_tensors bucket_idx))
  = grad_data_numel bucket.
Proof.
  intros Hb Ho Hu Hw. unfold padded_bucket. rewrite Hb.
  rewrite length_app, length_replicate, py_slice_length by lia. lia.
Qed.

Lemma div_exact_pos (a W : Z) :
  0 < W -> a `mod` W = 0 -> a = W * (a `div` W).
Proof. intros HW Hm. rewrite (Z.div_mod a W) at 1 by lia. lia. Qed.

(** What rank 0 scatters for a bucket: the [W] chunks of the bucket's part of
    the world tensor, padded at its tail. *)
Lemma send_tensors_of_ok state_dict gbuf_idx dtype key bucket_list bucket_idx
    bucket world_tensors W :
  0 < W ->
  bucket_list !! bucket_idx = Some bucket ->
  sd_entry state_dict gbuf_idx dtype key = Ok (WTensor world_tensors) ->
  grad_data_numel bucket `mod` W = 0 ->
  0 < numel_unpadded bucket <= grad_data_numel bucket ->
  0 <= offset_of_bucket bucket_list bucket_idx ->
  offset_of_bucket bucket_list bucket_idx + numel_unpadded bucket
    <= Z.of_nat (length (values world_tensors)) ->
  send_tensors_of state_dict gbuf_idx dtype key
    (offset_of_bucket bucket_list bucket_idx) (grad_data_numel bucket)
    (grad_data_numel bucket `div` W) (numel_unpadded bucket)
  = Ok (scattered W (padded_bucket bucket_list (values world_tensors) bucket_idx),
        offset_of_bucket bucket_list (S bucket_idx)).
Proof.
  intros HW Hb Hentry Hmod Hu Ho Hw.
  pose proof (div_exact_pos _ _ HW Hmod) as Hnumel.
  set (L := grad_data_numel bucket `div` W) in *.
  assert (0 < L) by nia.
  pose proof (padded_bucket_length _ (values world_tensors) _ _ Hb Ho
                ltac:(lia) Hw) as Hlen.
  unfold send_tensors_of. rewrite Hentry. simpl.
  assert (Hpad : torch_pad_right
            (py_slice (values world_tensors)
               (offset_of_bucket bucket_list bucket_idx)
               (offset_of_bucket bucket_list bucket_idx + numel_unpadded bucket))
            (grad_data_numel bucket - numel_unpadded bucket)
          = padded_bucket bucket_list (values world_tensors) bucket_idx).
  { unfold torch_pad_right, padded_bucket. rewrite Hb.
    by rewrite decide_True by lia. }
  rewrite Hpad, !bool_decide_true by lia. simpl.
  unfold py_range3. rewrite decide_False, decide_True by lia. simpl.
  rewrite (offset_of_bucket_S _ _ _ Hb). do 2 f_equal.
  replace ((grad_data_numel bucket - 0 + L - 1) `div` L) with W.
  2:{ apply Z.div_unique with (L - 1); lia. }
  unfold scattered, py_range. rewrite <- !list_fmap_compose.
  apply list_fmap_ext. intros i r _. simpl.
  unfold shard_of_rank. rewrite Hlen. fold L. f_equal; lia.
Qed.

Lemma written_nil store : written [] store store.
Proof. split; [by intros t v ?%elem_of_nil|done]. Qed.

Lemma written_app ws1 ws2 store store1 store2 :
  NoDup (ws1 ++ ws2).*1 ->
  written ws1 store store1 -> written ws2 store1 store2 ->
  written (ws1 ++ ws2) store store2.
Proof.
  rewrite fmap_app. intros Hnd [Hv1 Hf1] [Hv2 Hf2].
  apply NoDup_app in Hnd as (_ & Hdisj & _). split.
  - intros t v [Hin|Hin]%elem_of_app; [|by apply Hv2].
    rewrite Hf2; [by apply Hv1|].
    apply Hdisj. by apply (list_elem_of_fmap_2 fst _ (t, v)).
  - intros t Hnot. rewrite fmap_app, not_elem_of_app in Hnot. destruct Hnot.
    rewrite Hf2 by done. by apply Hf1.
Qed.

Lemma fits_app_l ws1 ws2 store : fits (ws1 ++ ws2) store -> fits ws1 store.
Proof. intros Hfit t v Hin. apply Hfit, elem_of_app. by left. Qed.

Lemma fits_app_r ws1 ws2 store store1 :
  NoDup (ws1 ++ ws2).*1 -> fits (ws1 ++ ws2) store ->
  written ws1 store store1 -> fits ws2 store1.
Proof.
  rewrite fmap_app. intros Hnd Hfit [_ Hf1] t v Hin.
  apply NoDup_app in Hnd as (_ & Hdisj & _).
  rewrite Hf1.
  - apply Hfit, elem_of_app. by right.
  - intros Hin1. apply (Hdisj _ Hin1).
    by apply (list_elem_of_fmap_2 fst _ (t, v)).
Qed.

Lemma runs_nil r : runs r Ok [] [].
Proof.
  intros store comm rest Hpending _. exists store, comm.
  split; [done|]. rewrite app_nil_r.
  destruct (decide (r = 0%nat)) as [|Hr].
  - split_and!; [done..|apply written_nil].
  - split_and!; [done|by rewrite (Hpending Hr)|apply written_nil].
Qed.

Lemma runs_seq r f g ps1 ps2 ws1 ws2 :
  NoDup (ws1 ++ ws2).*1 ->
  runs r f ps1 ws1 -> runs r g ps2 ws2 ->
  runs r (fun st => st' ← f st; g st') (ps1 ++ ps2) (ws1 ++ ws2).
Proof.
  intros Hnd Hf Hg store comm rest Hpending Hfit.
  destruct (Hf store comm (ps2 ++ rest)) as (store1 & comm1 & -> & Hs1 & Hp1 & Hw1).
  { intros Hr. rewrite (Hpending Hr). by rewrite <- app_assoc. }
  { by eapply fits_app_l. }
  destruct (Hg store1 comm1 rest) as (store2 & comm2 & Hrun & Hs2 & Hp2 & Hw2).
  { intros Hr. rewrite Hp1. by rewrite decide_False. }
  { by eapply fits_app_r. }
  exists store2, comm2. simpl. split; [done|].
  rewrite Hs2, Hp2, Hs1, Hp1.
  destruct (decide (r = 0%nat)); rewrite ?app_assoc;
    repeat split; try done; by eapply written_app.
Qed.

Lemma runs_foldM {A} r (f : Store * Comm -> A -> result (Store * Comm))
    (P : A -> list (list (list scalar)))
    (Wr : A -> list (tensor_id * list scalar)) (xs : list A) :
  NoDup (xs ≫= Wr).*1 ->
  (forall x, x ∈ xs -> runs r (fun st => f st x) (P x) (Wr x)) ->
  runs r (foldM f xs) (xs ≫= P) (xs ≫= Wr).
Proof.
  induction xs as [|x xs IH]; intros Hnd Hstep.
  - apply runs_nil.
  - change (runs r (fun st => st' ← f st x; foldM f xs st')
                 (P x ++ (xs ≫= P)) (Wr x ++ (xs ≫= Wr))).
    apply runs_seq; [done|apply Hstep, list_elem_of_here|].
    apply IH.
    + change ((x :: xs) ≫= Wr) with (Wr x ++ (xs ≫= Wr)) in Hnd.
      rewrite fmap_app in Hnd. by apply NoDup_app in Hnd as (_ & _ & ?).
    + intros y Hy. apply Hstep. by apply list_elem_of_further.
Qed.

Lemma runs_ext r f g ps ws :
  (forall st, f st = g st) -> runs r f ps ws -> runs r g ps ws.
Proof.
  intros Hfg Hf store comm rest Hp Hfit.
  destruct (Hf store comm rest Hp Hfit) as (store' & comm' & Hrun & ?).
  exists store', comm'. by rewrite <- Hfg.
Qed.

Lemma copy__fits store dst src :
  length (values (tensor_of store dst)) = length src ->
  exists store',
    copy_ store dst src = Ok store'
    /\ values (tensor_of store' dst) = src
    /\ (forall t, t <> dst -> tensor_of store' t = tensor_of store t).
Proof.
  intros Hlen. unfold copy_. rewrite decide_True by done.
  eexists. split; [done|]. simpl. split.
  - by rewrite fn_lookup_insert.
  - intros t Hne. by rewrite fn_lookup_insert_ne.
Qed.

(** The copy loop of a bucket writes, for every parameter of the bucket's
    [param_map], the slice of the received chunk at its [gbuf_local] range. *)
Lemma copy_local_shards_ok self key recv_tensor gbuf_range_map store :
  let ws :=
    (fun item : param_id * ParamRanges =>
       (target_id self key item.1,
        py_slice recv_tensor (start (gbuf_local item.2))
                 (end_ (gbuf_local item.2))))
      <$> param_map gbuf_range_map in
  (forall item, item ∈ param_map gbuf_range_map ->
     exists t, tensor_to_copy_into self key item.1 = Ok t) ->
  NoDup ws.*1 -> fits ws store ->
  exists store',
    copy_local_shards self key recv_tensor gbuf_range_map store = Ok store'
    /\ written ws store store'.
Proof.
  cbv zeta. unfold copy_local_shards.
  generalize (param_map gbuf_range_map) as items.
  intros items. revert store.
  induction items as [|[p prm] items IH]; intros store Hok Hnd Hfit.
  - exists store. split; [done|apply written_nil].
  - rewrite fmap_cons in *. simpl in Hnd, Hfit |- *.
    destruct (Hok (p, prm) (list_elem_of_here _ _)) as (t & Ht).
    simpl in Ht.
    assert (Htid : target_id self key p = t) by (unfold target_id; by rewrite Ht).
    rewrite Htid in *. rewrite Ht. simpl.
    destruct (copy__fits store t
                (py_slice recv_tensor (start (gbuf_local prm))
                          (end_ (gbuf_local prm))))
      as (store1 & -> & Hv & Hframe).
    { apply Hfit, list_elem_of_here. }
    simpl. apply NoDup_cons in Hnd as [Hnotin Hnd].
    destruct (IH store1) as (store' & Hrun & Hv' & Hframe').
    + intros item Hitem. apply Hok. by apply list_elem_of_further.
    + done.
    + intros t' v' Hin. rewrite Hframe.
      * apply Hfit. by apply list_elem_of_further.
      * intros ->. apply Hnotin.
        by apply (list_elem_of_fmap_2 fst _ (t, v')).
    + exists store'. split; [done|]. split.
      * intros t' v' [[= -> ->]|Hin]%elem_of_cons; [|by apply Hv'].
        by rewrite Hframe'.
      * intros t' Hnot. apply not_elem_of_cons in Hnot as [Hne Hnot].
        rewrite Hframe' by done. by apply Hframe.
Qed.

Arguments scatter : simpl never.
Arguments send_tensors_of : simpl never.
Arguments copy_local_shards : simpl never.
Arguments load_bucket : simpl never.
Arguments load_key : simpl never.
Arguments load_dtype : simpl never.
Arguments check_numel_unpadded : simpl never.
Arguments split_state_dict_if_needed : simpl never.

Section one_rank.
Variables (W : Z) (layout : list (list Bucket)) (state_dict : state_dict_t).
Variables (self : DistOpt.t) (rank_state_dict : state_dict_t) (r : nat).
Hypothesis HW : 0 < W.
Hypothesis Hrank : DistOpt.data_parallel_rank self = r.
Hypothesis Hin_group : Z.of_nat r < W.
Hypothesis Hworld_size : DistOpt.data_parallel_world_size self = W.
Hypothesis Hlayout : bucket_layout self = layout.
Hypothesis Hroot : r = 0%nat -> rank_state_dict = state_dict.
Hypothesis Hbuckets : forall bucket_list bucket,
  bucket_list ∈ layout -> bucket ∈ bucket_list ->
  grad_data_numel bucket `mod` W = 0
  /\ 0 < numel_unpadded bucket <= grad_data_numel bucket.

Lemma scatter_send recv_tensor t comm :
  Z.of_nat (length t) = W * Z.of_nat (length recv_tensor) ->
  scatter r W recv_tensor (Some (scattered W t)) comm
  = Ok (shard_of_rank W r t,
        {| sent := sent comm ++ [scattered W t]; pending := pending comm |}).
Proof.
  intros Hlen. unfold scatter. rewrite bool_decide_true.
  - by rewrite scattered_lookup.
  - split; [rewrite scattered_length; lia|].
    unfold scattered. apply Forall_fmap, Forall_forall. intros i Hi.
    apply elem_of_seq in Hi. simpl.
    rewrite (shard_of_rank_length W i t (Z.of_nat (length recv_tensor)));
      [lia|done|done|lia].
Qed.

Lemma scatter_receive recv_tensor t comm rest :
  Z.of_nat (length t) = W * Z.of_nat (length recv_tensor) ->
  pending comm = scattered W t :: rest ->
  scatter r W recv_tensor None comm
  = Ok (shard_of_rank W r t, {| sent := sent comm; pending := rest |}).
Proof.
  intros Hlen Hpending. unfold scatter. rewrite Hpending.
  rewrite scattered_lookup by done. simpl.
  rewrite decide_True; [done|].
  rewrite (shard_of_rank_length W r t (Z.of_nat (length recv_tensor)));
    [lia|done|done|done].
Qed.

(** One pass of the bucket loop: rank 0 sends the chunks of the padded
    bucket tensor and moves the offset to the next bucket, every rank
    receives its chunk and copies the slices of its parameters. *)
Lemma load_bucket_ok gbuf_idx dtype key bucket_idx gbuf_range_map
    bucket_list world_tensors offset_in_world_tensors store comm rest :
  let job := (gbuf_idx, dtype, key, bucket_idx, gbuf_range_map) in
  layout !! gbuf_idx = Some bucket_list ->
  (bucket_idx < length bucket_list)%nat ->
  sd_entry state_dict gbuf_idx dtype key = Ok (WTensor world_tensors) ->
  offset_of_bucket bucket_list (length bucket_list)
    <= Z.of_nat (length (values world_tensors)) ->
  (forall item, item ∈ param_map gbuf_range_map ->
     exists t, tensor_to_copy_into self key item.1 = Ok t) ->
  NoDup (job_writes state_dict layout W self job).*1 ->
  (r = 0%nat ->
   offset_in_world_tensors = offset_of_bucket bucket_list bucket_idx) ->
  (r <> 0%nat -> pending comm = job_payload state_dict layout W job :: rest) ->
  fits (job_writes state_dict layout W self job) store ->
  exists store' comm',
    load_bucket self rank_state_dict gbuf_idx dtype key
      (offset_in_world_tensors, (store, comm)) (bucket_idx, gbuf_range_map)
    = Ok (if decide (r = 0%nat)
          then offset_of_bucket bucket_list (S bucket_idx)
          else offset_in_world_tensors, (store', comm'))
    /\ sent comm'
       = (if decide (r = 0%nat)
          then sent comm ++ [job_payload state_dict layout W job]
          else sent comm)
    /\ pending comm' = (if decide (r = 0%nat) then pending comm else rest)
    /\ written (job_writes state_dict layout W self job) store store'.
Proof.
  intros job Hbl Hidx Hentry Hworld Htargets Hnd Hoff Hpending Hfit.
  subst job.
  set (job := (gbuf_idx, dtype, key, bucket_idx, gbuf_range_map)) in *.
  assert (Hjob : job = (gbuf_idx, dtype, key, bucket_idx, gbuf_range_map))
    by done.
  clearbody job.
  destruct (lookup_lt_is_Some_2 _ _ Hidx) as (bucket & Hbucket).
  assert (Hbl_in : bucket_list ∈ layout) by by eapply list_elem_of_lookup_2.
  assert (Hpos : forall b, b ∈ bucket_list -> 0 <= numel_unpadded b).
  { intros b Hb. destruct (Hbuckets _ _ Hbl_in Hb). lia. }
  destruct (Hbuckets _ _ Hbl_in (list_elem_of_lookup_2 _ _ _ Hbucket))
    as (Hmod & Hunpadded).
  pose proof (offset_of_bucket_bounds bucket_list bucket_idx Hpos) as Ho.
  pose proof (offset_of_bucket_bounds bucket_list (S bucket_idx) Hpos) as Ho'.
  rewrite (offset_of_bucket_S _ _ _ Hbucket) in Ho'.
  pose proof (div_exact_pos _ _ HW Hmod) as Hnumel.
  set (L := grad_data_numel bucket `div` W) in *.
  assert (0 < L) by nia.
  set (t := padded_bucket bucket_list (values world_tensors) bucket_idx).
  assert (Ht : Z.of_nat (length t) = W * Z.of_nat (length (replicate (Z.to_nat L) 0))).
  { rewrite length_replicate. subst t.
    rewrite (padded_bucket_length _ _ _ bucket) by (done || lia). lia. }
  assert (Hjob_tensor : job_tensor state_dict layout (job_call job) = t).
  { subst job t. simpl. rewrite Hbl. simpl.
    unfold world_tensor_of. by rewrite Hentry. }
  assert (Hpayload : job_payload state_dict layout W job = scattered W t).
  { unfold job_payload. by rewrite Hjob_tensor. }
  unfold bucket_layout in Hlayout. rewrite <- Hlayout in Hbl.
  rewrite list_lookup_fmap in Hbl.
  destruct (DistOpt.buffers self !! gbuf_idx) as [buffer|] eqn:Hbuffer;
    [|done].
  injection Hbl as Hbl.
  destruct (copy_local_shards_ok self key (shard_of_rank W r t)
              gbuf_range_map store) as (store' & Hcopy & Hwritten).
  { done. }
  { revert Hnd. unfold job_writes. rewrite Hjob_tensor, Hrank, Hjob. done. }
  { revert Hfit. unfold job_writes. rewrite Hjob_tensor, Hrank, Hjob. done. }
  assert (Hwritten' : written (job_writes state_dict layout W self job)
                              store store').
  { revert Hwritten. unfold job_writes. rewrite Hjob_tensor, Hrank, Hjob. done. }
  unfold load_bucket. rewrite Hbuffer. simpl. rewrite Hbl, Hbucket. simpl.
  rewrite Hworld_size, Hrank. fold L.
  destruct (decide (W = 0)) as [|_]; [lia|]. simpl.
  rewrite (bool_decide_true (_ `mod` _ = 0)) by done. simpl.
  rewrite (bool_decide_true (_ <= _)) by lia. simpl.
  unfold torch_zeros. destruct (decide (L < 0)) as [|_]; [lia|]. simpl.
  destruct (decide (r = 0%nat)) as [Hr0|Hr0].
  - rewrite (Hroot Hr0), (Hoff Hr0).
    rewrite (send_tensors_of_ok _ _ _ _ _ _ bucket world_tensors W)
      by (done || lia).
    simpl. fold t. rewrite scatter_send by done. simpl.
    rewrite Hcopy. simpl.
    eexists _, _. split; [done|]. simpl. by rewrite Hpayload.
  - simpl. rewrite (scatter_receive _ t comm rest);
      [|done|by rewrite (Hpending Hr0), Hpayload].
    simpl. rewrite Hcopy. simpl.
    eexists _, _. split; [done|]. done.
Qed.
End one_rank.

Arguments job_writes : simpl never.
Arguments job_payload : simpl never.

Lemma enumerate_snoc {A} (xs : list A) (x : A) :
  enumerate (xs ++ [x]) = enumerate xs ++ [(length xs, x)].
Proof. unfold enumerate. rewrite imap_app. simpl. by rewrite Nat.add_0_r. Qed.

Lemma bucket_jobs_snoc gbuf_idx dtype key ms m :
  bucket_jobs gbuf_idx dtype key (ms ++ [m])
  = bucket_jobs gbuf_idx dtype key ms ++ [(gbuf_idx, dtype, key, length ms, m)].
Proof. unfold bucket_jobs. by rewrite enumerate_snoc, fmap_app. Qed.

Lemma list_fmap_bind_r {A B C} (f : B -> C) (g : A -> list B) (xs : list A) :
  f <$> (xs ≫= g) = xs ≫= (fun x => f <$> g x).
Proof.
  induction xs as [|x xs IH]; [done|].
  change ((x :: xs) ≫= g) with (g x ++ (xs ≫= g)).
  rewrite fmap_app, IH. done.
Qed.

Lemma list_bind_bind {A B C} (f : B -> list C) (g : A -> list B) (xs : list A) :
  (xs ≫= g) ≫= f = xs ≫= (fun x => g x ≫= f).
Proof.
  induction xs as [|x xs IH]; [done|].
  change ((x :: xs) ≫= g) with (g x ++ (xs ≫= g)).
  rewrite bind_app, IH. done.
Qed.

Lemma NoDup_bind_elem {A B} (f : A -> list B) (xs : list A) (x : A) :
  x ∈ xs -> NoDup (xs ≫= f) -> NoDup (f x).
Proof.
  intros (pre & post & ->)%list_elem_of_split. rewrite bind_app.
  intros (_ & _ & Hnd)%NoDup_app.
  change ((x :: post) ≫= f) with (f x ++ (post ≫= f)) in Hnd.
  by apply NoDup_app in Hnd as (? & _ & _).
Qed.
Section rank_loops.
Variables (W : Z) (layout : list (list Bucket)) (state_dict : state_dict_t).
Variables (self : DistOpt.t) (rank_state_dict : state_dict_t) (r : nat).
Hypothesis HW : 0 < W.
Hypothesis Hrank : DistOpt.data_parallel_rank self = r.
Hypothesis Hin_group : Z.of_nat r < W.
Hypothesis Hworld_size : DistOpt.data_parallel_world_size self = W.
Hypothesis Hlayout : bucket_layout self = layout.
Hypothesis Hroot : r = 0%nat -> rank_state_dict = state_dict.
Hypothesis Hbuckets : forall bucket_list bucket,
  bucket_list ∈ layout -> bucket ∈ bucket_list ->
  grad_data_numel bucket `mod` W = 0
  /\ 0 < numel_unpadded bucket <= grad_data_numel bucket.

(** The bucket loop of a key: the offset it leaves on rank 0 is that of the
    bucket after the last. *)
Lemma load_buckets_ok gbuf_idx dtype key ms :
  (forall job, job ∈ bucket_jobs gbuf_idx dtype key ms -> job_feasible state_dict layout self job) ->
  NoDup (bucket_jobs gbuf_idx dtype key ms ≫= job_writes state_dict layout W self).*1 ->
  forall store comm rest,
    (r <> 0%nat ->
     pending comm = (job_payload state_dict layout W <$> bucket_jobs gbuf_idx dtype key ms) ++ rest) ->
    fits (bucket_jobs gbuf_idx dtype key ms ≫= job_writes state_dict layout W self) store ->
    exists store' comm',
      foldM (load_bucket self rank_state_dict gbuf_idx dtype key)
            (enumerate ms) (0, (store, comm))
      = Ok (if decide (r = 0%nat)
            then offset_of_bucket (default [] (layout !! gbuf_idx)) (length ms)
            else 0, (store', comm'))
      /\ sent comm'
         = (if decide (r = 0%nat)
            then sent comm ++ (job_payload state_dict layout W <$> bucket_jobs gbuf_idx dtype key ms)
            else sent comm)
      /\ pending comm' = (if decide (r = 0%nat) then pending comm else rest)
      /\ written (bucket_jobs gbuf_idx dtype key ms ≫= job_writes state_dict layout W self) store store'.
Proof.
  induction ms as [|m ms IH] using rev_ind;
    intros Hfeasible Hnd store comm rest Hpending Hfit.
  - exists store, comm. simpl. rewrite app_nil_r.
    split; [by destruct (decide (r = 0%nat))|].
    destruct (decide (r = 0%nat)) as [|Hr];
      (split_and!; [done| |apply written_nil]); [done|].
    by rewrite (Hpending Hr).
  - rewrite bucket_jobs_snoc in Hfeasible, Hnd, Hpending, Hfit |- *.
    rewrite bind_app in Hnd, Hfit |- *. rewrite fmap_app in Hpending |- *.
    simpl in Hnd, Hfit, Hpending |- *. rewrite app_nil_r in Hnd, Hfit |- *.
    set (job := (gbuf_idx, dtype, key, length ms, m)) in *.
    assert (Hfeasible1 : forall j, j ∈ bucket_jobs gbuf_idx dtype key ms ->
                           job_feasible state_dict layout self j).
    { intros j Hj. apply Hfeasible, elem_of_app. by left. }
    assert (Hnd1 : NoDup (bucket_jobs gbuf_idx dtype key ms
                            ≫= job_writes state_dict layout W self).*1).
    { rewrite fmap_app in Hnd. by apply NoDup_app in Hnd as (? & _ & _). }
    destruct (IH Hfeasible1 Hnd1 store comm
                 (job_payload state_dict layout W job :: rest))
      as (store1 & comm1 & Hrun1 & Hs1 & Hp1 & Hw1).
    { intros Hr. rewrite (Hpending Hr). by rewrite <- app_assoc. }
    { by eapply fits_app_l. }
    destruct (Hfeasible job) as ((bucket_list & world & Hbl & Hidx & Hentry & Hw)
                                 & Htargets).
    { apply elem_of_app. right. apply list_elem_of_here. }
    simpl in Hbl, Hidx, Hentry, Htargets.
    destruct (load_bucket_ok W layout state_dict self rank_state_dict r HW
                Hrank Hin_group Hworld_size Hlayout Hroot Hbuckets
                gbuf_idx dtype key (length ms) m bucket_list world
                (if decide (r = 0%nat)
                 then offset_of_bucket (default [] (layout !! gbuf_idx)) (length ms)
                 else 0) store1 comm1 rest)
      as (store2 & comm2 & Hrun2 & Hs2 & Hp2 & Hw2); try done.
    { rewrite fmap_app in Hnd. by apply NoDup_app in Hnd as (_ & _ & ?). }
    { intros Hr. rewrite decide_True by done. by rewrite Hbl. }
    { intros Hr. rewrite Hp1. by rewrite decide_False. }
    { by eapply fits_app_r. }
    exists store2, comm2. rewrite enumerate_snoc, foldM_app, Hrun1. simpl.
    rewrite Hrun2. rewrite length_app. simpl. rewrite Nat.add_1_r.
    rewrite Hs2, Hp2, Hs1, Hp1, Hbl. simpl.
    destruct (decide (r = 0%nat)); rewrite <- ?app_assoc;
      (split_and!; [done..|by eapply written_app]).
Qed.

Lemma load_key_runs gbuf_idx dtype ms key :
  (forall job, job ∈ bucket_jobs gbuf_idx dtype key ms ->
     job_feasible state_dict layout self job) ->
  NoDup (bucket_jobs gbuf_idx dtype key ms
           ≫= job_writes state_dict layout W self).*1 ->
  runs r (fun st => load_key self rank_state_dict gbuf_idx dtype ms st key)
       (job_payload state_dict layout W <$> bucket_jobs gbuf_idx dtype key ms)
       (bucket_jobs gbuf_idx dtype key ms ≫= job_writes state_dict layout W self).
Proof.
  intros Hfeasible Hnd store comm rest Hpending Hfit.
  destruct (load_buckets_ok gbuf_idx dtype key ms Hfeasible Hnd store comm rest
              Hpending Hfit) as (store' & comm' & Hrun & Hpost).
  exists store', comm'. unfold load_key. rewrite Hrun. done.
Qed.

Lemma load_dtype_runs gbuf_idx dtype ms :
  (r = 0%nat -> check_numel_unpadded self state_dict gbuf_idx dtype = Ok tt) ->
  (forall job, job ∈ key_jobs gbuf_idx (dtype, ms) ->
     job_feasible state_dict layout self job) ->
  NoDup (key_jobs gbuf_idx (dtype, ms)
           ≫= job_writes state_dict layout W self).*1 ->
  runs r (fun st => load_dtype self rank_state_dict gbuf_idx st (dtype, ms))
       (job_payload state_dict layout W <$> key_jobs gbuf_idx (dtype, ms))
       (key_jobs gbuf_idx (dtype, ms) ≫= job_writes state_dict layout W self).
Proof.
  intros Hcheck Hfeasible Hnd. unfold key_jobs in *. cbn [fst snd] in *.
  rewrite list_fmap_bind_r. rewrite list_bind_bind in Hnd |- *.
  apply runs_ext with
    (foldM (load_key self rank_state_dict gbuf_idx dtype ms)
           ["param"; "exp_avg"; "exp_avg_sq"]).
  { intros st. unfold load_dtype. rewrite Hrank.
    destruct (decide (r = 0%nat)) as [Hr|Hr]; [|done].
    by rewrite (Hroot Hr), (Hcheck Hr). }
  apply (runs_foldM r (load_key self rank_state_dict gbuf_idx dtype ms)
           (fun key => job_payload state_dict layout W
                         <$> bucket_jobs gbuf_idx dtype key ms)
           (fun key => bucket_jobs gbuf_idx dtype key ms
                         ≫= job_writes state_dict layout W self)); [done|].
  intros key Hkey. apply load_key_runs.
  - intros job Hjob. apply Hfeasible, list_elem_of_bind. by exists key.
  - rewrite list_fmap_bind_r in Hnd.
    by apply (NoDup_bind_elem _ _ key Hkey) in Hnd.
Qed.

End rank_loops.

Lemma gbuf_dtypes_elem (self : DistOpt.t) gbuf_idx gbuf_range_maps dtype ms :
  (gbuf_idx, gbuf_range_maps) ∈ enumerate (DistOpt.gbuf_ranges self) ->
  (dtype, ms) ∈ (gbuf_range_maps : gbuf_range_map_t) ->
  (gbuf_idx, dtype) ∈ gbuf_dtypes self.
Proof.
  intros Hg Hd. unfold gbuf_dtypes. apply list_elem_of_bind.
  exists (gbuf_idx, gbuf_range_maps). split; [|done].
  by apply (list_elem_of_fmap_2
              (fun kv : dtype_pair * list GbufRange => (gbuf_idx, kv.1))
              _ (dtype, ms)).
Qed.

(** The restore as one rank runs it: rank 0 sends the payloads of its calls
    in the order of the loop nest, another rank receives them in that order,
    and each call's slices reach the rank's shard tensors. *)
Lemma load_rank_runs W layout state_dict self rank_state_dict r :
  0 < W ->
  DistOpt.data_parallel_rank self = r ->
  Z.of_nat r < W ->
  DistOpt.data_parallel_world_size self = W ->
  bucket_layout self = layout ->
  (r = 0%nat -> rank_state_dict = state_dict) ->
  (forall bucket_list bucket,
     bucket_list ∈ layout -> bucket ∈ bucket_list ->
     grad_data_numel bucket `mod` W = 0
     /\ 0 < numel_unpadded bucket <= grad_data_numel bucket) ->
  (r = 0%nat -> split_state_dict_if_needed self state_dict = Ok state_dict) ->
  (r = 0%nat -> forall gbuf_idx dtype,
     (gbuf_idx, dtype) ∈ gbuf_dtypes self ->
     check_numel_unpadded self state_dict gbuf_idx dtype = Ok tt) ->
  (forall job, job ∈ load_jobs self -> job_feasible state_dict layout self job) ->
  NoDup (load_jobs self ≫= job_writes state_dict layout W self).*1 ->
  runs r (load_parameter_state_from_dp_zero self rank_state_dict)
       (job_payload state_dict layout W <$> load_jobs self)
       (load_jobs self ≫= job_writes state_dict layout W self).
Proof.
  intros HW Hrank Hin_group Hworld_size Hlayout Hroot Hbuckets Hsplit Hcheck
         Hfeasible Hnd.
  apply runs_ext with
    (foldM (fun st (item : nat * gbuf_range_map_t) =>
              foldM (load_dtype self rank_state_dict item.1) item.2 st)
           (enumerate (DistOpt.gbuf_ranges self))).
  { intros st. unfold load_parameter_state_from_dp_zero. rewrite Hrank.
    destruct (decide (r = 0%nat)) as [Hr|Hr].
    - rewrite (Hroot Hr), (Hsplit Hr). simpl.
      apply foldM_ext. by intros s [g maps] _.
    - simpl. apply foldM_ext. by intros s [g maps] _. }
  unfold load_jobs in *. rewrite list_fmap_bind_r.
  rewrite list_bind_bind in Hnd |- *.
  apply (runs_foldM r
           (fun st (item : nat * gbuf_range_map_t) =>
              foldM (load_dtype self rank_state_dict item.1) item.2 st)
           (fun item => job_payload state_dict layout W <$> dtype_jobs item)
           (fun item => dtype_jobs item ≫= job_writes state_dict layout W self));
    [done|].
  intros [g maps] Hg. cbn [fst snd].
  assert (Hnd_g : NoDup (dtype_jobs (g, maps)
                           ≫= job_writes state_dict layout W self).*1).
  { rewrite list_fmap_bind_r in Hnd.
    by apply (NoDup_bind_elem _ _ (g, maps) Hg) in Hnd. }
  unfold dtype_jobs in *. cbn [fst snd] in *.
  rewrite list_fmap_bind_r. rewrite list_bind_bind in Hnd_g |- *.
  apply (runs_foldM r (load_dtype self rank_state_dict g)
           (fun item => job_payload state_dict layout W <$> key_jobs g item)
           (fun item => key_jobs g item ≫= job_writes state_dict layout W self));
    [done|].
  intros [d ms] Hd.
  apply (load_dtype_runs W layout state_dict self rank_state_dict r); try done.
  - intros Hr. apply (Hcheck Hr). by eapply gbuf_dtypes_elem.
  - intros job Hjob. apply Hfeasible, list_elem_of_bind.
    exists (g, maps). split; [|done].
    apply list_elem_of_bind. by exists (d, ms).
  - rewrite list_fmap_bind_r in Hnd_g.
    by apply (NoDup_bind_elem _ _ (d, ms) Hd) in Hnd_g.
Qed.

Lemma job_payload_call state_dict layout W (jobs : list load_job) :
  job_payload state_dict layout W <$> jobs
  = (fun call => scattered W (job_tensor state_dict layout call))
      <$> (job_call <$> jobs).
Proof. rewrite <- list_fmap_compose. by apply list_fmap_ext. Qed.

Lemma check_numel_unpadded_ok self state_dict gbuf_idx dtype buffer :
  DistOpt.buffers self !! gbuf_idx = Some buffer ->
  sd_entry state_dict gbuf_idx dtype "numel_unpadded"
    = Ok (WInt (buffer_numel_unpadded buffer)) ->
  check_numel_unpadded self state_dict gbuf_idx dtype = Ok tt.
Proof.
  intros Hbuffer Hentry. unfold check_numel_unpadded.
  rewrite Hbuffer. simpl. rewrite Hentry. simpl.
  by rewrite bool_decide_true.
Qed.

(** In a group that fits the checkpoint, every rank runs the restore: its
    calls are feasible and its shard tensors fit what they are to receive. *)
Lemma wf_rank_runs W layout calls ranks state_dict r self store
    rank_state_dict :
  dp_zero_wf W layout calls ranks state_dict ->
  ranks !! r = Some (self, store) ->
  (r = 0%nat -> rank_state_dict = state_dict) ->
  runs r (load_parameter_state_from_dp_zero self rank_state_dict)
       ((fun call => scattered W (job_tensor state_dict layout call)) <$> calls)
       (load_jobs self ≫= job_writes state_dict layout W self)
  /\ fits (load_jobs self ≫= job_writes state_dict layout W self) store.
Proof.
  intros [[HW Hlen] Hrank Hbuckets Hcalls Hsplit Hnumel Hshards Hdistinct]
         Hr Hroot.
  destruct (Hrank _ _ _ Hr) as (Hrk & Hws & Hlayout & Hjobs).
  assert (Hin_group : Z.of_nat r < W).
  { apply lookup_lt_Some in Hr. lia. }
  assert (Hcall : forall job, job ∈ load_jobs self -> job_call job ∈ calls).
  { intros job Hjob. rewrite <- Hjobs. by apply list_elem_of_fmap_2. }
  split.
  - rewrite <- Hjobs, <- job_payload_call.
    apply load_rank_runs; try done.
    + intros ->. by eapply Hsplit.
    + intros -> g d Hgd.
      destruct (Hnumel _ _ _ _ Hr Hgd) as (buffer & Hbuffer & Hentry).
      by eapply check_numel_unpadded_ok.
    + intros [[[[g d] key] b] m] Hjob. split.
      * apply (Hcalls g d key b), (Hcall _ Hjob).
      * intros [p prm] Hitem.
        destruct (Hshards _ _ _ _ _ _ _ _ _ _ Hr Hjob Hitem) as (t & _ & _ & Ht & _).
        by exists t.
    + by eapply Hdistinct.
  - intros t v (job & Hwrite & Hjob)%list_elem_of_bind.
    destruct job as [[[[g d] key] b] m].
    unfold job_writes in Hwrite.
    apply list_elem_of_fmap in Hwrite as ([p prm] & [= -> ->] & Hitem).
    destruct (Hshards _ _ _ _ _ _ _ _ _ _ Hr Hjob Hitem)
      as (t & bucket_list & bucket & Ht & Hbl & Hbucket & Hstart & Hend & Hsize).
    unfold target_id. cbn [fst snd]. rewrite Ht.
    destruct (Hcalls g d key b (Hcall _ Hjob))
      as (bucket_list' & world & Hbl' & _ & Hentry & Hworld).
    rewrite Hbl in Hbl'. injection Hbl' as <-.
    assert (Hbl_in : bucket_list ∈ layout) by by eapply list_elem_of_lookup_2.
    assert (Hpos : forall b', b' ∈ bucket_list -> 0 <= numel_unpadded b').
    { intros b' Hb'. destruct (Hbuckets _ _ Hbl_in Hb'). lia. }
    destruct (Hbuckets _ _ Hbl_in (list_elem_of_lookup_2 _ _ _ Hbucket))
      as (Hmod & Hunpadded).
    pose proof (offset_of_bucket_bounds bucket_list b Hpos) as Ho.
    pose proof (offset_of_bucket_bounds bucket_list (S b) Hpos) as Ho'.
    rewrite (offset_of_bucket_S _ _ _ Hbucket) in Ho'.
    pose proof (div_exact_pos _ _ HW Hmod) as Hnumel'.
    assert (Htensor : Z.of_nat (length (job_tensor state_dict layout
                                          (job_call (g, d, key, b, m))))
                      = W * (grad_data_numel bucket `div` W)).
    { simpl. rewrite Hbl. simpl. unfold world_tensor_of. rewrite Hentry.
      rewrite (padded_bucket_length _ _ _ bucket) by (done || lia). done. }
    rewrite Hrk.
    pose proof (shard_of_rank_length W r _ _ HW Htensor Hin_group) as Hshard.
    simpl job_call in *.
    change (job_tensor state_dict layout (g, d, key, b))
      with (padded_bucket (default [] (layout !! g))
                          (world_tensor_of state_dict g d key) b) in *.
    rewrite py_slice_length; lia.
Qed.

Lemma mapM_Forall2_lookup {A B} (f : A -> result B) (Q : A -> B -> Prop)
    (xs : list A) :
  (forall i x, xs !! i = Some x -> exists y, f x = Ok y /\ Q x y) ->
  exists ys, mapM f xs = Ok ys /\ Forall2 Q xs ys.
Proof.
  induction xs as [|x xs IH]; intros Hf; simpl.
  - exists []. split; [done|constructor].
  - destruct (Hf 0%nat x eq_refl) as (y & -> & HQ). simpl.
    destruct IH as (ys & -> & HQs).
    { intros i z Hz. by apply (Hf (S i)). }
    simpl. exists (y :: ys). split; [done|by constructor].
Qed.

(** The group restore in a group that fits the checkpoint: every rank
    returns, and its shard tensors have received their slices. *)
Lemma load_group_ok W layout calls ranks state_dict :
  dp_zero_wf W layout calls ranks state_dict ->
  exists stores',
    load_parameter_state ranks state_dict = Ok stores'
    /\ Forall2 (fun (rank : DistOpt.t * Store) store' =>
                  written (load_jobs rank.1
                             ≫= job_writes state_dict layout W rank.1)
                          rank.2 store')
               ranks stores'.
Proof.
  intros Hwf. pose proof Hwf as [[HW Hlen] _ _ _ _ _ _ _].
  destruct ranks as [|[root store0] others]; [simpl in Hlen; lia|].
  destruct (wf_rank_runs W layout calls _ state_dict 0 root store0 state_dict
              Hwf eq_refl (fun _ => eq_refl)) as [Hruns Hfit].
  destruct (Hruns store0 {| sent := []; pending := [] |} [] ltac:(done) Hfit)
    as (store0' & comm0 & Hrun0 & Hsent & _ & Hw0).
  simpl in Hsent.
  unfold load_parameter_state. rewrite Hrun0. simpl.
  match goal with |- context [mapM ?f others] =>
    destruct (mapM_Forall2_lookup f
                (fun (rank : DistOpt.t * Store) store' =>
                   written (load_jobs rank.1
                              ≫= job_writes state_dict layout W rank.1)
                           rank.2 store') others) as (stores & -> & Hstores)
  end.
  - intros i [self store] Hi.
    destruct (wf_rank_runs W layout calls _ state_dict (S i) self store []
                Hwf Hi ltac:(done)) as [Hruns_i Hfit_i].
    destruct (Hruns_i store {| sent := []; pending := sent comm0 |} [])
      as (store' & comm' & Hrun & _ & Hpending & Hw); [|done|].
    { intros _. simpl. by rewrite Hsent, app_nil_r. }
    exists store'. rewrite Hrun. simpl in Hpending |- *.
    rewrite Hpending. done.
  - simpl. exists (store0' :: stores). split; [done|]. by constructor.
Qed.

Lemma foldM_Ok_elem {A S} (f : S -> A -> result S) (xs : list A) (s s' : S)
    (x : A) :
  foldM f xs s = Ok s' -> x ∈ xs -> exists s1 s2, f s1 x = Ok s2.
Proof.
  revert s. induction xs as [|y xs IH]; intros s Hrun Hx.
  - by apply elem_of_nil in Hx.
  - simpl in Hrun. apply bind_Ok_inv in Hrun as (s1 & Hy & Hrun).
    apply elem_of_cons in Hx as [->|Hx]; [by exists s, s1|by eapply IH].
Qed.

Lemma check_numel_unpadded_inv self state_dict gbuf_idx dtype :
  check_numel_unpadded self state_dict gbuf_idx dtype = Ok tt ->
  exists buffer,
    DistOpt.buffers self !! gbuf_idx = Some buffer
    /\ sd_entry state_dict gbuf_idx dtype "numel_unpadded"
       = Ok (WInt (buffer_numel_unpadded buffer)).
Proof.
  unfold check_numel_unpadded. intros Hcheck.
  apply bind_Ok_inv in Hcheck as (buffer & Hbuffer & Hcheck).
  apply bind_Ok_inv in Hcheck as (v & Hentry & Hcheck).
  destruct (DistOpt.buffers self !! gbuf_idx) as [buffer'|]; [|done].
  injection Hbuffer as ->. exists buffer. split; [done|].
  destruct v as [|n]; [done|]. unfold py_assert in Hcheck.
  destruct (bool_decide_reflect (buffer_numel_unpadded buffer = n)) as [<-|];
    done.
Qed.

(** The group restore returns only if, for every buffer and dtype pair rank
    0 visits, the checkpoint has the buffer's unpadded size. *)
Lemma load_group_numel root store others state_dict stores' gbuf_idx dtype :
  DistOpt.data_parallel_rank root = 0%nat ->
  load_parameter_state ((root, store) :: others) state_dict = Ok stores' ->
  (gbuf_idx, dtype) ∈ gbuf_dtypes root ->
  exists buffer,
    DistOpt.buffers root !! gbuf_idx = Some buffer
    /\ sd_entry state_dict gbuf_idx dtype "numel_unpadded"
       = Ok (WInt (buffer_numel_unpadded buffer)).
Proof.
  intros Hrank Hrun Hgd. unfold load_parameter_state in Hrun.
  apply bind_Ok_inv in Hrun as ([store' comm] & Hroot & _).
  unfold load_parameter_state_from_dp_zero in Hroot.
  rewrite Hrank in Hroot. rewrite decide_True in Hroot by done.
  apply bind_Ok_inv in Hroot as (state_dict' & Hsplit & Hloops).
  apply split_returns_unchanged in Hsplit as ->.
  unfold gbuf_dtypes in Hgd.
  apply list_elem_of_bind in Hgd as ([g maps] & Hd & Hg).
  apply list_elem_of_fmap in Hd as ([d ms] & [= -> ->] & Hd).
  destruct (foldM_Ok_elem _ _ _ _ _ Hloops Hg) as (st1 & st2 & Hmaps).
  destruct (foldM_Ok_elem _ _ _ _ _ Hmaps Hd) as (st3 & st4 & Hdtype).
  unfold load_dtype in Hdtype. rewrite Hrank in Hdtype.
  rewrite decide_True in Hdtype by done.
  apply bind_Ok_inv in Hdtype as ([] & Hcheck & _).
  by apply check_numel_unpadded_inv.
Qed.

(** When the first buffer and dtype pair has another unpadded size in the
    checkpoint, the group restore stops at the assertion of rank 0. *)
Lemma load_group_mismatch root store others state_dict dtype ms maps rest
    buffer checkpoint_numel_unpadded :
  DistOpt.data_parallel_rank root = 0%nat ->
  split_state_dict_if_needed root state_dict = Ok state_dict ->
  DistOpt.gbuf_ranges root = ((dtype, ms) :: maps) :: rest ->
  DistOpt.buffers root !! 0%nat = Some buffer ->
  sd_entry state_dict 0 dtype "numel_unpadded"
    = Ok (WInt checkpoint_numel_unpadded) ->
  buffer_numel_unpadded buffer <> checkpoint_numel_unpadded ->
  load_parameter_state ((root, store) :: others) state_dict
  = Raise (AssertionError
             (numel_unpadded_msg (buffer_numel_unpadded buffer)
                                 checkpoint_numel_unpadded)).
Proof.
  intros Hrank Hsplit Hranges Hbuffer Hentry Hne.
  unfold load_parameter_state, load_parameter_state_from_dp_zero.
  rewrite Hrank, decide_True, Hsplit, Hranges by done. simpl.
  unfold load_dtype. rewrite Hrank, decide_True by done.
  unfold check_numel_unpadded. rewrite Hbuffer. simpl. rewrite Hentry. simpl.
  by rewrite bool_decide_false.
Qed.

(** C4 (restore from the gather/scatter encoding). With rank 0 at the head
    of the group: the group restore returns only if the checkpoint has, for
    every buffer and dtype pair, the buffer's unpadded element count, and a
    different count for the first pair stops it with the size-mismatch
    assertion. In a group that fits the checkpoint ([dp_zero_wf]) the restore
    returns, with one store per rank, and on rank [r], for every bucket, every
    key among param, exp_avg and exp_avg_sq and every parameter of the
    bucket's range map, the shard tensor of that key holds the slice
    [[gbuf_local.start, gbuf_local.end)] of chunk [r] of the [W] equal chunks
    of the bucket's part of the world tensor, padded with zeros at its tail
    only to the size of the bucket. *)
Theorem C4_dp_zero_load (W : Z) (layout : list (list Bucket))
    (calls : list (nat * dtype_pair * string * nat))
    (ranks : list (DistOpt.t * Store)) (state_dict : state_dict_t) :
  (forall root store others,
     ranks = (root, store) :: others ->
     DistOpt.data_parallel_rank root = 0%nat ->
     (forall stores' gbuf_idx dtype,
        load_parameter_state ranks state_dict = Ok stores' ->
        (gbuf_idx, dtype) ∈ gbuf_dtypes root ->
        exists buffer,
          DistOpt.buffers root !! gbuf_idx = Some buffer
          /\ sd_entry state_dict gbuf_idx dtype "numel_unpadded"
             = Ok (WInt (buffer_numel_unpadded buffer)))
     /\ (forall dtype ms maps rest buffer checkpoint_numel_unpadded,
           split_state_dict_if_needed root state_dict = Ok state_dict ->
           DistOpt.gbuf_ranges root = ((dtype, ms) :: maps) :: rest ->
           DistOpt.buffers root !! 0%nat = Some buffer ->
           sd_entry state_dict 0 dtype "numel_unpadded"
             = Ok (WInt checkpoint_numel_unpadded) ->
           buffer_numel_unpadded buffer <> checkpoint_numel_unpadded ->
           load_parameter_state ranks state_dict
           = Raise (AssertionError
                      (numel_unpadded_msg (buffer_numel_unpadded buffer)
                                          checkpoint_numel_unpadded))))
  /\ (dp_zero_wf W layout calls ranks state_dict ->
      exists stores',
        load_parameter_state ranks state_dict = Ok stores'
        /\ length stores' = length ranks
        /\ forall r self store store' gbuf_idx dtype key bucket_idx
                  gbuf_range_map model_param param_range_map,
             ranks !! r = Some (self, store) ->
             stores' !! r = Some store' ->
             (gbuf_idx, dtype, key, bucket_idx, gbuf_range_map) ∈ load_jobs self ->
             (model_param, param_range_map) ∈ param_map gbuf_range_map ->
             exists t,
               tensor_to_copy_into self key model_param = Ok t
               /\ values (tensor_of store' t)
                  = py_slice
                      (shard_of_rank W r
                         (padded_bucket (default [] (layout !! gbuf_idx))
                            (world_tensor_of state_dict gbuf_idx dtype key)
                            bucket_idx))
                      (start (gbuf_local param_range_map))
                      (end_ (gbuf_local param_range_map))).
Proof.
  split.
  - intros root store others -> Hrank. split.
    + intros stores' gbuf_idx dtype Hrun Hgd.
      by eapply load_group_numel.
    + intros dtype ms maps rest buffer n Hsplit Hranges Hbuffer Hentry Hne.
      by eapply load_group_mismatch.
  - intros Hwf.
    destruct (load_group_ok _ _ _ _ _ Hwf) as (stores' & Hrun & Hwritten).
    exists stores'. split; [done|].
    split; [symmetry; by eapply Forall2_length|].
    intros r self store store' g d key b m p prm Hr Hr' Hjob Hitem.
    destruct (Forall2_lookup_lr _ _ _ _ _ _ Hwritten Hr Hr') as [Hvalues _].
    cbn [fst snd] in Hvalues.
    destruct Hwf as [_ Hrank _ _ _ _ Hshards _].
    destruct (Hshards _ _ _ _ _ _ _ _ _ _ Hr Hjob Hitem) as (t & _ & _ & Ht & _).
    destruct (Hrank _ _ _ Hr) as (Hrk & _).
    exists t. split; [done|]. apply Hvalues.
    apply list_elem_of_bind.
    exists (g, d, key, b, m). split; [|done].
    unfold job_writes. apply list_elem_of_fmap.
    exists (p, prm). split; [|done].
    cbn [fst snd]. unfold target_id. rewrite Ht, Hrk. done.
Qed.

Lemma C4_dp_zero_load_witness :
  load_parameter_state dp_zero_ranks (dp_zero_checkpoint 8)
  = Raise (AssertionError (numel_unpadded_msg 7 8))
  /\ exists stores',
       load_parameter_state dp_zero_ranks (dp_zero_checkpoint 7) = Ok stores'
       /\ length stores' = 2%nat
       /\ forall store', stores' !! 1%nat = Some store' ->
            values (tensor_of store' 30%nat) = [4].
Proof.
  split.
  - destruct (C4_dp_zero_load 2 (bucket_layout (dp_zero_self 0))
                (job_call <$> load_jobs (dp_zero_self 0))
                dp_zero_ranks (dp_zero_checkpoint 8)) as [Hnumel _].
    destruct (Hnumel (dp_zero_self 0) (dp_zero_store 0)
                [(dp_zero_self 1, dp_zero_store 1)] eq_refl eq_refl)
      as [_ Hmismatch].
    eapply (Hmismatch (float32, float32) _ [] [] (dp_zero_buffer 0) 8);
      try (vm_compute; reflexivity).
    vm_compute. discriminate.
  - destruct (C4_dp_zero_load 2 (bucket_layout (dp_zero_self 0))
                (job_call <$> load_jobs (dp_zero_self 0))
                dp_zero_ranks (dp_zero_checkpoint 7)) as [_ Hload].
    destruct Hload as (stores' & Hrun & Hlen & Hvalues).
    { constructor.
      - split; [lia|reflexivity].
      - intros [|[|r]] self store [= <- <-]; repeat split; vm_compute; reflexivity.
      - intros bucket_list bucket Hbl Hb.
        revert bucket Hb. apply Forall_forall.
        revert bucket_list Hbl. apply Forall_forall. by_decide.
      - intros gbuf_idx dtype key bucket_idx Hcall.
        vm_compute in Hcall.
        repeat (apply elem_of_cons in Hcall as [[= -> -> -> ->]|Hcall];
                [eexists _, _; split_and!;
                   [reflexivity|vm_compute; lia|vm_compute; reflexivity
                   |vm_compute; discriminate]|]).
        by apply elem_of_nil in Hcall.
      - intros root store [= <- <-]. vm_compute. reflexivity.
      - intros root store gbuf_idx dtype [= <- <-] Hgd.
        vm_compute in Hgd.
        apply elem_of_cons in Hgd as [[= -> ->]|Hgd];
          [|by apply elem_of_nil in Hgd].
        eexists. split; vm_compute; reflexivity.
      - intros [|[|r]] self store gbuf_idx dtype key bucket_idx gbuf_range_map
               model_param param_range_map [= <- <-] Hjob Hitem;
          vm_compute in Hjob;
          repeat (apply elem_of_cons in Hjob as [[= -> -> -> -> ->]|Hjob];
                  [vm_compute in Hitem;
                   repeat (apply elem_of_cons in Hitem as [[= -> ->]|Hitem];
                           [eexists _, _, _; split_and!;
                              [vm_compute; reflexivity|reflexivity|reflexivity
                              |vm_compute; discriminate|vm_compute; discriminate
                              |vm_compute; reflexivity]|]);
                   by apply elem_of_nil in Hitem|]);
          by apply elem_of_nil in Hjob.
      - intros [|[|r]] self store [= <- <-]; by_decide. }
    exists stores'. split; [done|]. split; [done|].
    intros store' Hstore'.
    edestruct Hvalues with (r := 1%nat) (self := dp_zero_self 1)
                           (key := "param") (model_param := 2%nat)
      as (t & Ht & Hv).
    { reflexivity. }
    { exact Hstore'. }
    { vm_compute. apply list_elem_of_here. }
    { vm_compute. apply list_elem_of_further, list_elem_of_here. }
    vm_compute in Ht. injection Ht as <-. rewrite Hv. vm_compute. reflexivity.
Defined.

(** ** Further properties of the resharder and of the restore *)

(** [split_state_dict_if_needed] never hands back a split state dict: every
    call either raises or leaves the state dict as it was, through one of
    the two early [return]s (no fp8 buffer, or a uint8 buffer already in the
    checkpoint). *)
Theorem split_never_splits self state_dict :
  split_state_dict_if_needed self state_dict = Ok state_dict
  \/ exists e, split_state_dict_if_needed self state_dict = Raise e.
Proof.
  destruct (split_state_dict_if_needed self state_dict) as [r|e] eqn:Hrun.
  - left. by rewrite (split_returns_unchanged _ _ _ Hrun).
  - right. by exists e.
Qed.

Lemma py_slice_take_drop {A} (l : list A) (i j : Z) :
  0 <= i <= j -> j <= Z.of_nat (length l) ->
  py_slice l i j = take (Z.to_nat (j - i)) (drop (Z.to_nat i) l).
Proof.
  intros Hij Hj. unfold py_slice, slice_index.
  repeat destruct (decide _); try lia. do 2 f_equal; lia.
Qed.

Lemma concat_chunks {A} (t : list A) (n : Z) (k : nat) :
  0 <= n -> Z.of_nat k * n <= Z.of_nat (length t) ->
  concat ((fun r : nat => py_slice t (Z.of_nat r * n) (Z.of_nat r * n + n))
            <$> seq 0 k)
  = take (Z.to_nat (Z.of_nat k * n)) t.
Proof.
  intros Hn. induction k as [|k IH]; intros Hk.
  - simpl. by rewrite take_0.
  - rewrite seq_S, fmap_app, concat_app, IH by lia. simpl.
    rewrite app_nil_r, py_slice_take_drop by lia.
    replace (Z.to_nat (Z.of_nat (S k) * n))
      with (Z.to_nat (Z.of_nat k * n) + Z.to_nat (Z.of_nat k * n + n - Z.of_nat k * n))%nat
      by lia.
    by rewrite take_take_drop.
Qed.

Lemma concat_scattered (W : Z) (t : list scalar) (n : Z) :
  0 < W -> Z.of_nat (length t) = W * n -> concat (scattered W t) = t.
Proof.
  intros HW Ht. assert (0 <= n) by nia. unfold scattered, shard_of_rank.
  replace (Z.of_nat (length t) `div` W) with n
    by (rewrite Ht, Z.mul_comm, Z.div_mul; lia).
  rewrite concat_chunks by lia.
  apply take_ge. lia.
Qed.

Lemma send_tensors_of_at state_dict gbuf_idx dtype key world_tensors W
    offset_in_world_tensors gbuf_world_numel gbuf_world_numel_unpadded :
  0 < W ->
  sd_entry state_dict gbuf_idx dtype key = Ok (WTensor world_tensors) ->
  gbuf_world_numel `mod` W = 0 ->
  0 < gbuf_world_numel_unpadded <= gbuf_world_numel ->
  0 <= offset_in_world_tensors ->
  offset_in_world_tensors + gbuf_world_numel_unpadded
    <= Z.of_nat (length (values world_tensors)) ->
  send_tensors_of state_dict gbuf_idx dtype key offset_in_world_tensors
    gbuf_world_numel (gbuf_world_numel `div` W) gbuf_world_numel_unpadded
  = Ok (scattered W
          (py_slice (values world_tensors) offset_in_world_tensors
             (offset_in_world_tensors + gbuf_world_numel_unpadded)
           ++ replicate
                (Z.to_nat (gbuf_world_numel - gbuf_world_numel_unpadded)) 0),
        offset_in_world_tensors + gbuf_world_numel_unpadded).
Proof.
  intros HW Hentry Hmod Hu Ho Hw.
  pose proof (div_exact_pos _ _ HW Hmod) as Hnumel.
  set (L := gbuf_world_numel `div` W) in *.
  assert (0 < L) by nia.
  set (t := py_slice _ _ _ ++ _).
  assert (Hlen : Z.of_nat (length t) = gbuf_world_numel).
  { subst t. rewrite length_app, length_replicate, py_slice_length by lia. lia. }
  unfold send_tensors_of. rewrite Hentry. simpl.
  unfold torch_pad_right. rewrite decide_True by lia. fold t.
  rewrite !bool_decide_true by lia. simpl.
  unfold py_range3. rewrite decide_False, decide_True by lia. simpl.
  do 2 f_equal.
  replace ((gbuf_world_numel - 0 + L - 1) `div` L) with W.
  2:{ apply Z.div_unique with (L - 1); lia. }
  unfold scattered, py_range. rewrite <- !list_fmap_compose.
  apply list_fmap_ext. intros i r _. simpl.
  unfold shard_of_rank. rewrite Hlen. fold L. f_equal; lia.
Qed.

(** What rank 0 scatters for a bucket (lines 1489-1509), given the two
    assertions its caller has made ([W] divides the bucket size, the unpadded
    size is at most the bucket size): when the bucket's part
    [[offset, offset + unpadded)] of the world tensor is non-empty and within
    the tensor, [W] tensors of [size / W] elements each, which put end to end
    are that part followed by [size - unpadded] zeros, and the offset moves
    by the unpadded size; otherwise the assertion on the part fails. *)
Theorem send_tensors_tail_padded state_dict gbuf_idx dtype key world_tensors W
    offset_in_world_tensors gbuf_world_numel gbuf_world_numel_unpadded
    (HW : 0 < W)
    (Hentry : sd_entry state_dict gbuf_idx dtype key = Ok (WTensor world_tensors))
    (Hmod : gbuf_world_numel `mod` W = 0)
    (Hunpadded : gbuf_world_numel_unpadded <= gbuf_world_numel) :
  let part_in_tensor :=
    0 <= offset_in_world_tensors
    /\ 0 < gbuf_world_numel_unpadded
    /\ offset_in_world_tensors + gbuf_world_numel_unpadded
       <= Z.of_nat (length (values world_tensors)) in
  let run :=
    send_tensors_of state_dict gbuf_idx dtype key offset_in_world_tensors
      gbuf_world_numel (gbuf_world_numel `div` W) gbuf_world_numel_unpadded in
  (part_in_tensor ->
     exists send_tensors,
       run = Ok (send_tensors,
                 offset_in_world_tensors + gbuf_world_numel_unpadded)
       /\ length send_tensors = Z.to_nat W
       /\ Forall (fun t => Z.of_nat (length t) = gbuf_world_numel `div` W)
                 send_tensors
       /\ concat send_tensors
          = py_slice (values world_tensors) offset_in_world_tensors
              (offset_in_world_tensors + gbuf_world_numel_unpadded)
            ++ replicate
                 (Z.to_nat (gbuf_world_numel - gbuf_world_numel_unpadded)) 0)
  /\ (~ part_in_tensor -> run = Raise (AssertionError EmptyString)).
Proof.
  intros part_in_tensor run. subst part_in_tensor run. split.
  - intros (Ho & Hu & Hw).
    pose proof (div_exact_pos _ _ HW Hmod) as Hnumel.
    eexists. split; [apply send_tensors_of_at; (done || lia)|].
    set (t := py_slice _ _ _ ++ _).
    assert (Hlen : Z.of_nat (length t) = W * (gbuf_world_numel `div` W)).
    { subst t. rewrite length_app, length_replicate, py_slice_length by lia.
      lia. }
    split; [apply scattered_length|]. split.
    + unfold scattered. apply Forall_fmap, Forall_forall. intros r Hr.
      apply elem_of_seq in Hr. simpl.
      rewrite (shard_of_rank_length W r t (gbuf_world_numel `div` W)); nia.
    + by eapply concat_scattered.
  - intros Hnot. unfold send_tensors_of. rewrite Hentry. simpl.
    rewrite (bool_decide_false (0 <= _ /\ _)) by lia. done.
Qed.

Lemma send_tensors_tail_padded_witness :
  exists send_tensors,
    send_tensors_of (dp_zero_checkpoint 7) 0 (float32, float32) "param" 4 4 2 3
    = Ok (send_tensors, 7)
    /\ concat send_tensors = [5; 6; 7; 0].
Proof.
  destruct (send_tensors_tail_padded (dp_zero_checkpoint 7) 0 (float32, float32)
              "param" {| dtype := float32; values := [1; 2; 3; 4; 5; 6; 7] |}
              2 4 4 3 ltac:(lia) eq_refl eq_refl ltac:(lia)) as [Hok _].
  destruct Hok as (send_tensors & Hrun & _ & _ & Hconcat).
  { simpl. lia. }
  exists send_tensors. split; [exact Hrun|exact Hconcat].
Defined.

Lemma dp_zero_ranks_wf :
  dp_zero_wf 2 (bucket_layout (dp_zero_self 0))
    (job_call <$> load_jobs (dp_zero_self 0)) dp_zero_ranks (dp_zero_checkpoint 7).
Proof.
  constructor.
  - split; [lia|reflexivity].
  - intros [|[|r]] self store [= <- <-]; repeat split; vm_compute; reflexivity.
  - intros bucket_list bucket Hbl Hb.
    revert bucket Hb. apply Forall_forall.
    revert bucket_list Hbl. apply Forall_forall. by_decide.
  - intros gbuf_idx dtype key bucket_idx Hcall.
    vm_compute in Hcall.
    repeat (apply elem_of_cons in Hcall as [[= -> -> -> ->]|Hcall];
            [eexists _, _; split_and!;
               [reflexivity|vm_compute; lia|vm_compute; reflexivity
               |vm_compute; discriminate]|]).
    by apply elem_of_nil in Hcall.
  - intros root store [= <- <-]. vm_compute. reflexivity.
  - intros root store gbuf_idx dtype [= <- <-] Hgd.
    vm_compute in Hgd.
    apply elem_of_cons in Hgd as [[= -> ->]|Hgd]; [|by apply elem_of_nil in Hgd].
    eexists. split; vm_compute; reflexivity.
  - intros [|[|r]] self store gbuf_idx dtype key bucket_idx gbuf_range_map
           model_param param_range_map [= <- <-] Hjob Hitem;
      vm_compute in Hjob;
      repeat (apply elem_of_cons in Hjob as [[= -> -> -> -> ->]|Hjob];
              [vm_compute in Hitem;
               repeat (apply elem_of_cons in Hitem as [[= -> ->]|Hitem];
                       [eexists _, _, _; split_and!;
                          [vm_compute; reflexivity|reflexivity|reflexivity
                          |vm_compute; discriminate|vm_compute; discriminate
                          |vm_compute; reflexivity]|]);
               by apply elem_of_nil in Hitem|]);
      by apply elem_of_nil in Hjob.
  - intros [|[|r]] self store [= <- <-]; by_decide.
Defined.



(** ** Error behaviour of the group assembler and of the reverse map *)

(** A loop whose passes, under an invariant, either go on or raise [e], and
    one of whose elements always raises [e], raises [e]. *)
Lemma foldM_raises {A S} (f : S -> A -> result S) (I : S -> Prop) (e : exn)
    (xs : list A) (s : S) :
  I s ->
  (forall s x, x ∈ xs -> I s ->
     (exists s', f s x = Ok s' /\ I s') \/ f s x = Raise e) ->
  (exists x, x ∈ xs /\ forall s, I s -> f s x = Raise e) ->
  foldM f xs s = Raise e.
Proof.
  revert s. induction xs as [|y xs IH]; intros s HI Hstep (x & Hx & Hbad).
  - by apply elem_of_nil in Hx.
  - simpl. destruct (Hstep s y (list_elem_of_here _ _) HI)
      as [(s' & Hs' & HI')|Hraise]; [|by rewrite Hraise].
    apply elem_of_cons in Hx as [->|Hx]; [by rewrite (Hbad s HI)|].
    rewrite Hs'. simpl.
    apply IH; [done| |by exists x].
    intros s0 z Hz. apply Hstep. by apply list_elem_of_further.
Qed.

Lemma foldM_ok_or_raises {A S} (f : S -> A -> result S) (e : exn)
    (xs : list A) (s : S) :
  (forall s x, x ∈ xs -> (exists s', f s x = Ok s') \/ f s x = Raise e) ->
  (exists s', foldM f xs s = Ok s') \/ foldM f xs s = Raise e.
Proof.
  revert s. induction xs as [|y xs IH]; intros s Hstep; [left; by exists s|].
  simpl. destruct (Hstep s y (list_elem_of_here _ _)) as [(s' & ->)| ->];
    [|by right].
  simpl. apply IH. intros s0 z Hz. apply Hstep. by apply list_elem_of_further.
Qed.

(** The assembler's failures: a group parameter that does not require grad
    stops it on the assertion of the first loop; with all of them requiring
    grad, an owned parameter that is in no optimizer group stops it on the
    lookup [world_param_group_map[param]]. *)
Theorem assembler_failures (requires_grad : param_id -> bool)
    (param_groups : list (ParamGroup.t param_id)) (gbuf_ranges : gbuf_ranges_t) :
  ((exists g p, g ∈ param_groups /\ p ∈ ParamGroup.params g
                /\ requires_grad p = false) ->
   _build_optimizer_group_ranges requires_grad param_groups gbuf_ranges
   = Raise (AssertionError EmptyString))
  /\ ((forall g p, g ∈ param_groups -> p ∈ ParamGroup.params g ->
         requires_grad p = true) ->
      (exists p, p ∈ owned_params gbuf_ranges
                 /\ forall g, g ∈ param_groups -> p ∉ ParamGroup.params g) ->
      _build_optimizer_group_ranges requires_grad param_groups gbuf_ranges
      = Raise KeyError).
Proof.
  split.
  - intros (g & p & Hg & Hp & Hrg).
    unfold _build_optimizer_group_ranges.
    match goal with |- context [foldM ?f (enumerate param_groups) []] =>
      rewrite (foldM_raises f (fun _ => True) (AssertionError EmptyString)
                 (enumerate param_groups) [])
    end; [done|done| |].
    + intros wm [gi g'] _ _.
      match goal with |- context [foldM ?f (ParamGroup.params g') wm] =>
        destruct (foldM_ok_or_raises f (AssertionError EmptyString)
                    (ParamGroup.params g') wm) as [(wm' & Hwm')|Hraise]
      end.
      * intros s q _. destruct (requires_grad q); [left; by eexists|by right].
      * left. by exists wm'.
      * by right.
    + apply list_elem_of_lookup in Hg as [gi Hgi].
      exists (gi, g). split; [by apply elem_of_enumerate|].
      intros wm _. apply (foldM_raises _ (fun _ => True)); [done| |].
      * intros s q _ _. destruct (requires_grad q); [left; by eexists|by right].
      * exists p. split; [done|]. intros s _. by rewrite Hrg.
  - intros Hrg (p & Hp & Hnone).
    destruct (world_param_group_map_spec requires_grad param_groups Hrg)
      as (wm & Hwm & Hwm1 & Hwm2).
    unfold _build_optimizer_group_ranges. rewrite Hwm. simpl.
    rewrite owned_params_loop.
    match goal with |- context [foldM ?f (owned_params gbuf_ranges) ?st0] =>
      rewrite (foldM_raises f
                 (fun acc : list (param_id * (nat * nat)) * list GroupRange.t =>
                    length acc.2 = length param_groups)
                 KeyError (owned_params gbuf_ranges) st0)
    end; [done|simpl; by rewrite length_fmap| |].
    + intros [lm grs] q _ Hlen. simpl in Hlen.
      destruct (Dict.get wm q) as [gi|] eqn:Hq; [|by right]. simpl.
      destruct (Hwm1 q gi Hq) as (g & Hg & _).
      apply lookup_lt_Some in Hg.
      destruct (lookup_lt_is_Some_2 grs gi) as [gr Hgr]; [lia|].
      rewrite Hgr. simpl. left. eexists. split; [done|].
      simpl. by rewrite length_insert.
    + exists p. split; [done|]. intros [lm grs] _.
      destruct (Dict.get wm p) as [gi|] eqn:Hq; [|done].
      destruct (Hwm1 p gi Hq) as (g & Hg & Hpg).
      exfalso. apply (Hnone g); [by eapply list_elem_of_lookup_2|done].
Qed.

Lemma assembler_failures_witness :
  _build_optimizer_group_ranges (fun p => bool_decide (p <> 2%nat))
    assembler_groups assembler_gbuf_ranges
  = Raise (AssertionError EmptyString)
  /\ _build_optimizer_group_ranges (fun _ => true)
       [ParamGroup.mk [0%nat] []; ParamGroup.mk [2%nat] []]
       assembler_gbuf_ranges
     = Raise KeyError.
Proof.
  split.
  - apply (assembler_failures (fun p => bool_decide (p <> 2%nat))
             assembler_groups assembler_gbuf_ranges).
    exists (ParamGroup.mk [2%nat] []), 2%nat.
    split; [apply list_elem_of_further, list_elem_of_here|].
    split; [by_decide|reflexivity].
  - apply (assembler_failures (fun _ => true)
             [ParamGroup.mk [0%nat] []; ParamGroup.mk [2%nat] []]
             assembler_gbuf_ranges); [done|].
    exists 1%nat. split; [by_decide|].
    intros g Hg. revert g Hg. apply Forall_forall. by_decide.
Defined.

(** ** The reverse map and the lookup through it *)

Lemma dict_mem_keys {K V} `{EqDecision K} (d : list (K * V)) (k : K) :
  Dict.mem d k = bool_decide (k ∈ Dict.keys d).
Proof.
  unfold Dict.mem. destruct (decide (k ∈ Dict.keys d)) as [Hin|Hnin].
  - rewrite bool_decide_true by done.
    induction d as [|[k' v'] d IH]; [by apply elem_of_nil in Hin|].
    simpl in *. destruct (decide (k' = k)); [done|].
    apply elem_of_cons in Hin as [?|?]; [congruence|auto].
  - rewrite bool_decide_false by done. by rewrite dict_get_None.
Qed.

(** A dict filled from a list of items with the assertion that no key comes
    twice: the list itself when its keys are distinct, else the assertion
    fails. *)
Lemma fill_once {K V} `{EqDecision K} (msg : string) (xs d : list (K * V)) :
  NoDup (Dict.keys d) ->
  foldM (fun (d : list (K * V)) (kv : K * V) =>
           py_assert (negb (Dict.mem d kv.1)) msg;;
           Ok (Dict.set d kv.1 kv.2)) xs d
  = if decide (NoDup (Dict.keys (d ++ xs))) then Ok (d ++ xs)
    else Raise (AssertionError msg).
Proof.
  revert d. induction xs as [|[k v] xs IH]; intros d Hd.
  - simpl. rewrite app_nil_r. by rewrite decide_True.
  - simpl. rewrite dict_mem_keys.
    destruct (decide (k ∈ Dict.keys d)) as [Hin|Hnin].
    + rewrite bool_decide_true by done. simpl.
      rewrite decide_False; [done|].
      unfold Dict.keys in *. rewrite fmap_app, fmap_cons. simpl.
      intros (_ & Hdisj & _)%NoDup_app.
      apply (Hdisj k Hin). apply list_elem_of_here.
    + rewrite bool_decide_false by done. simpl.
      rewrite dict_keys_set_new by done.
      rewrite IH.
      * by rewrite <- app_assoc.
      * unfold Dict.keys in *. rewrite fmap_app. simpl.
        apply NoDup_app. split; [done|]. split.
        -- intros k' Hk' ->%list_elem_of_singleton. done.
        -- apply NoDup_singleton.
Qed.

Lemma foldM_fmap {A B S} (f : S -> B -> result S) (g : A -> B) (xs : list A)
    (s : S) :
  foldM f (g <$> xs) s = foldM (fun s x => f s (g x)) xs s.
Proof.
  revert s. induction xs as [|x xs IH]; intros s; simpl; [done|].
  destruct (f s (g x)); simpl; [apply IH|done].
Qed.

Lemma param_gbuf_map_loop (gbuf_ranges : gbuf_ranges_t) :
  _build_model_param_gbuf_map gbuf_ranges
  = foldM (fun (d : list (param_id * (nat * dtype_pair * nat)))
               (kv : param_id * (nat * dtype_pair * nat)) =>
             py_assert (negb (Dict.mem d kv.1)) single_bucket_msg;;
             Ok (Dict.set d kv.1 kv.2))
          (param_locations gbuf_ranges) [].
Proof.
  unfold _build_model_param_gbuf_map, param_locations.
  rewrite <- foldM_bind. apply foldM_ext. intros s [gi m] _.
  rewrite <- foldM_bind. apply foldM_ext. intros s' [dt bs] _.
  rewrite <- foldM_bind. apply foldM_ext. intros s'' [bi r] _.
  rewrite foldM_fmap. apply foldM_ext. by intros s''' [p prm] _.
Qed.

Lemma param_locations_elem (gbuf_ranges : gbuf_ranges_t) gbuf_index by_dtype
    dtype gbuf_range_map_for_all_buckets bucket_index gbuf_range_map
    param param_range_map :
  gbuf_ranges !! gbuf_index = Some by_dtype ->
  (dtype, gbuf_range_map_for_all_buckets) ∈ (by_dtype : gbuf_range_map_t) ->
  gbuf_range_map_for_all_buckets !! bucket_index = Some gbuf_range_map ->
  (param, param_range_map) ∈ param_map gbuf_range_map ->
  (param, (gbuf_index, dtype, bucket_index)) ∈ param_locations gbuf_ranges.
Proof.
  intros Hg Hd Hb Hp. unfold param_locations.
  apply list_elem_of_bind. exists (gbuf_index, by_dtype).
  split; [|by apply elem_of_enumerate].
  apply list_elem_of_bind. exists (dtype, gbuf_range_map_for_all_buckets).
  split; [|done].
  apply list_elem_of_bind. exists (bucket_index, gbuf_range_map).
  split; [|by apply elem_of_enumerate].
  by apply (list_elem_of_fmap_2
              (fun item : param_id * ParamRanges =>
                 (item.1, (gbuf_index, dtype, bucket_index)))
              _ (param, param_range_map)).
Qed.

(** [_build_model_param_gbuf_map] returns exactly when no parameter is in
    the range maps twice, and fails on its assertion otherwise. The map it
    returns lists every parameter with its place, so
    [_get_model_param_range_map] through it finds, for every parameter of
    every range map, that parameter's ranges (the range maps being dicts:
    no dtype pair and no parameter twice in one of them). *)
Theorem param_gbuf_map_lookup (gbuf_ranges : gbuf_ranges_t) :
  (NoDup (param_locations gbuf_ranges).*1 ->
   _build_model_param_gbuf_map gbuf_ranges = Ok (param_locations gbuf_ranges)
   /\ forall gbuf_index by_dtype dtype gbuf_range_map_for_all_buckets
             bucket_index gbuf_range_map param param_range_map,
        gbuf_ranges !! gbuf_index = Some by_dtype ->
        NoDup (Dict.keys (by_dtype : gbuf_range_map_t)) ->
        (dtype, gbuf_range_map_for_all_buckets) ∈ by_dtype ->
        gbuf_range_map_for_all_buckets !! bucket_index = Some gbuf_range_map ->
        NoDup (Dict.keys (param_map gbuf_range_map)) ->
        (param, param_range_map) ∈ param_map gbuf_range_map ->
        _get_model_param_range_map (param_locations gbuf_ranges) gbuf_ranges
                                   param
        = Ok param_range_map)
  /\ (~ NoDup (param_locations gbuf_ranges).*1 ->
      _build_model_param_gbuf_map gbuf_ranges
      = Raise (AssertionError single_bucket_msg)).
Proof.
  rewrite param_gbuf_map_loop, fill_once by apply NoDup_nil_2.
  simpl. split.
  - intros Hnd. rewrite decide_True by done. split; [done|].
    intros gi by_dtype dt bs bi r p prm Hg Hnd_d Hd Hb Hnd_p Hp.
    unfold _get_model_param_range_map.
    rewrite (dict_get_elem _ p (gi, dt, bi) Hnd)
      by by eapply param_locations_elem.
    simpl. rewrite Hg. simpl.
    rewrite (dict_get_elem _ dt bs Hnd_d Hd). simpl.
    rewrite Hb. simpl.
    by rewrite (dict_get_elem _ p prm Hnd_p Hp).
  - intros Hdup. by rewrite decide_False.
Qed.

Lemma param_gbuf_map_lookup_witness :
  _build_model_param_gbuf_map assembler_gbuf_ranges
  = Ok [(1%nat, (0%nat, (float32, float32), 0%nat))]
  /\ (exists prm,
        _get_model_param_range_map (param_locations assembler_gbuf_ranges)
                                   assembler_gbuf_ranges 1%nat = Ok prm
        /\ gbuf_local prm = mkRange 5 25)
  /\ _build_model_param_gbuf_map (assembler_gbuf_ranges ++ assembler_gbuf_ranges)
     = Raise (AssertionError single_bucket_msg).
Proof.
  destruct (param_gbuf_map_lookup assembler_gbuf_ranges) as [Hok _].
  destruct Hok as [Hbuild Hlookup]; [by_decide|].
  destruct (param_gbuf_map_lookup (assembler_gbuf_ranges ++ assembler_gbuf_ranges))
    as [_ Hdup].
  split; [exact Hbuild|]. split.
  - eexists. split.
    + eapply (Hlookup 0%nat _ (float32, float32) _ 0%nat _ 1%nat);
        [reflexivity|by_decide|apply list_elem_of_here|reflexivity
        |by_decide|apply list_elem_of_here].
    + reflexivity.
  - apply Hdup. intros Hnd. revert Hnd. by_decide.
Defined.

(** ** Recutting the buckets of a legacy checkpoint *)

Lemma py_sum_from (a : Z) (l : list Z) : foldl Z.add a l = a + py_sum l.
Proof.
  unfold py_sum. revert a. induction l as [|x l IH]; intros a; simpl; [lia|].
  rewrite (IH (a + x)), (IH (0 + x)). lia.
Qed.

Lemma py_sum_cons (x : Z) (l : list Z) : py_sum (x :: l) = x + py_sum l.
Proof. unfold py_sum at 1. simpl. by rewrite py_sum_from. Qed.

Lemma py_sum_lengths {A} (ts : list (list A)) :
  py_sum ((fun t => Z.of_nat (length t)) <$> ts) = Z.of_nat (length (concat ts)).
Proof.
  induction ts as [|t ts IH]; [done|].
  rewrite fmap_cons, py_sum_cons, IH. simpl. rewrite length_app. lia.
Qed.

Lemma recut_loop {A} (unified_tensor : list A) (new_numels : list Z)
    (new_tensors : list (list A)) (start_idx : Z) :
  Forall (fun n => 0 <= n) new_numels ->
  0 <= start_idx ->
  start_idx + py_sum new_numels <= Z.of_nat (length unified_tensor) ->
  let r :=
    foldl (fun '(new_tensors, start_idx) new_numel =>
             (new_tensors
                ++ [py_slice unified_tensor start_idx (start_idx + new_numel)],
              start_idx + new_numel))
          (new_tensors, start_idx) new_numels in
  concat r.1
  = concat new_tensors
      ++ take (Z.to_nat (py_sum new_numels))
              (drop (Z.to_nat start_idx) unified_tensor)
  /\ (fun t => Z.of_nat (length t)) <$> r.1
     = ((fun t => Z.of_nat (length t)) <$> new_tensors) ++ new_numels.
Proof.
  revert new_tensors start_idx.
  induction new_numels as [|n ns IH]; intros acc s Hpos Hs Hfit; simpl.
  - rewrite !app_nil_r. done.
  - apply Forall_cons in Hpos as [Hn Hns]. rewrite py_sum_cons in Hfit |- *.
    assert (0 <= py_sum ns).
    { clear -Hns. induction ns as [|m ns IH]; [done|].
      apply Forall_cons in Hns as [? ?]. rewrite py_sum_cons.
      specialize (IH ltac:(done)). lia. }
    destruct (IH (acc ++ [py_slice unified_tensor s (s + n)]) (s + n))
      as [Hconcat Hlens]; [done|lia|lia|].
    cbv zeta in Hconcat, Hlens. rewrite Hconcat, Hlens. split.
    + rewrite concat_app. simpl. rewrite app_nil_r, <- app_assoc. f_equal.
      rewrite py_slice_take_drop by lia.
      replace (Z.to_nat (s + n)) with (Z.to_nat s + Z.to_nat n)%nat by lia.
      rewrite <- drop_drop.
      replace (Z.to_nat (s + n - s)) with (Z.to_nat n) by lia.
      replace (Z.to_nat (n + py_sum ns))
        with (Z.to_nat n + Z.to_nat (py_sum ns))%nat by lia.
      by rewrite take_take_drop.
    + rewrite fmap_app, <- app_assoc. simpl. do 2 f_equal.
      rewrite py_slice_length by lia. lia.
Qed.

(** [_update_legacy_world_tensors] keeps the data and takes the new sizes:
    when the old tensors and the new sizes have the same total, and there is
    an old tensor, the new tensors have the sizes [new_numels] (none of them
    negative) and, put end to end, are the old tensors put end to end. With
    different totals the assertion fails; with no old tensor at all
    [torch.cat] raises. *)
Theorem legacy_recut_keeps_data (old_tensors : list (list scalar))
    (new_numels : list Z) :
  let old_total := py_sum ((fun t => Z.of_nat (length t)) <$> old_tensors) in
  (old_total <> py_sum new_numels ->
   _update_legacy_world_tensors old_tensors new_numels
   = Raise (AssertionError EmptyString))
  /\ (old_total = py_sum new_numels -> old_tensors = [] ->
      _update_legacy_world_tensors old_tensors new_numels
      = Raise (RuntimeError cat_empty_msg))
  /\ (old_total = py_sum new_numels -> old_tensors <> [] ->
      Forall (fun n => 0 <= n) new_numels ->
      exists new_tensors,
        _update_legacy_world_tensors old_tensors new_numels = Ok new_tensors
        /\ concat new_tensors = concat old_tensors
        /\ (fun t => Z.of_nat (length t)) <$> new_tensors = new_numels).
Proof.
  intros old_total. subst old_total. unfold _update_legacy_world_tensors.
  split; [|split].
  - intros Hne. by rewrite bool_decide_false.
  - intros Heq ->. by rewrite bool_decide_true.
  - intros Heq Hne Hpos. rewrite bool_decide_true by done. simpl.
    rewrite decide_False by done. simpl.
    rewrite py_sum_lengths in Heq.
    destruct (recut_loop (concat old_tensors) new_numels [] 0 Hpos)
      as [Hconcat Hlens]; [lia|lia|].
    cbv zeta in Hconcat, Hlens.
    destruct (foldl _ _ new_numels) as [new_tensors e].
    exists new_tensors. split; [done|]. simpl in Hconcat, Hlens.
    split; [|done]. rewrite Hconcat, drop_0. apply take_ge. lia.
Qed.

Lemma legacy_recut_keeps_data_witness :
  _update_legacy_world_tensors [[1; 2; 3]; [4; 5]] [2; 2]
  = Raise (AssertionError EmptyString)
  /\ _update_legacy_world_tensors [] []
     = Raise (RuntimeError cat_empty_msg)
  /\ exists new_tensors,
       _update_legacy_world_tensors [[1; 2; 3]; [4; 5]] [1; 0; 4]
       = Ok new_tensors
       /\ concat new_tensors = [1; 2; 3; 4; 5].
Proof.
  split; [|split].
  - apply (legacy_recut_keeps_data [[1; 2; 3]; [4; 5]] [2; 2]).
    vm_compute. discriminate.
  - apply (legacy_recut_keeps_data [] []); reflexivity.
  - destruct (legacy_recut_keeps_data [[1; 2; 3]; [4; 5]] [1; 0; 4])
      as (_ & _ & Hok).
    destruct Hok as (new_tensors & Hrun & Hconcat & _);
      [reflexivity|discriminate|by_decide|].
    exists new_tensors. split; [exact Hrun|exact Hconcat].
Defined.

(** ** The shards of the ranks cover every parameter once *)

(** The entry the mapper records for a parameter, in closed form. *)
Lemma mapper_get (m : list (param_id * world_indexes)) (gs ge bucket_offset : Z)
    (p : param_id) (ws we b : Z) :
  NoDup (Dict.keys m) ->
  (p, (ws, we, b)) ∈ m ->
  Dict.get (_build_model_gbuf_param_range_map m (mkRange gs ge) bucket_offset) p
  = if decide (Z.max ws gs < Z.min we ge) then
      Some {| gbuf_world := mkRange (Z.max ws gs) (Z.min we ge);
              gbuf_world_in_bucket :=
                mkRange (Z.max ws gs - bucket_offset)
                        (Z.min we ge - bucket_offset);
              gbuf_local := mkRange (Z.max ws gs - gs) (Z.min we ge - gs);
              param := mkRange (Z.max 0 (gs - ws))
                               (Z.max 0 (gs - ws)
                                + (Z.min we ge - Z.max ws gs)) |}
    else None.
Proof.
  intros Hnd Hin.
  assert (Hget : Dict.get m p = Some (ws, we, b)) by by apply dict_get_elem.
  pose proof (mapper_fold_get (mkRange gs ge) bucket_offset m [] _ p
                eq_refl Hnd) as Hfold.
  change (foldl _ [] m)
    with (_build_model_gbuf_param_range_map m (mkRange gs ge) bucket_offset)
    in Hfold.
  rewrite Hfold, Hget. clear Hfold. simpl.
  destruct (decide (Z.max ws gs < Z.min we ge)) as [Hlt|Hge].
  - rewrite decide_True by lia. simpl. rewrite decide_True by done.
    unfold normalize, mkRange; simpl. do 2 f_equal; f_equal; lia.
  - rewrite decide_False by lia. done.
Qed.

(** Every element of a parameter that lies in a bucket is owned by exactly
    one rank: with the shards of the partitioner and the range maps of the
    mapper, element [k] of the parameter is in the [param] range of the entry
    of one rank only, and that entry's [gbuf_local] range puts it at the place
    of its world index in the rank's shard. *)
Theorem param_element_owned_once (m : list (param_id * world_indexes))
    (S W O : Z) (p : param_id) (ws we b k : Z)
    (HW : 0 < W) (Hdiv : S `mod` W = 0)
    (Hnd : NoDup (Dict.keys m)) (Hp : (p, (ws, we, b)) ∈ m)
    (Hin_bucket : O <= ws /\ we <= O + S)
    (Hk : 0 <= k < we - ws) :
  exists shards (r : nat) shard e,
    gbuf_world_all_ranges S W O = Ok shards
    /\ shards !! r = Some shard
    /\ Dict.get (_build_model_gbuf_param_range_map m shard O) p = Some e
    /\ in_range k (param e)
    /\ start (gbuf_local e) + (k - start (param e)) = ws + k - start shard
    /\ forall (r' : nat) shard' e',
         shards !! r' = Some shard' ->
         Dict.get (_build_model_gbuf_param_range_map m shard' O) p = Some e' ->
         in_range k (param e') ->
         r' = r.
Proof.
  assert (HS : 0 <= S) by lia.
  pose proof (shard_size_exact S W HW Hdiv) as Hex.
  pose proof (shard_size_nonneg S W HS HW) as Hn.
  set (n := S `div` W) in *.
  assert (0 < n) by nia.
  set (x := ws + k).
  set (r := (x - O) `div` n).
  assert (Hr : 0 <= r < W).
  { subst r. split; [apply Z.div_pos; lia|].
    apply Z.div_lt_upper_bound; [lia|]. nia. }
  assert (Hx : O + r * n <= x < O + (r + 1) * n).
  { pose proof (Z.div_mod (x - O) n ltac:(lia)) as Hdm.
    pose proof (Z.mod_pos_bound (x - O) n ltac:(lia)).
    fold r in Hdm. nia. }
  eexists _, (Z.to_nat r), (mkRange (O + r * n) (O + (r + 1) * n)), _.
  split; [by apply gbuf_world_all_ranges_ok|].
  fold n. split.
  { rewrite list_lookup_fmap, py_range_lookup by lia. simpl.
    rewrite Z2Nat.id by lia. unfold mkRange. do 2 f_equal; nia. }
  rewrite (mapper_get m _ _ O p ws we b Hnd Hp).
  rewrite decide_True by lia.
  split; [done|]. simpl.
  split; [unfold in_range; simpl; lia|]. split; [lia|].
  intros r' shard' e' Hshard' He' Hin.
  apply (shard_range_lookup S W O HS HW Hdiv) in Hshard' as [Hr' ->].
  fold n in He'.
  rewrite (mapper_get m _ _ O p ws we b Hnd Hp) in He'.
  destruct (decide _) as [Hlt|]; [|done].
  injection He' as <-. unfold in_range in Hin. simpl in Hin.
  assert (Z.of_nat r' = r) by nia. lia.
Qed.

Lemma param_element_owned_once_witness :
  exists shards (r : nat) shard e,
    gbuf_world_all_ranges 100 4 0 = Ok shards
    /\ shards !! r = Some shard
    /\ Dict.get (_build_model_gbuf_param_range_map
                   [(0%nat, (0, 30, 0)); (1%nat, (30, 70, 0))] shard 0) 1%nat
       = Some e
    /\ in_range 25 (param e).
Proof.
  destruct (param_element_owned_once
              [(0%nat, (0, 30, 0)); (1%nat, (30, 70, 0))] 100 4 0 1%nat
              30 70 0 25 ltac:(lia) eq_refl ltac:(by_decide)
              ltac:(apply list_elem_of_further, list_elem_of_here)
              ltac:(lia) ltac:(lia))
    as (shards & r & shard & e & Hshards & Hshard & He & Hin & _).
  exists shards, r, shard, e. split_and!; [exact Hshards|exact Hshard|exact He|exact Hin].
Defined.

(** ** The padding fill of the bucket-space encoding *)

Lemma foldM_seq_invariant {S} (f : S -> nat -> result S) (I : nat -> S -> Prop)
    (n : nat) (s : S) :
  I 0%nat s ->
  (forall j s, (j < n)%nat -> I j s -> exists s', f s j = Ok s' /\ I (Datatypes.S j) s') ->
  exists s', foldM f (seq 0 n) s = Ok s' /\ I n s'.
Proof.
  intros H0 Hstep.
  cut (forall m a s, (a + m = n)%nat -> I a s ->
         exists s', foldM f (seq a m) s = Ok s' /\ I n s').
  { intros Hc. by apply (Hc n 0%nat s). }
  clear s H0. induction m as [|m IH]; intros a s Ham HI; simpl.
  - exists s. split; [done|]. by replace n with a by lia.
  - destruct (Hstep a s ltac:(lia) HI) as (s' & -> & HI'). simpl.
    apply IH; [lia|done].
Qed.

Lemma dict_get_app_new {K V} `{EqDecision K} (d : list (K * V)) (k k' : K) (v : V) :
  Dict.get (d ++ [(k, v)]) k'
  = match Dict.get d k' with
    | Some v' => Some v'
    | None => if decide (k = k') then Some v else None
    end.
Proof.
  induction d as [|[k0 v0] d IH]; simpl; [done|].
  destruct (decide (k0 = k')); [done|apply IH].
Qed.

Section weaving.
Context {R : Type}.
Implicit Types (pads : list (nat * R)) (bs : list R).

Lemma weave_app pads i bs1 bs2 :
  weave pads i (bs1 ++ bs2)
  = weave pads i bs1 ++ weave pads (i + length bs1) bs2.
Proof.
  revert i. induction bs1 as [|r bs1 IH]; intros i; simpl.
  - by rewrite Nat.add_0_r.
  - rewrite IH. replace (S i + length bs1)%nat with (i + S (length bs1))%nat by lia.
    by destruct (Dict.get pads i).
Qed.

Lemma weave_ext pads pads' i bs :
  (forall k, (i <= k < i + length bs)%nat -> Dict.get pads k = Dict.get pads' k) ->
  weave pads i bs = weave pads' i bs.
Proof.
  revert i. induction bs as [|r bs IH]; intros i Hk; simpl; [done|].
  rewrite (Hk i) by (simpl; lia).
  rewrite (IH (S i)); [done|]. intros k Hkr. apply Hk. simpl. lia.
Qed.

Lemma weave_none pads i bs :
  (forall k, k ∈ Dict.keys pads -> (k < i)%nat) -> weave pads i bs = bs.
Proof.
  intros Hlt. revert i Hlt. induction bs as [|r bs IH]; intros i Hlt; simpl; [done|].
  rewrite dict_get_None.
  - f_equal. apply IH. intros k Hk. specialize (Hlt k Hk). lia.
  - intros Hi. specialize (Hlt i Hi). lia.
Qed.

Lemma weave_last pads i bs r :
  last (weave pads i (bs ++ [r])) = Some r.
Proof.
  rewrite weave_app. simpl.
  destruct (Dict.get pads (i + length bs)%nat); rewrite last_app; done.
Qed.

(** The insertions of lines 1059-1062, from the last index to the first,
    put every padding record before the record of its index. *)
Lemma insert_from_end (all_pad_tensors : list (nat * R)) pads bs :
  StronglySorted lt (Dict.keys pads) ->
  (forall k, k ∈ Dict.keys pads ->
     (k < length bs)%nat /\ Dict.get all_pad_tensors k = Dict.get pads k) ->
  foldM (fun bucket_state index_to_insert =>
           pad ← or_raise KeyError (Dict.get all_pad_tensors index_to_insert);
           Ok (list_insert_at index_to_insert pad bucket_state))
        (reverse (Dict.keys pads)) bs
  = Ok (weave pads 0 bs).
Proof.
  revert bs. induction pads as [|[k p] pads IH] using rev_ind;
    intros bs Hsorted Hkeys.
  - simpl. by rewrite weave_none by (intros k ?%elem_of_nil; done).
  - unfold Dict.keys in *. rewrite fmap_app in *. simpl in *.
    rewrite reverse_app. simpl.
    apply StronglySorted_app in Hsorted as (Hlt & Hsorted & _).
    assert (Hk_new : k ∉ fst <$> pads).
    { intros Hin. specialize (Hlt k k Hin (list_elem_of_here _ _)). lia. }
    destruct (Hkeys k) as [Hk Hget]; [apply elem_of_app; right; apply list_elem_of_here|].
    rewrite Hget, dict_get_app_new, (dict_get_None pads k) by done.
    rewrite decide_True by done. simpl.
    rewrite IH; [|done|].
    + f_equal. unfold list_insert_at.
      rewrite weave_app, length_take, Nat.min_l by lia. simpl.
      rewrite (dict_get_None pads k) by done.
      rewrite (weave_none pads (S k)).
      2:{ intros k' Hk'. specialize (Hlt k' k Hk' (list_elem_of_here _ _)). lia. }
      rewrite <- (take_drop k bs) at 3.
      rewrite weave_app, length_take, Nat.min_l by lia. simpl.
      f_equal.
      * apply weave_ext. intros k' Hk'. rewrite length_take in Hk'.
        rewrite dict_get_app_new. destruct (Dict.get pads k'); [done|].
        rewrite decide_False by lia. done.
      * destruct (drop k bs) as [|r rest] eqn:Hdrop.
        { apply (f_equal length) in Hdrop. rewrite length_drop in Hdrop.
          simpl in Hdrop. lia. }
        simpl. rewrite dict_get_app_new, (dict_get_None pads k) by done.
        rewrite decide_True by done. do 2 f_equal.
        symmetry. apply weave_none. intros k' Hk'. unfold Dict.keys in Hk'.
        rewrite fmap_app in Hk'. simpl in Hk'.
        apply elem_of_app in Hk' as [Hk'|Hk'%list_elem_of_singleton]; [|lia].
        specialize (Hlt k' k Hk' (list_elem_of_here _ _)). lia.
    + intros k' Hk'.
      destruct (Hkeys k') as [Hk'_lt Hget']; [apply elem_of_app; by left|].
      split.
      * unfold list_insert_at. rewrite length_app, length_take. simpl.
        rewrite length_drop. lia.
      * rewrite Hget', dict_get_app_new.
        destruct (Dict.get pads k') eqn:E; [done|].
        exfalso. pose proof (dict_mem_keys pads k') as Hm.
        unfold Dict.mem in Hm. rewrite E in Hm.
        by rewrite bool_decide_true in Hm.
Qed.
End weaving.

Lemma span_of_padding_record pad s e :
  span_of (padding_record pad s e) = Some (s, e, true).
Proof.
  unfold span_of, padding_record, dict_update, get_int, Dict.mem. simpl.
  rewrite !dict_get_set_eq.
  rewrite (dict_get_set_ne _ "padding" "gbuf_local_end") by done.
  rewrite dict_get_set_eq. simpl.
  rewrite (dict_get_set_ne _ "padding" "gbuf_local_start") by done.
  rewrite (dict_get_set_ne _ "gbuf_local_end" "gbuf_local_start") by done.
  rewrite dict_get_set_eq. done.
Qed.

Lemma pad_tensors_total store src n :
  0 <= n -> exists pad store', pad_tensors store src n = Ok (pad, store').
Proof.
  intros Hn. unfold pad_tensors.
  generalize (@nil (string * pyval)) as pad. revert store.
  induction src as [|[k v] src IH]; intros store pad; simpl; [by eexists _, _|].
  destruct v; simpl; try apply IH.
  rewrite decide_False by lia. unfold torch_empty. simpl. apply IH.
Qed.

Lemma span_of_lookup bs (sp : list (Z * Z * bool)) i r :
  span_of <$> bs = Some <$> sp -> bs !! i = Some r ->
  exists s e,
    sp !! i = Some (s, e, Dict.mem r "padding")
    /\ get_int r "gbuf_local_start" = Ok s
    /\ get_int r "gbuf_local_end" = Ok e.
Proof.
  intros Hsp Hr.
  assert (H : (span_of <$> bs) !! i = (Some <$> sp) !! i) by by rewrite Hsp.
  rewrite !list_lookup_fmap, Hr in H. simpl in H.
  destruct (sp !! i) as [x|]; [|done]. injection H as H.
  unfold span_of in H.
  destruct (get_int r "gbuf_local_start") as [s|]; [|done].
  destruct (get_int r "gbuf_local_end") as [e|]; [|done].
  injection H as <-. by exists s, e.
Qed.

Lemma tiles_app lo mid hi a b :
  tiles lo mid a -> tiles mid hi b -> tiles lo hi (a ++ b).
Proof.
  revert lo. induction a as [|[[s e] f] a IH]; intros lo; simpl.
  - by intros ->.
  - intros [-> Ha] Hb. split; [done|]. by apply IH.
Qed.

Lemma sorted_keys_merge_sort (ks : list nat) :
  StronglySorted lt ks -> merge_sort Nat.le ks = ks.
Proof.
  intros Hs. apply (StronglySorted_unique Nat.le).
  - apply StronglySorted_merge_sort; apply _.
  - clear -Hs. induction Hs as [|k ks Hs IH Hall]; constructor; [done|].
    eapply Forall_impl; [done|]. intros; simpl in *; lia.
  - apply merge_sort_Permutation.
Qed.

(** The woven list tiles from the end of the record before it (or the start
    of the first record) to the end of the last record, and its records
    without the key ["padding"] are the original ones. *)
Lemma weave_spans (bs : list (list (string * pyval))) (sp : list (Z * Z * bool))
    (pads : list (nat * list (string * pyval))) (hi : Z) :
  span_of <$> bs = Some <$> sp ->
  (forall i x, sp !! i = Some x -> x.2 = false) ->
  (forall k, k ∈ Dict.keys pads -> (1 <= k)%nat) ->
  (forall k, (1 <= k < length sp)%nat ->
     exists a b,
       sp !! (k - 1)%nat = Some a /\ sp !! k = Some b
       /\ match Dict.get pads k with
          | Some rec => span_of rec = Some (a.1.2, b.1.1, true)
          | None => a.1.2 = b.1.1
          end) ->
  (exists x, last sp = Some x /\ x.1.2 = hi) ->
  forall todo pre lo,
    bs = pre ++ todo ->
    (pre = [] -> exists x, sp !! 0%nat = Some x /\ lo = x.1.1) ->
    (pre <> [] -> exists x, sp !! (length pre - 1)%nat = Some x /\ lo = x.1.2) ->
    exists sp_w,
      span_of <$> weave pads (length pre) todo = Some <$> sp_w
      /\ tiles lo hi sp_w
      /\ filter (fun r => Dict.mem r "padding" = false)
                (weave pads (length pre) todo) = todo.
Proof.
  intros Hsp Hflags Hkeys Hgap (xl & Hlast & Hhi).
  assert (Hlen : length bs = length sp).
  { apply (f_equal length) in Hsp. by rewrite !length_fmap in Hsp. }
  intros todo. induction todo as [|r todo IH]; intros pre lo Hbs Hfirst Hrest.
  - exists []. simpl. split; [done|]. split; [|done].
    rewrite app_nil_r in Hbs. subst pre.
    assert (Hne : bs <> []).
    { intros ->. destruct sp; done. }
    destruct (Hrest Hne) as (x & Hx & ->).
    rewrite Hlen in Hx.
    replace (length sp - 1)%nat with (pred (length sp)) in Hx by lia.
    rewrite <- last_lookup, Hlast in Hx. by injection Hx as <-.
  - assert (Hr : bs !! length pre = Some r).
    { rewrite Hbs, lookup_app_r, Nat.sub_diag by lia. done. }
    destruct (span_of_lookup bs sp _ r Hsp Hr) as (s & e & Hspi & Hs & He).
    assert (Hmem : Dict.mem r "padding" = false).
    { by apply (Hflags _ _ Hspi). }
    rewrite Hmem in Hspi.
    assert (Hspan : span_of r = Some (s, e, false)).
    { unfold span_of. by rewrite Hs, He, Hmem. }
    destruct (IH (pre ++ [r]) e) as (sp_w & Hspans & Htiles & Hfilter).
    { by rewrite <- app_assoc. }
    { intros [_ ?]%app_eq_nil. done. }
    { intros _. exists (s, e, false). rewrite length_app. simpl.
      replace (length pre + 1 - 1)%nat with (length pre) by lia. done. }
    rewrite length_app in Hspans, Hfilter. simpl in Hspans, Hfilter.
    rewrite Nat.add_1_r in Hspans, Hfilter.
    simpl. destruct pre as [|r0 pre'].
    + simpl in *. destruct (Hfirst eq_refl) as (x & Hx & ->).
      rewrite Hspi in Hx. injection Hx as <-. simpl.
      rewrite dict_get_None.
      2:{ intros H0. specialize (Hkeys _ H0). lia. }
      exists ((s, e, false) :: sp_w). rewrite !fmap_cons, Hspan, Hspans.
      split; [done|]. split; [by simpl|].
      rewrite filter_cons_True by done. by rewrite Hfilter.
    + destruct (Hrest ltac:(done)) as (x & Hx & ->).
      destruct (Hgap (length (r0 :: pre'))) as (a & b & Ha & Hb & Hpad).
      { split; [simpl; lia|]. apply lookup_lt_Some in Hspi. done. }
      rewrite Hx in Ha. injection Ha as <-.
      rewrite Hspi in Hb. injection Hb as <-. cbn [fst snd] in Hpad.
      destruct (Dict.get pads (length (r0 :: pre'))) as [rec|];
        cbv beta iota in Hpad.
      * exists ((x.1.2, s, true) :: (s, e, false) :: sp_w).
        rewrite !fmap_cons, Hpad, Hspan, Hspans.
        split; [done|]. split; [by simpl|].
        rewrite filter_cons_False.
        2:{ unfold span_of in Hpad.
            destruct (get_int rec "gbuf_local_start"); [|done].
            destruct (get_int rec "gbuf_local_end"); [|done].
            injection Hpad as _ _ ->. done. }
        rewrite filter_cons_True by done. by rewrite Hfilter.
      * exists ((s, e, false) :: sp_w).
        rewrite !fmap_cons, Hspan, Hspans.
        split; [done|]. split; [by simpl|].
        rewrite filter_cons_True by done. by rewrite Hfilter.
Qed.

Lemma padding_record_mem pad s e :
  Dict.mem (padding_record pad s e) "padding" = true.
Proof.
  unfold padding_record, dict_update, Dict.mem. simpl.
  by rewrite dict_get_set_eq.
Qed.

(** The padding fill (lines 1037-1079) on records in the order of their
    spans, none overlapping the next, the last ending within the shard: it
    returns; the spans of the records it returns tile the shard from the
    start of the first record to [gbuf_local_numel], each starting where the
    one before it ends; and the records without the key ["padding"] are the
    records it was given, in their order. Nothing is put before the first
    record. *)
Theorem fill_padding_tiles (store : Store)
    (bucket_state : list (list (string * pyval))) (gbuf_local_numel : Z)
    (sp : list (Z * Z * bool)) (first last_ : Z * Z * bool)
    (Hsp : span_of <$> bucket_state = Some <$> sp)
    (Hflags : forall i x, sp !! i = Some x -> x.2 = false)
    (Hord : forall i a b,
       sp !! i = Some a -> sp !! S i = Some b -> a.1.2 <= b.1.1)
    (Hfirst : sp !! 0%nat = Some first)
    (Hlast : last sp = Some last_)
    (Hend : last_.1.2 <= gbuf_local_numel) :
  exists bucket_state' store' sp',
    fill_padding store bucket_state gbuf_local_numel
    = Ok (bucket_state', store')
    /\ span_of <$> bucket_state' = Some <$> sp'
    /\ tiles first.1.1 gbuf_local_numel sp'
    /\ filter (fun r => Dict.mem r "padding" = false) bucket_state'
       = bucket_state.
Proof.
  assert (Hlen : length bucket_state = length sp).
  { apply (f_equal length) in Hsp. by rewrite !length_fmap in Hsp. }
  pose (J := fun (j : nat)
                 (st : list (nat * list (string * pyval)) * Store) =>
    StronglySorted lt (Dict.keys st.1)
    /\ (forall k, k ∈ Dict.keys st.1 -> (1 <= k <= j)%nat)
    /\ (forall k, (1 <= k <= j)%nat ->
          exists a b,
            sp !! (k - 1)%nat = Some a /\ sp !! k = Some b
            /\ match Dict.get st.1 k with
               | Some rec => span_of rec = Some (a.1.2, b.1.1, true)
               | None => a.1.2 = b.1.1
               end)).
  unfold fill_padding.
  match goal with |- context [foldM ?f (seq 0 ?n) ?s0] =>
    destruct (foldM_seq_invariant f J n s0) as ([pads store1] & -> & HJ)
  end.
  { split; [constructor|]. split; [by intros k ?%elem_of_nil|]. intros; lia. }
  { intros j [pads store0] Hj (Hsorted & Hkeys & Hgap). simpl in *.
    destruct (lookup_lt_is_Some_2 bucket_state (j + 1)) as [next Hnext]; [lia|].
    destruct (lookup_lt_is_Some_2 bucket_state j) as [cur Hcur]; [lia|].
    destruct (span_of_lookup _ _ _ _ Hsp Hnext) as (s' & e' & Hsp' & Hs' & _).
    destruct (span_of_lookup _ _ _ _ Hsp Hcur) as (s & e & Hspj & _ & He).
    rewrite Hnext. simpl. rewrite Hs'. simpl. rewrite Hcur. simpl.
    rewrite He. simpl.
    replace (j + 1)%nat with (S j) in * by lia.
    pose proof (Hord _ _ _ Hspj Hsp') as Hle. simpl in Hle.
    assert (Hold : forall k, (1 <= k <= j)%nat ->
              forall v, Dict.get (Dict.set pads (S j) v) k = Dict.get pads k).
    { intros k Hk v. apply dict_get_set_ne. lia. }
    destruct (decide (s' <> e)) as [Hne|Heq].
    - destruct (pad_tensors_total store0 cur (s' - e)) as (pad & store' & ->);
        [lia|].
      simpl. eexists. split; [done|]. unfold J. cbn [fst snd].
      assert (Hnew : S j ∉ Dict.keys pads).
      { intros Hin. specialize (Hkeys _ Hin). lia. }
      rewrite dict_keys_set_new by done. split; [|split].
      + unfold Dict.keys. rewrite fmap_app. simpl.
        apply StronglySorted_app_2; [|done|repeat constructor].
        intros k1 k2 Hk1 ->%list_elem_of_singleton.
        specialize (Hkeys _ Hk1). lia.
      + intros k Hk. unfold Dict.keys in Hk. rewrite fmap_app in Hk.
        apply elem_of_app in Hk as [Hk|Hk%list_elem_of_singleton];
          [|simpl in Hk; lia].
        specialize (Hkeys _ Hk). lia.
      + intros k Hk. destruct (decide (k = S j)) as [->|Hkj].
        * exists (s, e, Dict.mem cur "padding"), (s', e', Dict.mem next "padding").
          replace (S j - 1)%nat with j by lia.
          split; [done|]. split; [done|].
          rewrite dict_get_app_new, (dict_get_None pads (S j)) by done.
          rewrite decide_True by done. apply span_of_padding_record.
        * destruct (Hgap k ltac:(lia)) as (a & b & Ha & Hb & Hpad).
          exists a, b. split; [done|]. split; [done|].
          rewrite dict_get_app_new. destruct (Dict.get pads k); [done|].
          by rewrite decide_False by lia.
    - eexists. split; [done|]. unfold J. cbn [fst snd]. split; [done|]. split.
      + intros k Hk. specialize (Hkeys _ Hk). lia.
      + intros k Hk. destruct (decide (k = S j)) as [->|Hkj].
        * exists (s, e, Dict.mem cur "padding"), (s', e', Dict.mem next "padding").
          replace (S j - 1)%nat with j by lia.
          split; [done|]. split; [done|].
          rewrite dict_get_None.
          -- simpl. lia.
          -- intros Hin. specialize (Hkeys _ Hin). lia.
        * apply Hgap. lia. }
  destruct HJ as (Hsorted & Hkeys & Hgap). simpl in Hsorted, Hkeys, Hgap.
  simpl. rewrite sorted_keys_merge_sort by done.
  rewrite (insert_from_end pads pads bucket_state Hsorted).
  2:{ intros k Hk. specialize (Hkeys _ Hk). split; [lia|done]. }
  simpl.
  destruct (weave_spans bucket_state sp pads last_.1.2 Hsp Hflags)
    with (todo := bucket_state)
         (pre := @nil (list (string * pyval))) (lo := first.1.1)
    as (sp_w & Hspans & Htiles & Hfilter).
  { intros k Hk. specialize (Hkeys _ Hk). lia. }
  { intros k Hk. apply Hgap. lia. }
  { by exists last_. }
  { done. }
  { intros _. by exists first. }
  { done. }
  simpl in Hspans, Hfilter.
  destruct (last bucket_state) as [last_record|] eqn:Hlast_record.
  2:{ apply last_None in Hlast_record. subst bucket_state.
      destruct sp; [done|done]. }
  assert (Hlast_w : last (weave pads 0 bucket_state) = Some last_record).
  { apply last_Some in Hlast_record as (init & ->). apply weave_last. }
  rewrite Hlast_w. simpl.
  assert (Hlast_span : get_int last_record "gbuf_local_end" = Ok last_.1.2).
  { rewrite last_lookup in Hlast_record.
    destruct (span_of_lookup _ _ _ _ Hsp Hlast_record) as (s & e & Hx & _ & He).
    rewrite Hlen, <- last_lookup, Hlast in Hx. injection Hx as ->. done. }
  rewrite Hlast_span. simpl.
  destruct (decide (last_.1.2 <> gbuf_local_numel)) as [Hne|Heq].
  - destruct (pad_tensors_total store1 last_record
                (gbuf_local_numel - last_.1.2)) as (pad & store' & ->); [lia|].
    simpl. eexists _, _, (sp_w ++ [(last_.1.2, gbuf_local_numel, true)]).
    split; [done|]. rewrite !fmap_app, Hspans. simpl.
    rewrite span_of_padding_record. split; [done|]. split.
    + eapply tiles_app; [done|]. simpl. done.
    + rewrite filter_app, Hfilter, filter_cons_False, filter_nil.
      * by rewrite app_nil_r.
      * by rewrite padding_record_mem.
  - eexists _, _, sp_w. split; [done|]. split; [done|]. split; [|done].
    assert (last_.1.2 = gbuf_local_numel) as <- by lia. done.
Qed.

Lemma fill_padding_tiles_witness :
  exists bucket_state' store' sp',
    fill_padding leading_gap_store
      [[("param", VTensor 10%nat); ("gbuf_local_start", VInt 1);
        ("gbuf_local_end", VInt 3)];
       [("param", VTensor 11%nat); ("gbuf_local_start", VInt 5);
        ("gbuf_local_end", VInt 6)]] 8
    = Ok (bucket_state', store')
    /\ span_of <$> bucket_state' = Some <$> sp'
    /\ tiles 1 8 sp'.
Proof.
  destruct (fill_padding_tiles leading_gap_store
              [[("param", VTensor 10%nat); ("gbuf_local_start", VInt 1);
                ("gbuf_local_end", VInt 3)];
               [("param", VTensor 11%nat); ("gbuf_local_start", VInt 5);
                ("gbuf_local_end", VInt 6)]] 8
              [(1, 3, false); (5, 6, false)] (1, 3, false) (5, 6, false))
    as (bucket_state' & store' & sp' & Hrun & Hspans & Htiles & _).
  - reflexivity.
  - intros [|[|i]] x [= <-]; reflexivity.
  - intros [|[|i]] a b [= <-] [= <-]. simpl. lia.
  - reflexivity.
  - reflexivity.
  - simpl. lia.
  - exists bucket_state', store', sp'.
    split; [exact Hrun|]. split; [exact Hspans|exact Htiles].
Defined.

(** ** Restoring the bucket-space state *)

Lemma copies_ok_app_l cs1 cs2 store :
  copies_ok (cs1 ++ cs2) store -> copies_ok cs1 store.
Proof.
  intros [Hnd Hcs]. rewrite fmap_app in Hnd. split.
  - by apply NoDup_app in Hnd as (? & _ & _).
  - intros d s Hin. destruct (Hcs d s) as [Hs Hlen]; [apply elem_of_app; by left|].
    split; [|done]. destruct Hs as [->|Hs]; [by left|right].
    rewrite fmap_app, not_elem_of_app in Hs. by destruct Hs.
Qed.

Lemma copies_ok_app_r cs1 cs2 store store1 :
  copies_ok (cs1 ++ cs2) store -> copied cs1 store store1 ->
  copies_ok cs2 store1
  /\ forall d s, (d, s) ∈ cs2 -> tensor_of store1 s = tensor_of store s.
Proof.
  intros [Hnd Hcs] [_ Hframe]. rewrite fmap_app in Hnd.
  apply NoDup_app in Hnd as (_ & Hdisj & Hnd2).
  assert (Hd : forall d s, (d, s) ∈ cs2 -> d ∉ cs1.*1).
  { intros d s Hin Hin1. apply (Hdisj _ Hin1).
    by apply (list_elem_of_fmap_2 fst _ (d, s)). }
  assert (Hs : forall d s, (d, s) ∈ cs2 -> s ∉ cs1.*1).
  { intros d s Hin. destruct (Hcs d s) as [[->|Hs] _]; [apply elem_of_app; by right| |].
    - by eapply Hd.
    - rewrite fmap_app, not_elem_of_app in Hs. by destruct Hs. }
  split; [split; [done|]|].
  - intros d s Hin. destruct (Hcs d s) as [Hsrc Hlen]; [apply elem_of_app; by right|].
    split.
    + destruct Hsrc as [->|Hsrc]; [by left|right].
      rewrite fmap_app, not_elem_of_app in Hsrc. by destruct Hsrc.
    + rewrite !Hframe; [done|by eapply Hs|by eapply Hd].
  - intros d s Hin. apply Hframe. by eapply Hs.
Qed.

Lemma copied_app cs1 cs2 store store1 store2 :
  copies_ok (cs1 ++ cs2) store ->
  copied cs1 store store1 -> copied cs2 store1 store2 ->
  copied (cs1 ++ cs2) store store2.
Proof.
  intros Hok H1 H2.
  destruct (copies_ok_app_r _ _ _ _ Hok H1) as [_ Hsrc].
  destruct Hok as [Hnd _]. rewrite fmap_app in Hnd.
  apply NoDup_app in Hnd as (_ & Hdisj & _).
  destruct H1 as [Hv1 Hf1], H2 as [Hv2 Hf2]. split.
  - intros d s [Hin|Hin]%elem_of_app.
    + rewrite Hf2; [by apply Hv1|].
      apply Hdisj. by apply (list_elem_of_fmap_2 fst _ (d, s)).
    + rewrite (Hv2 d s Hin). f_equal. by eapply Hsrc.
  - intros t Hnot. rewrite fmap_app, not_elem_of_app in Hnot. destruct Hnot.
    rewrite Hf2 by done. by apply Hf1.
Qed.

Lemma performs_nil : performs Ok [].
Proof.
  intros store _. exists store. split; [done|]. split; [|done].
  by intros d s ?%elem_of_nil.
Qed.

Lemma performs_seq f g cs1 cs2 :
  performs f cs1 -> performs g cs2 ->
  performs (fun store => store' ← f store; g store') (cs1 ++ cs2).
Proof.
  intros Hf Hg store Hok.
  destruct (Hf store) as (store1 & -> & H1); [by eapply copies_ok_app_l|].
  destruct (copies_ok_app_r _ _ _ _ Hok H1) as [Hok2 _].
  destruct (Hg store1 Hok2) as (store2 & Hrun & H2).
  exists store2. split; [done|]. by eapply copied_app.
Qed.

Lemma performs_ext f g cs :
  (forall store, f store = g store) -> performs f cs -> performs g cs.
Proof.
  intros Hfg Hf store Hok. rewrite <- Hfg. by apply Hf.
Qed.

Lemma performs_foldM {A} (f : Store -> A -> result Store)
    (C : A -> list (tensor_id * tensor_id)) (xs : list A) :
  (forall x, x ∈ xs -> performs (fun store => f store x) (C x)) ->
  performs (foldM f xs) (xs ≫= C).
Proof.
  induction xs as [|x xs IH]; intros Hxs; [apply performs_nil|].
  simpl. apply (performs_seq (fun store => f store x) (foldM f xs)).
  - apply Hxs, list_elem_of_here.
  - apply IH. intros y Hy. by apply Hxs, list_elem_of_further.
Qed.

Lemma performs_copy d s :
  performs (fun store => copy_ store d (values (tensor_of store s))) [(d, s)].
Proof.
  intros store [_ Hcs].
  destruct (Hcs d s) as [_ Hlen]; [apply list_elem_of_here|].
  destruct (copy__fits store d _ Hlen) as (store' & Hrun & Hv & Hframe).
  exists store'. split; [done|]. split.
  - by intros d' s' [= -> ->]%list_elem_of_singleton.
  - intros t Ht. apply Hframe. intros ->. apply Ht. simpl. apply list_elem_of_here.
Qed.

Lemma foldM_flatten {A B S} (f : S -> A -> result S) (step : S -> B -> result S)
    (C : A -> list B) (xs : list A) (s : S) :
  (forall s x, x ∈ xs -> f s x = foldM step (C x) s) ->
  foldM f xs s = foldM step (xs ≫= C) s.
Proof.
  intros Hf. rewrite <- foldM_bind. by apply foldM_ext.
Qed.

Lemma foldM_singleton {A S} (f : S -> A -> result S) (x : A) (s : S) :
  foldM f [x] s = f s x.
Proof. simpl. by destruct (f s x). Qed.

(** Under the lookups that a fitting checkpoint grants, the restore is the
    sequence of its copies, each made under the grad mode of the call. *)
Lemma copy_state_tensors_flat grad_enabled self dst_tensors src_tensors store :
  (forall key dst, (key, dst) ∈ dst_tensors ->
     exists src, Dict.get src_tensors key = Some (VTensor src)) ->
  copy_state_tensors grad_enabled self dst_tensors src_tensors store
  = foldM (copy_step grad_enabled self)
          (record_copies dst_tensors src_tensors) store.
Proof.
  intros Hkeys. unfold copy_state_tensors, record_copies.
  apply (foldM_flatten _ _
           (fun item : string * tensor_id =>
              match Dict.get src_tensors item.1 with
              | Some (VTensor src) => [(item.2, src)]
              | _ => []
              end)).
  intros s [key dst] Hin. destruct (Hkeys key dst Hin) as [src Hsrc].
  cbn [fst snd]. rewrite Hsrc, foldM_singleton. reflexivity.
Qed.

Lemma filterM_padding store (bucket_state : list (list (string * pyval))) :
  (forall record, record ∈ bucket_state ->
     exists flag, Dict.get record "padding" = Some (VBool flag)) ->
  filterM (fun bucket_state_elem =>
             padding ← or_raise KeyError (Dict.get bucket_state_elem "padding");
             negb <$> py_bool store padding)
          bucket_state
  = Ok (filter (fun r => is_param_record r = true) bucket_state).
Proof.
  induction bucket_state as [|r rs IH]; intros Hflags; [done|].
  simpl. destruct (Hflags r (list_elem_of_here _ _)) as [flag Hflag].
  rewrite Hflag. simpl.
  rewrite IH by (intros r' Hr'; by apply Hflags, list_elem_of_further). simpl.
  assert (Hr : is_param_record r = negb flag).
  { unfold is_param_record. rewrite Hflag. by destruct flag. }
  destruct flag; simpl.
  - rewrite filter_cons_False; [done|]. rewrite Hr. done.
  - rewrite filter_cons_True; [done|]. by rewrite Hr.
Qed.

Lemma load_bucket_state_flat grad_enabled self bucket_state gbuf_range_map
    store :
  (forall record, record ∈ bucket_state ->
     exists flag, Dict.get record "padding" = Some (VBool flag)) ->
  length (filter (fun r => is_param_record r = true) bucket_state)
  = length (param_map gbuf_range_map) ->
  (forall i src_tensors model_param param_range_map,
     filter (fun r => is_param_record r = true) bucket_state !! i
       = Some src_tensors ->
     param_map gbuf_range_map !! i = Some (model_param, param_range_map) ->
     exists dst_tensors,
       dst_tensors_of self model_param = Ok dst_tensors
       /\ forall key dst, (key, dst) ∈ dst_tensors ->
            exists src, Dict.get src_tensors key = Some (VTensor src)) ->
  load_bucket_state grad_enabled self bucket_state gbuf_range_map store
  = foldM (copy_step grad_enabled self)
          (bucket_copies self
             (filter (fun r => is_param_record r = true) bucket_state)
             gbuf_range_map)
          store.
Proof.
  intros Hflags Hlen Hrecords. unfold load_bucket_state.
  rewrite (filterM_padding store bucket_state Hflags). simpl.
  rewrite bool_decide_true by done. simpl.
  unfold bucket_copies.
  apply (foldM_flatten _ _
           (fun item : list (string * pyval) * (param_id * ParamRanges) =>
              match dst_tensors_of self item.2.1 with
              | Ok dst_tensors => record_copies dst_tensors item.1
              | Raise _ => []
              end)).
  intros s [src_tensors [model_param param_range_map]] Hin.
  apply list_elem_of_lookup in Hin as [i Hi].
  apply lookup_zip_with_Some in Hi as (a & b & [= <- <-] & Ha & Hb).
  destruct (Hrecords i _ _ _ Ha Hb) as (dst_tensors & Hdst & Hkeys).
  cbn [fst snd]. rewrite Hdst. simpl. by apply copy_state_tensors_flat.
Qed.

Lemma elem_of_bucket_places (gbuf_ranges : gbuf_ranges_t) gbuf_idx dtype
    bucket_idx gbuf_range_map :
  (gbuf_idx, dtype, bucket_idx, gbuf_range_map) ∈ bucket_places gbuf_ranges
  <-> exists (gbuf_range_maps : gbuf_range_map_t) all_buckets,
        gbuf_ranges !! gbuf_idx = Some gbuf_range_maps
        /\ (dtype, all_buckets) ∈ gbuf_range_maps
        /\ all_buckets !! bucket_idx = Some gbuf_range_map.
Proof.
  unfold bucket_places. rewrite list_elem_of_bind. split.
  - intros ([g maps] & Hin & Hg%elem_of_enumerate).
    apply list_elem_of_bind in Hin as ([dt all_buckets] & Hin & Hdt).
    apply list_elem_of_bind in Hin as ([b m] & Hin & Hb%elem_of_enumerate).
    apply list_elem_of_singleton in Hin as [= -> -> -> ->].
    by exists maps, all_buckets.
  - intros (maps & all_buckets & Hg & Hdt & Hb).
    exists (gbuf_idx, maps). split; [|by apply elem_of_enumerate].
    apply list_elem_of_bind. exists (dtype, all_buckets). split; [|done].
    apply list_elem_of_bind. exists (bucket_idx, gbuf_range_map).
    split; [apply list_elem_of_here|by apply elem_of_enumerate].
Qed.

Lemma bucket_places_bind {C} (gbuf_ranges : gbuf_ranges_t)
    (F : nat * dtype_pair * nat * GbufRange -> list C) :
  bucket_places gbuf_ranges ≫= F
  = enumerate gbuf_ranges ≫= fun gm =>
      (gm.2 : gbuf_range_map_t) ≫= fun dm =>
        enumerate dm.2 ≫= fun bm => F (gm.1, dm.1, bm.1, bm.2).
Proof.
  unfold bucket_places. rewrite list_bind_bind.
  apply list_bind_ext; [|done]. intros [g maps]. simpl.
  rewrite list_bind_bind. apply list_bind_ext; [|done]. intros [dt all_buckets].
  simpl. rewrite list_bind_bind. apply list_bind_ext; [|done]. intros [b m].
  simpl. by rewrite app_nil_r.
Qed.

Lemma load_fs_bucket_space_flat grad_enabled self sd store :
  bucket_space_wf self sd store ->
  forall store0,
    load_parameter_state_from_fs_bucket_space grad_enabled self (Some sd) store0
    = foldM (copy_step grad_enabled self) (bucket_space_copies self sd) store0.
Proof.
  intros [Htables Hdtype Hbucket Hrecords _] store0.
  unfold bucket_space_copies. rewrite bucket_places_bind.
  unfold load_parameter_state_from_fs_bucket_space.
  assert (match bs_per_bucket_numel_unpadded sd with
          | Some t => tables_eqb (DistOpt.per_bucket_numel_unpadded self) t
          | None => true
          end = true) as Ht.
  { destruct (bs_per_bucket_numel_unpadded sd) as [t|]; [by apply Htables|done]. }
  destruct (bs_per_bucket_numel_unpadded sd) as [t|]; rewrite ?Ht; simpl.
  all: apply (foldM_flatten _ _
    (fun gm : nat * gbuf_range_map_t =>
       gm.2 ≫= fun dm : dtype_pair * list GbufRange =>
         enumerate dm.2 ≫= fun bm : nat * GbufRange =>
           bucket_copies self
             (filter (fun r => is_param_record r = true)
                     (default [] (bucket_state_of sd gm.1 dm.1 bm.1)))
             bm.2)).
  all: intros s1 [gbuf_idx gbuf_range_maps] Hg%elem_of_enumerate.
  all: rewrite bool_decide_true
    by (apply Hdtype; by eapply list_elem_of_lookup_2).
  all: simpl.
  all: apply (foldM_flatten _ _
    (fun dm : dtype_pair * list GbufRange =>
       enumerate dm.2 ≫= fun bm : nat * GbufRange =>
         bucket_copies self
           (filter (fun r => is_param_record r = true)
                   (default [] (bucket_state_of sd gbuf_idx dm.1 bm.1)))
           bm.2)).
  all: intros s2 [dtype all_buckets] Hdt.
  all: apply (foldM_flatten _ _
    (fun bm : nat * GbufRange =>
       bucket_copies self
         (filter (fun r => is_param_record r = true)
                 (default [] (bucket_state_of sd gbuf_idx dtype bm.1)))
         bm.2)).
  all: intros s3 [bucket_idx gbuf_range_map] Hb%elem_of_enumerate.
  all: assert ((gbuf_idx, dtype, bucket_idx, gbuf_range_map)
               ∈ bucket_places (DistOpt.gbuf_ranges self)) as Hplace
    by (apply elem_of_bucket_places; by exists gbuf_range_maps, all_buckets).
  all: destruct (Hbucket gbuf_idx dtype bucket_idx gbuf_range_map Hplace)
    as (bucket_state & Hstate & Hflags & Hlen).
  all: cbn [fst snd]; rewrite Hstate; simpl default.
  all: rewrite <- (load_bucket_state_flat grad_enabled self bucket_state
                     gbuf_range_map s3 Hflags Hlen).
  2, 4: intros i src p prm Hsrc Hp;
    destruct (Hrecords _ _ _ _ _ i src p prm Hplace Hstate Hsrc Hp)
      as (dst_tensors & Hdst & Hkeys);
    exists dst_tensors; (split; [done|]); intros key dst Hin;
    destruct (Hkeys key dst Hin) as (s & Hs & _); by exists s.
  all: unfold bucket_state_of in Hstate.
  all: destruct (Dict.get (bs_gbufs sd) gbuf_idx) as [by_dtype|]; [|done].
  all: simpl in Hstate |- *.
  all: destruct (Dict.get by_dtype dtype) as [buckets_state|]; [|done].
  all: simpl in Hstate |- *; rewrite Hstate; done.
Qed.

Lemma list_bind_ext_elem {A B} (f g : A -> list B) (xs : list A) :
  (forall x, x ∈ xs -> f x = g x) -> xs ≫= f = xs ≫= g.
Proof.
  induction xs as [|x xs IH]; intros Hfg; [done|].
  change ((x :: xs) ≫= f) with (f x ++ (xs ≫= f)).
  change ((x :: xs) ≫= g) with (g x ++ (xs ≫= g)).
  rewrite (Hfg x (list_elem_of_here _ _)), IH; [done|].
  intros y Hy. by apply Hfg, list_elem_of_further.
Qed.

Lemma bind_zip_fmap {A B C D} (h : C -> D) (F : A * B -> list C)
    (G : B -> list D) (l : list A) (k : list B) :
  length l = length k ->
  (forall i a b, l !! i = Some a -> k !! i = Some b -> h <$> F (a, b) = G b) ->
  h <$> (zip l k ≫= F) = k ≫= G.
Proof.
  revert k. induction l as [|a l IH]; intros [|b k] Hlen HFG; try done.
  simpl in Hlen.
  change (zip (a :: l) (b :: k) ≫= F) with (F (a, b) ++ (zip l k ≫= F)).
  change ((b :: k) ≫= G) with (G b ++ (k ≫= G)).
  rewrite fmap_app, (HFG 0%nat a b eq_refl eq_refl), IH; [done|lia|].
  intros i a' b' Ha Hb. by apply (HFG (S i)).
Qed.

Lemma record_copies_targets dst_tensors src_tensors :
  (forall key dst, (key, dst) ∈ dst_tensors ->
     exists src, Dict.get src_tensors key = Some (VTensor src)) ->
  (record_copies dst_tensors src_tensors).*1 = dst_tensors.*2.
Proof.
  unfold record_copies.
  induction dst_tensors as [|[key dst] dst_tensors IH]; intros Hkeys; [done|].
  change ((?x :: ?xs) ≫= ?f) with (f x ++ (xs ≫= f)).
  rewrite fmap_app, IH by (intros k d Hin; by apply (Hkeys k d), list_elem_of_further).
  destruct (Hkeys key dst (list_elem_of_here _ _)) as [src Hsrc].
  simpl. rewrite Hsrc. done.
Qed.

Lemma elem_of_record_copies dst_tensors src_tensors d s :
  (d, s) ∈ record_copies dst_tensors src_tensors
  <-> exists key, (key, d) ∈ dst_tensors
                  /\ Dict.get src_tensors key = Some (VTensor s).
Proof.
  unfold record_copies. rewrite list_elem_of_bind. split.
  - intros ([key dst] & Hin & Hitem). simpl in Hin.
    destruct (Dict.get src_tensors key) as [[src| | | |]|] eqn:Hsrc;
      try by apply elem_of_nil in Hin.
    apply list_elem_of_singleton in Hin as [= -> ->]. by exists key.
  - intros (key & Hin & Hsrc). exists (key, d). split; [|done].
    simpl. rewrite Hsrc. apply list_elem_of_here.
Qed.

Lemma elem_of_bucket_space_copies self sd d s :
  (d, s) ∈ bucket_space_copies self sd
  <-> exists gbuf_idx dtype bucket_idx gbuf_range_map i src_tensors
             model_param param_range_map dst_tensors key,
        (gbuf_idx, dtype, bucket_idx, gbuf_range_map)
          ∈ bucket_places (DistOpt.gbuf_ranges self)
        /\ filter (fun r => is_param_record r = true)
                  (default [] (bucket_state_of sd gbuf_idx dtype bucket_idx)) !! i
           = Some src_tensors
        /\ param_map gbuf_range_map !! i = Some (model_param, param_range_map)
        /\ dst_tensors_of self model_param = Ok dst_tensors
        /\ (key, d) ∈ dst_tensors
        /\ Dict.get src_tensors key = Some (VTensor s).
Proof.
  unfold bucket_space_copies, bucket_copies. rewrite list_elem_of_bind. split.
  - intros ([[[g dt] b] m] & Hin & Hplace). cbn [fst snd] in Hin.
    apply list_elem_of_bind in Hin as ([src [p prm]] & Hin & Hzip).
    cbn [fst snd] in Hin.
    apply list_elem_of_lookup in Hzip as [i Hi].
    apply lookup_zip_with_Some in Hi as (a & c & [= <- <-] & Ha & Hc).
    destruct (dst_tensors_of self p) as [dst_tensors|] eqn:Hdst;
      [|by apply elem_of_nil in Hin].
    apply elem_of_record_copies in Hin as (key & Hkey & Hsrc).
    by exists g, dt, b, m, i, src, p, prm, dst_tensors, key.
  - intros (g & dt & b & m & i & src & p & prm & dst_tensors & key
            & Hplace & Hsrc & Hp & Hdst & Hkey & Hget).
    exists (g, dt, b, m). split; [|done]. cbn [fst snd].
    apply list_elem_of_bind. exists (src, (p, prm)). split.
    + cbn [fst snd]. rewrite Hdst. apply elem_of_record_copies. by exists key.
    + apply (list_elem_of_lookup_2 _ i).
      apply lookup_zip_with_Some. by exists src, (p, prm).
Qed.

Lemma bucket_space_copies_targets self sd store :
  bucket_space_wf self sd store ->
  (bucket_space_copies self sd).*1 = restore_targets self.
Proof.
  intros [_ _ Hbucket Hrecords _].
  unfold bucket_space_copies, restore_targets.
  rewrite list_fmap_bind_r. apply list_bind_ext_elem.
  intros [[[g dt] b] m] Hplace. cbn [fst snd].
  destruct (Hbucket g dt b m Hplace) as (bucket_state & Hstate & _ & Hlen).
  rewrite Hstate. simpl default. unfold bucket_copies.
  apply (bind_zip_fmap fst
           (fun item : list (string * pyval) * (param_id * ParamRanges) =>
              match dst_tensors_of self item.2.1 with
              | Ok dst_tensors => record_copies dst_tensors item.1
              | Raise _ => []
              end)
           (fun item : param_id * ParamRanges =>
              let '(model_param, _) := item in
              match dst_tensors_of self model_param with
              | Ok dst_tensors => dst_tensors.*2
              | Raise _ => []
              end)); [done|].
  intros i src [p prm] Hsrc Hp. cbn [fst snd].
  destruct (Hrecords g dt b m bucket_state i src p prm Hplace Hstate Hsrc Hp)
    as (dst_tensors & -> & Hkeys).
  apply record_copies_targets. intros key dst Hin.
  destruct (Hkeys key dst Hin) as (s & Hs & _). by exists s.
Qed.

Lemma bucket_space_copies_ok self sd store :
  bucket_space_wf self sd store ->
  copies_ok (bucket_space_copies self sd) store.
Proof.
  intros Hwf. pose proof (bucket_space_copies_targets self sd store Hwf) as Ht.
  destruct Hwf as [_ _ Hbucket Hrecords Hnd].
  split; [by rewrite Ht|]. rewrite Ht.
  intros d s (g & dt & b & m & i & src & p & prm & dst_tensors & key
              & Hplace & Hsrc & Hp & Hdst & Hkey & Hget)%elem_of_bucket_space_copies.
  destruct (Hbucket g dt b m Hplace) as (bucket_state & Hstate & _).
  rewrite Hstate in Hsrc. simpl in Hsrc.
  destruct (Hrecords g dt b m bucket_state i src p prm Hplace Hstate Hsrc Hp)
    as (dst_tensors' & Hdst' & Hkeys).
  rewrite Hdst in Hdst'. injection Hdst' as <-.
  destruct (Hkeys key d Hkey) as (s' & Hs' & Hlen & Halias).
  rewrite Hget in Hs'. injection Hs' as <-. done.
Qed.

Lemma list_bind_singleton {A} (xs : list A) : xs ≫= (fun x => [x]) = xs.
Proof.
  induction xs as [|x xs IH]; [done|].
  change ((x :: xs) ≫= (fun x => [x])) with (x :: (xs ≫= (fun x => [x]))).
  by rewrite IH.
Qed.

Lemma performs_copies (cs : list (tensor_id * tensor_id)) :
  performs (foldM (fun store c => copy_ store c.1 (values (tensor_of store c.2)))
                  cs)
           cs.
Proof.
  rewrite <- (list_bind_singleton cs) at 2.
  apply performs_foldM. intros [d s] _. apply performs_copy.
Qed.


Lemma restore_places ty dt :
  bucket_places (DistOpt.gbuf_ranges (restore_self ty dt))
  = [(0%nat, (dt, float32), 0%nat,
      {| param_map :=
           [(1%nat,
             {| gbuf_world := mkRange 64 66;
                gbuf_world_in_bucket := mkRange 64 66;
                gbuf_local := mkRange 1 3;
                param := mkRange 0 2 |})] |})].
Proof. destruct dt; vm_compute; reflexivity. Qed.

Lemma restore_self_targets ty dt :
  restore_targets (restore_self ty dt) = [10%nat; 11%nat; 12%nat].
Proof. destruct dt; vm_compute; reflexivity. Qed.

Lemma bucket_space_checkpoint_wf ty dt :
  bucket_space_wf (restore_self ty dt) (bucket_space_checkpoint dt)
                  bucket_space_store.
Proof.
  split.
  - intros t [= <-]. destruct dt; vm_compute; reflexivity.
  - intros maps Hin. destruct dt; vm_compute in Hin.
    all: apply list_elem_of_singleton in Hin as ->; reflexivity.
  - intros g d b m Hplace. rewrite restore_places in Hplace.
    apply list_elem_of_singleton in Hplace as [= -> -> -> ->].
    eexists. split; [destruct dt; vm_compute; reflexivity|]. split.
    + intros r Hr. apply elem_of_cons in Hr as [->|Hr]; [by exists true|].
      apply list_elem_of_singleton in Hr as ->. by exists false.
    + reflexivity.
  - intros g d b m bucket_state i src p prm Hplace Hstate Hsrc Hp.
    rewrite restore_places in Hplace.
    apply list_elem_of_singleton in Hplace as [= -> -> -> ->].
    assert (bucket_state
            = [[("param", VTensor 30%nat); ("exp_avg", VTensor 31%nat);
                ("exp_avg_sq", VTensor 32%nat); ("padding", VBool true)];
               [("param", VTensor 20%nat); ("exp_avg", VTensor 21%nat);
                ("exp_avg_sq", VTensor 22%nat); ("padding", VBool false)]])
      as ->.
    { destruct dt; vm_compute in Hstate; by injection Hstate as <-. }
    destruct i as [|i]; [|done].
    vm_compute in Hsrc. injection Hsrc as <-.
    injection Hp as <- <-.
    exists [("param", 10%nat); ("exp_avg", 11%nat); ("exp_avg_sq", 12%nat)].
    split; [vm_compute; reflexivity|].
    rewrite restore_self_targets.
    intros key dst Hin.
    apply elem_of_cons in Hin as [[= -> ->]|Hin];
      [exists 20%nat; split_and!; [done|done|right; by_decide]|].
    apply elem_of_cons in Hin as [[= -> ->]|Hin];
      [exists 21%nat; split_and!; [done|done|right; by_decide]|].
    apply list_elem_of_singleton in Hin as [= -> ->].
    exists 22%nat. split_and!; [done|done|right; by_decide].
  - rewrite restore_self_targets. by_decide.
Qed.


(** *** Restoring what [get_parameter_state_fs_bucket_space] returns *)

Lemma dict_update_get_None {K V} `{EqDecision K} (d items : list (K * V)) k :
  Dict.get d k = None -> k ∉ Dict.keys items ->
  Dict.get (dict_update d items) k = None.
Proof.
  unfold dict_update. revert d.
  induction items as [|[k' v'] items IH]; intros d Hd Hk; simpl; [done|].
  unfold Dict.keys in Hk. rewrite fmap_cons, not_elem_of_cons in Hk.
  destruct Hk as [Hne Hk]. apply IH; [|done].
  rewrite dict_get_set_ne; done.
Qed.

Lemma dict_get_indexed {V} (ys : list (nat * V)) (i : nat) (v : V) :
  (forall j y, ys !! j = Some y -> y.1 = j) ->
  ys !! i = Some (i, v) -> Dict.get ys i = Some v.
Proof.
  intros Hidx Hi. apply dict_get_elem; [|by eapply list_elem_of_lookup_2].
  assert (Hkeys : Dict.keys ys = seq 0 (length ys)).
  { apply list_eq. intros j. unfold Dict.keys. rewrite list_lookup_fmap.
    destruct (ys !! j) as [y|] eqn:Hy; simpl.
    - rewrite (Hidx j y Hy). symmetry. apply lookup_seq. split; [done|].
      by eapply lookup_lt_Some.
    - symmetry. apply lookup_ge_None. rewrite length_seq.
      by apply lookup_ge_None. }
  rewrite Hkeys. apply NoDup_seq.
Qed.

Lemma tables_eqb_refl (l : list (list (dtype_pair * list Z))) :
  tables_eqb l l = true.
Proof.
  unfold tables_eqb. rewrite bool_decide_true by done. simpl.
  induction l as [|d l IH]; [done|]. simpl. rewrite IH, andb_true_r.
  unfold dict_eqb. apply bool_decide_eq_true. split; [done|].
  by apply Forall_forall.
Qed.

Lemma plain_record_no_padding (self : DistOpt.t) (main_param : tensor_id)
    (param_range_map : ParamRanges) :
  (forall main_param optim_state,
     (main_param, optim_state) ∈ Optimizer.state (DistOpt.optimizer self) ->
     "padding" ∉ Dict.keys optim_state) ->
  Dict.get
    (dict_update
       [("param", VTensor main_param)]
       ((prod_map id VTensor <$> optim_state_of self main_param)
        ++ [("gbuf_local_start", VInt (start (gbuf_local param_range_map)));
            ("gbuf_local_end", VInt (end_ (gbuf_local param_range_map)))]))
    "padding" = None.
Proof.
  intros Hkeys. apply dict_update_get_None; [done|].
  unfold Dict.keys. rewrite fmap_app, not_elem_of_app. split.
  - rewrite <- list_fmap_compose.
    unfold optim_state_of.
    destruct (Dict.get _ main_param) as [optim_state|] eqn:Hstate;
      [|by intros ?%elem_of_nil].
    apply dict_get_Some_elem in Hstate. specialize (Hkeys _ _ Hstate).
    intros Hin. apply Hkeys. unfold Dict.keys.
    apply list_elem_of_fmap in Hin as ([k v] & -> & Hin).
    by apply (list_elem_of_fmap_2 fst _ (k, v)).
  - simpl. rewrite !not_elem_of_cons. split_and!; [done..|].
    by intros ?%elem_of_nil.
Qed.

Lemma load_bucket_state_plain (grad_enabled : bool) (self : DistOpt.t)
    (store : Store)
    (gbuf_range_map : GbufRange) (bucket_state : list (list (string * pyval))) :
  (forall main_param optim_state,
     (main_param, optim_state) ∈ Optimizer.state (DistOpt.optimizer self) ->
     "padding" ∉ Dict.keys optim_state) ->
  mapM (fun '(model_param, param_range_map) =>
          main_param ← main_param_of self model_param;
          let optim_state := optim_state_of self main_param in
          Ok (dict_update
                [("param", VTensor main_param)]
                ((prod_map id VTensor <$> optim_state)
                 ++ [("gbuf_local_start",
                      VInt (start (gbuf_local param_range_map)));
                     ("gbuf_local_end",
                      VInt (end_ (gbuf_local param_range_map)))])))
       (param_map gbuf_range_map)
  = Ok bucket_state ->
  load_bucket_state grad_enabled self bucket_state gbuf_range_map store
  = if decide (param_map gbuf_range_map = []) then Ok store else Raise KeyError.
Proof.
  intros Hkeys Hrecords. unfold load_bucket_state.
  destruct (param_map gbuf_range_map) as [|[p prm] items] eqn:Hitems.
  - injection Hrecords as <-. done.
  - apply mapM_cons_inv in Hrecords as (r & rest & Hr & _ & ->).
    apply bind_Ok_inv in Hr as (mp & _ & [= <-]).
    rewrite decide_False by done. simpl.
    by rewrite plain_record_no_padding.
Qed.

Lemma foldM_const_or_raise {A S} (f : S -> A -> result S) (P : A -> Prop)
    (e : exn) (xs : list A) (s : S) :
  (forall x, x ∈ xs ->
     (P x /\ f s x = Ok s) \/ (~ P x /\ f s x = Raise e)) ->
  (Forall P xs /\ foldM f xs s = Ok s)
  \/ (~ Forall P xs /\ foldM f xs s = Raise e).
Proof.
  induction xs as [|x xs IH]; intros Hstep; [left; by split|].
  simpl. destruct (Hstep x (list_elem_of_here _ _)) as [[HP ->]|[HP ->]]; simpl.
  - destruct IH as [[Hall ->]|[Hall ->]].
    + intros y Hy. by apply Hstep, list_elem_of_further.
    + left. split; [by constructor|done].
    + right. split; [|done]. intros Hall'. apply Hall.
      by apply Forall_cons in Hall' as [_ ?].
  - right. split; [|done]. intros Hall. by apply Forall_cons in Hall as [? _].
Qed.

Lemma list_bind_nil {A B} (f : A -> list B) (xs : list A) :
  Forall (fun x => f x = []) xs -> xs ≫= f = [].
Proof.
  induction 1 as [|x xs Hx _ IH]; [done|].
  change ((x :: xs) ≫= f) with (f x ++ (xs ≫= f)). by rewrite Hx, IH.
Qed.

(** The restore is not the inverse of [get_parameter_state_fs_bucket_space]
    on its own: the records that one returns have no key ["padding"], which
    the restore reads of every record. On the state of an optimizer that owns
    a part of some parameter, the restore raises [KeyError], in either grad
    mode. *)
Theorem restore_of_plain_state_raises (grad_enabled : bool) (self : DistOpt.t)
    (store : Store)
    (state : BucketSpaceState (list (list (dtype_pair * list Z))))
    (Hget : get_parameter_state_fs_bucket_space self = Ok state)
    (Hparams : owned_entries (DistOpt.gbuf_ranges self) <> [])
    (Hkeys : forall main_param optim_state,
       (main_param, optim_state) ∈ Optimizer.state (DistOpt.optimizer self) ->
       "padding" ∉ Dict.keys optim_state) :
  load_parameter_state_from_fs_bucket_space grad_enabled self
    (Some {| bs_per_bucket_numel := Some (bs_per_bucket_numel state);
             bs_per_bucket_numel_unpadded :=
               Some (bs_per_bucket_numel_unpadded state);
             bs_gbufs := bs_gbufs state |})
    store
  = Raise KeyError.
Proof.
  unfold get_parameter_state_fs_bucket_space in Hget.
  apply bind_Ok_inv in Hget as (gbufs & Hgbufs & [= <-]).
  apply mapM_Ok_Forall2 in Hgbufs.
  unfold load_parameter_state_from_fs_bucket_space. cbn [bs_per_bucket_numel_unpadded bs_gbufs].
  rewrite tables_eqb_refl. simpl.
  assert (Hidx : forall j y, gbufs !! j = Some y -> y.1 = j).
  { intros j y Hy.
    destruct (Forall2_lookup_r _ _ _ _ _ Hgbufs Hy) as ([g maps] & Hx & HF).
    unfold enumerate in Hx. rewrite list_lookup_imap in Hx.
    apply fmap_Some in Hx as (maps' & _ & [= <- <-]).
    apply bind_Ok_inv in HF as (_ & _ & HF).
    apply bind_Ok_inv in HF as (dtype_state & _ & [= <-]). done. }
  match goal with
  | |- foldM ?f ?xs ?s = _ =>
      destruct (foldM_const_or_raise f
                  (fun gm : nat * gbuf_range_map_t =>
                     Forall (fun dm : dtype_pair * list GbufRange =>
                               Forall (fun m => param_map m = []) dm.2) gm.2)
                  KeyError xs s) as [[Hall _]|[_ Hraise]]; [|..|exact Hraise]
  end.
  - intros [g maps] Hg%elem_of_enumerate.
    assert (Hx : enumerate (DistOpt.gbuf_ranges self) !! g = Some (g, maps)).
    { unfold enumerate. rewrite list_lookup_imap. apply fmap_Some. by exists maps. }
    destruct (Forall2_lookup_l _ _ _ _ _ Hgbufs Hx) as (y & Hy & HF).
    apply bind_Ok_inv in HF as ([] & Hlen & HF).
    apply bind_Ok_inv in HF as (dtype_state & Hdtype & [= <-]).
    unfold py_assert in Hlen.
    destruct (bool_decide (length maps = 1%nat)) eqn:Hone; [|done].
    simpl. apply bool_decide_eq_true in Hone.
    destruct maps as [|[dt all_buckets] [|? ?]]; try done.
    apply mapM_cons_inv in Hdtype as ([dt' buckets_state] & rest & Hdt & Hrest & ->).
    injection Hrest as <-.
    apply bind_Ok_inv in Hdt as (buckets_state' & Hbuckets & [= <- <-]).
    apply mapM_Ok_Forall2 in Hbuckets.
    pose proof (dict_get_indexed gbufs g _ Hidx Hy) as Hget. simpl.
    match goal with
    | |- context [foldM ?f3 (enumerate all_buckets) ?s] =>
        destruct (foldM_const_or_raise f3
                    (fun bm : nat * GbufRange => param_map bm.2 = [])
                    KeyError (enumerate all_buckets) s)
          as [[Hall ->]|[Hall ->]]
    end.
    + intros [b m] Hb%elem_of_enumerate.
      destruct (Forall2_lookup_l _ _ _ _ _ Hbuckets Hb) as (records & Hrec & HH).
      simpl. rewrite Hget. simpl. rewrite decide_True by done. simpl.
      rewrite Hrec. simpl.
      rewrite (load_bucket_state_plain grad_enabled self store m records
                 Hkeys HH).
      destruct (decide (param_map m = [])); [by left|by right].
    + left. split; [|done]. constructor; [|constructor]. simpl.
      apply Forall_forall. intros m Hm.
      apply list_elem_of_lookup in Hm as [b Hb].
      rewrite Forall_forall in Hall.
      apply (Hall (b, m)). by apply elem_of_enumerate.
    + right. split; [|done]. intros Hall'.
      apply Forall_cons in Hall' as [Hall' _]. simpl in Hall'.
      apply Hall. apply Forall_forall. intros [b m] Hb%elem_of_enumerate.
      rewrite Forall_forall in Hall'. apply Hall'.
      by eapply list_elem_of_lookup_2.
  - exfalso. apply Hparams. unfold owned_entries.
    apply list_bind_nil. apply Forall_forall. intros maps Hmaps.
    apply list_elem_of_lookup in Hmaps as [g Hg].
    rewrite Forall_forall in Hall.
    specialize (Hall (g, maps) ltac:(by apply elem_of_enumerate)).
    simpl in Hall.
    apply list_bind_nil. eapply Forall_impl; [exact Hall|].
    intros [dt all_buckets] Hdm. simpl in Hdm. by apply list_bind_nil.
Qed.

Lemma restore_of_plain_state_raises_witness :
  exists state,
    get_parameter_state_fs_bucket_space leading_gap_self = Ok state
    /\ load_parameter_state_from_fs_bucket_space true leading_gap_self
         (Some {| bs_per_bucket_numel := Some (bs_per_bucket_numel state);
                  bs_per_bucket_numel_unpadded :=
                    Some (bs_per_bucket_numel_unpadded state);
                  bs_gbufs := bs_gbufs state |})
         leading_gap_store
       = Raise KeyError.
Proof.
  destruct (get_parameter_state_fs_bucket_space leading_gap_self)
    as [state|e] eqn:Hget; [|vm_compute in Hget; discriminate].
  exists state. split; [reflexivity|].
  apply (restore_of_plain_state_raises true leading_gap_self
           leading_gap_store state Hget).
  - vm_compute. discriminate.
  - intros main_param optim_state Hin.
    apply list_elem_of_singleton in Hin as [= -> ->]. by_decide.
Defined.

(** ** Restoring the model-space state *)

Lemma optimizer_state_get_keeps (optimizer : Optimizer.t)
    (main_param main_param' : tensor_id) :
  default [] (Dict.get (Optimizer.state
                          (optimizer_state_get optimizer main_param).2)
                       main_param')
  = default [] (Dict.get (Optimizer.state optimizer) main_param').
Proof.
  unfold optimizer_state_get.
  destruct (Dict.get (Optimizer.state optimizer) main_param) eqn:Hget; [done|].
  simpl. destruct (decide (main_param = main_param')) as [<-|Hne].
  - by rewrite dict_get_set_eq, Hget.
  - by rewrite dict_get_set_ne.
Qed.

(** The loop of the bucket path threads the optimizer and the running
    index; what it does to the store is [restore_entry] at each index. *)
Lemma model_space_loop (self : DistOpt.t)
    (state_dict : list (state_key_t * list (string * tensor_id)))
    (entries : list (param_id * ParamRanges)) (store : Store) :
  match foldM (restore_entry self state_dict) (enumerate entries) store with
  | Ok store' =>
      exists optimizer',
        foldM (load_model_space_entry self state_dict) entries
              (store, DistOpt.optimizer self, 0)
        = Ok (store', optimizer', Z.of_nat (length entries))
        /\ forall main_param,
             default [] (Dict.get (Optimizer.state optimizer') main_param)
             = optim_state_of self main_param
  | Raise e =>
      foldM (load_model_space_entry self state_dict) entries
            (store, DistOpt.optimizer self, 0)
      = Raise e
  end.
Proof.
  induction entries as [|[p r] entries IH] using rev_ind.
  - simpl. by exists (DistOpt.optimizer self).
  - rewrite enumerate_snoc, !foldM_app.
    destruct (foldM (restore_entry self state_dict) (enumerate entries) store)
      as [store1|e]; simpl.
    + destruct IH as (optimizer1 & -> & Hstate). simpl.
      unfold restore_entry, model_space_dst_tensors. cbn [fst snd].
      destruct (main_param_of self p) as [main_param|e]; simpl; [|done].
      pose proof (optimizer_state_get_keeps optimizer1 main_param) as Hkeeps.
      assert (Hfst : (optimizer_state_get optimizer1 main_param).1
                     = optim_state_of self main_param).
      { rewrite <- Hstate. unfold optimizer_state_get.
        by destruct (Dict.get (Optimizer.state optimizer1) main_param). }
      destruct (optimizer_state_get optimizer1 main_param)
        as [optim_state optimizer2].
      simpl in Hfst, Hkeeps. subst optim_state.
      destruct (Dict.get state_dict (IndexKey (Z.of_nat (length entries))))
        as [src_tensors|]; simpl; [|done].
      match goal with
      | |- context [foldM ?f ?xs store1] =>
          destruct (foldM f xs store1) as [store2|e]; simpl; [|done]
      end.
      exists optimizer2. split.
      * rewrite length_app. simpl. do 2 f_equal. lia.
      * intros mp. by rewrite Hkeeps.
    + by rewrite IH.
Qed.

Lemma restore_entry_performs self state_dict i model_param param_range_map
    dst_tensors src_tensors :
  model_space_dst_tensors self model_param = Ok dst_tensors ->
  Dict.get state_dict (IndexKey (Z.of_nat i)) = Some src_tensors ->
  (forall key dst, (key, dst) ∈ dst_tensors ->
     exists src, Dict.get src_tensors key = Some src) ->
  performs (fun store =>
              restore_entry self state_dict store
                            (i, (model_param, param_range_map)))
           (entry_copies self state_dict (i, (model_param, param_range_map))).
Proof.
  intros Hdst Hsrc Hkeys. unfold restore_entry, entry_copies. cbn [fst snd].
  rewrite Hdst, Hsrc. simpl.
  apply (performs_foldM _
           (fun dst : string * tensor_id =>
              match Dict.get src_tensors dst.1 with
              | Some src => [(dst.2, src)]
              | None => []
              end)).
  intros [key dst] Hin. destruct (Hkeys key dst Hin) as [src Hget].
  simpl. rewrite Hget. simpl. apply performs_copy.
Qed.

Lemma bind_enumerate {A B} (F : nat * A -> list B) (G : A -> list B)
    (xs : list A) :
  (forall i x, xs !! i = Some x -> F (i, x) = G x) ->
  enumerate xs ≫= F = xs ≫= G.
Proof.
  induction xs as [|x xs IH] using rev_ind; intros HFG; [done|].
  rewrite enumerate_snoc, !bind_app, IH.
  - f_equal. simpl. rewrite !app_nil_r. apply HFG.
    by rewrite lookup_app_r, Nat.sub_diag.
  - intros i y Hy. apply HFG. by apply lookup_app_l_Some.
Qed.

Lemma elem_of_entry_copies self state_dict d s :
  (d, s) ∈ enumerate (owned_entries (DistOpt.gbuf_ranges self))
           ≫= entry_copies self state_dict
  <-> exists (i : nat) model_param param_range_map dst_tensors src_tensors key,
        owned_entries (DistOpt.gbuf_ranges self) !! i
          = Some (model_param, param_range_map)
        /\ model_space_dst_tensors self model_param = Ok dst_tensors
        /\ Dict.get state_dict (IndexKey (Z.of_nat i)) = Some src_tensors
        /\ (key, d) ∈ dst_tensors
        /\ Dict.get src_tensors key = Some s.
Proof.
  rewrite list_elem_of_bind. unfold entry_copies. split.
  - intros ([i [p prm]] & Hin & Hi%elem_of_enumerate). cbn [fst snd] in Hin.
    destruct (model_space_dst_tensors self p) as [dst_tensors|] eqn:Hdst;
      [|by apply elem_of_nil in Hin].
    destruct (Dict.get state_dict _) as [src_tensors|] eqn:Hsrc;
      [|by apply elem_of_nil in Hin].
    apply list_elem_of_bind in Hin as ([key dst] & Hin & Hkey).
    simpl in Hin. destruct (Dict.get src_tensors key) as [src|] eqn:Hget;
      [|by apply elem_of_nil in Hin].
    apply list_elem_of_singleton in Hin as [= -> ->].
    by exists i, p, prm, dst_tensors, src_tensors, key.
  - intros (i & p & prm & dst_tensors & src_tensors & key
            & Hi & Hdst & Hsrc & Hkey & Hget).
    exists (i, (p, prm)). split; [|by apply elem_of_enumerate].
    cbn [fst snd]. rewrite Hdst, Hsrc.
    apply list_elem_of_bind. exists (key, d). split; [|done].
    simpl. rewrite Hget. apply list_elem_of_here.
Qed.

Lemma entry_copies_targets self state_dict store :
  model_space_wf self state_dict store ->
  (enumerate (owned_entries (DistOpt.gbuf_ranges self))
     ≫= entry_copies self state_dict).*1
  = model_space_targets self.
Proof.
  intros [Hentries _]. rewrite list_fmap_bind_r. unfold model_space_targets.
  apply bind_enumerate. intros i [p prm] Hi.
  destruct (Hentries i p prm Hi) as (dst_tensors & src_tensors & Hdst & Hsrc & Hkeys).
  unfold entry_copies. cbn [fst snd]. rewrite Hdst, Hsrc.
  clear Hdst. induction dst_tensors as [|[key dst] dst_tensors IH]; [done|].
  change ((?x :: ?xs) ≫= ?f) with (f x ++ (xs ≫= f)).
  rewrite fmap_app, IH
    by (intros k t Hin; by apply (Hkeys k t), list_elem_of_further).
  destruct (Hkeys key dst (list_elem_of_here _ _)) as (src & Hget & _).
  simpl. by rewrite Hget.
Qed.

Lemma entry_copies_ok self state_dict store :
  model_space_wf self state_dict store ->
  copies_ok (enumerate (owned_entries (DistOpt.gbuf_ranges self))
               ≫= entry_copies self state_dict) store.
Proof.
  intros Hwf. pose proof (entry_copies_targets self state_dict store Hwf) as Ht.
  destruct Hwf as [Hentries Hnd].
  split; [by rewrite Ht|]. rewrite Ht.
  intros d s (i & p & prm & dst_tensors & src_tensors & key
              & Hi & Hdst & Hsrc & Hkey & Hget)%elem_of_entry_copies.
  destruct (Hentries i p prm Hi)
    as (dst_tensors' & src_tensors' & Hdst' & Hsrc' & Hkeys).
  rewrite Hdst in Hdst'. injection Hdst' as <-.
  rewrite Hsrc in Hsrc'. injection Hsrc' as <-.
  destruct (Hkeys key d Hkey) as (s' & Hs' & Hlen & Halias).
  rewrite Hget in Hs'. injection Hs' as <-. done.
Qed.


Lemma model_space_checkpoint_wf :
  model_space_wf leading_gap_self model_space_checkpoint bucket_space_store.
Proof.
  split.
  - intros i p prm Hi. destruct i as [|i]; [|done].
    vm_compute in Hi. injection Hi as <- <-.
    eexists _, _. split; [vm_compute; reflexivity|]. split; [reflexivity|].
    intros key dst Hin.
    apply elem_of_cons in Hin as [[= -> ->]|Hin];
      [exists 20%nat; split_and!; [done|done|right; by_decide]|].
    apply elem_of_cons in Hin as [[= -> ->]|Hin];
      [exists 21%nat; split_and!; [done|done|right; by_decide]|].
    apply list_elem_of_singleton in Hin as [= -> ->].
    exists 12%nat. split_and!; [done|done|by left].
  - by_decide.
Defined.


(** *** The Megatron-FSDP path *)

Lemma fsdp_entries_loop {S} (body : FsdpBuffer -> S -> tensor_id -> result S)
    (pg_buffer_params : FsdpBuffer -> list tensor_id) (self : DistOpt.t) (st : S) :
  foldM (fun st pg_buffer =>
           foldM (body pg_buffer) (pg_buffer_params pg_buffer) st)
        (DistOpt.fsdp_buffers self) st
  = foldM (fun st entry => body entry.1 st entry.2)
          (fsdp_entries pg_buffer_params self) st.
Proof.
  unfold fsdp_entries. rewrite <- foldM_bind.
  apply foldM_ext. intros s b _. by rewrite foldM_fmap.
Qed.

Lemma load_fsdp_entry_split state_dict entry store optimizer store' optimizer' :
  fsdp_store_step state_dict store entry = Ok store' ->
  fsdp_optimizer_step state_dict optimizer entry = Ok optimizer' ->
  load_fsdp_entry state_dict entry.1 (store, optimizer) entry.2
  = Ok (store', optimizer').
Proof.
  unfold fsdp_store_step, fsdp_optimizer_step, load_fsdp_entry, fsdp_main_param.
  destruct (Dict.get (param_to_name entry.1) entry.2) as [name|]; simpl; [|done].
  destruct (Dict.get (dict_update [] _) name) as [main|]; simpl; [|done].
  destruct (optimizer_state_get optimizer main) as [optim_state optimizer1].
  destruct (Dict.get state_dict (NameKey name)) as [src_tensors|];
    [|by intros [= ->] [= ->]].
  destruct (Dict.get src_tensors "fp32_param") as [fp32|]; simpl; [|done].
  intros -> Hopt. simpl.
  match goal with
  | H : context [foldM ?f ?xs ?s] |- _ =>
      destruct (foldM f xs s) as [merged|]; simpl in *; [|done]
  end.
  by injection Hopt as <-.
Qed.

Lemma load_fsdp_loop state_dict entries store optimizer store' optimizer' :
  foldM (fsdp_store_step state_dict) entries store = Ok store' ->
  foldM (fsdp_optimizer_step state_dict) entries optimizer = Ok optimizer' ->
  foldM (fun st entry => load_fsdp_entry state_dict entry.1 st entry.2)
        entries (store, optimizer)
  = Ok (store', optimizer').
Proof.
  revert store optimizer.
  induction entries as [|entry entries IH]; intros store optimizer.
  - simpl. by intros [= ->] [= ->].
  - intros Hs Ho. cbn [foldM] in *.
    apply bind_Ok_inv in Hs as (store1 & Hs1 & Hs).
    apply bind_Ok_inv in Ho as (optimizer1 & Ho1 & Ho).
    rewrite (load_fsdp_entry_split _ _ _ _ _ _ Hs1 Ho1). simpl. by apply IH.
Qed.

(** The loop over the keys of an entry (lines 1277-1279) puts every tensor
    of the entry but ["fp32_param"] into the optimizer state under its
    key. *)
Lemma merge_optim_state (src_tensors optim_state : list (string * tensor_id)) :
  exists merged,
    foldM (fun optim_state key =>
             if decide (key <> "fp32_param") then
               src ← or_raise KeyError (Dict.get src_tensors key);
               Ok (Dict.set optim_state key src)
             else Ok optim_state)
          (Dict.keys src_tensors) optim_state
    = Ok merged
    /\ forall key,
         Dict.get merged key
         = match Dict.get src_tensors key with
           | Some src =>
               if decide (key = "fp32_param") then Dict.get optim_state key
               else Some src
           | None => Dict.get optim_state key
           end.
Proof.
  cut (forall ks optim_state,
         ks ⊆ Dict.keys src_tensors ->
         exists merged,
           foldM (fun optim_state key =>
                    if decide (key <> "fp32_param") then
                      src ← or_raise KeyError (Dict.get src_tensors key);
                      Ok (Dict.set optim_state key src)
                    else Ok optim_state)
                 ks optim_state
           = Ok merged
           /\ forall key,
                Dict.get merged key
                = match Dict.get src_tensors key with
                  | Some src =>
                      if decide (key = "fp32_param" \/ key ∉ ks)
                      then Dict.get optim_state key
                      else Some src
                  | None => Dict.get optim_state key
                  end).
  { intros Hc. destruct (Hc (Dict.keys src_tensors) optim_state) as (m & Hm & Hget);
      [done|].
    exists m. split; [done|]. intros key. rewrite Hget.
    destruct (Dict.get src_tensors key) as [src|] eqn:Hsrc; [|done].
    assert (key ∈ Dict.keys src_tensors).
    { apply dict_get_Some_elem in Hsrc.
      by apply (list_elem_of_fmap_2 fst _ (key, src)). }
    destruct (decide (key = "fp32_param")).
    - rewrite decide_True by (by left). done.
    - rewrite decide_False by tauto. done. }
  clear optim_state. induction ks as [|k ks IH]; intros optim_state Hsub; simpl.
  - exists optim_state. split; [done|]. intros key.
    destruct (Dict.get src_tensors key); [|done].
    rewrite decide_True; [done|]. right. by intros ?%elem_of_nil.
  - assert (Hk : k ∈ Dict.keys src_tensors) by (apply Hsub, list_elem_of_here).
    assert (Hks : ks ⊆ Dict.keys src_tensors).
    { intros x Hx. by apply Hsub, list_elem_of_further. }
    destruct (decide (k <> "fp32_param")) as [Hne|Heq].
    + destruct (Dict.get src_tensors k) as [src_k|] eqn:Hsrc_k.
      2:{ pose proof (dict_mem_keys src_tensors k) as Hmem.
          unfold Dict.mem in Hmem. rewrite Hsrc_k in Hmem.
          by rewrite bool_decide_true in Hmem. }
      simpl. destruct (IH (Dict.set optim_state k src_k) Hks) as (m & -> & Hget).
      exists m. split; [done|]. intros key. rewrite Hget.
      destruct (Dict.get src_tensors key) as [src|] eqn:Hsrc.
      * destruct (decide (key = "fp32_param" \/ key ∉ ks)) as [Hcase|Hcase].
        -- destruct (decide (k = key)) as [->|Hkk].
           ++ rewrite dict_get_set_eq.
              rewrite decide_False.
              ** congruence.
              ** intros [?|Hnin]; [done|]. apply Hnin, list_elem_of_here.
           ++ rewrite dict_get_set_ne by done.
              rewrite decide_True; [done|].
              destruct Hcase as [?|Hnin]; [by left|right].
              rewrite not_elem_of_cons. split; [congruence|done].
        -- rewrite decide_False; [done|].
           intros [?|Hnin]; apply Hcase; [by left|right].
           rewrite not_elem_of_cons in Hnin. tauto.
      * destruct (decide (k = key)) as [->|Hkk]; [congruence|].
        by rewrite dict_get_set_ne.
    + simpl. assert (k = "fp32_param") as -> by (by destruct (decide (k = "fp32_param")); [|tauto]).
      destruct (IH optim_state Hks) as (m & -> & Hget).
      exists m. split; [done|]. intros key. rewrite Hget.
      destruct (Dict.get src_tensors key) as [src|] eqn:Hsrc; [|done].
      destruct (decide (key = "fp32_param" \/ key ∉ ks)) as [Hcase|Hcase].
      * rewrite decide_True; [done|].
        destruct Hcase as [?|Hnin]; [by left|].
        destruct (decide (key = "fp32_param")); [by left|right].
        rewrite not_elem_of_cons. split; [done|done].
      * rewrite decide_False; [done|].
        intros [?|Hnin]; apply Hcase; [by left|right].
        rewrite not_elem_of_cons in Hnin. tauto.
Qed.

Lemma fsdp_optimizer_step_ok state_dict optimizer entry param_name main_param :
  fsdp_main_param entry = Some (param_name, main_param) ->
  (forall src_tensors,
     Dict.get state_dict (NameKey param_name) = Some src_tensors ->
     exists fp32_param, Dict.get src_tensors "fp32_param" = Some fp32_param) ->
  exists optimizer' restored,
    fsdp_optimizer_step state_dict optimizer entry = Ok optimizer'
    /\ Dict.get (Optimizer.state optimizer') main_param = Some restored
    /\ restored_optim_state state_dict param_name
         (default [] (Dict.get (Optimizer.state optimizer) main_param)) restored
    /\ forall t, t <> main_param ->
         Dict.get (Optimizer.state optimizer') t
         = Dict.get (Optimizer.state optimizer) t.
Proof.
  intros Hmain Hsrc. unfold fsdp_optimizer_step, restored_optim_state.
  rewrite Hmain. simpl.
  assert (Hget : exists optimizer1,
            optimizer_state_get optimizer main_param
            = (default [] (Dict.get (Optimizer.state optimizer) main_param),
               optimizer1)
            /\ Dict.get (Optimizer.state optimizer1) main_param
               = Some (default [] (Dict.get (Optimizer.state optimizer) main_param))
            /\ forall t, t <> main_param ->
                 Dict.get (Optimizer.state optimizer1) t
                 = Dict.get (Optimizer.state optimizer) t).
  { unfold optimizer_state_get.
    destruct (Dict.get (Optimizer.state optimizer) main_param) as [st|] eqn:Hst.
    - exists optimizer. by split_and!.
    - eexists. split; [done|]. simpl. split; [by rewrite dict_get_set_eq|].
      intros t Ht. by rewrite dict_get_set_ne. }
  destruct Hget as (optimizer1 & -> & Hself & Hother).
  destruct (Dict.get state_dict (NameKey param_name)) as [src_tensors|] eqn:Hentry.
  - destruct (Hsrc src_tensors eq_refl) as [fp32 ->]. simpl.
    destruct (merge_optim_state src_tensors
                (default [] (Dict.get (Optimizer.state optimizer) main_param)))
      as (merged & -> & Hmerged).
    simpl. eexists _, merged. split; [done|]. simpl.
    split; [by rewrite dict_get_set_eq|]. split; [done|].
    intros t Ht. rewrite dict_get_set_ne by done. by apply Hother.
  - eexists _, _. split; [done|]. split; [done|]. split; [done|]. done.
Qed.

Lemma fsdp_optimizer_loop state_dict entries optimizer :
  NoDup (omap (fun entry => snd <$> fsdp_main_param entry) entries) ->
  (forall entry, entry ∈ entries ->
     exists param_name main_param,
       fsdp_main_param entry = Some (param_name, main_param)
       /\ forall src_tensors,
            Dict.get state_dict (NameKey param_name) = Some src_tensors ->
            exists fp32_param,
              Dict.get src_tensors "fp32_param" = Some fp32_param) ->
  exists optimizer',
    foldM (fsdp_optimizer_step state_dict) entries optimizer = Ok optimizer'
    /\ (forall entry param_name main_param,
          entry ∈ entries ->
          fsdp_main_param entry = Some (param_name, main_param) ->
          exists restored,
            Dict.get (Optimizer.state optimizer') main_param = Some restored
            /\ restored_optim_state state_dict param_name
                 (default [] (Dict.get (Optimizer.state optimizer) main_param))
                 restored)
    /\ forall t, t ∉ omap (fun entry => snd <$> fsdp_main_param entry) entries ->
         Dict.get (Optimizer.state optimizer') t
         = Dict.get (Optimizer.state optimizer) t.
Proof.
  revert optimizer.
  induction entries as [|entry entries IH]; intros optimizer Hnd Hentries.
  - exists optimizer. split; [done|]. split; [|done].
    by intros e n m ?%elem_of_nil.
  - destruct (Hentries entry (list_elem_of_here _ _))
      as (name & main & Hmain & Hsrc).
    simpl in Hnd. rewrite Hmain in Hnd. simpl in Hnd.
    apply NoDup_cons in Hnd as [Hnew Hnd].
    destruct (fsdp_optimizer_step_ok state_dict optimizer entry name main
                Hmain Hsrc)
      as (optimizer1 & restored & Hstep & Hself & Hrestored & Hother).
    destruct (IH optimizer1 Hnd) as (optimizer' & Hrun & Hdone & Hframe).
    { intros e He. by apply Hentries, list_elem_of_further. }
    exists optimizer'. cbn [foldM]. rewrite Hstep. simpl. split; [done|].
    split.
    + intros e n m He Hm. apply elem_of_cons in He as [->|He].
      * rewrite Hmain in Hm. injection Hm as <- <-.
        exists restored. split; [|done]. by rewrite Hframe.
      * destruct (Hdone e n m He Hm) as (r & Hr & Hrest).
        exists r. split; [done|].
        rewrite Hother in Hrest; [done|].
        intros ->. apply Hnew. apply list_elem_of_omap. exists e.
        split; [done|]. by rewrite Hm.
    + intros t Ht. simpl in Ht. rewrite Hmain in Ht. simpl in Ht.
      rewrite not_elem_of_cons in Ht. destruct Ht as [Hne Ht].
      rewrite Hframe by done. by apply Hother.
Qed.

Lemma fsdp_store_step_performs state_dict entry param_name main_param :
  fsdp_main_param entry = Some (param_name, main_param) ->
  (forall src_tensors,
     Dict.get state_dict (NameKey param_name) = Some src_tensors ->
     exists fp32_param, Dict.get src_tensors "fp32_param" = Some fp32_param) ->
  performs (fun store => fsdp_store_step state_dict store entry)
           (fsdp_copies state_dict entry).
Proof.
  intros Hmain Hsrc. unfold fsdp_store_step, fsdp_copies. rewrite Hmain. simpl.
  destruct (Dict.get state_dict (NameKey param_name)) as [src_tensors|];
    [|apply performs_nil].
  destruct (Hsrc src_tensors eq_refl) as [fp32 ->]. simpl.
  apply performs_copy.
Qed.

Lemma fsdp_copies_main state_dict entry d s :
  (d, s) ∈ fsdp_copies state_dict entry ->
  exists param_name src_tensors,
    fsdp_main_param entry = Some (param_name, d)
    /\ Dict.get state_dict (NameKey param_name) = Some src_tensors
    /\ Dict.get src_tensors "fp32_param" = Some s.
Proof.
  unfold fsdp_copies.
  destruct (fsdp_main_param entry) as [[name main]|] eqn:Hmain;
    [|by intros ?%elem_of_nil].
  destruct (Dict.get state_dict (NameKey name)) as [src_tensors|] eqn:Hsd;
    [|by intros ?%elem_of_nil].
  destruct (Dict.get src_tensors "fp32_param") as [fp32|] eqn:Hfp32;
    [|by intros ?%elem_of_nil].
  intros [= -> ->]%list_elem_of_singleton. by exists name, src_tensors.
Qed.

Lemma fsdp_copies_sublist state_dict (entries : list (FsdpBuffer * tensor_id)) :
  sublist (entries ≫= fsdp_copies state_dict).*1
          (omap (fun entry => snd <$> fsdp_main_param entry) entries).
Proof.
  induction entries as [|entry entries IH]; [done|].
  change ((entry :: entries) ≫= fsdp_copies state_dict)
    with (fsdp_copies state_dict entry ++ (entries ≫= fsdp_copies state_dict)).
  rewrite fmap_app. simpl. unfold fsdp_copies at 1.
  destruct (fsdp_main_param entry) as [[name main]|]; simpl; [|done].
  destruct (Dict.get state_dict (NameKey name)) as [src_tensors|]; simpl;
    [|by apply sublist_cons].
  destruct (Dict.get src_tensors "fp32_param") as [fp32|]; simpl;
    [by apply sublist_skip|by apply sublist_cons].
Qed.

Lemma omap_NoDup_index {A B} (f : A -> option B) (xs : list A) (i j : nat)
    (x y : A) (b : B) :
  NoDup (omap f xs) -> xs !! i = Some x -> xs !! j = Some y ->
  f x = Some b -> f y = Some b -> i = j.
Proof.
  revert i j. induction xs as [|z xs IH]; intros i j Hnd Hi Hj Hx Hy; [done|].
  assert (Hin : forall k w, xs !! k = Some w -> f w = Some b -> b ∈ omap f xs).
  { intros k w Hk Hw. apply list_elem_of_omap. exists w.
    split; [by eapply list_elem_of_lookup_2|done]. }
  simpl in Hnd. destruct i as [|i], j as [|j]; simpl in Hi, Hj.
  - done.
  - injection Hi as ->. rewrite Hx in Hnd. apply NoDup_cons in Hnd as [Hnew _].
    exfalso. by eapply Hnew, Hin.
  - injection Hj as ->. rewrite Hy in Hnd. apply NoDup_cons in Hnd as [Hnew _].
    exfalso. by eapply Hnew, Hin.
  - f_equal. eapply IH; [|done..].
    destruct (f z); [by apply NoDup_cons in Hnd as [_ ?]|done].
Qed.

Lemma fsdp_copies_ok pg_buffer_params self state_dict store :
  fsdp_wf pg_buffer_params self state_dict store ->
  copies_ok (fsdp_entries pg_buffer_params self ≫= fsdp_copies state_dict)
            store.
Proof.
  intros [Hnames Hsource Hnd].
  pose proof (fsdp_copies_sublist state_dict (fsdp_entries pg_buffer_params self))
    as Hsub.
  split; [by eapply sublist_NoDup|].
  intros d s (entry & Hcopy & Hentry)%list_elem_of_bind.
  apply fsdp_copies_main in Hcopy as (name & src_tensors & Hmain & Hsd & Hfp32).
  destruct (Hsource entry name d src_tensors Hentry Hmain Hsd)
    as (fp32 & Hfp32' & Hlen & Halias).
  rewrite Hfp32 in Hfp32'. injection Hfp32' as <-.
  split; [|done]. destruct Halias as [->|Hnot]; [by left|right].
  intros Hin. apply Hnot. eapply elem_of_sublist; [exact Hin|exact Hsub].
Qed.

(** The restore from the model-space state on the Megatron-FSDP path, on a
    state dict that fits the buffers: it returns; a parameter whose name the
    state dict has gets the values of the entry's ["fp32_param"] in its main
    parameter, and the entry's other tensors themselves, not copies of
    them, as its optimizer state, key by key; a parameter whose name the
    state dict does not have keeps its main parameter and gets the optimizer
    state it had, the empty one if it had none; and a tensor that is no main
    parameter is unchanged. *)
Theorem fsdp_restore (pg_buffer_params : FsdpBuffer -> list tensor_id)
    (self : DistOpt.t)
    (state_dict : list (state_key_t * list (string * tensor_id)))
    (store : Store)
    (Hpath : DistOpt.with_megatron_fsdp_code_path self = true)
    (Hwf : fsdp_wf pg_buffer_params self state_dict store) :
  exists store' optimizer',
    load_parameter_state_from_fs_model_space pg_buffer_params self state_dict
                                             store
    = Ok (store', optimizer')
    /\ (forall entry param_name main_param,
          entry ∈ fsdp_entries pg_buffer_params self ->
          fsdp_main_param entry = Some (param_name, main_param) ->
          (exists restored,
             Dict.get (Optimizer.state optimizer') main_param = Some restored
             /\ restored_optim_state state_dict param_name
                  (optim_state_of self main_param) restored)
          /\ match Dict.get state_dict (NameKey param_name) with
             | Some src_tensors =>
                 exists fp32_param,
                   Dict.get src_tensors "fp32_param" = Some fp32_param
                   /\ values (tensor_of store' main_param)
                      = values (tensor_of store fp32_param)
             | None => tensor_of store' main_param = tensor_of store main_param
             end)
    /\ (forall t, t ∉ fsdp_main_params pg_buffer_params self ->
          tensor_of store' t = tensor_of store t).
Proof.
  pose proof (fsdp_copies_ok _ _ _ _ Hwf) as Hok.
  pose proof (fsdp_copies_sublist state_dict (fsdp_entries pg_buffer_params self))
    as Hsub.
  destruct Hwf as [Hnames Hsource Hnd].
  assert (Hentries : forall entry,
            entry ∈ fsdp_entries pg_buffer_params self ->
            exists param_name main_param,
              fsdp_main_param entry = Some (param_name, main_param)
              /\ forall src_tensors,
                   Dict.get state_dict (NameKey param_name) = Some src_tensors ->
                   exists fp32_param,
                     Dict.get src_tensors "fp32_param" = Some fp32_param).
  { intros entry Hentry. destruct (Hnames entry Hentry) as (name & main & Hmain).
    exists name, main. split; [done|]. intros src_tensors Hsd.
    destruct (Hsource entry name main src_tensors Hentry Hmain Hsd)
      as (fp32 & Hfp32 & _). by exists fp32. }
  destruct (performs_foldM (fsdp_store_step state_dict)
              (fsdp_copies state_dict) (fsdp_entries pg_buffer_params self))
    with (store := store) as (store' & Hstore & Hvalues & Hframe); [|done|].
  { intros entry Hentry.
    destruct (Hentries entry Hentry) as (name & main & Hmain & Hsrc).
    by eapply fsdp_store_step_performs. }
  destruct (fsdp_optimizer_loop state_dict (fsdp_entries pg_buffer_params self)
              (DistOpt.optimizer self) Hnd Hentries)
    as (optimizer' & Hopt & Hrestored & _).
  exists store', optimizer'. split.
  { unfold load_parameter_state_from_fs_model_space. rewrite Hpath.
    rewrite (fsdp_entries_loop (load_fsdp_entry state_dict)).
    by apply load_fsdp_loop. }
  split.
  - intros entry name main Hentry Hmain.
    split; [by apply (Hrestored entry)|].
    destruct (Dict.get state_dict (NameKey name)) as [src_tensors|] eqn:Hsd.
    + destruct (Hsource entry name main src_tensors Hentry Hmain Hsd)
        as (fp32 & Hfp32 & _).
      exists fp32. split; [done|]. apply Hvalues.
      apply list_elem_of_bind. exists entry. split; [|done].
      unfold fsdp_copies. rewrite Hmain, Hsd, Hfp32. apply list_elem_of_here.
    + apply Hframe. intros Hin.
      apply list_elem_of_fmap in Hin as ([d s] & -> & Hin).
      apply list_elem_of_bind in Hin as (entry' & Hcopy & Hentry').
      apply fsdp_copies_main in Hcopy as (name' & src' & Hmain' & Hsd' & _).
      simpl in Hmain.
      apply list_elem_of_lookup in Hentry as [i Hi].
      apply list_elem_of_lookup in Hentry' as [j Hj].
      assert (i = j) as <-.
      { eapply (omap_NoDup_index _ _ i j entry entry' d Hnd Hi Hj).
        - by rewrite Hmain.
        - by rewrite Hmain'. }
      rewrite Hi in Hj. injection Hj as <-.
      rewrite Hmain in Hmain'. injection Hmain' as <-. congruence.
  - intros t Ht. apply Hframe. intros Hin. apply Ht.
    eapply elem_of_sublist; [exact Hin|exact Hsub].
Qed.

Lemma fsdp_restore_checkpoint_wf :
  fsdp_wf (fun _ => [1%nat; 2%nat]) fsdp_restore_self fsdp_restore_checkpoint
          bucket_space_store.
Proof.
  split.
  - intros entry Hin.
    apply elem_of_cons in Hin as [->|Hin]; [by eexists _, _|].
    apply list_elem_of_singleton in Hin as ->. by eexists _, _.
  - intros entry name main src_tensors Hin Hmain Hsd.
    apply elem_of_cons in Hin as [->|Hin].
    + injection Hmain as <- <-. injection Hsd as <-.
      exists 20%nat. split_and!; [done|done|right; by_decide].
    + apply list_elem_of_singleton in Hin as ->.
      injection Hmain as <- <-. discriminate Hsd.
  - by_decide.
Defined.

Lemma fsdp_restore_witness :
  exists store' optimizer',
    load_parameter_state_from_fs_model_space (fun _ => [1%nat; 2%nat])
      fsdp_restore_self fsdp_restore_checkpoint bucket_space_store
    = Ok (store', optimizer')
    /\ values (tensor_of store' 10%nat) = [1; 2]
    /\ (exists restored,
          Dict.get (Optimizer.state optimizer') 10%nat = Some restored
          /\ Dict.get restored "exp_avg" = Some 21%nat
          /\ Dict.get restored "exp_avg_sq" = Some 22%nat
          /\ Dict.get restored "fp32_param" = None)
    /\ Dict.get (Optimizer.state optimizer') 13%nat = Some []
    /\ tensor_of store' 13%nat = tensor_of bucket_space_store 13%nat.
Proof.
  destruct (fsdp_restore (fun _ => [1%nat; 2%nat]) fsdp_restore_self
              fsdp_restore_checkpoint bucket_space_store eq_refl
              fsdp_restore_checkpoint_wf)
    as (store' & optimizer' & Hrun & Hentries & _).
  exists store', optimizer'. split; [exact Hrun|].
  destruct (Hentries (fsdp_restore_buffer, 1%nat) "decoder.weight" 10%nat)
    as [(restored & Hstate & Hrestored) Hvalues];
    [apply list_elem_of_here|reflexivity|].
  destruct (Hentries (fsdp_restore_buffer, 2%nat) "decoder.bias" 13%nat)
    as [(restored' & Hstate' & Hrestored') Hkept];
    [apply list_elem_of_further, list_elem_of_here|reflexivity|].
  unfold restored_optim_state in Hrestored, Hrestored'.
  change (Dict.get fsdp_restore_checkpoint (NameKey "decoder.weight"))
    with (Some [("fp32_param", 20%nat); ("exp_avg", 21%nat);
                ("exp_avg_sq", 22%nat)]) in Hrestored, Hvalues.
  change (Dict.get fsdp_restore_checkpoint (NameKey "decoder.bias"))
    with (@None (list (string * tensor_id))) in Hrestored', Hkept.
  split_and!.
  - destruct Hvalues as (fp32 & [= <-] & ->). reflexivity.
  - exists restored. split; [exact Hstate|]. split_and!.
    + rewrite (Hrestored "exp_avg"). reflexivity.
    + rewrite (Hrestored "exp_avg_sq"). reflexivity.
    + rewrite (Hrestored "fp32_param"). reflexivity.
  - rewrite Hstate', Hrestored'. reflexivity.
  - exact Hkept.
Defined.
